(* ===== verification/_CoqProject ===== *)
-Q . S2P
Prelude.v
Host.v
Store.v
Typing.v
Finders.v
Anchor.v
Memory.v
Measure.v
Repeater.v
Controls.v
Main.v
Pipeline.v
Seeding.v
Legacy.v
Snapshot.v
Panel.v
Layout.v
