(* ===== verification/Prelude.v ===== *)
(** * Center Anchor Point + Add Repeater: a verification development

    The program is an After Effects ExtendScript panel, in two versions:
    [src/CenterAP_AddRepeater_v2.0.jsx] (the current one, modelled here)
    and [src/CenterAP_AddRepeater_v1.9.jsx] (its predecessor).  For the
    single selected shape layer it

    - moves the layer's anchor point to the centre of the layer's source
      rectangle and moves the position by the same amount, so that nothing
      jumps on screen ([setAnchorAndCompensate],
      [centerLayerAnchorToContents]);
    - appends a Repeater to the layer's contents ([addRepeater]) and ties
      the Repeater's transform anchor to the layer's anchor point with the
      expression [thisLayer.transform.anchorPoint] ([bindRepeater]);
    - measures the shape (size without stroke, largest stroke width)
      ([measureShape]) and writes preset values on the Repeater
      ([applyRepeaterPreset]);
    - creates or reuses seven Slider/Point effect controls on the layer,
      seeds them from the Repeater and drives the Repeater from them with
      expressions ([linkRepeaterToLayerControls]);
    - saves the anchor point into a Point Control effect named
      ["Anchor Point Restore (don't change)"] ([saveAnchorToMemory]) that
      the "Reset Anchor" button reads back ([getSavedAnchor],
      [onResetAnchor]).

    The components interact only through the host's property tree: every
    function receives a layer (a node of the tree), looks sub-properties up
    by match name, by display name and by value type, and writes values,
    expressions and names back.  The tree is therefore modelled once, as a
    shared mutable store, and every component is a computation over it.

    ** Files and what they model

    - [Prelude] (this file): the state-and-exception monad [ST] in which
      every handler is written (a JavaScript [throw] is [mthrow]; the store
      at the throw is kept, as the host does not roll back), the JavaScript
      helpers shared by all components ([a || b] on lookups, ASCII case
      folding), the hint databases [ae] and [ae_rw], generic list lemmas.
    - [Host]: the host document model (spec-modelled: it is After Effects,
      not code of the repository).  Properties live in a store
      [gmap N prop]; a [prop] carries the fields the script reads and
      writes (matchName, name, propertyValueType, value, expression,
      expressionEnabled, canSetExpression, numKeys, comment, children).
      [property] by name, [property_at] by index, [setValue],
      [setExpression], [setName], [addProperty] (which allocates a fresh
      subtree from the host's template, parent first, at [next_id]) are the
      host calls; the layer's [sourceRectAtTime] is a class [Renderer] over
      the extracted content tree, so that every theorem holds for any
      renderer.  Equivalences coarser than equality ([same_skel]: same
      names and children; [host_eq]: values up to [Qeq]) with their
      [Proper] instances.
    - [Store]: the store invariant [wf] (every child allocated after its
      parent, and present), the combinators [preserves] and [steps] that
      carry an invariant or a relation through a handler by following its
      binds, and the relation [frame] (names, types, expression capability
      and key counts of every property kept, children lists only extended)
      of the repeater and control phases.  The classes [HostInv] and
      [AlertInv] state what an invariant must survive (each host call, an
      appended alert); [wf], [log_grows] (the alert log only grows) and
      their conjunctions are instances, so one generic lemma per handler
      carries every invariant.
    - [Typing]: the invariant [typed] (every property holds a value of its
      propertyValueType), an instance of [HostInv].
    - [Finders]: the Property Resolver ([findOneD], [findVectorPosition],
      [findRotation], [findCopies], the Repeater transform lookup and the
      inline lookups of [bindRepeater] and [linkRepeaterToLayerControls])
      with the JavaScript regular expressions of the source as a small
      regex type and a matcher implementing [RegExp.prototype.test] with
      the [i] flag, proved against a declarative language [in_lang].
    - [Anchor]: the Pivot Compensator ([setAnchorAndCompensate],
      [centerLayerAnchorToContents]).
    - [Memory]: the Anchor Memory ([ensureAPMemoryEffect],
      [getAPMemoryPointProp], [saveAnchorToMemory], [getSavedAnchor]) and
      JavaScript's [Number.prototype.toFixed] used for the layer comment.
    - [Measure]: the Geometry Measurer ([measureShape], its [walk] and
      [bboxFromShape]), with JavaScript's [null] and [NaN] accumulators.
    - [Repeater]: the Generator Binder ([addRepeater], [bindRepeater]) and
      the Preset Parameter Engine ([applyRepeaterPreset]).
    - [Controls]: the Control Exposer ([ensureSlider], [ensurePoint],
      [linkRepeaterToLayerControls]).
    - [Main]: the entry points [main] ("Do It"), [onUpdateAnchor],
      [onResetAnchor], [onAbout], the Do It button handler, and the
      selection guards.
    - [Pipeline]: the composition of the six stages of [main] on a
      selection where each of them succeeds, evaluated symbolically on the
      nodes [addRepeater] allocates.
    - [Seeding]: the control phase evaluated: what the expressions
      [effect(name)(kind)] installed by [linkRepeaterToLayerControls] read
      ([effect_value], a model of the host's expression lookup), with the
      relation [kept] (every value unchanged) that carries the readings
      through the later steps.
    - [Legacy]: where [src/CenterAP_AddRepeater_v1.9.jsx] differs from
      v2.0: its rotation lookup, [measureShapeSize] (first rectangle or
      ellipse size, depth first, with the bounded [scanGroup]), its
      [applyRepeaterPreset] without stroke padding, and its three handlers
      (no control phase, snapshot effect ["AP Memory"]); the rest of v1.9
      is the v2.0 text up to layout and reuses the other files'
      definitions under [_v19] names (the memory functions with v1.9's
      effect name).
    - [Snapshot]: the spec's abstract Anchor Memory (a pivot and an
      optional snapshot) and the session of "Update Anchor", "Reset
      Anchor" and re-anchorings on one layer, related by a simulation
      proved once for the buttons' shared body and instantiated with
      each version's buttons and snapshot effect name.
    - [Panel]: the controls of [buildUI] that hold state (the preset
      list and its selection, v2.0's debug check box and the global
      [gDebug] it sets), the four buttons wired to the handlers, in both
      versions, and a session of the panel as a step relation
      [session_step] on the controls and the store: clicks, picks, ticks,
      selection changes and hand edits.
    - [Layout]: ScriptUI's widgets as a store of JavaScript objects
      (spec-modelled: ScriptUI is the host's toolkit), [buildUI] of both
      versions as the widget tree it builds with its closures, the
      bootstrap (docked panel or palette window), the host's dispatch of
      clicks and resizes and the user's picks and ticks ([ui_event]),
      related to [Panel]'s record by an abstraction function and to
      [Panel]'s actions by the label of the button clicked.

    ** What is proved

    - Pivot Compensator: visual neutrality of [setAnchorAndCompensate]
      (position minus anchor point unchanged, nothing else written); its
      errors before any write; the half-done write when the position
      refuses the value (the two writes are not one unit, against the
      spec); idempotence of re-centring up to [Qeq] on contents without
      expressions (with the Repeater bound by "Do It" it is not
      idempotent, see [Host.Renderer]); the empty-contents error.
    - Anchor Memory: save then load returns the saved anchor point.
    - Property Resolver: [findOneD] returns a [OneD] child exactly when
      there is one; [findVectorPosition] exactly characterised (the
      canonical child when there is one, else the first 2D child whose
      name contains "position"); the start- and end-opacity lookups
      coincide on a Spanish host.
    - Geometry Measurer: [bboxFromShape] is the bounding box of the
      vertices within the sentinels [1e9]; outside them the sentinel leaks
      into the width (a bug); the stroke width of [measureShape] is the
      largest absolute stroke width of the tree, independently of the
      sizes found.
    - Generator Binder and Preset Parameter Engine: [bindRepeater] drives
      the Repeater anchor by [thisLayer.transform.anchorPoint] (or copies
      the value) and clears the position's expression; the values each
      preset writes, for every measurement, each write independent of the
      others (a refinement of the spec's preset table).
    - Control Exposer: the binding graph after [linkRepeaterToLayerControls]
      (each Repeater property driven by the expression of the last
      [setExpr] naming it, the seven controls present), and its
      consequence on a Spanish host (both opacity controls compete for one
      property; "End Opacity" wins); a second link reuses the seven
      controls and leaves the bindings as they were; on a layer without
      the controls, every driven Repeater property keeps its value and
      reads that same value from its new control ([Seeding]), so binding
      changes nothing on screen.
    - Entry points: the selection guards, in each of their three cases,
      alert their message and change nothing; "Reset Anchor" without a
      snapshot alerts and changes nothing; "Update Anchor", any
      re-anchoring, then "Reset Anchor" restores the anchor point and the
      position; and every sequence of the two snapshot buttons and
      re-anchorings ends in the state the spec's Anchor Memory machine
      reaches by the same actions ([Snapshot.memory_session_refines], and
      [Snapshot.memory_session_refines_v19] for v1.9's buttons): the
      layer never moves on screen, Update saves exactly the pivot
      (creating the snapshot effect the first time), Reset restores
      exactly the last saved pivot or changes nothing.
    - v1.9: its preset table and the equivalence of its
      [measureShapeSize] with v2.0's [measureShape] on layers without
      freeform paths (equal sizes when a rectangle or ellipse is found;
      otherwise both use the source rectangle, v1.9 with stroke extents).
    - Liveness of Do It ([Pipeline.main_completes]): on a selection whose
      layer has contents, a transform, an effects group with a 2D snapshot
      point, "Do It" completes, raises no alert but the preset's debug
      alert (exactly when the debug flag is set), and leaves the snapshot
      equal to the new anchor point.
    - Sessions ([Panel.session_preset_listed]): the preset every Do It of
      a session passes to [main] is one of the four listed items.
    - The ScriptUI panel ([Layout]): every run of host events on the
      widgets either script builds (clicks and resizes on any widget,
      picks, ticks, selections and edits in After Effects) leaves, through
      the abstraction, the state [Panel]'s model reaches when each click
      is the press of the button its label names, and that run is a
      session of [Panel] ([Layout.script_v20_refines_panel],
      [Layout.script_v19_refines_panel]).

    ** Numbers, fuel and bounds

    JavaScript numbers are IEEE doubles; the model uses exact rationals [Q]
    ([Stdlib.QArith]) and states equalities of coordinates up to [Qeq]
    ([==]).  Rounding is therefore not modelled: the theorems say what the
    code computes in exact arithmetic.  The recursive [walk] of
    [measureShape] and the tree extraction [tree_of] take fuel; both are
    given [next_id], the bound on ids, which is enough on a well-formed
    store because every child's id is larger than its parent's
    ([Store.tree_of_total], [Measure.walk_fuel_stable]); so is v1.9's
    [scanGroup] ([Legacy.scanGroup_fuel_stable]).  [wf] is checked by
    evaluation ([Store.wf_dec]) on the sample stores and carried through
    the handlers by [Store.preserves].

    ** Not modelled

    The About dialog's title is window chrome (the About text is modelled
    as an alert); ScriptUI's layout manager (how [layout.layout] and
    [layout.resize] place the widgets) and the screen are the host's, so
    those calls are only recorded, in order; the undo groups are host
    bookkeeping that leaves the store as the handler left it; time and
    keyframe interpolation are reduced to a property's current value and
    its key count.  The debug alert of the v2.0 preset is modelled as an
    appended alert.  Of v1.9 everything else is modelled, in [Legacy],
    [Snapshot], [Panel], [Layout] and through the shared definitions. *)

From stdpp Require Export base gmap strings list pretty.
From Stdlib Require Export QArith Qabs Qminmax Qround Lqa Ascii.

Declare Scope ae_scope.
Delimit Scope ae_scope with ae.
Open Scope ae_scope.

(** ** The state-and-exception monad of the handlers *)

(** The outcome of a host computation: a value and the new state, or a
    thrown message and the state as it stood when the exception was
    thrown (the host keeps every write made before a [throw]). *)
Inductive res (S A : Type) : Type :=
| Ok (a : A) (s : S)
| Exn (e : string) (s : S).
Arguments Ok {S A} a s.
Arguments Exn {S A} e s.

Definition ST (S A : Type) : Type := S → res S A.

#[export] Instance ST_ret S : MRet (ST S) := λ A a s, Ok a s.
#[export] Instance ST_bind S : MBind (ST S) := λ A B k m s,
  match m s with Ok a s' => k a s' | Exn e s' => Exn e s' end.
#[export] Instance ST_throw S : MThrow string (ST S) := λ A e s, Exn e s.

Definition get {S} : ST S S := λ s, Ok s s.
Definition put {S} (s : S) : ST S unit := λ _, Ok tt s.
Definition modify {S} (f : S → S) : ST S unit := λ s, Ok tt (f s).

(** [try { m } catch (e) { h(e) }]: the handler starts from the state left
    by the throw. *)
Definition catch {S A} (m : ST S A) (h : string → ST S A) : ST S A := λ s,
  match m s with Ok a s' => Ok a s' | Exn e s' => h e s' end.

(** The state a computation ends in, normally or by an exception. *)
Definition res_state {S A} (r : res S A) : S :=
  match r with Ok _ s => s | Exn _ s => s end.

Definition is_ok {S A} (r : res S A) : bool :=
  match r with Ok _ _ => true | Exn _ _ => false end.

(** ** JavaScript helpers *)

(** [a || b] on two lookups that return a property or [null]. *)
Definition or_else {A} (a b : option A) : option A :=
  match a with Some x => Some x | None => b end.
Infix "|||" := or_else (at level 50, left associativity) : ae_scope.

(** The newline and double-quote characters of JavaScript string literals. *)
Definition nl : string := String (Ascii.ascii_of_nat 10) EmptyString.
Definition dq : string := String (Ascii.ascii_of_nat 34) EmptyString.

(** JavaScript's [a < b] on two numbers. *)
Definition Qltb (a b : Q) : bool := negb (Qle_bool b a).

(** ASCII case folding, as [String.prototype.toLowerCase] and the [i]
    flag of a regular expression do on ASCII letters. *)
Definition lower_ascii (c : ascii) : ascii :=
  let n := Ascii.nat_of_ascii c in
  if (65 <=? n)%nat && (n <=? 90)%nat then Ascii.ascii_of_nat (n + 32) else c.

Fixpoint lower (s : string) : string :=
  match s with
  | EmptyString => EmptyString
  | String c s' => String (lower_ascii c) (lower s')
  end.

(** ** Proof automation shared by the components *)

Create HintDb ae.
Create Rewrite HintDb ae_rw.

(** Unfold the monad so that [cbn] runs a handler on a symbolic state. *)
Ltac st_simpl :=
  unfold mbind, mret, mthrow, ST_bind, ST_ret, ST_throw,
    get, put, modify, catch in *; cbn in *.

Section monad_laws.
Context {S : Type}.

Lemma bind_ok {A B} (m : ST S A) (k : A → ST S B) s a s' :
  m s = Ok a s' → (m ≫= k) s = k a s'.
Proof. intros H. st_simpl. by rewrite H. Qed.

Lemma bind_exn {A B} (m : ST S A) (k : A → ST S B) s e s' :
  m s = Exn e s' → (m ≫= k) s = Exn e s'.
Proof. intros H. st_simpl. by rewrite H. Qed.

Lemma catch_ok {A} (m : ST S A) h s a s' :
  m s = Ok a s' → catch m h s = Ok a s'.
Proof. intros H. st_simpl. by rewrite H. Qed.

Lemma catch_exn {A} (m : ST S A) h s e s' :
  m s = Exn e s' → catch m h s = h e s'.
Proof. intros H. st_simpl. by rewrite H. Qed.
End monad_laws.

Lemma or_else_Some {A} (a b : option A) x : a = Some x → (a ||| b) = Some x.
Proof. by intros ->. Qed.

Lemma or_else_None {A} (a b : option A) : a = None → (a ||| b) = b.
Proof. by intros ->. Qed.

#[export] Hint Resolve bind_ok bind_exn catch_ok catch_exn : ae.

(** ** Rational coordinates *)

Lemma Qplus_sub_cancel (p a b : Q) : (p + (b - a)) - b == p - a.
Proof. lra. Qed.

Lemma Qplus_sub_self (p a : Q) : p + (a - a) == p.
Proof. lra. Qed.

(** ** Lists *)

Lemma fold_left_ext_in {A B} (f g : A → B → A) (l : list B) (a : A) :
  (∀ acc x, x ∈ l → f acc x = g acc x) → fold_left f l a = fold_left g l a.
Proof.
  revert a. induction l as [|x l IH]; intros a H; simpl; [done|].
  rewrite H by left. apply IH. intros acc y Hy. apply H. by right.
Qed.

Lemma bind_get {S A} (k : S → ST S A) s : (get ≫= k) s = k s s.
Proof. done. Qed.
