(* ===== verification/Host.v ===== *)
(** * The host document model

    After Effects' object model as the script sees it: a store of
    properties indexed by [N], each with the fields the script reads or
    writes, and the host calls the script makes ([property], [setValue],
    the [expression] and [name] setters, [addProperty],
    [sourceRectAtTime]).  This is the host, not code of the repository: it
    is modelled from the spec (section 6) and from the documented
    behaviour of the scripting API, and every theorem about the script is
    proved against it.  The well-formedness invariant [wf] (children are
    allocated after their parent and exist) is preserved by every host
    call; it makes the content tree finite, so that [tree_of] with the
    fuel [next_id] always succeeds. *)

From S2P Require Import Prelude.

#[local] Set Warnings "-register-all".

(** [PropertyValueType], with the constructors of the scripting API. *)
Inductive pvt :=
| NO_VALUE | ThreeD_SPATIAL | ThreeD | TwoD_SPATIAL | TwoD | OneD | COLOR
| CUSTOM_VALUE | MARKER | LAYER_INDEX | MASK_INDEX | SHAPE | TEXT_DOCUMENT.

#[export] Instance pvt_eq_dec : EqDecision pvt.
Proof. solve_decision. Defined.

(** A property's value: a number, an array of numbers (points, sizes,
    colours), or a path ([Shape] object, its [vertices]). *)
Inductive value :=
| VNone
| VNum (q : Q)
| VArr (xs : list Q)
| VShape (vertices : list (Q * Q)).

Record prop := mkProp {
  matchName : string;
  name : string;
  pvtype : pvt;
  pval : value;
  expression : string;
  expressionEnabled : bool;
  canSetExpression : bool;
  numKeys : nat;
  comment : string;
  kids : list N
}.

(** [app.project.activeItem]: a composition with its selected layers, or
    another kind of item. *)
Inductive item :=
| CompItem (selectedLayers : list N)
| OtherItem.

Record host := mkHost {
  props : gmap N prop;
  next_id : N;
  activeItem : option item;
  alerts : list string
}.

(** ** Record updates *)

Definition with_value (v : value) (q : prop) : prop :=
  mkProp (matchName q) (name q) (pvtype q) v (expression q)
    (expressionEnabled q) (canSetExpression q) (numKeys q) (comment q) (kids q).
Definition with_expression (e : string) (en : bool) (q : prop) : prop :=
  mkProp (matchName q) (name q) (pvtype q) (pval q) e en
    (canSetExpression q) (numKeys q) (comment q) (kids q).
Definition with_name (s : string) (q : prop) : prop :=
  mkProp (matchName q) s (pvtype q) (pval q) (expression q)
    (expressionEnabled q) (canSetExpression q) (numKeys q) (comment q) (kids q).
Definition with_comment (s : string) (q : prop) : prop :=
  mkProp (matchName q) (name q) (pvtype q) (pval q) (expression q)
    (expressionEnabled q) (canSetExpression q) (numKeys q) s (kids q).
Definition with_kids (ks : list N) (q : prop) : prop :=
  mkProp (matchName q) (name q) (pvtype q) (pval q) (expression q)
    (expressionEnabled q) (canSetExpression q) (numKeys q) (comment q) ks.

Definition upd_prop (p : N) (f : prop → prop) (h : host) : host :=
  mkHost (alter f p (props h)) (next_id h) (activeItem h) (alerts h).
Definition ins_prop (p : N) (q : prop) (h : host) : host :=
  mkHost (<[p := q]> (props h)) (next_id h) (activeItem h) (alerts h).
Definition bump (h : host) : host :=
  mkHost (props h) (N.succ (next_id h)) (activeItem h) (alerts h).
Definition add_alert (s : string) (h : host) : host :=
  mkHost (props h) (next_id h) (activeItem h) (alerts h ++ [s]).

(** ** Reading the tree *)

Definition key_matches (key : string) (q : prop) : bool :=
  bool_decide (matchName q = key) || bool_decide (name q = key).

(** [group.property("key")]: the first child whose match name or display
    name is [key], or [null]. *)
Definition property (h : host) (parent : N) (key : string) : option N :=
  q ← props h !! parent;
  find (λ k, match props h !! k with
             | Some c => key_matches key c
             | None => false
             end) (kids q).

(** [group.property(i)], 1-based, and [group.numProperties]. *)
Definition property_at (h : host) (parent : N) (i : nat) : option N :=
  q ← props h !! parent; kids q !! (i - 1)%nat.

Definition numProperties (h : host) (p : N) : nat :=
  match props h !! p with Some q => length (kids q) | None => 0%nat end.

Definition value_of (h : host) (p : N) : option value := pval <$> props h !! p.

(** The first child satisfying [ok], in index order: the shape of the
    script's [for (i = 1; i <= numProperties; i++)] scans. *)
Definition find_kid (h : host) (parent : N) (ok : prop → bool) : option N :=
  q ← props h !! parent;
  find (λ k, match props h !! k with Some c => ok c | None => false end) (kids q).

(** ** Host calls that write *)

Definition need (p : N) : ST host prop := λ h,
  match props h !! p with
  | Some q => Ok q h
  | None => Exn "Object is invalid" h
  end.

(** The values a property of each type accepts from [setValue]. *)
Definition value_fits (t : pvt) (v : value) : bool :=
  match t, v with
  | OneD, VNum _ => true
  | (TwoD | TwoD_SPATIAL), VArr xs => bool_decide (length xs = 2%nat)
  | (ThreeD | ThreeD_SPATIAL), VArr xs =>
      bool_decide (length xs = 2%nat) || bool_decide (length xs = 3%nat)
  | COLOR, VArr xs => bool_decide (length xs = 4%nat)
  | SHAPE, VShape _ => true
  | _, _ => false
  end.

(** [prop.setValue(v)]: refused on a keyframed property and on a value of
    the wrong type. *)
Definition setValue (p : N) (v : value) : ST host unit :=
  q ← need p;
  if bool_decide (numKeys q = 0%nat) && value_fits (pvtype q) v
  then modify (upd_prop p (with_value v))
  else mthrow "setValue: the property cannot take this value".

(** [prop.expression = e]: a non-empty expression is enabled, the empty
    one disables the property's expression. *)
Definition setExpression (p : N) (e : string) : ST host unit :=
  q ← need p;
  if canSetExpression q
  then modify (upd_prop p (with_expression e (negb (bool_decide (e = "")))))
  else mthrow "expression: the property cannot have an expression".

(** [prop.expressionEnabled = b]. *)
Definition setExpressionEnabled (p : N) (b : bool) : ST host unit :=
  q ← need p;
  if canSetExpression q && (negb b || negb (bool_decide (expression q = "")))
  then modify (upd_prop p (with_expression (expression q) b))
  else mthrow "expressionEnabled: no valid expression".

Definition setName (p : N) (s : string) : ST host unit :=
  _ ← need p; modify (upd_prop p (with_name s)).

Definition setComment (p : N) (s : string) : ST host unit :=
  _ ← need p; modify (upd_prop p (with_comment s)).

(** ** [addProperty]: the host's templates *)

Inductive tmpl :=
| Tmpl (mn nm : string) (t : pvt) (v : value) (cse : bool) (ks : list tmpl).

Definition leaf (mn nm : string) (t : pvt) (v : value) : tmpl := Tmpl mn nm t v true [].

(** The Repeater as After Effects creates it. *)
Definition repeater_tmpl : tmpl :=
  Tmpl "ADBE Vector Filter - Repeater" "Repeater 1" NO_VALUE VNone false [
    leaf "ADBE Vector Repeater Copies" "Copies" OneD (VNum 3);
    leaf "ADBE Vector Repeater Offset" "Offset" OneD (VNum 0);
    leaf "ADBE Vector Repeater Order" "Composite" OneD (VNum 1);
    Tmpl "ADBE Vector Repeater Transform" "Transform" NO_VALUE VNone false [
      leaf "ADBE Vector Repeater Anchor" "Anchor Point" TwoD_SPATIAL (VArr [0; 0]);
      leaf "ADBE Vector Repeater Position" "Position" TwoD_SPATIAL (VArr [100; 0]);
      leaf "ADBE Vector Repeater Scale" "Scale" TwoD (VArr [100; 100]);
      leaf "ADBE Vector Repeater Rotation" "Rotation" OneD (VNum 0);
      leaf "ADBE Vector Repeater Opacity 1" "Start Opacity" OneD (VNum 100);
      leaf "ADBE Vector Repeater Opacity 2" "End Opacity" OneD (VNum 100) ] ].

Definition slider_tmpl : tmpl :=
  Tmpl "ADBE Slider Control" "Slider Control" NO_VALUE VNone false [
    leaf "ADBE Slider Control-0001" "Slider" OneD (VNum 0) ].

Definition point_tmpl : tmpl :=
  Tmpl "ADBE Point Control" "Point Control" NO_VALUE VNone false [
    leaf "ADBE Point Control-0001" "Point" TwoD_SPATIAL (VArr [0; 0]) ].

Definition template (mn : string) : option tmpl :=
  if bool_decide (mn = "ADBE Vector Filter - Repeater") then Some repeater_tmpl
  else if bool_decide (mn = "ADBE Slider Control") then Some slider_tmpl
  else if bool_decide (mn = "ADBE Point Control") then Some point_tmpl
  else None.

(** Allocate a template's subtree at fresh ids, parent before children. *)
Fixpoint alloc (t : tmpl) (h : host) {struct t} : N * host :=
  let '(Tmpl mn nm ty v cse ks) := t in
  let me := next_id h in
  let '(ids, h') :=
    (fix go (ks : list tmpl) (h : host) : list N * host :=
       match ks with
       | [] => ([], h)
       | k :: ks' =>
           let '(i, h1) := alloc k h in
           let '(rest, h2) := go ks' h1 in (i :: rest, h2)
       end) ks (bump h) in
  (me, ins_prop me (mkProp mn nm ty v "" false cse 0 "" ids) h').

(** [group.addProperty(matchName)]: the new property is appended to the
    group's children; [null] when the host has no such property type. *)
Definition addProperty (parent : N) (mn : string) : ST host (option N) :=
  q ← need parent;
  match template mn with
  | None => mret None
  | Some t =>
      h ← get;
      let (i, h1) := alloc t h in
      put (upd_prop parent (with_kids (kids q ++ [i])) h1);;
      mret (Some i)
  end.

(** ** The rendered bounds: [layer.sourceRectAtTime(t, includeExtents)] *)

Inductive tree := Node (q : prop) (ts : list tree).

(** The subtree rooted at [p], read from the store with [fuel] levels. *)
Fixpoint tree_of (fuel : nat) (h : host) (p : N) : option tree :=
  match fuel with
  | O => None
  | S f => q ← props h !! p; ts ← mapM (tree_of f h) (kids q); Some (Node q ts)
  end.

Record rect := mkRect { rect_top : Q; rect_left : Q; rect_width : Q; rect_height : Q }.

(** The host's renderer: the layer-space bounds of a shape layer's
    contents at the current time, with or without stroke extents, as a
    function of the stored Contents subtree.  The script's theorems hold
    for every renderer.  After Effects also evaluates the expressions of
    the Contents subtree, and an expression may read the layer's own
    transform ([bindRepeater] writes [thisLayer.transform.anchorPoint]
    into the Repeater's anchor); the model is faithful to the host only
    where no property of the subtree has an enabled expression, and a
    theorem whose conclusion depends on the bounds staying put when the
    transform moves ([Anchor.centerLayerAnchorToContents_idempotent])
    assumes exactly that. *)
Class Renderer := source_rect : option tree → bool → rect.

Definition contents_tree (h : host) (layer : N) : option tree :=
  c ← property h layer "ADBE Root Vectors Group";
  tree_of (N.to_nat (next_id h)) h c.

Definition sourceRectAtTime `{Renderer} (h : host) (layer : N) (includeExtents : bool) : rect :=
  source_rect (contents_tree h layer) includeExtents.

(** ** Well-formedness of the store *)

Definition wf (h : host) : Prop :=
  ∀ p q, props h !! p = Some q →
    (p < next_id h)%N ∧ Forall (λ k, (p < k)%N ∧ is_Some (props h !! k)) (kids q).

(** ** Stores equal up to [Qeq] on the values *)

Definition qpt_eq (a b : Q * Q) : Prop := a.1 == b.1 ∧ a.2 == b.2.

#[export] Instance qpt_eq_equiv : Equivalence qpt_eq.
Proof.
  split.
  - intros a. split; reflexivity.
  - intros a b [H1 H2]. split; by symmetry.
  - intros a b c [H1 H2] [H3 H4]. split; by etrans.
Qed.

Definition val_eq (v w : value) : Prop :=
  match v, w with
  | VNone, VNone => True
  | VNum a, VNum b => a == b
  | VArr xs, VArr ys => Forall2 Qeq xs ys
  | VShape xs, VShape ys => Forall2 qpt_eq xs ys
  | _, _ => False
  end.

Definition prop_eq (q r : prop) : Prop :=
  with_value VNone q = with_value VNone r ∧ val_eq (pval q) (pval r).

Definition host_eq (h1 h2 : host) : Prop :=
  (∀ k, option_Forall2 prop_eq (props h1 !! k) (props h2 !! k)) ∧
  next_id h1 = next_id h2 ∧ activeItem h1 = activeItem h2 ∧ alerts h1 = alerts h2.

Infix "≡ₕ" := host_eq (at level 70) : ae_scope.

#[export] Instance val_eq_equiv : Equivalence val_eq.
Proof.
  split.
  - intros [| | |]; simpl; done || reflexivity.
  - intros [| | |] [| | |]; simpl; try done; intros; by symmetry.
  - intros [| | |] [| | |] [| | |]; simpl; try done; intros; by etrans.
Qed.

#[export] Instance prop_eq_equiv : Equivalence prop_eq.
Proof.
  split.
  - intros q. split; reflexivity.
  - intros q r [H1 H2]. split; by symmetry.
  - intros q r s [H1 H2] [H3 H4]. split; by etrans.
Qed.

#[export] Instance host_eq_equiv : Equivalence host_eq.
Proof.
  split.
  - intros h. split_and!; [|done..]. intros k. reflexivity.
  - intros h1 h2 (H & ? & ? & ?). split_and!; [|done..]. intros k.
    specialize (H k). destruct (props h1 !! k), (props h2 !! k);
      inversion H; constructor; by symmetry.
  - intros h1 h2 h3 (H & ? & ? & ?) (H' & ? & ? & ?). split_and!; [|congruence..].
    intros k. specialize (H k). specialize (H' k).
    destruct (props h1 !! k), (props h2 !! k), (props h3 !! k);
      inversion H; inversion H'; constructor; by etrans.
Qed.

(** ** How the host calls act on the store *)

Lemma props_upd_prop p f h : props (upd_prop p f h) = alter f p (props h).
Proof. done. Qed.
Lemma props_ins_prop p q h : props (ins_prop p q h) = <[p := q]> (props h).
Proof. done. Qed.
Lemma next_id_upd_prop p f h : next_id (upd_prop p f h) = next_id h.
Proof. done. Qed.
#[export] Hint Rewrite props_upd_prop props_ins_prop next_id_upd_prop : ae_rw.

(** A value write: the only call whose success we need to spell out. *)
Definition settable (q : prop) (v : value) : bool :=
  bool_decide (numKeys q = 0%nat) && value_fits (pvtype q) v.

Lemma setValue_ok p v h q :
  props h !! p = Some q → settable q v = true →
  setValue p v h = Ok tt (upd_prop p (with_value v) h).
Proof.
  intros Hq Hs. unfold setValue, need, settable in *. st_simpl. rewrite Hq.
  by rewrite Hs.
Qed.

Lemma need_ok p h q : props h !! p = Some q → need p h = Ok q h.
Proof. intros Hq. unfold need. by rewrite Hq. Qed.

Lemma setExpression_ok p e h q :
  props h !! p = Some q → canSetExpression q = true →
  setExpression p e h = Ok tt (upd_prop p (with_expression e (negb (bool_decide (e = "")))) h).
Proof. intros Hq Hc. unfold setExpression, need. st_simpl. by rewrite Hq, Hc. Qed.

Lemma setExpression_set p e h q :
  props h !! p = Some q → canSetExpression q = true → e ≠ "" →
  setExpression p e h = Ok tt (upd_prop p (with_expression e true) h).
Proof. intros Hq Hc He. rewrite (setExpression_ok p e h q Hq Hc). by rewrite bool_decide_false. Qed.

Lemma setExpression_clear p h q :
  props h !! p = Some q → canSetExpression q = true →
  setExpression p "" h = Ok tt (upd_prop p (with_expression "" false) h).
Proof. intros Hq Hc. by rewrite (setExpression_ok p "" h q Hq Hc). Qed.

Lemma setValue_refused p v h q :
  props h !! p = Some q → settable q v = false →
  setValue p v h = Exn "setValue: the property cannot take this value" h.
Proof.
  intros Hq Hs. unfold setValue, need, settable in *. st_simpl. rewrite Hq.
  by rewrite Hs.
Qed.

(** The skeleton of a property: what lookups by name, match name, type and
    index read.  Writes of values, expressions and comments keep it. *)
Definition skel (q : prop) : string * string * pvt * list N :=
  (matchName q, name q, pvtype q, kids q).

Arguments skel : simpl never.

Definition keeps_skel (f : prop → prop) : Prop := ∀ q, skel (f q) = skel q.

Lemma with_value_skel v : keeps_skel (with_value v).
Proof. by intros q. Qed.
Lemma with_expression_skel e b : keeps_skel (with_expression e b).
Proof. by intros q. Qed.
Lemma with_comment_skel s : keeps_skel (with_comment s).
Proof. by intros q. Qed.
#[export] Hint Resolve with_value_skel with_expression_skel with_comment_skel : ae.

Lemma lookup_upd_skel p f h k :
  keeps_skel f → skel <$> props (upd_prop p f h) !! k = skel <$> props h !! k.
Proof.
  intros Hf. rewrite props_upd_prop, lookup_alter.
  destruct (decide (p = k)); subst; [|done].
  destruct (props h !! k); simpl; [by rewrite Hf|done].
Qed.

Lemma find_ext {A} (f g : A → bool) l : (∀ x, f x = g x) → find f l = find g l.
Proof. intros H. induction l as [|x l IH]; simpl; [done|]. by rewrite H, IH. Qed.

(** Two stores with the same skeletons: lookups cannot tell them apart. *)
Definition same_skel (h1 h2 : host) : Prop :=
  ∀ k, skel <$> props h1 !! k = skel <$> props h2 !! k.

#[export] Instance same_skel_equiv : Equivalence same_skel.
Proof.
  split; [by intros h k | intros h1 h2 H k; by rewrite H |
          intros h1 h2 h3 H H' k; by rewrite H, H'].
Qed.

Lemma same_skel_upd p f h : keeps_skel f → same_skel (upd_prop p f h) h.
Proof. intros Hf k. by apply lookup_upd_skel. Qed.

(** A test that reads only the skeleton gives the same answer. *)
Lemma same_skel_test h1 h2 (g : string * string * pvt * list N → bool) k :
  same_skel h1 h2 →
  match props h1 !! k with Some c => g (skel c) | None => false end =
  match props h2 !! k with Some c => g (skel c) | None => false end.
Proof.
  intros H. specialize (H k).
  destruct (props h1 !! k) as [c1|], (props h2 !! k) as [c2|];
    simpl in H; try discriminate; [|done].
  assert (Hs : skel c1 = skel c2) by congruence. by rewrite Hs.
Qed.

Lemma same_skel_kids h1 h2 k :
  same_skel h1 h2 → kids <$> props h1 !! k = kids <$> props h2 !! k.
Proof.
  intros H. specialize (H k).
  destruct (props h1 !! k) as [c1|], (props h2 !! k) as [c2|];
    simpl in H; try discriminate; [|done].
  assert (Hs : skel c1 = skel c2) by congruence. unfold skel in Hs. simpl. congruence.
Qed.

Lemma same_skel_find h1 h2 parent (g : string * string * pvt * list N → bool) :
  same_skel h1 h2 →
  (q ← props h1 !! parent;
   find (λ k, match props h1 !! k with Some c => g (skel c) | None => false end) (kids q)) =
  (q ← props h2 !! parent;
   find (λ k, match props h2 !! k with Some c => g (skel c) | None => false end) (kids q)).
Proof.
  intros H. pose proof (same_skel_kids h1 h2 parent H) as Hk.
  destruct (props h1 !! parent), (props h2 !! parent); simplify_eq/=; try done.
  rewrite Hk. apply find_ext. intros k. by apply same_skel_test.
Qed.

#[export] Instance property_proper : Proper (same_skel ==> eq ==> eq ==> eq) property.
Proof.
  intros h1 h2 H parent ? <- key ? <-. unfold property.
  exact (same_skel_find h1 h2 parent (λ s, bool_decide (s.1.1.1 = key) || bool_decide (s.1.1.2 = key)) H).
Qed.

#[export] Instance numProperties_proper : Proper (same_skel ==> eq ==> eq) numProperties.
Proof.
  intros h1 h2 H p ? <-. unfold numProperties. pose proof (same_skel_kids h1 h2 p H) as Hk.
  destruct (props h1 !! p), (props h2 !! p); simplify_eq/=; congruence.
Qed.

(** ** The content subtree is untouched by writes outside it *)

(** The ids of the subtree at [p], read with [fuel] levels. *)
Fixpoint subtree (fuel : nat) (h : host) (p : N) : list N :=
  match fuel with
  | O => []
  | S f => p :: match props h !! p with
               | Some q => concat (map (subtree f h) (kids q))
               | None => []
               end
  end.

Lemma mapM_option_ext {A B} (f g : A → option B) (l : list A) :
  (∀ x, x ∈ l → f x = g x) → mapM f l = mapM g l.
Proof.
  induction l as [|x l IH]; intros H; [done|]. simpl.
  rewrite H by set_solver. rewrite IH by set_solver. done.
Qed.

Lemma tree_of_upd_outside fuel h p k f :
  (∀ q, kids (f q) = kids q) → k ∉ subtree fuel h p →
  tree_of fuel (upd_prop k f h) p = tree_of fuel h p.
Proof.
  intros Hf. revert p. induction fuel as [|fuel IH]; intros p Hk; [done|].
  simpl in *. rewrite lookup_alter_ne by set_solver.
  destruct (props h !! p) as [q|] eqn:Hp; simpl; [|done].
  rewrite (mapM_option_ext _ (tree_of fuel h)); [done|].
  intros x Hx. apply IH. intros Hin. apply Hk. right.
  apply list_elem_of_In, in_concat. exists (subtree fuel h x). split.
  - apply in_map. by apply list_elem_of_In.
  - by apply list_elem_of_In.
Qed.

Lemma contents_tree_upd_outside h layer k f c :
  keeps_skel f →
  property h layer "ADBE Root Vectors Group" = Some c →
  k ∉ subtree (N.to_nat (next_id h)) h c →
  contents_tree (upd_prop k f h) layer = contents_tree h layer.
Proof.
  intros Hf Hc Hk. unfold contents_tree.
  rewrite (property_proper _ _ (same_skel_upd k f h Hf) layer layer eq_refl _ _ eq_refl), Hc.
  simpl. apply tree_of_upd_outside; [|done].
  intros q. specialize (Hf q). unfold skel in Hf. congruence.
Qed.

Lemma subtree_proper fuel h1 h2 p :
  same_skel h1 h2 → subtree fuel h1 p = subtree fuel h2 p.
Proof.
  intros H. revert p. induction fuel as [|fuel IH]; intros p; [done|]. simpl.
  pose proof (same_skel_kids h1 h2 p H) as Hk.
  destruct (props h1 !! p), (props h2 !! p); simplify_eq/=; [|done].
  rewrite Hk. f_equal. f_equal. apply map_ext. intros x. by rewrite IH.
Qed.

(** Writing a value [Qeq]-equal to the one stored changes nothing up to
    [≡ₕ]. *)
Lemma upd_value_host_eq k v h q :
  props h !! k = Some q → val_eq v (pval q) → upd_prop k (with_value v) h ≡ₕ h.
Proof.
  intros Hq Hv. split_and!; [|done..]. intros j. rewrite props_upd_prop.
  destruct (decide (k = j)) as [<-|].
  - rewrite lookup_alter_eq, Hq. constructor. by split.
  - rewrite lookup_alter_ne by done. reflexivity.
Qed.

Lemma find_kid_skel h1 h2 p ok (g : string * string * pvt * list N → bool) :
  same_skel h1 h2 → (∀ c, ok c = g (skel c)) → find_kid h1 p ok = find_kid h2 p ok.
Proof.
  intros H Hg. unfold find_kid.
  assert (E : ∀ h,
    (q ← props h !! p; find (λ k, match props h !! k with Some c => ok c | None => false end) (kids q)) =
    (q ← props h !! p; find (λ k, match props h !! k with Some c => g (skel c) | None => false end) (kids q))).
  { intros h. destruct (props h !! p); simpl; [|done]. apply find_ext. intros k.
    destruct (props h !! k); [apply Hg|done]. }
  rewrite !E. by apply same_skel_find.
Qed.

Lemma property_at_proper h1 h2 p i :
  same_skel h1 h2 → property_at h1 p i = property_at h2 p i.
Proof.
  intros H. unfold property_at. pose proof (same_skel_kids h1 h2 p H) as Hk.
  destruct (props h1 !! p), (props h2 !! p); simplify_eq/=; by rewrite ?Hk.
Qed.

(** ** The child scans *)

Lemma find_Some_in {A} (f : A → bool) l x : find f l = Some x → x ∈ l ∧ f x = true.
Proof.
  induction l as [|y l IH]; simpl; [done|]. destruct (f y) eqn:E.
  - intros [= <-]. split; [left|done].
  - intros H. destruct (IH H). split; [by right|done].
Qed.

Lemma find_None_all {A} (f : A → bool) l : find f l = None → ∀ x, x ∈ l → f x = false.
Proof.
  induction l as [|y l IH]; simpl; [intros _ x Hx; inversion Hx|].
  destruct (f y) eqn:E; [done|]. intros H x Hx. inversion Hx; subst; auto.
Qed.

Lemma find_kid_Some h p ok k :
  find_kid h p ok = Some k →
  ∃ qp q, props h !! p = Some qp ∧ k ∈ kids qp ∧ props h !! k = Some q ∧ ok q = true.
Proof.
  unfold find_kid. destruct (props h !! p) as [qp|]; simpl; [|done].
  intros (Hin & Hok)%find_Some_in. destruct (props h !! k) as [q|]; [|done].
  by exists qp, q.
Qed.

Lemma find_kid_None h p ok :
  find_kid h p ok = None →
  ∀ qp k q, props h !! p = Some qp → k ∈ kids qp → props h !! k = Some q → ok q = false.
Proof.
  unfold find_kid. intros H qp k q Hp Hk Hq. rewrite Hp in H. simpl in H.
  pose proof (find_None_all _ _ H k Hk) as E. cbv beta in E. by rewrite Hq in E.
Qed.

Lemma find_kid_None_intro h p ok :
  (∀ qp k q, props h !! p = Some qp → k ∈ kids qp → props h !! k = Some q → ok q = false) →
  find_kid h p ok = None.
Proof.
  intros H. destruct (find_kid h p ok) as [k|] eqn:E; [|done].
  destruct (find_kid_Some _ _ _ _ E) as (qp & q & Hp & Hk & Hq & Hok).
  by rewrite (H qp k q Hp Hk Hq) in Hok.
Qed.

Lemma find_ext_in {A} (f g : A → bool) l : (∀ x, x ∈ l → f x = g x) → find f l = find g l.
Proof.
  induction l as [|x l IH]; intros H; simpl; [done|].
  rewrite (H x ltac:(left)), IH by (intros y Hy; apply H; by right). done.
Qed.

Lemma find_kid_ext h p ok1 ok2 :
  (∀ qp k q, props h !! p = Some qp → k ∈ kids qp → props h !! k = Some q → ok1 q = ok2 q) →
  find_kid h p ok1 = find_kid h p ok2.
Proof.
  intros H. unfold find_kid. destruct (props h !! p) as [qp|] eqn:Hp; simpl; [|done].
  apply find_ext_in. intros k Hk. destruct (props h !! k) as [q|] eqn:Hq; [|done].
  by apply (H qp k q).
Qed.

(** What a lookup returns exists in the store. *)
Lemma property_exists h p key k : property h p key = Some k → is_Some (props h !! k).
Proof.
  unfold property. destruct (props h !! p); simpl; [|done].
  intros (_ & Hk)%find_Some_in. destruct (props h !! k); [by eexists|done].
Qed.

Lemma find_kid_exists h p ok k : find_kid h p ok = Some k → is_Some (props h !! k).
Proof. intros (? & q & _ & _ & Hq & _)%find_kid_Some. by eexists. Qed.

Lemma or_else_exists h (a b : option N) k :
  (∀ k, a = Some k → is_Some (props h !! k)) → (∀ k, b = Some k → is_Some (props h !! k)) →
  (a ||| b) = Some k → is_Some (props h !! k).
Proof.
  intros Ha Hb. destruct a as [x|]; simpl; [intros [= <-]; by apply Ha|apply Hb].
Qed.

#[export] Hint Resolve property_exists find_kid_exists : ae.
