(* ===== verification/Store.v ===== *)
(** * The store invariant

    The well-formedness [wf] of the host store ([Host.wf]: every property
    lies below [next_id], and each child is allocated after its parent and
    exists) and what it buys.  [preserves P m] says that a host
    computation ends, normally or by an exception, in a state satisfying
    [P] whenever it starts in one; the combinators below let the
    components prove it of their handlers by following the code.  Every
    host call preserves [wf]: the value, expression, name and comment
    setters because they keep the children, [addProperty] because [alloc]
    numbers a template's subtree parent first, above every id in use.

    Under [wf] the content tree is finite: [tree_of] with the fuel
    [next_id] (the fuel [contents_tree], hence [sourceRectAtTime], gives
    it) always returns a tree, and more fuel returns the same tree.

    The classes [HostInv] (an invariant every host call keeps) and
    [AlertInv] (an invariant an appended alert keeps) let one lemma per
    handler carry any invariant; [wf], [quiet h0] (well-formed, alert log
    as in [h0]), [log_grows h0] (well-formed, alert log extending [h0]'s)
    and conjunctions of instances are instances.  [frame h h'] relates a
    store to a later one in which every property keeps its names, type,
    expression capability and key count and children are only appended,
    so that lookups by name survive the repeater and control phases. *)

From S2P Require Import Prelude Host.

Create HintDb wf.

(** ** Invariants of host computations *)

Definition preserves {S A} (P : S → Prop) (m : ST S A) : Prop :=
  ∀ s, P s → P (res_state (m s)).

Section preserves.
Context {S : Type} (P : S → Prop).

Lemma preserves_ret {A} (a : A) : preserves P (mret a).
Proof. by intros s. Qed.

Lemma preserves_throw {A} (e : string) : preserves P (mthrow e : ST S A).
Proof. by intros s. Qed.

Lemma preserves_get : preserves P get.
Proof. by intros s. Qed.

Lemma preserves_modify (f : S → S) : (∀ s, P s → P (f s)) → preserves P (modify f).
Proof. intros Hf s. apply Hf. Qed.

Lemma preserves_put (s' : S) : P s' → preserves P (put s').
Proof. by intros ? s. Qed.

Lemma preserves_bind {A B} (m : ST S A) (k : A → ST S B) :
  preserves P m → (∀ a, preserves P (k a)) → preserves P (m ≫= k).
Proof.
  intros Hm Hk s Hs. specialize (Hm s Hs). st_simpl.
  destruct (m s); simpl in *; [by apply Hk|done].
Qed.

Lemma preserves_catch {A} (m : ST S A) (hd : string → ST S A) :
  preserves P m → (∀ e, preserves P (hd e)) → preserves P (catch m hd).
Proof.
  intros Hm Hk s Hs. specialize (Hm s Hs). st_simpl.
  destruct (m s); simpl in *; [done|by apply Hk].
Qed.
End preserves.

(** Follow a handler through its binds, branches and [try]s; leave the
    host calls to the hints of [wf]. *)
Ltac preserve :=
  repeat match goal with
  | |- preserves _ (_ ≫= _) => apply preserves_bind; [|intros ?]
  | |- preserves _ (catch _ _) => apply preserves_catch; [|intros ?]
  | |- preserves _ (mret _) => apply preserves_ret
  | |- preserves _ (mthrow _) => apply preserves_throw
  | |- preserves _ get => apply preserves_get
  | |- preserves _ (let _ := _ in _) => cbv zeta
  | |- preserves _ (match ?x with _ => _ end) => destruct x
  | |- preserves _ (if ?b then _ else _) => destruct b
  end; eauto with wf.

(** ** The host calls preserve [wf] *)

Lemma wf_upd_gen p f h :
  (∀ q, props h !! p = Some q → Forall (λ c, (p < c)%N ∧ is_Some (props h !! c)) (kids (f q))) →
  wf h → wf (upd_prop p f h).
Proof.
  intros Hf Hw k q. rewrite props_upd_prop.
  intros [(-> & q0 & Hq0 & ->) | (_ & Hq)]%lookup_alter_Some.
  - split; [by destruct (Hw k q0 Hq0)|].
    eapply Forall_impl; [exact (Hf q0 Hq0)|]. intros c [? ?]. by rewrite lookup_alter_is_Some.
  - destruct (Hw k q Hq) as [Hlt Hks]. split; [done|].
    eapply Forall_impl; [exact Hks|]. intros c [? ?]. by rewrite lookup_alter_is_Some.
Qed.

Lemma wf_upd p f h : (∀ q, kids (f q) = kids q) → wf h → wf (upd_prop p f h).
Proof. intros Hf Hw. apply wf_upd_gen; [|done]. intros q Hq. rewrite Hf. by apply (Hw p q Hq). Qed.

Lemma wf_add_alert s h : wf h → wf (add_alert s h).
Proof. done. Qed.

Lemma wf_bump h : wf h → wf (bump h).
Proof. intros Hw k q Hq. destruct (Hw k q Hq). simpl. split; [lia|done]. Qed.

#[export] Hint Resolve wf_add_alert : wf.

Lemma preserves_upd p f : (∀ q, kids (f q) = kids q) → preserves wf (modify (upd_prop p f)).
Proof. intros Hf. apply preserves_modify. intros h. by apply wf_upd. Qed.

Lemma need_preserves (P : host → Prop) p : preserves P (need p).
Proof. intros h Hw. unfold need. by destruct (props h !! p). Qed.

#[export] Hint Resolve need_preserves : wf.
#[export] Hint Extern 1 (preserves wf (modify (upd_prop _ _))) => apply preserves_upd; done : wf.

Lemma setValue_preserves p v : preserves wf (setValue p v).
Proof. unfold setValue. preserve. Qed.
Lemma setExpression_preserves p e : preserves wf (setExpression p e).
Proof. unfold setExpression. preserve. Qed.
Lemma setExpressionEnabled_preserves p b : preserves wf (setExpressionEnabled p b).
Proof. unfold setExpressionEnabled. preserve. Qed.
Lemma setName_preserves p s : preserves wf (setName p s).
Proof. unfold setName. preserve. Qed.
Lemma setComment_preserves p s : preserves wf (setComment p s).
Proof. unfold setComment. preserve. Qed.

#[export] Hint Resolve setValue_preserves setExpression_preserves
  setExpressionEnabled_preserves setName_preserves setComment_preserves : wf.

(** ** [alloc] and [addProperty] *)

(** Induction on templates, with the hypothesis on every child. *)
Lemma tmpl_ind' (P : tmpl → Prop) :
  (∀ mn nm ty v cse ks, Forall P ks → P (Tmpl mn nm ty v cse ks)) → ∀ t, P t.
Proof.
  intros H. fix IH 1. intros [mn nm ty v cse ks]. apply H.
  induction ks as [|k ks IHks]; constructor; [apply IH|exact IHks].
Qed.

(** What an allocation from [h] to [h'] guarantees: fresh ids only, the
    old properties untouched, [wf] kept, the rest of the host unchanged. *)
Definition grows (h h' : host) : Prop :=
  (next_id h ≤ next_id h')%N ∧
  (∀ k, (k < next_id h)%N → props h' !! k = props h !! k) ∧
  wf h' ∧ activeItem h' = activeItem h ∧ alerts h' = alerts h.

Lemma grows_trans h1 h2 h3 : grows h1 h2 → grows h2 h3 → grows h1 h3.
Proof.
  intros (? & E1 & _ & ? & ?) (? & E2 & ? & ? & ?). split_and!; try done; try congruence; [lia|].
  intros k Hk. rewrite E2 by lia. by apply E1.
Qed.

Lemma wf_ins_fresh h me q :
  wf h → (me < next_id h)%N →
  Forall (λ c, (me < c)%N ∧ is_Some (props h !! c)) (kids q) →
  wf (ins_prop me q h).
Proof.
  intros Hw Hme Hks k q'. rewrite props_ins_prop, lookup_insert_Some.
  assert (Hex : ∀ c, is_Some (props h !! c) → is_Some (<[me:=q]> (props h) !! c)).
  { intros c Hc. rewrite lookup_insert_is_Some'. by right. }
  intros [(<- & <-) | (_ & Hq')].
  - split; [done|]. eapply Forall_impl; [exact Hks|]. intros c [? ?]. auto.
  - destruct (Hw k q' Hq') as [? Hks']. split; [done|].
    eapply Forall_impl; [exact Hks'|]. intros c [? ?]. auto.
Qed.

Lemma alloc_grows t h :
  wf h →
  (alloc t h).1 = next_id h ∧ (next_id h < next_id (alloc t h).2)%N ∧
  grows h (alloc t h).2 ∧ is_Some (props (alloc t h).2 !! next_id h).
Proof.
  revert h. induction t as [mn nm ty v cse ks IH] using tmpl_ind'. intros h Hw. cbn [alloc].
  match goal with |- context [?go ks (bump h)] =>
    assert (Hgo : ∀ h0, wf h0 →
              grows h0 (go ks h0).2 ∧
              Forall (λ c, (next_id h0 ≤ c)%N ∧ is_Some (props (go ks h0).2 !! c)) (go ks h0).1)
  end.
  { clear Hw h. induction IH as [|k ks Hk _ IHks]; intros h0 Hw0; simpl.
    - split; [|constructor]. split_and!; auto with lia.
    - destruct (Hk h0 Hw0) as (Hi & Hlt & Hg1 & Hex).
      destruct (alloc k h0) as [i h1]; simpl in *. subst i.
      destruct (IHks h1 (proj1 (proj2 (proj2 Hg1)))) as [Hg2 Hall].
      destruct (_ ks h1) as [rest h2]; simpl in *.
      pose proof Hg1 as (? & _). pose proof Hg2 as (? & E2 & _).
      split; [by eapply grows_trans|]. constructor.
      + split; [lia|]. by rewrite E2.
      + eapply Forall_impl; [exact Hall|]. intros c [? ?]. split; [lia|done]. }
  destruct (Hgo (bump h) (wf_bump h Hw)) as [(Hle & Eold & Hw' & Ha & Hl) Hall].
  destruct (_ ks (bump h)) as [ids h']; simpl in *.
  split_and!; [done|simpl; lia|..].
  - split_and!; simpl; [lia| |..|done|done].
    + intros k Hk. rewrite lookup_insert_ne by lia. by apply Eold; simpl; lia.
    + apply wf_ins_fresh; [done|simpl in *; lia|]. simpl.
      eapply Forall_impl; [exact Hall|]. intros c [? ?]. simpl in *. split; [lia|done].
  - simpl. rewrite lookup_insert_is_Some'. by left.
Qed.

Lemma addProperty_preserves p mn : preserves wf (addProperty p mn).
Proof.
  intros h Hw. unfold addProperty, need. st_simpl.
  destruct (props h !! p) as [q|] eqn:Hp; simpl; [|done].
  destruct (template mn) as [t|]; simpl; [|done].
  destruct (alloc_grows t h Hw) as (Hi & Hlt & (_ & Eold & Hw1 & _) & Hex).
  destruct (alloc t h) as [i h1]; simpl in *. subst i.
  destruct (Hw p q Hp) as [Hpn Hks].
  apply wf_upd_gen; [|done]. intros q' Hq'. rewrite Eold, Hp in Hq' by done.
  injection Hq' as <-. simpl. apply Forall_app. split.
  - eapply Forall_impl; [exact Hks|]. intros c [? Hc]. split; [done|].
    destruct Hc as [qc Hc]. rewrite Eold; [by eexists|]. by destruct (Hw c qc Hc).
  - constructor; [|constructor]. split; [lia|done].
Qed.

#[export] Hint Resolve addProperty_preserves : wf.

(** ** What an invariant of the store must satisfy

    The script changes the store only through the host calls below and
    the alert log.  An invariant that every host call preserves is
    preserved by every component: the components' lemmas are proved once
    for any [HostInv] (and [AlertInv] for the components that alert) and
    instantiated at [wf] here and at the typing invariant of [Typing]. *)
Class HostInv (P : host → Prop) := {
  host_inv_setValue p v : preserves P (setValue p v);
  host_inv_setExpression p e : preserves P (setExpression p e);
  host_inv_setExpressionEnabled p b : preserves P (setExpressionEnabled p b);
  host_inv_setName p s : preserves P (setName p s);
  host_inv_setComment p s : preserves P (setComment p s);
  host_inv_addProperty p mn : preserves P (addProperty p mn)
}.

Class AlertInv (P : host → Prop) := alert_inv s h : P h → P (add_alert s h).

#[export] Instance wf_alert_inv : AlertInv wf := wf_add_alert.

#[export] Instance wf_host_inv : HostInv wf.
Proof.
  split; [exact setValue_preserves|exact setExpression_preserves|
    exact setExpressionEnabled_preserves|exact setName_preserves|exact setComment_preserves|
    exact addProperty_preserves].
Qed.

(** The alert log of a run that does not alert, as an invariant: every
    host call keeps it. *)
Definition quiet (h0 h : host) : Prop := wf h ∧ alerts h = alerts h0.

Lemma addProperty_alerts p mn h : wf h → alerts (res_state (addProperty p mn h)) = alerts h.
Proof.
  intros Hw. unfold addProperty, need. st_simpl. destruct (props h !! p); simpl; [|done].
  destruct (template mn) as [t|]; simpl; [|done].
  destruct (alloc_grows t h Hw) as (_ & _ & (_ & _ & _ & _ & Ha) & _).
  destruct (alloc t h). simpl in *. done.
Qed.

#[export] Instance quiet_host_inv h0 : HostInv (quiet h0).
Proof.
  split; intros ? ? h [Hw Ha]; (split; [by apply wf_host_inv|rewrite <- Ha]);
    [..|by apply addProperty_alerts];
    unfold setValue, setExpression, setExpressionEnabled, setName, setComment, need; st_simpl;
    destruct (props h !! _); simpl; try done; case_match; done.
Qed.

(** The alert log only grows, as an invariant: every host call keeps it,
    and an alert appends to it. *)
Definition log_grows (h0 h : host) : Prop := wf h ∧ alerts h0 `prefix_of` alerts h.

#[export] Instance log_grows_host_inv h0 : HostInv (log_grows h0).
Proof.
  split; intros ? ? h [Hw Ha]; (split; [by apply wf_host_inv|]);
    [..|by rewrite addProperty_alerts];
    unfold setValue, setExpression, setExpressionEnabled, setName, setComment, need; st_simpl;
    destruct (props h !! _); simpl; try done; case_match; done.
Qed.

#[export] Instance log_grows_alert_inv h0 : AlertInv (log_grows h0).
Proof. intros s h [Hw Ha]. split; [done|]. simpl. by apply prefix_app_r. Qed.

(** Two invariants of the host calls make one. *)
#[export] Instance and_host_inv (P Q : host → Prop) `{!HostInv P} `{!HostInv Q} : HostInv (λ h, P h ∧ Q h).
Proof.
  split; intros ? ? h [HP HQ]; split;
    first [by apply host_inv_setValue | by apply host_inv_setExpression
          | by apply host_inv_setExpressionEnabled | by apply host_inv_setName
          | by apply host_inv_setComment | by apply host_inv_addProperty].
Qed.

#[export] Instance and_alert_inv (P Q : host → Prop) `{!AlertInv P} `{!AlertInv Q} : AlertInv (λ h, P h ∧ Q h).
Proof. intros s h [HP HQ]. split; by apply alert_inv. Qed.

#[export] Hint Resolve host_inv_setValue host_inv_setExpression host_inv_setExpressionEnabled
  host_inv_setName host_inv_setComment host_inv_addProperty wf_host_inv wf_alert_inv : wf.
#[export] Hint Extern 1 (preserves _ (modify (add_alert _))) =>
  apply preserves_modify; intros ?; apply alert_inv : wf.

(** ** The content tree is finite *)

Lemma tree_of_total h p fuel :
  wf h → is_Some (props h !! p) →
  (N.to_nat (next_id h) - N.to_nat p ≤ fuel)%nat → is_Some (tree_of fuel h p).
Proof.
  intros Hw. revert p. induction fuel as [|fuel IH]; intros p [q Hq] Hf.
  - destruct (Hw p q Hq). lia.
  - simpl. rewrite Hq. simpl. destruct (Hw p q Hq) as [Hlt Hks].
    destruct (mapM_is_Some_2 (tree_of fuel h) (kids q)) as [ts Hts].
    + eapply Forall_impl; [exact Hks|]. intros c [Hc Hex]. apply IH; [done|lia].
    + rewrite Hts. simpl. by eexists.
Qed.

Lemma tree_of_fuel_mono h p fuel fuel' t :
  (fuel ≤ fuel')%nat → tree_of fuel h p = Some t → tree_of fuel' h p = Some t.
Proof.
  revert p fuel' t. induction fuel as [|fuel IH]; intros p fuel' t Hle; [done|].
  destruct fuel' as [|fuel']; [lia|]. simpl.
  destruct (props h !! p) as [q|]; simpl; [|done].
  destruct (mapM (tree_of fuel h) (kids q)) as [ts|] eqn:E; simpl; [|done].
  intros [= <-]. enough (mapM (tree_of fuel' h) (kids q) = Some ts) as -> by done.
  revert ts E. induction (kids q) as [|k ks IHks]; intros ts E; simpl in *; [done|].
  destruct (tree_of fuel h k) as [t1|] eqn:E1; simpl in *; [|done].
  rewrite (IH k fuel' t1) by (done || lia). simpl.
  destruct (mapM (tree_of fuel h) ks) as [ts'|]; simpl in *; [|done].
  by rewrite (IHks ts').
Qed.

(** The tree [sourceRectAtTime] hands the renderer: on a well-formed
    store a layer with a Contents group has one, and more fuel than
    [next_id] reads the same tree. *)
Lemma contents_tree_total h layer c :
  wf h → property h layer "ADBE Root Vectors Group" = Some c →
  ∃ t, contents_tree h layer = Some t ∧
       ∀ fuel, (N.to_nat (next_id h) ≤ fuel)%nat → tree_of fuel h c = Some t.
Proof.
  intros Hw Hc. unfold contents_tree. rewrite Hc. simpl.
  destruct (tree_of_total h c (N.to_nat (next_id h)) Hw) as [t Ht];
    [by eapply property_exists|lia|].
  exists t. split; [done|]. intros fuel Hf. by eapply tree_of_fuel_mono.
Qed.



(** A lookup by name returns a child, allocated after its parent. *)
Lemma property_gt h p key k : wf h → property h p key = Some k → (p < k)%N.
Proof.
  intros Hw. unfold property. destruct (props h !! p) as [q|] eqn:Hp; simpl; [|done].
  intros (Hin & _)%find_Some_in. destruct (Hw p q Hp) as [_ Hks].
  by destruct (proj1 (Forall_forall _ _) Hks k Hin).
Qed.

Lemma wf_absent h p : wf h → (next_id h <= p)%N → props h !! p = None.
Proof.
  intros Hw Hp. destruct (props h !! p) as [q|] eqn:E; [|done].
  destruct (Hw p q E). lia.
Qed.

(** [wf] is decidable: a concrete store is checked by computation. *)
#[export] Instance wf_dec h : Decision (wf h).
Proof.
  change (Decision (map_Forall (λ p q, (p < next_id h)%N ∧
            Forall (λ k, (p < k)%N ∧ is_Some (props h !! k)) (kids q)) (props h))).
  apply _.
Defined.

Ltac wf_by_computation := apply (bool_decide_unpack _); vm_compute; exact I.

(** ** Steps that keep every property's identity

    [frame h h'] says that every property of [h] is still in [h'] with the
    same match name, name, type, expression capability and key count, its
    children list possibly extended at the end: what value, expression and
    comment writes and [addProperty] do, and what the name setter does not
    (the script renames only effects it has just created). *)

Definition frame_prop (q q' : prop) : Prop :=
  matchName q' = matchName q ∧ name q' = name q ∧ pvtype q' = pvtype q ∧
  canSetExpression q' = canSetExpression q ∧ numKeys q' = numKeys q ∧
  ∃ ks, kids q' = kids q ++ ks.

Definition frame (h h' : host) : Prop :=
  ∀ p q, props h !! p = Some q → ∃ q', props h' !! p = Some q' ∧ frame_prop q q'.

Lemma frame_prop_refl q : frame_prop q q.
Proof. split_and!; try done. exists []. by rewrite app_nil_r. Qed.

Lemma frame_prop_trans q1 q2 q3 : frame_prop q1 q2 → frame_prop q2 q3 → frame_prop q1 q3.
Proof.
  intros (? & ? & ? & ? & ? & ks1 & E1) (? & ? & ? & ? & ? & ks2 & E2).
  split_and!; try congruence. exists (ks1 ++ ks2). by rewrite E2, E1, app_assoc.
Qed.

#[export] Instance frame_preorder : PreOrder frame.
Proof.
  split.
  - intros h p q Hq. exists q. split; [done|apply frame_prop_refl].
  - intros h1 h2 h3 H12 H23 p q Hq.
    destruct (H12 p q Hq) as (q2 & Hq2 & F2). destruct (H23 p q2 Hq2) as (q3 & Hq3 & F3).
    exists q3. split; [done|by eapply frame_prop_trans].
Qed.

Lemma frame_upd p f h :
  (∀ q, props h !! p = Some q → frame_prop q (f q)) → frame h (upd_prop p f h).
Proof.
  intros Hf k q Hq. rewrite props_upd_prop. destruct (decide (p = k)) as [->|Hne].
  - rewrite lookup_alter_eq, Hq. eexists. split; [done|by apply Hf].
  - rewrite lookup_alter_ne by done. exists q. split; [done|apply frame_prop_refl].
Qed.

Lemma frame_with_value v q : frame_prop q (with_value v q).
Proof. exact (frame_prop_refl q). Qed.
Lemma frame_with_comment s q : frame_prop q (with_comment s q).
Proof. exact (frame_prop_refl q). Qed.
Lemma frame_with_expression e en q : frame_prop q (with_expression e en q).
Proof. exact (frame_prop_refl q). Qed.

Lemma frame_grows h h' : wf h → grows h h' → frame h h'.
Proof.
  intros Hw (_ & Eold & _) p q Hq. exists q. split; [|apply frame_prop_refl].
  rewrite Eold; [done|]. by destruct (Hw p q Hq).
Qed.

(** [addProperty] on an existing group with a template: the new property
    is [next_id h], appended to the group's children. *)
Lemma addProperty_spec h p q mn t :
  wf h → props h !! p = Some q → template mn = Some t →
  ∃ h', addProperty p mn h = Ok (Some (next_id h)) h' ∧ frame h h' ∧ wf h' ∧
        props h !! next_id h = None ∧ is_Some (props h' !! next_id h) ∧
        (∃ q', props h' !! p = Some q' ∧ kids q' = kids q ++ [next_id h]) ∧
        (∀ k, k ≠ p → (k < next_id h)%N → props h' !! k = props h !! k).
Proof.
  intros Hw Hp Ht. pose proof (addProperty_preserves p mn h Hw) as Hw'.
  unfold addProperty, need in *. st_simpl. rewrite Hp, Ht in *. simpl in *.
  destruct (alloc_grows t h Hw) as (Hi & Hlt & Hg & Hex).
  pose proof Hg as (_ & Eold & _).
  destruct (alloc t h) as [i h1]; simpl in *. subst i.
  destruct (Hw p q Hp) as [Hpn _].
  eexists. split_and!; [done| | |apply wf_absent; [done|lia]| |..].
  - etrans; [exact (frame_grows h h1 Hw Hg)|]. apply frame_upd.
    intros q' Hq'. rewrite Eold, Hp in Hq' by done. injection Hq' as <-.
    red. split_and!; try done. by eexists.
  - done.
  - simpl. by rewrite lookup_alter_is_Some.
  - simpl. rewrite lookup_alter_eq, Eold, Hp by done. by eexists.
  - intros k Hk Hlt'. simpl. rewrite lookup_alter_ne by done. by apply Eold.
Qed.

(** [steps R m]: from a well-formed store, [m] ends in a store related to
    the start by [R]. *)
Definition steps (R : host → host → Prop) {A} (m : ST host A) : Prop :=
  ∀ h, wf h → R h (res_state (m h)).

Section steps.
Context (R : host → host → Prop) `{!PreOrder R}.

Lemma steps_ret {A} (a : A) : steps R (mret a).
Proof. intros h _. reflexivity. Qed.
Lemma steps_throw {A} (e : string) : steps R (mthrow e : ST host A).
Proof. intros h _. reflexivity. Qed.
Lemma steps_get : steps R get.
Proof. intros h _. reflexivity. Qed.

Lemma steps_bind {A B} (m : ST host A) (k : A → ST host B) :
  steps R m → preserves wf m → (∀ a, steps R (k a)) → steps R (m ≫= k).
Proof.
  intros Hm Pm Hk h Hw. specialize (Hm h Hw). specialize (Pm h Hw). st_simpl.
  destruct (m h); simpl in *; [|done]. etrans; [exact Hm|]. by apply Hk.
Qed.

Lemma steps_catch {A} (m : ST host A) (hd : string → ST host A) :
  steps R m → preserves wf m → (∀ e, steps R (hd e)) → steps R (catch m hd).
Proof.
  intros Hm Pm Hk h Hw. specialize (Hm h Hw). specialize (Pm h Hw). st_simpl.
  destruct (m h); simpl in *; [done|]. etrans; [exact Hm|]. by apply Hk.
Qed.
End steps.

Create HintDb frame.

Ltac frame_steps :=
  repeat match goal with
  | |- steps _ (_ ≫= _) => apply steps_bind; [typeclasses eauto| | |intros ?]; [|preserve|]
  | |- steps _ (catch _ _) => apply steps_catch; [typeclasses eauto| | |intros ?]; [|preserve|]
  | |- steps _ (mret _) => apply steps_ret; typeclasses eauto
  | |- steps _ (mthrow _) => apply steps_throw; typeclasses eauto
  | |- steps _ get => apply steps_get; typeclasses eauto
  | |- steps _ (let _ := _ in _) => cbv zeta
  | |- steps _ (match ?x with _ => _ end) => destruct x
  | |- steps _ (if ?b then _ else _) => destruct b
  end; eauto with frame.

Lemma need_frame p : steps frame (need p).
Proof. intros h _. unfold need. destruct (props h !! p); simpl; reflexivity. Qed.

Lemma modify_frame p f : (∀ q, frame_prop q (f q)) → steps frame (modify (upd_prop p f)).
Proof. intros Hf h _. apply frame_upd. auto. Qed.

#[export] Hint Resolve need_frame frame_with_value frame_with_comment frame_with_expression : frame.
#[export] Hint Extern 1 (steps frame (modify (upd_prop _ _))) =>
  apply modify_frame; intros ?; eauto with frame : frame.

Lemma setValue_frame p v : steps frame (setValue p v).
Proof. unfold setValue. frame_steps. Qed.

Lemma setComment_frame p s : steps frame (setComment p s).
Proof. unfold setComment. frame_steps. Qed.

Lemma setExpression_frame p e : steps frame (setExpression p e).
Proof. unfold setExpression. frame_steps. Qed.

Lemma setExpressionEnabled_frame p b : steps frame (setExpressionEnabled p b).
Proof. unfold setExpressionEnabled. frame_steps. Qed.

Lemma add_alert_frame s : steps frame (modify (add_alert s)).
Proof. intros h _. intros p q Hq. exists q. split; [done|apply frame_prop_refl]. Qed.

Lemma addProperty_frame p mn : steps frame (addProperty p mn).
Proof.
  intros h Hw. destruct (props h !! p) as [q|] eqn:Hp;
    [|unfold addProperty, need; st_simpl; rewrite Hp; reflexivity].
  destruct (template mn) as [t|] eqn:Ht;
    [|unfold addProperty, need; st_simpl; rewrite Hp, Ht; reflexivity].
  destruct (addProperty_spec h p q mn t Hw Hp Ht) as (h' & -> & ? & _). done.
Qed.

#[export] Hint Resolve setValue_frame setComment_frame addProperty_frame setExpression_frame
  setExpressionEnabled_frame add_alert_frame : frame.

(** Lookups by name survive a framed step. *)
Lemma find_app {A} (f : A → bool) l1 l2 :
  find f (l1 ++ l2) = match find f l1 with Some x => Some x | None => find f l2 end.
Proof. induction l1 as [|x l1 IH]; simpl; [done|]. by destruct (f x). Qed.

Lemma key_matches_frame h h' key c :
  frame h h' → is_Some (props h !! c) →
  match props h' !! c with Some q => key_matches key q | None => false end =
  match props h !! c with Some q => key_matches key q | None => false end.
Proof.
  intros Hf [q Hq]. destruct (Hf c q Hq) as (q' & Hq' & Hm & Hn & _). rewrite Hq, Hq'.
  unfold key_matches. by rewrite Hm, Hn.
Qed.

Lemma property_frame h h' p key k :
  wf h → frame h h' → property h p key = Some k → property h' p key = Some k.
Proof.
  intros Hw Hf. unfold property. destruct (props h !! p) as [q|] eqn:Hp; simpl; [|done].
  destruct (Hf p q Hp) as (q' & Hq' & _ & _ & _ & _ & _ & ks & Hk). rewrite Hq'. simpl.
  rewrite Hk, find_app. destruct (Hw p q Hp) as [_ Hks].
  erewrite find_ext_in; [by intros ->|].
  intros c Hc. cbv beta. symmetry. apply key_matches_frame; [done|].
  by destruct (proj1 (Forall_forall _ _) Hks c Hc).
Qed.

(** The first child satisfying a test on names and types survives a
    framed step. *)
Lemma find_kid_frame h h' p ok k :
  wf h → frame h h' → (∀ q q', frame_prop q q' → ok q' = ok q) →
  find_kid h p ok = Some k → find_kid h' p ok = Some k.
Proof.
  intros Hw Hf Hok. unfold find_kid. destruct (props h !! p) as [q|] eqn:Hp; simpl; [|done].
  destruct (Hf p q Hp) as (q' & Hq' & _ & _ & _ & _ & _ & ks & Hk). rewrite Hq'. simpl.
  rewrite Hk, find_app. destruct (Hw p q Hp) as [_ Hks].
  erewrite find_ext_in; [by intros ->|].
  intros c Hc. cbv beta. destruct (proj1 (Forall_forall _ _) Hks c Hc) as [_ [qc Hqc]].
  destruct (Hf c qc Hqc) as (qc' & Hqc' & F). rewrite Hqc, Hqc'. symmetry. by apply Hok.
Qed.

Lemma frame_upd_fresh h h1 i f : frame h h1 → props h !! i = None → frame h (upd_prop i f h1).
Proof.
  intros Hf Hi p q Hq. destruct (Hf p q Hq) as (q' & Hq' & F). exists q'. split; [|done].
  rewrite props_upd_prop, lookup_alter_ne; [done|]. intros ->. congruence.
Qed.

(** A child appended to [p] is what [p.property(key)] finds when no older
    child matched. *)
Lemma property_append h h' p q q' key i c :
  wf h → frame h h' → props h !! p = Some q → props h' !! p = Some q' →
  kids q' = kids q ++ [i] → property h p key = None →
  props h' !! i = Some c → key_matches key c = true → property h' p key = Some i.
Proof.
  intros Hw Hf Hq Hq' Hk Hnone Hi Hc. unfold property in *. rewrite Hq in Hnone.
  rewrite Hq'. simpl in *. rewrite Hk, find_app.
  rewrite (find_ext_in _ (λ k, match props h !! k with Some c => key_matches key c | None => false end));
    [rewrite Hnone; simpl; by rewrite Hi, Hc|].
  intros k Hin. cbv beta. apply key_matches_frame; [done|].
  destruct (Hw p q Hq) as [_ Hks]. by destruct (proj1 (Forall_forall _ _) Hks k Hin).
Qed.

Lemma property_frame_is_Some h h' p key :
  wf h → frame h h' → is_Some (property h p key) → is_Some (property h' p key).
Proof. intros Hw Hf [k Hk]. exists k. by apply (property_frame h h'). Qed.

(** [p] carries the enabled expression [e]. *)
Definition expr_at (h : host) (p : N) (e : string) : Prop :=
  ∃ q, props h !! p = Some q ∧ expression q = e ∧ expressionEnabled q = true.

Lemma same_skel_is_Some h1 h2 k : same_skel h1 h2 → is_Some (props h1 !! k) → is_Some (props h2 !! k).
Proof.
  intros S Hk. apply (fmap_is_Some skel). rewrite <- (S k). by apply fmap_is_Some.
Qed.

Lemma same_skel_matchName h h' k q :
  same_skel h' h → props h !! k = Some q →
  ∃ q', props h' !! k = Some q' ∧ matchName q' = matchName q.
Proof.
  intros S Hq. specialize (S k). rewrite Hq in S.
  destruct (props h' !! k) as [q'|] eqn:E; simpl in S; [|done].
  injection S as Hs. exists q'. split; [done|]. unfold skel in Hs. congruence.
Qed.
