(* ===== verification/Typing.v ===== *)
(** * The typing invariant of the store

    Every property holds a value of its [propertyValueType]: a group
    ([NO_VALUE]) holds nothing, a [OneD] property a number, a 2D or 3D
    property an array of two (or three) numbers, a colour four, a path a
    shape.  The host's templates are typed, [setValue] refuses a value of
    the wrong type, and the other setters leave the value alone, so
    [typed] is an instance of [Store.HostInv], carried through the stages
    of "Do It" by [Store.preserves].  [Pipeline] relies on it when a stage
    reads a point: a typed 2D property always yields its two
    coordinates. *)

From S2P Require Import Prelude Host Store.

(** The value a property of type [t] may hold.  The types the script
    never reads or writes (markers, text, custom values, indices) are
    unconstrained. *)
Definition value_typed (t : pvt) (v : value) : bool :=
  match t with
  | NO_VALUE => match v with VNone => true | _ => false end
  | ThreeD_SPATIAL | ThreeD | TwoD_SPATIAL | TwoD | OneD | COLOR | SHAPE => value_fits t v
  | CUSTOM_VALUE | MARKER | LAYER_INDEX | MASK_INDEX | TEXT_DOCUMENT => true
  end.

Definition typed (h : host) : Prop :=
  map_Forall (λ _ q, value_typed (pvtype q) (pval q) = true) (props h).

#[export] Instance typed_dec h : Decision (typed h).
Proof. unfold typed. apply _. Defined.

Fixpoint tmpl_typed (t : tmpl) : bool :=
  let '(Tmpl _ _ ty v _ ks) := t in value_typed ty v && forallb tmpl_typed ks.

(** ** Lemmas *)

Lemma value_fits_typed t v : value_fits t v = true → value_typed t v = true.
Proof. by destruct t, v. Qed.

Lemma templates_typed mn t : template mn = Some t → tmpl_typed t = true.
Proof. unfold template. repeat case_bool_decide; intros [= <-]; reflexivity. Qed.

Lemma typed_upd p f h :
  (∀ q, props h !! p = Some q → value_typed (pvtype (f q)) (pval (f q)) = true) →
  typed h → typed (upd_prop p f h).
Proof.
  intros Hf Ht k q. rewrite props_upd_prop.
  intros [(-> & q0 & Hq0 & ->) | (_ & Hq)]%lookup_alter_Some; [by apply Hf|by apply (Ht k)].
Qed.

Lemma typed_keep p f h :
  (∀ q, pvtype (f q) = pvtype q ∧ pval (f q) = pval q) → typed h → typed (upd_prop p f h).
Proof.
  intros Hf Ht. apply typed_upd; [|done]. intros q Hq.
  destruct (Hf q) as [-> ->]. by apply (Ht p).
Qed.

Lemma typed_ins p q h :
  value_typed (pvtype q) (pval q) = true → typed h → typed (ins_prop p q h).
Proof. intros Hq Ht. unfold typed. simpl. by apply map_Forall_insert_2. Qed.

Lemma alloc_typed t h : tmpl_typed t = true → typed h → typed (alloc t h).2.
Proof.
  revert h. induction t as [mn nm ty v cse ks IH] using tmpl_ind'.
  intros h [Hv Hks]%andb_prop Ht. cbn [alloc].
  match goal with |- context [?go ks (bump h)] =>
    assert (Hgo : ∀ h0, typed h0 → typed (go ks h0).2) end.
  { clear Ht h. induction IH as [|k ks Hk _ IHks]; intros h0 Ht0; simpl; [done|].
    simpl in Hks. apply andb_prop in Hks as [Hk' Hks].
    pose proof (Hk h0 Hk' Ht0) as Ht1. destruct (alloc k h0) as [i h1]; simpl in *.
    specialize (IHks Hks h1 Ht1). by destruct (_ ks h1). }
  specialize (Hgo (bump h) Ht). destruct (_ ks (bump h)). simpl in *. by apply typed_ins.
Qed.

(** ** The host calls keep the store typed *)

Ltac keep_typed := intros ?; apply typed_keep; [intros ?; split; reflexivity|done].

#[export] Instance typed_alert_inv : AlertInv typed.
Proof. by intros s h. Qed.

#[export] Instance typed_host_inv : HostInv typed.
Proof.
  split.
  - intros p v h Ht. unfold setValue, need. st_simpl.
    destruct (props h !! p) as [q|] eqn:Hq; simpl; [|done].
    destruct (bool_decide _ && value_fits _ _) eqn:E; simpl; [|done].
    apply andb_prop in E as [_ E]. apply typed_upd; [|done].
    intros q' Hq'. rewrite Hq in Hq'. injection Hq' as <-. by apply value_fits_typed.
  - intros p e h Ht. unfold setExpression, need. st_simpl.
    destruct (props h !! p); simpl; [|done]. destruct (canSetExpression _); simpl; [|done].
    revert Ht. keep_typed.
  - intros p b h Ht. unfold setExpressionEnabled, need. st_simpl.
    destruct (props h !! p); simpl; [|done]. destruct (_ && _); simpl; [|done].
    revert Ht. keep_typed.
  - intros p s h Ht. unfold setName, need. st_simpl.
    destruct (props h !! p); simpl; [|done]. revert Ht. keep_typed.
  - intros p s h Ht. unfold setComment, need. st_simpl.
    destruct (props h !! p); simpl; [|done]. revert Ht. keep_typed.
  - intros p mn h Ht. unfold addProperty, need. st_simpl.
    destruct (props h !! p); simpl; [|done].
    destruct (template mn) as [t|] eqn:Etm; simpl; [|done].
    pose proof (alloc_typed t h (templates_typed mn t Etm) Ht) as Ha.
    destruct (alloc t h). simpl in *. revert Ha. keep_typed.
Qed.

#[export] Hint Resolve typed_host_inv typed_alert_inv : wf.
