(* ===== verification/Finders.v ===== *)
(** * The Property Resolver

    The lookups of [src/CenterAP_AddRepeater_v2.0.jsx] that find a
    Repeater's sub-properties across host versions and locales:
    [findOneD], [findVectorPosition], [findRotation], [findCopies], the
    Repeater transform group, the inline anchor, scale, offset and
    opacity lookups.  Each one tries canonical match names first, then
    scans the children in index order for a display name matching a
    JavaScript regular expression with the [i] flag and a value type.

    The regular expressions of the source are values of [regex] (literal,
    [\s*], concatenation, alternation); [rx_test] is
    [RegExp.prototype.test]: some suffix of the string starts with a match.
    Theorems: [rx_test] against the declarative language [in_lang]
    (soundness and completeness); [findOneD] returns a [OneD] child
    whenever it returns anything, and [null] exactly when there is none; [findVectorPosition] against its
    specification (the canonical child, else the first 2D child whose name
    contains "position"); and the start- and end-opacity lookups
    coincide on a Repeater whose names match neither "start opacity" nor
    "end opacity", as in a Spanish host. *)

From S2P Require Import Prelude Host.

(** ** Regular expressions with the [i] flag *)

Inductive regex :=
| RLit (p : string)
| RWs
| RCat (a b : regex)
| RAlt (a b : regex).

(** [p] matched case-insensitively at the start of [s]: the rest of [s]. *)
Fixpoint prefix_ci (p s : string) : option string :=
  match p, s with
  | EmptyString, _ => Some s
  | String c p', String d s' =>
      if bool_decide (lower_ascii c = lower_ascii d) then prefix_ci p' s' else None
  | String _ _, EmptyString => None
  end.

(** [\s*]: every rest after zero or more white-space characters. *)
Fixpoint ws_rests (s : string) : list string :=
  s :: match s with
       | String c s' => if Ascii.is_space c then ws_rests s' else []
       | EmptyString => []
       end.

(** Every rest of [s] after a match of [r] at its start. *)
Fixpoint rx_match (r : regex) (s : string) : list string :=
  match r with
  | RLit p => option_list (prefix_ci p s)
  | RWs => ws_rests s
  | RCat a b => concat (map (rx_match b) (rx_match a s))
  | RAlt a b => rx_match a s ++ rx_match b s
  end.

Fixpoint suffixes (s : string) : list string :=
  s :: match s with String _ s' => suffixes s' | EmptyString => [] end.

(** [r.test(s)] *)
Definition rx_test (r : regex) (s : string) : bool :=
  existsb (λ t, negb (bool_decide (rx_match r t = []))) (suffixes s).

(** The expressions of the source. *)
Definition re_anchor : regex := RLit "anchor".
Definition re_position : regex := RLit "position".
Definition re_rotation : regex := RAlt (RLit "rotation") (RAlt (RLit "rotación") (RLit "rotation")).
Definition re_copies : regex :=
  RAlt (RLit "copies") (RAlt (RLit "copias") (RAlt (RLit "copie")
    (RAlt (RLit "kopien") (RLit "copie")))).
Definition re_offset : regex := RLit "offset".
Definition re_scale : regex := RLit "scale".
Definition re_start_opacity : regex :=
  RAlt (RCat (RLit "start") (RCat RWs (RLit "opacity"))) (RLit "opacidad").
Definition re_end_opacity : regex :=
  RAlt (RCat (RLit "end") (RCat RWs (RLit "opacity"))) (RLit "opacidad").

(** ** The finders *)

(** [for (i...) { var p = parent.property(preferred[i]); if (p) return p; }] *)
Fixpoint first_property (h : host) (parent : N) (mns : list string) : option N :=
  match mns with
  | [] => None
  | mn :: mns' => property h parent mn ||| first_property h parent mns'
  end.

Definition findOneD (h : host) (parent : N) (preferredMatchNames : list string)
    (nameRegex : option regex) : option N :=
  first_property h parent preferredMatchNames
  ||| find_kid h parent (λ q, match nameRegex with
                              | Some r => rx_test r (name q) && bool_decide (pvtype q = OneD)
                              | None => false
                              end)
  ||| find_kid h parent (λ q, bool_decide (pvtype q = OneD)).

Definition findVectorPosition (h : host) (xform : N) : option N :=
  property h xform "ADBE Vector Position"
  ||| find_kid h xform (λ q, rx_test re_position (lower (name q)) &&
                             (bool_decide (pvtype q = TwoD) || bool_decide (pvtype q = TwoD_SPATIAL))).

Definition findRotation (h : host) (xform : N) : option N :=
  property h xform "ADBE Vector Rotation" ||| property h xform "ADBE Vector Repeater Rotation"
  ||| findOneD h xform [] (Some re_rotation).

Definition findCopies (h : host) (repeater : N) : option N :=
  property h repeater "ADBE Vector Repeater Copies"
  ||| property h repeater "ADBE Vector Repeater Copies 2"
  ||| findOneD h repeater [] (Some re_copies).

(** [repeater.property("ADBE Vector Repeater Transform") ||
     repeater.property("ADBE Vector Transform Group")] *)
Definition repeaterTransform (h : host) (repeater : N) : option N :=
  property h repeater "ADBE Vector Repeater Transform"
  ||| property h repeater "ADBE Vector Transform Group".

(** The anchor lookup of [bindRepeater]. *)
Definition findRepeaterAnchor (h : host) (xform : N) : option N :=
  property h xform "ADBE Vector Anchor"
  ||| find_kid h xform (λ q, bool_decide (matchName q = "ADBE Vector Anchor") ||
                             (rx_test re_anchor (name q) && bool_decide (pvtype q = TwoD_SPATIAL))).

(** The lookups of [linkRepeaterToLayerControls]. *)
Definition findOffset (h : host) (repeater : N) : option N :=
  property h repeater "ADBE Vector Repeater Offset" ||| findOneD h repeater [] (Some re_offset).

Definition findScale (h : host) (xform : N) : option N :=
  property h xform "ADBE Vector Scale"
  ||| find_kid h xform (λ q, rx_test re_scale (name q) &&
                             (bool_decide (pvtype q = TwoD) || bool_decide (pvtype q = TwoD_SPATIAL))).

Definition findStartOpacity (h : host) (xform : N) : option N :=
  property h xform "ADBE Vector Start Opacity" ||| findOneD h xform [] (Some re_start_opacity).

Definition findEndOpacity (h : host) (xform : N) : option N :=
  property h xform "ADBE Vector End Opacity" ||| findOneD h xform [] (Some re_end_opacity).

Example rx_test_samples :
  rx_test re_start_opacity "Start Opacity" = true ∧
  rx_test re_start_opacity "START   OPACITY" = true ∧
  rx_test re_start_opacity "StartOpacity" = true ∧
  rx_test re_end_opacity "Start Opacity" = false ∧
  rx_test re_end_opacity "Opacidad final" = true ∧
  rx_test re_start_opacity "Opacidad final" = true ∧
  rx_test re_copies "Kopien" = true ∧ rx_test re_anchor "Repeater Anchor Point" = true.
Proof. vm_compute. done. Qed.

(** ** [findOneD] returns a number property *)

(** C7. [findOneD] with no preferred match names (as every caller uses
    it) returns a child of [parent] whose value type is [OneD], and
    returns [null] exactly when [parent] has no [OneD] child. *)
Theorem findOneD_OneD h parent re :
  (∀ k, findOneD h parent [] re = Some k →
     ∃ qp q, props h !! parent = Some qp ∧ k ∈ kids qp ∧ props h !! k = Some q ∧
             pvtype q = OneD) ∧
  (findOneD h parent [] re = None ↔
     ∀ qp k q, props h !! parent = Some qp → k ∈ kids qp → props h !! k = Some q →
               pvtype q ≠ OneD).
Proof.
  unfold findOneD. simpl. split.
  - intros k. destruct (find_kid h parent _) as [k'|] eqn:E1; simpl.
    + intros [= <-]. destruct (find_kid_Some _ _ _ _ E1) as (qp & q & ? & ? & ? & Hok).
      exists qp, q. split_and!; try done. destruct re; [|done].
      apply andb_true_iff in Hok as [_ Hok]. by apply bool_decide_eq_true in Hok.
    + intros E2. destruct (find_kid_Some _ _ _ _ E2) as (qp & q & ? & ? & ? & Hok).
      exists qp, q. split_and!; try done. by apply bool_decide_eq_true in Hok.
  - split.
    + destruct (find_kid h parent _) eqn:E1; simpl; [done|]. intros E2 qp k q Hp Hk Hq.
      pose proof (find_kid_None _ _ _ E2 qp k q Hp Hk Hq) as F. simpl in F.
      by apply bool_decide_eq_false in F.
    + intros Hnone.
      assert (E : ∀ ok, (∀ q, ok q = true → pvtype q = OneD) → find_kid h parent ok = None).
      { intros ok Hok. destruct (find_kid h parent ok) as [k|] eqn:E; [|done].
        destruct (find_kid_Some _ _ _ _ E) as (qp & q & Hp & Hk & Hq & Hq').
        exfalso. apply (Hnone qp k q Hp Hk Hq). by apply Hok. }
      rewrite !E; [done| |].
      * intros q Hq. by apply bool_decide_eq_true in Hq.
      * intros q Hq. destruct re; [|done].
        apply andb_true_iff in Hq as [_ Hq]. by apply bool_decide_eq_true in Hq.
Qed.

(** A Repeater transform group of an English host, as the host creates it. *)
Definition sample_xform_props (names : list string) : list (N * prop) :=
  (0%N, mkProp "ADBE Vector Repeater Transform" "Transform" NO_VALUE VNone "" false false 0 ""
          [1%N; 2%N; 3%N; 4%N; 5%N; 6%N]) ::
  zip_with (λ (k : N) (mt : string * pvt),
              (k, mkProp "" mt.1 mt.2 (if bool_decide (mt.2 = OneD) then VNum 0 else VArr [0; 0])
                    "" false true 0 "" []))
    [1%N; 2%N; 3%N; 4%N; 5%N; 6%N]
    (zip names [TwoD_SPATIAL; TwoD_SPATIAL; TwoD; OneD; OneD; OneD]).

Lemma findOneD_OneD_witness :
  let h := mkHost (list_to_map (sample_xform_props
             ["Anchor Point"; "Position"; "Scale"; "Rotation"; "Start Opacity"; "End Opacity"]))
             7%N None [] in
  findOneD h 0%N [] (Some re_end_opacity) = Some 6%N ∧
  ∃ qp q, props h !! 0%N = Some qp ∧ 6%N ∈ kids qp ∧ props h !! 6%N = Some q ∧ pvtype q = OneD.
Proof.
  intros h. split; [reflexivity|].
  apply (proj1 (findOneD_OneD h 0%N (Some re_end_opacity)) 6%N). reflexivity.
Defined.

(** ** The matcher against the language of the expression *)

(** stdpp makes [simpl] leave string concatenation alone; the proofs
    below compute with it. *)
#[local] Arguments String.append : simpl nomatch.

Fixpoint all_space (s : string) : bool :=
  match s with
  | EmptyString => true
  | String c s' => Ascii.is_space c && all_space s'
  end.

(** The strings a [regex] matches, compared after ASCII case folding. *)
Inductive in_lang : regex → string → Prop :=
| in_lit p w : lower w = lower p → in_lang (RLit p) w
| in_ws w : all_space w = true → in_lang RWs w
| in_cat a b u v : in_lang a u → in_lang b v → in_lang (RCat a b) (u +:+ v)
| in_alt_l a b w : in_lang a w → in_lang (RAlt a b) w
| in_alt_r a b w : in_lang b w → in_lang (RAlt a b) w.

Lemma sapp_assoc (u v w : string) : (u +:+ v) +:+ w = u +:+ (v +:+ w).
Proof. induction u as [|c u IH]; simpl; [done|]. by rewrite IH. Qed.

Lemma lower_empty w : lower w = EmptyString → w = EmptyString.
Proof. by destruct w. Qed.

Lemma prefix_ci_spec p s t :
  prefix_ci p s = Some t ↔ ∃ w, s = w +:+ t ∧ lower w = lower p.
Proof.
  revert s. induction p as [|c p IH]; intros s.
  - simpl. split; [intros [= ->]; by exists EmptyString|].
    intros (w & -> & Hw). by rewrite (lower_empty w Hw).
  - destruct s as [|d s]; simpl.
    + split; [done|]. intros ([|d w] & Hs & Hw); simpl in *; congruence.
    + case_bool_decide as Hcd.
      * rewrite IH. split.
        -- intros (w & -> & Hw). exists (String d w). simpl. by rewrite Hw, Hcd.
        -- intros ([|d' w] & Hs & Hw); simpl in *; [congruence|].
           injection Hs as <- ->. injection Hw as _ Hw. by exists w.
      * split; [done|]. intros ([|d' w] & Hs & Hw); simpl in *; [congruence|].
        injection Hs as <- ->. injection Hw as Hw _. congruence.
Qed.

Lemma ws_rests_spec s t :
  t ∈ ws_rests s ↔ ∃ w, s = w +:+ t ∧ all_space w = true.
Proof.
  revert t. induction s as [|c s IH]; intros t; simpl.
  - rewrite list_elem_of_singleton. split; [intros ->; by exists EmptyString|].
    intros ([|c w] & Hs & _); simpl in *; congruence.
  - rewrite elem_of_cons. split.
    + intros [->|Ht]; [by exists EmptyString|].
      destruct (Ascii.is_space c) eqn:Hc; [|by apply not_elem_of_nil in Ht].
      apply IH in Ht as (w & -> & Hw). exists (String c w). simpl. by rewrite Hc, Hw.
    + intros ([|c' w] & Hs & Hw); simpl in *; [by left|].
      injection Hs as <- ->. apply andb_true_iff in Hw as [Hc Hw]. rewrite Hc.
      right. apply IH. by exists w.
Qed.

Lemma elem_of_concat_map {A B} (f : A → list B) l y :
  y ∈ concat (map f l) ↔ ∃ x, x ∈ l ∧ y ∈ f x.
Proof.
  rewrite list_elem_of_In, in_concat. split.
  - intros (ys & (x & <- & Hx)%in_map_iff & Hy).
    exists x. by rewrite !list_elem_of_In.
  - intros (x & Hx & Hy). exists (f x). rewrite <- !list_elem_of_In. split; [|done].
    apply list_elem_of_In, in_map. by apply list_elem_of_In.
Qed.

Lemma rx_match_spec r s t :
  t ∈ rx_match r s ↔ ∃ w, s = w +:+ t ∧ in_lang r w.
Proof.
  revert s t. induction r as [p| |a IHa b IHb|a IHa b IHb]; intros s t; simpl.
  - assert (E : t ∈ option_list (prefix_ci p s) ↔ prefix_ci p s = Some t).
    { destruct (prefix_ci p s); simpl;
        [rewrite list_elem_of_singleton; naive_solver|split; [|done]; inversion 1]. }
    rewrite E, prefix_ci_spec. split.
    + intros (w & -> & Hw). exists w. split; [done|]. by constructor.
    + intros (w & -> & Hw). inversion Hw; subst. by exists w.
  - rewrite ws_rests_spec. split.
    + intros (w & -> & Hw). exists w. split; [done|]. by constructor.
    + intros (w & -> & Hw). inversion Hw; subst. by exists w.
  - rewrite elem_of_concat_map. split.
    + intros (m & (u & -> & Hu)%IHa & (v & -> & Hv)%IHb).
      exists (u +:+ v). rewrite sapp_assoc. split; [done|]. by constructor.
    + intros (w & -> & Hw). inversion Hw as [| |? ? u v Hu Hv| |]; subst.
      exists (v +:+ t). rewrite IHa, IHb. split; [exists u; by rewrite sapp_assoc|].
      by exists v.
  - rewrite elem_of_app, IHa, IHb. split.
    + intros [(w & -> & Hw)|(w & -> & Hw)]; exists w; split; try done; by constructor.
    + intros (w & -> & Hw). inversion Hw; subst; [left|right]; by exists w.
Qed.

Lemma suffixes_spec s t : t ∈ suffixes s ↔ ∃ pre, s = pre +:+ t.
Proof.
  revert t. induction s as [|c s IH]; intros t; simpl.
  - rewrite list_elem_of_singleton. split; [intros ->; by exists EmptyString|].
    intros ([|c pre] & Hs); simpl in *; congruence.
  - rewrite elem_of_cons, IH. split.
    + intros [->|(pre & ->)]; [by exists EmptyString|]. by exists (String c pre).
    + intros ([|c' pre] & Hs); simpl in *; [by left|]. injection Hs as <- ->.
      right. by exists pre.
Qed.

(** [rx_test r s] (JavaScript's [r.test(s)] with the [i] flag) is
    true exactly when some substring of [s] is, up to ASCII case, in the
    language of [r]. *)
Theorem rx_test_correct r s :
  rx_test r s = true ↔ ∃ pre w post, s = pre +:+ (w +:+ post) ∧ in_lang r w.
Proof.
  unfold rx_test. rewrite existsb_exists. split.
  - intros (t & Ht & Hne). apply list_elem_of_In, suffixes_spec in Ht as (pre & ->).
    destruct (rx_match r t) as [|post l] eqn:E; [done|].
    assert (Hp : post ∈ rx_match r t) by (rewrite E; left).
    apply rx_match_spec in Hp as (w & -> & Hw). by exists pre, w, post.
  - intros (pre & w & post & -> & Hw). exists (w +:+ post). split.
    + apply list_elem_of_In, suffixes_spec. by exists pre.
    + assert (Hp : post ∈ rx_match r (w +:+ post)) by (apply rx_match_spec; by exists w).
      destruct (rx_match r (w +:+ post)); [by apply not_elem_of_nil in Hp|done].
Qed.

Lemma rx_test_lit p s :
  rx_test (RLit p) s = true ↔ ∃ pre w post, s = pre +:+ (w +:+ post) ∧ lower w = lower p.
Proof.
  rewrite rx_test_correct. split; intros (pre & w & post & -> & Hw); exists pre, w, post;
    split; try done; [by inversion Hw|by constructor].
Qed.

(** ** [findVectorPosition] *)

(** The fallback test of [findVectorPosition] on a child [q]. *)
Definition position_like (q : prop) : Prop :=
  (∃ pre w post, lower (name q) = pre +:+ (w +:+ post) ∧ lower w = "position") ∧
  (pvtype q = TwoD ∨ pvtype q = TwoD_SPATIAL).

Lemma position_test_spec q :
  (rx_test re_position (lower (name q)) &&
   (bool_decide (pvtype q = TwoD) || bool_decide (pvtype q = TwoD_SPATIAL))) = true ↔
  position_like q.
Proof.
  unfold position_like, re_position. rewrite andb_true_iff, orb_true_iff, rx_test_lit,
    !bool_decide_eq_true. done.
Qed.

Lemma find_first {A} (f : A → bool) l x :
  find f l = Some x ↔ ∃ pre post, l = pre ++ x :: post ∧ f x = true ∧ ∀ y, y ∈ pre → f y = false.
Proof.
  induction l as [|y l IH]; simpl.
  - split; [done|]. intros (pre & post & E & _). by destruct pre.
  - destruct (f y) eqn:E.
    + split.
      * intros [= <-]. exists [], l. split_and!; [done|done|]. intros z Hz. by apply elem_of_nil in Hz.
      * intros (pre & post & El & Hx & Hpre). destruct pre as [|z pre]; simpl in El; injection El as Hyz El.
        { by subst. }
        subst z. rewrite (Hpre y) in E; [done|left].
    + rewrite IH. split.
      * intros (pre & post & -> & Hx & Hpre). exists (y :: pre), post. split_and!; [done|done|].
        intros z [->|Hz]%elem_of_cons; auto.
      * intros (pre & post & El & Hx & Hpre). destruct pre as [|z pre]; simpl in El; injection El as Hyz El.
        { subst. congruence. }
        subst z. exists pre, post. split_and!; [done|done|]. intros w Hw. apply Hpre. by right.
Qed.

(** [find_kid] returns the first child, in the order of [kids], that
    passes the test. *)
Lemma find_kid_first h p ok k :
  find_kid h p ok = Some k ↔
  ∃ qp pre post, props h !! p = Some qp ∧ kids qp = pre ++ k :: post ∧
    (∃ q, props h !! k = Some q ∧ ok q = true) ∧
    ∀ k' q', k' ∈ pre → props h !! k' = Some q' → ok q' = false.
Proof.
  unfold find_kid. destruct (props h !! p) as [qp|] eqn:Hp; simpl.
  - rewrite find_first. split.
    + intros (pre & post & Hk & Hok & Hpre). destruct (props h !! k) as [q|] eqn:Hq; [|done].
      exists qp, pre, post. split_and!; [done|done|by exists q|].
      intros k' q' Hk' Hq'. specialize (Hpre k' Hk'). by rewrite Hq' in Hpre.
    + intros (qp' & pre & post & [= <-] & Hk & (q & Hq & Hok) & Hpre). exists pre, post.
      split_and!; [done|by rewrite Hq|]. intros k' Hk'.
      destruct (props h !! k') as [q'|] eqn:Hq'; [by eapply Hpre|done].
  - split; [done|]. by intros (qp & ? & ? & ? & _).
Qed.

(** C8. [findVectorPosition] returns [k] exactly when [k] is the
    canonical ["ADBE Vector Position"] child of the transform group, or,
    when there is no canonical child, [k] is the first child of the group
    whose lowercased display name contains "position" (in any case) and
    whose value type is [TwoD] or [TwoD_SPATIAL]: the canonical id takes
    precedence over the name scan, and the scan keeps the order of the
    children. *)
Theorem findVectorPosition_spec h xform k :
  findVectorPosition h xform = Some k ↔
    property h xform "ADBE Vector Position" = Some k ∨
    (property h xform "ADBE Vector Position" = None ∧
     ∃ qp pre post q, props h !! xform = Some qp ∧ kids qp = pre ++ k :: post ∧
       props h !! k = Some q ∧ position_like q ∧
       ∀ k' q', k' ∈ pre → props h !! k' = Some q' → ¬ position_like q').
Proof.
  unfold findVectorPosition.
  destruct (property h xform "ADBE Vector Position") as [k0|] eqn:E0; simpl.
  - split; [intros [= <-]; by left|]. by intros [[= ->]|[? _]].
  - rewrite find_kid_first. split.
    + intros (qp & pre & post & Hp & Hk & (q & Hq & Hok) & Hpre). right. split; [done|].
      exists qp, pre, post, q. split_and!; try done; [by apply position_test_spec|].
      intros k' q' Hk' Hq' Hl. apply position_test_spec in Hl. by rewrite (Hpre k' q' Hk' Hq') in Hl.
    + intros [?|[_ (qp & pre & post & q & Hp & Hk & Hq & Hl & Hpre)]]; [done|].
      exists qp, pre, post. split_and!; try done; [exists q; split; [done|by apply position_test_spec]|].
      intros k' q' Hk' Hq'. apply not_true_is_false. rewrite position_test_spec. eauto.
Qed.

(** ** The two opacity lookups on a localised host *)

Lemma rx_test_alt a b s : rx_test (RAlt a b) s = rx_test a s || rx_test b s.
Proof.
  unfold rx_test. simpl. induction (suffixes s) as [|t l IH]; simpl; [done|].
  rewrite IH. destruct (rx_match a t), (rx_match b t); simpl;
    repeat case_bool_decide; simplify_eq/=; try done;
    by destruct (existsb _ l), (existsb _ l).
Qed.

(** C9. On a Repeater transform group with neither canonical opacity match
    name and no child whose name mentions "start opacity" or "end opacity"
    (a Spanish host's "Opacidad inicial" and "Opacidad final", or a German
    host's names, where only the last-resort scan applies), the start- and
    end-opacity lookups of [linkRepeaterToLayerControls] return the same
    property. *)
Theorem opacity_finders_coincide h xform :
  property h xform "ADBE Vector Start Opacity" = None →
  property h xform "ADBE Vector End Opacity" = None →
  (∀ qp k q, props h !! xform = Some qp → k ∈ kids qp → props h !! k = Some q →
     rx_test (RCat (RLit "start") (RCat RWs (RLit "opacity"))) (name q) = false ∧
     rx_test (RCat (RLit "end") (RCat RWs (RLit "opacity"))) (name q) = false) →
  findStartOpacity h xform = findEndOpacity h xform.
Proof.
  intros Hs He Hn. unfold findStartOpacity, findEndOpacity, findOneD.
  rewrite Hs, He. simpl.
  rewrite (find_kid_ext h xform _
             (λ q, rx_test re_end_opacity (name q) && bool_decide (pvtype q = OneD))); [done|].
  intros qp k q Hp Hk Hq. destruct (Hn qp k q Hp Hk Hq) as [H1 H2].
  unfold re_start_opacity, re_end_opacity. by rewrite !rx_test_alt, H1, H2.
Qed.

Lemma opacity_finders_coincide_witness :
  let h := mkHost (list_to_map (sample_xform_props
             ["Punto de anclaje"; "Posición"; "Escala"; "Rotación";
              "Opacidad inicial"; "Opacidad final"])) 7%N None [] in
  findStartOpacity h 0%N = findEndOpacity h 0%N ∧ findEndOpacity h 0%N = Some 5%N.
Proof.
  intros h. split; [|reflexivity].
  apply opacity_finders_coincide; [reflexivity|reflexivity|].
  intros qp k q Hp Hk Hq. vm_compute in Hp. injection Hp as <-. simpl in Hk.
  repeat (apply elem_of_cons in Hk as [->|Hk]; [vm_compute in Hq; injection Hq as <-; split; reflexivity|]).
  by apply not_elem_of_nil in Hk.
Defined.

(** ** What the finders return exists *)

Ltac found_exists :=
  repeat (apply or_else_exists; [intros ?; eauto with ae|]); intros ?; eauto with ae.

Lemma first_property_exists h p mns k : first_property h p mns = Some k → is_Some (props h !! k).
Proof.
  revert k. induction mns as [|mn mns IH]; simpl; [done|].
  intros k. apply or_else_exists; [intros ?; apply property_exists|exact IH].
Qed.

Lemma findOneD_exists h p mns re k : findOneD h p mns re = Some k → is_Some (props h !! k).
Proof. unfold findOneD. pose proof first_property_exists. found_exists. Qed.

#[export] Hint Resolve first_property_exists findOneD_exists : ae.

Lemma findCopies_exists h r k : findCopies h r = Some k → is_Some (props h !! k).
Proof. unfold findCopies. found_exists. Qed.
Lemma findVectorPosition_exists h x k : findVectorPosition h x = Some k → is_Some (props h !! k).
Proof. unfold findVectorPosition. found_exists. Qed.
Lemma findRotation_exists h x k : findRotation h x = Some k → is_Some (props h !! k).
Proof. unfold findRotation. found_exists. Qed.

#[export] Hint Resolve findCopies_exists findVectorPosition_exists findRotation_exists : ae.

Lemma findOffset_exists h r k : findOffset h r = Some k → is_Some (props h !! k).
Proof. unfold findOffset. found_exists. Qed.
Lemma findScale_exists h x k : findScale h x = Some k → is_Some (props h !! k).
Proof. unfold findScale. found_exists. Qed.
Lemma findStartOpacity_exists h x k : findStartOpacity h x = Some k → is_Some (props h !! k).
Proof. unfold findStartOpacity. found_exists. Qed.
Lemma findEndOpacity_exists h x k : findEndOpacity h x = Some k → is_Some (props h !! k).
Proof. unfold findEndOpacity. found_exists. Qed.

#[export] Hint Resolve findOffset_exists findScale_exists findStartOpacity_exists
  findEndOpacity_exists : ae.

(** ** Lookups read only the skeleton *)

Lemma findVectorPosition_proper h1 h2 xf :
  same_skel h1 h2 → findVectorPosition h1 xf = findVectorPosition h2 xf.
Proof.
  intros H. unfold findVectorPosition.
  rewrite (property_proper _ _ H xf xf eq_refl _ _ eq_refl). f_equal.
  apply (find_kid_skel _ _ _ _ (λ s, rx_test re_position (lower s.1.1.2) &&
           (bool_decide (s.1.2 = TwoD) || bool_decide (s.1.2 = TwoD_SPATIAL)))); [done|].
  intros c. unfold skel. done.
Qed.
