(* ===== verification/Anchor.v ===== *)
(** * The Pivot Compensator

    [setAnchorAndCompensate] and [centerLayerAnchorToContents] of
    [src/CenterAP_AddRepeater_v2.0.jsx] (the same text is in v1.9).  The
    anchor point is written first, then the position is read again and
    moved by the same delta.  Theorems: the functional behaviour on the
    success path, visual neutrality (position minus anchor is unchanged),
    the failures before any write, the half-done write when the position
    refuses the value, and idempotence of re-centring up to [Qeq]. *)

From S2P Require Import Prelude Host Store.

(** [v[0], v[1]] of an array value; [None] where JavaScript would read
    [undefined] and compute [NaN]. *)
Definition xy (v : value) : option (Q * Q) :=
  match v with VArr (x :: y :: _) => Some (x, y) | _ => None end.

(** [var tr = layer.property("ADBE Transform Group"); tr && tr.property(mn)] *)
Definition transform_prop (h : host) (layer : N) (mn : string) : option N :=
  tr ← property h layer "ADBE Transform Group"; property h tr mn.

Definition setAnchorAndCompensate (layer : N) (newAP : Q * Q) : ST host unit :=
  h ← get;
  match transform_prop h layer "ADBE Anchor Point",
        transform_prop h layer "ADBE Position" with
  | Some ap, Some pos =>
      oldAP ← need ap;
      let delta := (λ o : Q * Q, (newAP.1 - o.1, newAP.2 - o.2)) <$> xy (pval oldAP) in
      setValue ap (VArr [newAP.1; newAP.2]);;
      posq ← need pos;
      match delta, xy (pval posq) with
      | Some d, Some p => setValue pos (VArr [p.1 + d.1; p.2 + d.2])
      | _, _ => mthrow "setValue: NaN is not a valid value"
      end
  | _, _ => mthrow "Could not access layer Anchor/Position."
  end.

(** [[r.left + r.width/2, r.top + r.height/2]] *)
Definition rect_center (r : rect) : Q * Q :=
  (rect_left r + rect_width r / 2, rect_top r + rect_height r / 2).

Section pivot.
Context `{R : Renderer}.

Definition centerLayerAnchorToContents (layer : N) : ST host unit :=
  h ← get;
  match property h layer "ADBE Root Vectors Group" with
  | Some c =>
      if bool_decide (numProperties h c = 0%nat)
      then mthrow "The shape layer has no contents. Add a shape first."
      else setAnchorAndCompensate layer (rect_center (sourceRectAtTime h layer false))
  | None => mthrow "The shape layer has no contents. Add a shape first."
  end.
End pivot.

(** ** Preconditions *)

Definition is_point_type (t : pvt) : bool :=
  match t with TwoD | TwoD_SPATIAL | ThreeD | ThreeD_SPATIAL => true | _ => false end.

(** [p] holds the point [a] and accepts a new 2D point. *)
Definition point_at (h : host) (p : N) (a : Q * Q) : Prop :=
  ∃ q, props h !! p = Some q ∧ xy (pval q) = Some a ∧
       numKeys q = 0%nat ∧ is_point_type (pvtype q) = true.

Definition move_point (n : Q * Q) (d : Q * Q) : value := VArr [n.1 + d.1; n.2 + d.2].

(** ** Lemmas *)

Lemma point_settable q x y :
  numKeys q = 0%nat → is_point_type (pvtype q) = true → settable q (VArr [x; y]) = true.
Proof.
  intros Hk Ht. unfold settable. rewrite Hk. simpl.
  destruct (pvtype q); done.
Qed.

Lemma transform_prop_proper h1 h2 layer mn :
  same_skel h1 h2 → transform_prop h1 layer mn = transform_prop h2 layer mn.
Proof.
  intros H. unfold transform_prop. rewrite (property_proper _ _ H layer layer eq_refl _ _ eq_refl).
  destruct (property h2 layer _); simpl; [|done]. by apply property_proper.
Qed.

Lemma point_at_upd_other h p k f a :
  k ≠ p → point_at h p a → point_at (upd_prop k f h) p a.
Proof. intros Hne (q & Hq & ?). exists q. by rewrite props_upd_prop, lookup_alter_ne. Qed.

Lemma point_at_set h p a n :
  point_at h p a → point_at (upd_prop p (with_value (VArr [n.1; n.2])) h) p n.
Proof.
  intros (q & Hq & ? & ? & ?). exists (with_value (VArr [n.1; n.2]) q). destruct n.
  rewrite props_upd_prop, lookup_alter_eq, Hq. simpl. by split_and!.
Qed.

#[export] Hint Resolve point_at_upd_other point_at_set : ae.

(** ** The success path *)

Lemma setAnchorAndCompensate_spec h layer ap pos a p n :
  transform_prop h layer "ADBE Anchor Point" = Some ap →
  transform_prop h layer "ADBE Position" = Some pos →
  ap ≠ pos → point_at h ap a → point_at h pos p →
  setAnchorAndCompensate layer n h =
    Ok tt (upd_prop pos (with_value (move_point p (n.1 - a.1, n.2 - a.2)))
             (upd_prop ap (with_value (VArr [n.1; n.2])) h)).
Proof.
  intros Hap Hpos Hne (qa & Hqa & Ha & Hka & Hta) (qp & Hqp & Hp & Hkp & Htp).
  unfold setAnchorAndCompensate. st_simpl. rewrite Hap, Hpos. unfold need at 1.
  rewrite Hqa. simpl. rewrite (setValue_ok _ _ _ qa); [|done|by apply point_settable].
  unfold need. rewrite props_upd_prop, lookup_alter_ne, Hqp by done.
  rewrite Ha, Hp. simpl.
  rewrite (setValue_ok _ _ _ qp); [done| |by apply point_settable].
  by rewrite props_upd_prop, lookup_alter_ne.
Qed.

(** ** Theorems *)

(** C1. Visual neutrality: when the layer's anchor point and position are
    2D points that accept a new value, [setAnchorAndCompensate] succeeds,
    the anchor point becomes the target, the position minus the anchor
    point is unchanged, and no other property of the store changes. *)
Theorem setAnchorAndCompensate_neutral h layer ap pos a p n :
  transform_prop h layer "ADBE Anchor Point" = Some ap →
  transform_prop h layer "ADBE Position" = Some pos →
  ap ≠ pos → point_at h ap a → point_at h pos p →
  ∃ h' p',
    setAnchorAndCompensate layer n h = Ok tt h' ∧
    value_of h' ap = Some (VArr [n.1; n.2]) ∧
    value_of h' pos = Some (VArr [p'.1; p'.2]) ∧
    p'.1 - n.1 == p.1 - a.1 ∧ p'.2 - n.2 == p.2 - a.2 ∧
    (∀ k, k ≠ ap → k ≠ pos → props h' !! k = props h !! k).
Proof.
  intros Hap Hpos Hne Ha Hp.
  rewrite (setAnchorAndCompensate_spec h layer ap pos a p n) by done.
  destruct Ha as (qa & Hqa & _), Hp as (qp & Hqp & _).
  eexists _, (p.1 + (n.1 - a.1), p.2 + (n.2 - a.2)). split_and!; [done|..].
  - unfold value_of. rewrite !props_upd_prop, lookup_alter_ne, lookup_alter_eq, Hqa by done.
    done.
  - unfold value_of. rewrite !props_upd_prop, lookup_alter_eq, lookup_alter_ne, Hqp by done.
    done.
  - simpl. lra.
  - simpl. lra.
  - intros k Hk1 Hk2. rewrite !props_upd_prop, !lookup_alter_ne by done. done.
Qed.

Lemma setAnchorAndCompensate_neutral_witness :
  let h := mkHost (list_to_map [
      (0%N, mkProp "ADBE Vector Layer" "Shape Layer 1" NO_VALUE VNone "" false false 0 "" [1%N]);
      (1%N, mkProp "ADBE Transform Group" "Transform" NO_VALUE VNone "" false false 0 "" [2%N; 3%N]);
      (2%N, mkProp "ADBE Anchor Point" "Anchor Point" TwoD_SPATIAL (VArr [10; 20]) "" false true 0 "" []);
      (3%N, mkProp "ADBE Position" "Position" TwoD_SPATIAL (VArr [960; 540]) "" false true 0 "" [])])
      4%N None [] in
  ∃ h' p',
    setAnchorAndCompensate 0%N (50, 60) h = Ok tt h' ∧
    value_of h' 2%N = Some (VArr [(50, 60).1; (50, 60).2]) ∧
    value_of h' 3%N = Some (VArr [p'.1; p'.2]) ∧
    p'.1 - (50, 60).1 == (960, 540).1 - (10, 20).1 ∧ p'.2 - (50, 60).2 == (960, 540).2 - (10, 20).2 ∧
    (∀ k, k ≠ 2%N → k ≠ 3%N → props h' !! k = props h !! k).
Proof.
  intros h. apply (setAnchorAndCompensate_neutral h 0%N 2%N 3%N (10, 20) (960, 540) (50, 60)).
  - reflexivity.
  - reflexivity.
  - done.
  - eexists. split_and!; reflexivity.
  - eexists. split_and!; reflexivity.
Defined.

(** C2. When the layer has no Transform group, or the group has no
    anchor point or no position, [setAnchorAndCompensate] throws
    "Could not access layer Anchor/Position." and the store is unchanged. *)
Theorem setAnchorAndCompensate_missing h layer n :
  transform_prop h layer "ADBE Anchor Point" = None ∨
  transform_prop h layer "ADBE Position" = None →
  setAnchorAndCompensate layer n h = Exn "Could not access layer Anchor/Position." h.
Proof.
  intros Hm. unfold setAnchorAndCompensate. st_simpl.
  destruct Hm as [-> | ->]; [done|].
  by destruct (transform_prop h layer "ADBE Anchor Point").
Qed.

Lemma setAnchorAndCompensate_missing_witness :
  let h := mkHost (list_to_map [
      (0%N, mkProp "ADBE Vector Layer" "Shape Layer 1" NO_VALUE VNone "" false false 0 "" [])])
      1%N None [] in
  setAnchorAndCompensate 0%N (1, 1) h = Exn "Could not access layer Anchor/Position." h.
Proof.
  intros h. apply setAnchorAndCompensate_missing. left. reflexivity.
Defined.

(** C3. The two writes are not one unit: when the position refuses the
    value (it has keyframes), the call throws after the anchor point has
    already been moved, and the position keeps its old value, so the
    layer jumps on screen by the delta. *)
Theorem setAnchorAndCompensate_half_write h layer ap pos a p n qp :
  transform_prop h layer "ADBE Anchor Point" = Some ap →
  transform_prop h layer "ADBE Position" = Some pos →
  ap ≠ pos → point_at h ap a →
  props h !! pos = Some qp → xy (pval qp) = Some p → numKeys qp ≠ 0%nat →
  ∃ h', setAnchorAndCompensate layer n h =
          Exn "setValue: the property cannot take this value" h' ∧
        value_of h' ap = Some (VArr [n.1; n.2]) ∧
        value_of h' pos = value_of h pos.
Proof.
  intros Hap Hpos Hne (qa & Hqa & Ha & Hka & Hta) Hqp Hp Hkp.
  unfold setAnchorAndCompensate. st_simpl. rewrite Hap, Hpos. unfold need at 1.
  rewrite Hqa. simpl. rewrite (setValue_ok _ _ _ qa); [|done|by apply point_settable].
  unfold need. rewrite props_upd_prop, lookup_alter_ne, Hqp by done.
  rewrite Ha, Hp. simpl.
  rewrite (setValue_refused _ _ _ qp).
  - eexists. split_and!; [done|..]; unfold value_of; rewrite props_upd_prop.
    + by rewrite lookup_alter_eq, Hqa.
    + by rewrite lookup_alter_ne.
  - by rewrite props_upd_prop, lookup_alter_ne.
  - unfold settable. by rewrite bool_decide_false.
Qed.

Lemma setAnchorAndCompensate_half_write_witness :
  let qp := mkProp "ADBE Position" "Position" TwoD_SPATIAL (VArr [960; 540]) "" false true 2 "" [] in
  let h := mkHost (list_to_map [
      (0%N, mkProp "ADBE Vector Layer" "Shape Layer 1" NO_VALUE VNone "" false false 0 "" [1%N]);
      (1%N, mkProp "ADBE Transform Group" "Transform" NO_VALUE VNone "" false false 0 "" [2%N; 3%N]);
      (2%N, mkProp "ADBE Anchor Point" "Anchor Point" TwoD_SPATIAL (VArr [10; 20]) "" false true 0 "" []);
      (3%N, qp)]) 4%N None [] in
  ∃ h', setAnchorAndCompensate 0%N (50, 60) h =
          Exn "setValue: the property cannot take this value" h' ∧
        value_of h' 2%N = Some (VArr [(50, 60).1; (50, 60).2]) ∧
        value_of h' 3%N = value_of h 3%N.
Proof.
  intros qp h. apply (setAnchorAndCompensate_half_write h 0%N 2%N 3%N (10, 20) (960, 540) (50, 60) qp).
  - reflexivity.
  - reflexivity.
  - done.
  - eexists. split_and!; reflexivity.
  - reflexivity.
  - reflexivity.
  - done.
Defined.

Section recenter.
Context `{R : Renderer}.

Lemma centerLayerAnchorToContents_unfold layer h :
  centerLayerAnchorToContents layer h =
  match property h layer "ADBE Root Vectors Group" with
  | Some c =>
      if bool_decide (numProperties h c = 0%nat)
      then Exn "The shape layer has no contents. Add a shape first." h
      else setAnchorAndCompensate layer (rect_center (sourceRectAtTime h layer false)) h
  | None => Exn "The shape layer has no contents. Add a shape first." h
  end.
Proof.
  unfold centerLayerAnchorToContents, mbind, ST_bind, get.
  destruct (property h layer _); [destruct (bool_decide _)|]; reflexivity.
Qed.

(** C4. Re-centring is idempotent on static contents: when no property
    of the Contents group has an enabled expression (so the host's bounds
    are a function of the stored contents, which is what [Renderer]
    models), the anchor point and position are settable 2D points outside
    the content subtree and the contents are not empty, a first
    [centerLayerAnchorToContents] moves the anchor point to the centre of
    the source rectangle, and a second one right after succeeds and leaves
    the store equal up to [Qeq] to what the first left.  Contents with
    expressions are excluded: after "Do It" the Repeater's anchor follows
    the layer's anchor point through [thisLayer.transform.anchorPoint], so
    the bounds move with it and a second centring can move the anchor
    again (see the findings). *)
Theorem centerLayerAnchorToContents_idempotent h layer c ap pos a p :
  property h layer "ADBE Root Vectors Group" = Some c →
  numProperties h c ≠ 0%nat →
  transform_prop h layer "ADBE Anchor Point" = Some ap →
  transform_prop h layer "ADBE Position" = Some pos →
  ap ≠ pos → point_at h ap a → point_at h pos p →
  ap ∉ subtree (N.to_nat (next_id h)) h c →
  pos ∉ subtree (N.to_nat (next_id h)) h c →
  Forall (λ k, from_option expressionEnabled false (props h !! k) = false)
    (subtree (N.to_nat (next_id h)) h c) →
  ∃ h1 h2,
    centerLayerAnchorToContents layer h = Ok tt h1 ∧
    value_of h1 ap = Some (VArr [(rect_center (sourceRectAtTime h layer false)).1;
                                 (rect_center (sourceRectAtTime h layer false)).2]) ∧
    centerLayerAnchorToContents layer h1 = Ok tt h2 ∧ h2 ≡ₕ h1.
Proof.
  intros Hc Hn Hap Hpos Hne Ha Hp Hsa Hsp _.
  set (n := rect_center (sourceRectAtTime h layer false)).
  set (h0 := upd_prop ap (with_value (VArr [n.1; n.2])) h).
  set (d := (n.1 - a.1, n.2 - a.2)).
  set (h1 := upd_prop pos (with_value (move_point p d)) h0).
  assert (Hs0 : same_skel h0 h) by (apply same_skel_upd; auto with ae).
  assert (Hs1 : same_skel h1 h) by (etrans; [apply same_skel_upd; auto with ae|done]).
  assert (Hrect : sourceRectAtTime h1 layer false = sourceRectAtTime h layer false).
  { unfold sourceRectAtTime. f_equal. unfold h1.
    rewrite (contents_tree_upd_outside h0 layer pos _ c); auto with ae.
    - apply (contents_tree_upd_outside _ _ _ _ c); auto with ae.
    - by rewrite (property_proper _ _ Hs0 layer layer eq_refl _ _ eq_refl).
    - by rewrite (subtree_proper _ _ _ _ Hs0). }
  assert (Ha1 : point_at h1 ap n).
  { apply point_at_upd_other; [done|]. by apply (point_at_set _ _ a). }
  assert (Hp1 : point_at h1 pos (p.1 + d.1, p.2 + d.2)).
  { unfold h1. apply (point_at_set _ _ p (p.1 + d.1, p.2 + d.2)).
    by apply point_at_upd_other. }
  pose proof Ha as (qa & Hqa & _).
  exists h1. eexists. split_and!.
  - rewrite centerLayerAnchorToContents_unfold, Hc, bool_decide_false by done.
    by apply setAnchorAndCompensate_spec.
  - unfold value_of, h1, h0. rewrite !props_upd_prop, lookup_alter_ne, lookup_alter_eq, Hqa by done.
    done.
  - rewrite centerLayerAnchorToContents_unfold.
    rewrite (property_proper _ _ Hs1 layer layer eq_refl _ _ eq_refl), Hc.
    rewrite (numProperties_proper _ _ Hs1 c c eq_refl), bool_decide_false by done.
    rewrite Hrect. fold n.
    apply (setAnchorAndCompensate_spec h1 layer ap pos n (p.1 + d.1, p.2 + d.2) n);
      [by rewrite (transform_prop_proper _ _ _ _ Hs1)..|done|done|done].
  - pose proof Hp as (qp & Hqp & _).
    assert (Eap : props h1 !! ap = Some (with_value (VArr [n.1; n.2]) qa)).
    { unfold h1, h0. by rewrite !props_upd_prop, lookup_alter_ne, lookup_alter_eq, Hqa. }
    assert (Epos : props (upd_prop ap (with_value (VArr [n.1; n.2])) h1) !! pos =
                   Some (with_value (move_point p d) qp)).
    { unfold h1, h0.
      by rewrite !props_upd_prop, lookup_alter_ne, lookup_alter_eq, lookup_alter_ne, Hqp. }
    etrans; [eapply upd_value_host_eq; [exact Epos|]|eapply upd_value_host_eq; [exact Eap|]].
    + simpl. repeat constructor; simpl; lra.
    + simpl. repeat constructor; reflexivity.
Qed.
End recenter.

(** A store with one shape layer: layer 0, its Contents 1 holding a
    rectangle group 4, its Transform 5 with anchor point 6 and position 7. *)
Definition sample_layer_props : list (N * prop) := [
  (0%N, mkProp "ADBE Vector Layer" "Shape Layer 1" NO_VALUE VNone "" false false 0 "" [1%N; 5%N]);
  (1%N, mkProp "ADBE Root Vectors Group" "Contents" NO_VALUE VNone "" false false 0 "" [4%N]);
  (4%N, mkProp "ADBE Vector Group" "Rectangle 1" NO_VALUE VNone "" false false 0 "" []);
  (5%N, mkProp "ADBE Transform Group" "Transform" NO_VALUE VNone "" false false 0 "" [6%N; 7%N]);
  (6%N, mkProp "ADBE Anchor Point" "Anchor Point" TwoD_SPATIAL (VArr [0; 0]) "" false true 0 "" []);
  (7%N, mkProp "ADBE Position" "Position" TwoD_SPATIAL (VArr [960; 540]) "" false true 0 "" [])].

Lemma centerLayerAnchorToContents_idempotent_witness :
  let R : Renderer := λ _ _, mkRect (-25) (-50) 100 50 in
  let h := mkHost (list_to_map sample_layer_props) 8%N None [] in
  ∃ h1 h2,
    centerLayerAnchorToContents 0%N h = Ok tt h1 ∧
    value_of h1 6%N = Some (VArr [(rect_center (sourceRectAtTime h 0%N false)).1;
                                  (rect_center (sourceRectAtTime h 0%N false)).2]) ∧
    centerLayerAnchorToContents 0%N h1 = Ok tt h2 ∧ h2 ≡ₕ h1.
Proof.
  intros R h.
  apply (centerLayerAnchorToContents_idempotent h 0%N 1%N 6%N 7%N (0, 0) (960, 540)).
  - reflexivity.
  - vm_compute. done.
  - reflexivity.
  - reflexivity.
  - done.
  - eexists. split_and!; reflexivity.
  - eexists. split_and!; reflexivity.
  - vm_compute. set_solver.
  - vm_compute. set_solver.
  - apply (bool_decide_unpack _). vm_compute. exact I.
Defined.

(** C5. Centring a layer whose Contents group is missing or empty throws
    "The shape layer has no contents. Add a shape first." before any
    write. *)
Theorem centerLayerAnchorToContents_empty `{Renderer} h layer :
  (∀ c, property h layer "ADBE Root Vectors Group" = Some c → numProperties h c = 0%nat) →
  centerLayerAnchorToContents layer h =
    Exn "The shape layer has no contents. Add a shape first." h.
Proof.
  intros Hc. rewrite centerLayerAnchorToContents_unfold.
  destruct (property h layer _) as [c|] eqn:E; [|done].
  by rewrite bool_decide_true by auto.
Qed.

Lemma centerLayerAnchorToContents_empty_witness :
  let R : Renderer := λ _ _, mkRect 0 0 0 0 in
  let h := mkHost (list_to_map [
      (0%N, mkProp "ADBE Vector Layer" "Shape Layer 1" NO_VALUE VNone "" false false 0 "" [1%N]);
      (1%N, mkProp "ADBE Root Vectors Group" "Contents" NO_VALUE VNone "" false false 0 "" [])])
      2%N None [] in
  centerLayerAnchorToContents 0%N h =
    Exn "The shape layer has no contents. Add a shape first." h.
Proof.
  intros R h. apply centerLayerAnchorToContents_empty.
  intros c Hc. vm_compute in Hc. injection Hc as <-. reflexivity.
Defined.

(** ** The store invariant *)

Lemma setAnchorAndCompensate_preserves `{HostInv P} layer n : preserves P (setAnchorAndCompensate layer n).
Proof. unfold setAnchorAndCompensate. preserve. Qed.

#[export] Hint Resolve setAnchorAndCompensate_preserves : wf.

Lemma centerLayerAnchorToContents_preserves `{HostInv P} `{Renderer} layer :
  preserves P (centerLayerAnchorToContents layer).
Proof. unfold centerLayerAnchorToContents. preserve. Qed.

#[export] Hint Resolve centerLayerAnchorToContents_preserves : wf.
