(* ===== verification/Memory.v ===== *)
(** * The Anchor Memory

    [ensureAPMemoryEffect], [getAPMemoryPointProp], [saveAnchorToMemory]
    and [getSavedAnchor] of [src/CenterAP_AddRepeater_v2.0.jsx].  The
    snapshot lives in a Point Control effect of the layer whose name is the
    section variable [memName]: ["Anchor Point Restore (don't change)"] in
    v2.0 ([memName_v20]) and ["AP Memory"] in v1.9 ([memName_v19]); the
    code of the two versions differs only in that string.  The save also
    writes the layer comment ["[AP saved] x, y"] with
    [Number.prototype.toFixed(1)], modelled by [toFixed]. *)

From S2P Require Import Prelude Host Store Anchor.

(** ** [Number.prototype.toFixed(f)] on a rational

    For [x >= 0] the digits are those of the integer [n] closest to
    [x * 10^f], the larger one on a tie; a negative [x] is printed as ["-"]
    followed by the digits of [-x].  (Numbers of [1e21] and more, which
    JavaScript prints in exponent notation, are out of the script's range.) *)

Fixpoint zeros (n : nat) : string :=
  match n with O => "" | S n' => String "0" (zeros n') end.

(** The digit string [m] of [n], with a point before the last [f] digits
    and leading zeros so that at least one digit precedes the point. *)
Definition place_point (f : nat) (m : string) : string :=
  match f with
  | O => m
  | S _ =>
      let m := if (String.length m <=? f)%nat then zeros (S f - String.length m) +:+ m else m in
      let k := String.length m in
      String.substring 0 (k - f) m +:+ "." +:+ String.substring (k - f) f m
  end.

Definition round_half_up (x : Q) : Z := Qfloor (x + (1 # 2)).

Definition toFixed (f : nat) (x : Q) : string :=
  let neg := negb (Qle_bool 0 x) in
  let ax := if neg then - x else x in
  let n := round_half_up (ax * inject_Z (10 ^ Z.of_nat f)) in
  (if neg then "-" else "") +:+ place_point f (pretty (Z.to_N n)).

Definition memName_v20 : string := "Anchor Point Restore (don't change)".
Definition memName_v19 : string := "AP Memory".

(** [layer.property("ADBE Effect Parade")] *)
Definition effectsParade (h : host) (layer : N) : option N :=
  property h layer "ADBE Effect Parade".

Definition is_2d (t : pvt) : bool :=
  match t with TwoD | TwoD_SPATIAL => true | _ => false end.

Section memory.
Variable memName : string.

Definition ensureAPMemoryEffect (layer : N) : ST host N :=
  h ← get;
  match effectsParade h layer with
  | None => mthrow "Could not access Effects on this layer."
  | Some fx =>
      match property h fx memName with
      | Some mem => mret mem
      | None =>
          m ← addProperty fx "ADBE Point Control";
          match m with
          | None => mthrow ("Could not add '" +:+ memName +:+ "' effect.")
          | Some mem => setName mem memName;; mret mem
          end
      end
  end.

(** The first 2D property of the effect, else its first property. *)
Definition getAPMemoryPointProp (h : host) (mem : N) : option N :=
  find_kid h mem (λ q, is_2d (pvtype q)) ||| property_at h mem 1.

Definition saveAnchorToMemory (layer : N) : ST host unit :=
  h ← get;
  match transform_prop h layer "ADBE Anchor Point" with
  | None => mthrow "Could not access layer Anchor Point."
  | Some ap =>
      mem ← ensureAPMemoryEffect layer;
      h ← get;
      match getAPMemoryPointProp h mem with
      | None => mthrow ("Could not access '" +:+ memName +:+ "' point property.")
      | Some pointProp =>
          apq ← need ap;
          match xy (pval apq) with
          | None => mthrow "setValue: NaN is not a valid value"
          | Some a =>
              setValue pointProp (VArr [a.1; a.2]);;
              catch (setComment layer
                       ("[AP saved] " +:+ toFixed 1 a.1 +:+ ", " +:+ toFixed 1 a.2))
                    (λ _, mret tt)
          end
      end
  end.

(** [v && v.length >= 2 ? [v[0], v[1]] : null] is [xy v]. *)
Definition getSavedAnchor (h : host) (layer : N) : option (Q * Q) :=
  fx ← effectsParade h layer;
  mem ← property h fx memName;
  pointProp ← getAPMemoryPointProp h mem;
  v ← value_of h pointProp;
  xy v.
End memory.

Example toFixed_samples :
  toFixed 1 (1234 # 100) = "12.3" ∧ toFixed 1 (-5 # 100) = "-0.1" ∧
  toFixed 1 (-4 # 100) = "-0.0" ∧ toFixed 1 (25 # 100) = "0.3" ∧
  toFixed 2 7 = "7.00" ∧ toFixed 0 (5 # 2) = "3".
Proof. vm_compute. done. Qed.

(** ** Lemmas *)

Lemma getAPMemoryPointProp_proper h1 h2 mem :
  same_skel h1 h2 → getAPMemoryPointProp h1 mem = getAPMemoryPointProp h2 mem.
Proof.
  intros H. unfold getAPMemoryPointProp.
  rewrite (find_kid_skel h1 h2 mem _ (λ s, is_2d s.1.2) H), (property_at_proper h1 h2) by done.
  done.
Qed.

Lemma effectsParade_proper h1 h2 layer :
  same_skel h1 h2 → effectsParade h1 layer = effectsParade h2 layer.
Proof. intros H. unfold effectsParade. by apply property_proper. Qed.

Lemma value_of_upd_value h p v q :
  props h !! p = Some q → value_of (upd_prop p (with_value v) h) p = Some v.
Proof. intros Hq. unfold value_of. by rewrite props_upd_prop, lookup_alter_eq, Hq. Qed.

Lemma value_of_upd_keeps h p k f :
  (∀ q, pval (f q) = pval q) → value_of (upd_prop k f h) p = value_of h p.
Proof.
  intros Hf. unfold value_of. rewrite props_upd_prop, lookup_alter.
  case_decide; subst; [|done]. destruct (props h !! p); simpl; by rewrite ?Hf.
Qed.

Lemma setComment_ok p s h :
  is_Some (props h !! p) → setComment p s h = Ok tt (upd_prop p (with_comment s) h).
Proof. intros [q Hq]. unfold setComment, need. st_simpl. by rewrite Hq. Qed.

Lemma ensureAPMemoryEffect_found memName h layer fx mem :
  effectsParade h layer = Some fx → property h fx memName = Some mem →
  ensureAPMemoryEffect memName layer h = Ok mem h.
Proof. intros Hfx Hmem. unfold ensureAPMemoryEffect. st_simpl. by rewrite Hfx, Hmem. Qed.

(** ** Saving then loading the snapshot *)

Section roundtrip.
Variable memName : string.

Lemma saveAnchorToMemory_existing h layer ap a fx mem pp qpp :
  transform_prop h layer "ADBE Anchor Point" = Some ap →
  props h !! ap ≫= (λ q, xy (pval q)) = Some a →
  effectsParade h layer = Some fx → property h fx memName = Some mem →
  getAPMemoryPointProp h mem = Some pp → props h !! pp = Some qpp →
  settable qpp (VArr [a.1; a.2]) = true → is_Some (props h !! layer) →
  saveAnchorToMemory memName layer h =
    Ok tt (upd_prop layer (with_comment ("[AP saved] " +:+ toFixed 1 a.1 +:+ ", " +:+ toFixed 1 a.2))
             (upd_prop pp (with_value (VArr [a.1; a.2])) h)).
Proof.
  intros Hap Ha Hfx Hmem Hpp Hqpp Hset Hl.
  unfold saveAnchorToMemory. unfold mbind at 1, ST_bind at 1, get at 1. rewrite Hap.
  rewrite (bind_ok _ _ _ mem h) by (by eapply ensureAPMemoryEffect_found).
  unfold mbind at 1, ST_bind at 1, get at 1. rewrite Hpp.
  destruct (props h !! ap) as [qa|] eqn:Hqa; simplify_eq/=.
  unfold mbind at 1, ST_bind at 1, need at 1. rewrite Hqa. rewrite Ha.
  unfold mbind at 1, ST_bind at 1. rewrite (setValue_ok _ _ _ qpp) by done.
  apply catch_ok, setComment_ok.
  by rewrite props_upd_prop, lookup_alter_is_Some.
Qed.

(** Along the path layer / effect / point of [h], [getSavedAnchor] in any
    store with the same skeleton reads the point's value. *)
Lemma getSavedAnchor_path h h' layer fx mem pp :
  same_skel h' h → effectsParade h layer = Some fx → property h fx memName = Some mem →
  getAPMemoryPointProp h mem = Some pp →
  getSavedAnchor memName h' layer = value_of h' pp ≫= xy.
Proof.
  intros Hs Hfx Hmem Hpp. unfold getSavedAnchor.
  rewrite (effectsParade_proper _ _ _ Hs), Hfx. simpl.
  rewrite (property_proper _ _ Hs fx fx eq_refl _ _ eq_refl), Hmem. simpl.
  by rewrite (getAPMemoryPointProp_proper _ _ _ Hs), Hpp.
Qed.

(** C6. Save/load round trip, snapshot effect present: when the
    layer's anchor point holds a point [a] and the layer already has the
    snapshot effect whose point property accepts a 2D point,
    [saveAnchorToMemory] succeeds and [getSavedAnchor] on the resulting
    store returns exactly [a]. *)
Theorem save_then_load_existing h layer ap a fx mem pp qpp :
  transform_prop h layer "ADBE Anchor Point" = Some ap →
  props h !! ap ≫= (λ q, xy (pval q)) = Some a →
  effectsParade h layer = Some fx → property h fx memName = Some mem →
  getAPMemoryPointProp h mem = Some pp → props h !! pp = Some qpp →
  settable qpp (VArr [a.1; a.2]) = true → is_Some (props h !! layer) →
  ∃ h', saveAnchorToMemory memName layer h = Ok tt h' ∧
        getSavedAnchor memName h' layer = Some a.
Proof.
  intros Hap Ha Hfx Hmem Hpp Hqpp Hset Hl.
  eexists. split; [by eapply saveAnchorToMemory_existing|].
  rewrite (getSavedAnchor_path h _ layer fx mem pp); [|etrans; apply same_skel_upd; auto with ae|done..].
  rewrite value_of_upd_keeps, (value_of_upd_value _ _ _ qpp) by done.
  simpl. by destruct a.
Qed.
End roundtrip.

(** A layer (0) with Transform (5: anchor 6, position 7) and an Effect
    Parade (8) already holding the v2.0 snapshot effect (9) whose point
    property is 10. *)
Definition sample_memory_props : list (N * prop) := [
  (0%N, mkProp "ADBE Vector Layer" "Shape Layer 1" NO_VALUE VNone "" false false 0 "" [5%N; 8%N]);
  (5%N, mkProp "ADBE Transform Group" "Transform" NO_VALUE VNone "" false false 0 "" [6%N; 7%N]);
  (6%N, mkProp "ADBE Anchor Point" "Anchor Point" TwoD_SPATIAL (VArr [25; 50]) "" false true 0 "" []);
  (7%N, mkProp "ADBE Position" "Position" TwoD_SPATIAL (VArr [960; 540]) "" false true 0 "" []);
  (8%N, mkProp "ADBE Effect Parade" "Effects" NO_VALUE VNone "" false false 0 "" [9%N]);
  (9%N, mkProp "ADBE Point Control" memName_v20 NO_VALUE VNone "" false false 0 "" [10%N]);
  (10%N, mkProp "ADBE Point Control-0001" "Point" TwoD_SPATIAL (VArr [0; 0]) "" false true 0 "" [])].

Lemma save_then_load_existing_witness :
  let h := mkHost (list_to_map sample_memory_props) 11%N None [] in
  ∃ h', saveAnchorToMemory memName_v20 0%N h = Ok tt h' ∧
        getSavedAnchor memName_v20 h' 0%N = Some (25, 50).
Proof.
  intros h.
  apply (save_then_load_existing memName_v20 h 0%N 6%N (25, 50) 8%N 9%N 10%N
           (mkProp "ADBE Point Control-0001" "Point" TwoD_SPATIAL (VArr [0; 0]) "" false true 0 "" []));
    [reflexivity..|vm_compute; by eexists].
Defined.

(** ** The store invariant *)

Lemma ensureAPMemoryEffect_preserves `{HostInv P} memName layer : preserves P (ensureAPMemoryEffect memName layer).
Proof. unfold ensureAPMemoryEffect. preserve. Qed.

#[export] Hint Resolve ensureAPMemoryEffect_preserves : wf.

Lemma saveAnchorToMemory_preserves `{HostInv P} memName layer : preserves P (saveAnchorToMemory memName layer).
Proof. unfold saveAnchorToMemory. preserve. Qed.

#[export] Hint Resolve saveAnchorToMemory_preserves : wf.
