(* ===== verification/Measure.v ===== *)
(** * The Geometry Measurer

    [measureShape] of [src/CenterAP_AddRepeater_v2.0.jsx] with its inner
    [bboxFromShape] and [walk] (v1.9's [measureShapeSize] is in
    [Legacy]).  The walk visits the content tree
    depth first; the first rectangle, ellipse or path that yields a size
    wins, while the stroke width is the largest absolute value over the
    whole tree.  The accumulators are JavaScript variables that start as
    [null] and may hold [NaN] (a non-numeric property value): they are
    [option jsnum].  The recursion into sub-groups is bounded by [fuel];
    [measureShape] gives it [next_id], which bounds the depth of a
    well-formed store.

    Theorems: [bboxFromShape] against the bounding box of the vertices when
    the coordinates lie within the sentinels [1e9], and the wrong width it
    computes for a path entirely to the right of [x = 1e9]; the walk with
    fuel [next_id] equals the walk with any larger fuel on a well-formed
    store; the stroke width it reports is the largest of the widths a
    reference traversal [strokes] lists (max-wins, whatever the sizes);
    and, as an evaluated example, the measurement of a rectangle with a
    stroke (size without the stroke, stroke width separately). *)

From S2P Require Import Prelude Host Store.

(** A JavaScript number that may be [NaN]. *)
Inductive jsnum := JNum (q : Q) | JNaN.

(** [Math.abs(x)] of a value read as a number ([NaN] if it is not one). *)
Definition js_abs (x : option Q) : jsnum :=
  match x with Some q => JNum (Qabs q) | None => JNaN end.

(** [a > b]: false as soon as one side is [NaN]. *)
Definition js_gt (a b : jsnum) : bool :=
  match a, b with JNum x, JNum y => Qltb y x | _, _ => false end.

(** [x || 0] on a variable holding [null], [NaN] or a number. *)
Definition or_zero (x : option jsnum) : Q :=
  match x with Some (JNum q) => q | _ => 0 end.

Definition num_value (v : value) : option Q :=
  match v with VNum q => Some q | _ => None end.

(** [v[i]] of an array value. *)
Definition arr_at (v : value) (i : nat) : option Q :=
  match v with VArr xs => xs !! i | _ => None end.

Record measurement := mkMeasurement { m_w : Q; m_h : Q; m_strokeW : Q }.

(** ** [bboxFromShape] *)

(** The loop body: [if (pt[0] < minX) minX = pt[0]; ...]. *)
Definition bbox_step (b : Q * Q * Q * Q) (pt : Q * Q) : Q * Q * Q * Q :=
  let '(minX, maxX, minY, maxY) := b in
  (if Qltb pt.1 minX then pt.1 else minX,
   if Qltb maxX pt.1 then pt.1 else maxX,
   if Qltb pt.2 minY then pt.2 else minY,
   if Qltb maxY pt.2 then pt.2 else maxY).

Definition bboxFromShape (shapeVal : value) : option (Q * Q) :=
  match shapeVal with
  | VShape [] => None
  | VShape vertices =>
      let '(minX, maxX, minY, maxY) := fold_left bbox_step vertices (1e9, -1e9, 1e9, -1e9) in
      Some (Qmax 0 (maxX - minX), Qmax 0 (maxY - minY))
  | _ => None
  end.

(** ** [measureShape] *)

Record acc := mkAcc { strokeW : option jsnum; sizeW : option jsnum; sizeH : option jsnum }.

Definition size_missing (st : acc) : bool :=
  match sizeW st, sizeH st with Some _, Some _ => false | _, _ => true end.

Definition set_size (w hh : jsnum) (st : acc) : acc := mkAcc (strokeW st) (Some w) (Some hh).

(** [var v = Math.abs(sw.value); if (strokeW === null || v > strokeW) strokeW = v;] *)
Definition track_stroke (v : jsnum) (st : acc) : acc :=
  match strokeW st with
  | None => mkAcc (Some v) (sizeW st) (sizeH st)
  | Some s => if js_gt v s then mkAcc (Some v) (sizeW st) (sizeH st) else st
  end.

(** [var v = s.value; sizeW = Math.abs(v[0]); sizeH = Math.abs(v[1]);] *)
Definition size_from (h : host) (s : N) (st : acc) : acc :=
  let v := value_of h s in
  set_size (js_abs (v ≫= λ v, arr_at v 0)) (js_abs (v ≫= λ v, arr_at v 1)) st.

Fixpoint walk (fuel : nat) (h : host) (group : option N) (st : acc) : acc :=
  match fuel with
  | O => st
  | S fuel' =>
      match group with
      | None => st
      | Some g =>
          fold_left (λ st k,
            match props h !! k with
            | None => st
            | Some p =>
                if bool_decide (matchName p = "ADBE Vector Group") then
                  walk fuel' h (property h k "ADBE Vectors Group") st
                else if bool_decide (matchName p = "ADBE Vector Graphic - Stroke") then
                  match property h k "ADBE Vector Stroke Width" with
                  | Some sw => track_stroke (js_abs (value_of h sw ≫= num_value)) st
                  | None => st
                  end
                else if bool_decide (matchName p = "ADBE Vector Shape - Rect") && size_missing st then
                  match property h k "ADBE Vector Rect Size" with
                  | Some s => size_from h s st
                  | None => st
                  end
                else if bool_decide (matchName p = "ADBE Vector Shape - Ellipse") && size_missing st then
                  match property h k "ADBE Vector Ellipse Size" with
                  | Some e => size_from h e st
                  | None => st
                  end
                else if bool_decide (matchName p = "ADBE Vector Shape - Group") && size_missing st then
                  match property h k "ADBE Vector Shape" with
                  | Some shp =>
                      match value_of h shp ≫= bboxFromShape with
                      | Some bb => set_size (JNum bb.1) (JNum bb.2) st
                      | None => st
                      end
                  | None => st
                  end
                else st
            end)
            (match props h !! g with Some q => kids q | None => [] end) st
      end
  end.

Section measure.
Context `{R : Renderer}.

Definition measureShape (h : host) (layer : N) : measurement :=
  let contents := property h layer "ADBE Root Vectors Group" in
  let st := walk (N.to_nat (next_id h)) h contents (mkAcc None None None) in
  let st := if size_missing st
            then let r := sourceRectAtTime h layer false in
                 set_size (JNum (Qabs (rect_width r))) (JNum (Qabs (rect_height r))) st
            else st in
  mkMeasurement (or_zero (sizeW st)) (or_zero (sizeH st)) (or_zero (strokeW st)).
End measure.

(** A shape layer (0) whose Contents (1) hold a group (2) whose Vectors
    Group (3) holds a 100 x 50 rectangle (4, size 5) and a stroke of width
    10 (6, width 7). *)
Definition sample_rect_stroke_props : list (N * prop) := [
  (0%N, mkProp "ADBE Vector Layer" "Shape Layer 1" NO_VALUE VNone "" false false 0 "" [1%N]);
  (1%N, mkProp "ADBE Root Vectors Group" "Contents" NO_VALUE VNone "" false false 0 "" [2%N]);
  (2%N, mkProp "ADBE Vector Group" "Rectangle 1" NO_VALUE VNone "" false false 0 "" [3%N]);
  (3%N, mkProp "ADBE Vectors Group" "Contents" NO_VALUE VNone "" false false 0 "" [4%N; 6%N]);
  (4%N, mkProp "ADBE Vector Shape - Rect" "Rectangle Path 1" NO_VALUE VNone "" false false 0 "" [5%N]);
  (5%N, mkProp "ADBE Vector Rect Size" "Size" TwoD (VArr [100; 50]) "" false true 0 "" []);
  (6%N, mkProp "ADBE Vector Graphic - Stroke" "Stroke 1" NO_VALUE VNone "" false false 0 "" [7%N]);
  (7%N, mkProp "ADBE Vector Stroke Width" "Stroke Width" OneD (VNum 10) "" false true 0 "" [])].

Example measureShape_rect_stroke :
  let R : Renderer := λ _ _, mkRect 0 0 0 0 in
  let m := measureShape (mkHost (list_to_map sample_rect_stroke_props) 8%N None []) 0%N in
  m_w m == 100 ∧ m_h m == 50 ∧ m_strokeW m == 10.
Proof. vm_compute. split_and!; reflexivity. Qed.

(** ** [bboxFromShape] against the bounding box of the vertices *)

(** [if (x < m) m = x] and [if (x > m) m = x]: one coordinate of [bbox_step]. *)
Definition lo (m x : Q) : Q := if Qltb x m then x else m.
Definition hi (m x : Q) : Q := if Qltb m x then x else m.

(** The bounding box of the vertices [vs]: every vertex lies in
    [[l, r] x [t, b]], and each side is reached by a vertex. *)
Definition bbox_of (vs : list (Q * Q)) (l r t b : Q) : Prop :=
  (∀ v, v ∈ vs → (l <= v.1 <= r)%Q ∧ (t <= v.2 <= b)%Q) ∧
  (∃ v, v ∈ vs ∧ v.1 == l) ∧ (∃ v, v ∈ vs ∧ v.1 == r) ∧
  (∃ v, v ∈ vs ∧ v.2 == t) ∧ (∃ v, v ∈ vs ∧ v.2 == b).

Lemma lo_spec m x : (lo m x <= m)%Q ∧ (lo m x <= x)%Q ∧ (lo m x = m ∨ lo m x = x).
Proof.
  unfold lo, Qltb. destruct (Qle_bool m x) eqn:E; simpl.
  - apply Qle_bool_iff in E. split_and!; auto; apply Qle_refl.
  - assert (¬ (m <= x)%Q) by (rewrite <- Qle_bool_iff; congruence).
    split_and!; auto; [|apply Qle_refl]. apply Qlt_le_weak, Qnot_le_lt. done.
Qed.

Lemma hi_spec m x : (m <= hi m x)%Q ∧ (x <= hi m x)%Q ∧ (hi m x = m ∨ hi m x = x).
Proof.
  unfold hi, Qltb. destruct (Qle_bool x m) eqn:E; simpl.
  - apply Qle_bool_iff in E. split_and!; auto; apply Qle_refl.
  - assert (¬ (x <= m)%Q) by (rewrite <- Qle_bool_iff; congruence).
    split_and!; auto; [|apply Qle_refl]. apply Qlt_le_weak, Qnot_le_lt. done.
Qed.

Lemma bbox_fold vs a b c d :
  fold_left bbox_step vs (a, b, c, d) =
  (fold_left (λ m v, lo m v.1) vs a, fold_left (λ m v, hi m v.1) vs b,
   fold_left (λ m v, lo m v.2) vs c, fold_left (λ m v, hi m v.2) vs d).
Proof. revert a b c d. induction vs as [|v vs IH]; intros a b c d; [done|]. apply IH. Qed.

Section extremum.
Context (f : Q → Q → Q) (rel : Q → Q → Prop) (proj : Q * Q → Q).
Hypothesis f_spec : ∀ m x, rel (f m x) m ∧ rel (f m x) x ∧ (f m x = m ∨ f m x = x).
Hypothesis rel_refl : ∀ x, rel x x.
Hypothesis rel_trans : ∀ x y z, rel x y → rel y z → rel x z.

(** The running minimum (or maximum) of a fold: below the start and every
    element, and equal to the start or to an element. *)
Lemma fold_extremum vs a :
  let m := fold_left (λ m v, f m (proj v)) vs a in
  rel m a ∧ (∀ v, v ∈ vs → rel m (proj v)) ∧ (m = a ∨ ∃ v, v ∈ vs ∧ m = proj v).
Proof.
  revert a. induction vs as [|v vs IH]; intros a; simpl.
  - split_and!; [done| |by left]. intros v Hv. by apply not_elem_of_nil in Hv.
  - destruct (IH (f a (proj v))) as (H1 & H2 & H3). destruct (f_spec a (proj v)) as (F1 & F2 & F3).
    split_and!; [eauto| |].
    + intros w [->|Hw]%elem_of_cons; eauto.
    + destruct H3 as [-> | (w & Hw & ->)]; [|right; exists w; split; [by right|done]].
      destruct F3 as [-> | ->]; [by left|right; exists v; split; [left|done]].
Qed.

(** Started from a sentinel on the far side of every element, the running
    minimum (maximum) is the minimum (maximum), reached by an element. *)
Lemma fold_extremum_sentinel vs s :
  vs ≠ [] → (∀ v, v ∈ vs → rel (proj v) s) →
  let m := fold_left (λ m v, f m (proj v)) vs s in
  (∀ v, v ∈ vs → rel m (proj v)) ∧ ∃ v, v ∈ vs ∧ rel m (proj v) ∧ rel (proj v) m.
Proof.
  intros Hne Hs. destruct (fold_extremum vs s) as (H1 & H2 & H3). split; [done|].
  destruct H3 as [Hm | (v & Hv & Hm)].
  - destruct vs as [|v vs]; [done|]. exists v. split; [left|]. split; [apply H2; left|].
    rewrite Hm. apply Hs. left.
  - exists v. rewrite <- Hm. auto.
Qed.
End extremum.

Lemma Qle_trans_flip x y z : (y <= x)%Q → (z <= y)%Q → (z <= x)%Q.
Proof. intros. by apply (Qle_trans _ y). Qed.

Lemma lo_fold (proj : Q * Q → Q) vs a :
  let m := fold_left (λ m v, lo m (proj v)) vs a in
  (m <= a)%Q ∧ (∀ v, v ∈ vs → (m <= proj v)%Q) ∧ (m = a ∨ ∃ v, v ∈ vs ∧ m = proj v).
Proof. exact (fold_extremum lo Qle proj lo_spec Qle_refl Qle_trans vs a). Qed.

Lemma hi_fold (proj : Q * Q → Q) vs a :
  let m := fold_left (λ m v, hi m (proj v)) vs a in
  (a <= m)%Q ∧ (∀ v, v ∈ vs → (proj v <= m)%Q) ∧ (m = a ∨ ∃ v, v ∈ vs ∧ m = proj v).
Proof. exact (fold_extremum hi (λ x y, y <= x)%Q proj hi_spec Qle_refl Qle_trans_flip vs a). Qed.

Lemma lo_fold_sentinel (proj : Q * Q → Q) vs s :
  vs ≠ [] → (∀ v, v ∈ vs → (proj v <= s)%Q) →
  let m := fold_left (λ m v, lo m (proj v)) vs s in
  (∀ v, v ∈ vs → (m <= proj v)%Q) ∧ ∃ v, v ∈ vs ∧ proj v == m.
Proof.
  intros Hne Hs.
  destruct (fold_extremum_sentinel lo Qle proj lo_spec Qle_refl Qle_trans vs s Hne Hs)
    as (H1 & v & Hv & Hle1 & Hle2).
  split; [done|]. exists v. split; [done|]. by apply Qle_antisym.
Qed.

Lemma hi_fold_sentinel (proj : Q * Q → Q) vs s :
  vs ≠ [] → (∀ v, v ∈ vs → (s <= proj v)%Q) →
  let m := fold_left (λ m v, hi m (proj v)) vs s in
  (∀ v, v ∈ vs → (proj v <= m)%Q) ∧ ∃ v, v ∈ vs ∧ proj v == m.
Proof.
  intros Hne Hs.
  destruct (fold_extremum_sentinel hi (λ x y, y <= x)%Q proj hi_spec Qle_refl Qle_trans_flip
              vs s Hne Hs) as (H1 & v & Hv & Hle1 & Hle2).
  split; [done|]. exists v. split; [done|]. by apply Qle_antisym.
Qed.

(** The sentinels as plain numerals, which [lra] reads. *)
Lemma e9_num : (1e9 : Q) = 1000000000.
Proof. reflexivity. Qed.
Lemma neg_e9_num : (-1e9 : Q) = -1000000000.
Proof. reflexivity. Qed.

Ltac sentinel_lra := rewrite ?e9_num, ?neg_e9_num in *; lra.

(** The four running extrema of [bboxFromShape]'s loop, from its sentinels. *)
Definition run_minX (vs : list (Q * Q)) : Q := fold_left (λ m v, lo m v.1) vs 1e9.
Definition run_maxX (vs : list (Q * Q)) : Q := fold_left (λ m v, hi m v.1) vs (-1e9).
Definition run_minY (vs : list (Q * Q)) : Q := fold_left (λ m v, lo m v.2) vs 1e9.
Definition run_maxY (vs : list (Q * Q)) : Q := fold_left (λ m v, hi m v.2) vs (-1e9).

Lemma bboxFromShape_run vs :
  vs ≠ [] →
  bboxFromShape (VShape vs) =
    Some (Qmax 0 (run_maxX vs - run_minX vs), Qmax 0 (run_maxY vs - run_minY vs)).
Proof. destruct vs; [done|]. intros _. unfold bboxFromShape. cbv beta iota. by rewrite bbox_fold. Qed.

Lemma Qmax_0_nonneg x : (0 <= x)%Q → Qmax 0 x == x.
Proof. apply Q.max_r. Qed.

(** C13. Within the sentinels, [bboxFromShape] measures the bounding box:
    for a non-empty path whose coordinates all lie in [[-1e9, 1e9]], it
    returns the width [r - l] and height [b - t] of the smallest rectangle
    [[l, r] x [t, b]] holding every vertex. *)
Theorem bboxFromShape_box vs :
  vs ≠ [] →
  (∀ v, v ∈ vs → (-1e9 <= v.1 <= 1e9)%Q ∧ (-1e9 <= v.2 <= 1e9)%Q) →
  ∃ l r t b w hh, bbox_of vs l r t b ∧ bboxFromShape (VShape vs) = Some (w, hh) ∧
                  w == r - l ∧ hh == b - t.
Proof.
  intros Hne Hin.
  destruct (lo_fold_sentinel fst vs 1e9) as [L1 (vl & Hvl & El)]; [done|intros v Hv; by destruct (Hin v Hv) as [[? ?] [? ?]]|].
  destruct (hi_fold_sentinel fst vs (-1e9)) as [R1 (vr & Hvr & Er)]; [done|intros v Hv; by destruct (Hin v Hv) as [[? ?] [? ?]]|].
  destruct (lo_fold_sentinel snd vs 1e9) as [T1 (vt & Hvt & Et)]; [done|intros v Hv; by destruct (Hin v Hv) as [[? ?] [? ?]]|].
  destruct (hi_fold_sentinel snd vs (-1e9)) as [B1 (vb & Hvb & Eb)]; [done|intros v Hv; by destruct (Hin v Hv) as [[? ?] [? ?]]|].
  exists (run_minX vs), (run_maxX vs), (run_minY vs), (run_maxY vs).
  eexists _, _. split_and!; [|by apply bboxFromShape_run|..].
  - split_and!; [|by exists vl|by exists vr|by exists vt|by exists vb].
    intros v Hv. split; split; auto.
  - apply Qmax_0_nonneg. pose proof (L1 vl Hvl). pose proof (R1 vl Hvl).
    unfold run_minX, run_maxX. lra.
  - apply Qmax_0_nonneg. pose proof (T1 vt Hvt). pose proof (B1 vt Hvt).
    unfold run_minY, run_maxY. lra.
Qed.

Lemma bboxFromShape_box_witness :
  let vs := [(-50, -25); (50, -25); (50, 25); (-50, 25)] in
  vs ≠ [] ∧
  ∃ l r t b w hh, bbox_of vs l r t b ∧ bboxFromShape (VShape vs) = Some (w, hh) ∧
                  w == r - l ∧ hh == b - t.
Proof.
  intros vs. split; [done|]. apply bboxFromShape_box; [done|].
  intros v Hv. repeat (apply elem_of_cons in Hv as [->|Hv]; [vm_compute; split_and!; done|]).
  by apply not_elem_of_nil in Hv.
Defined.

(** C14. The sentinels leak into the result: for a non-empty path lying
    entirely to the right of [x = 1e9] (and within the sentinels
    vertically), [minX] keeps its start value [1e9], so [bboxFromShape]
    returns the width [r - 1e9] instead of [r - l], too large by
    [l - 1e9 > 0]; the height is still right. *)
Theorem bboxFromShape_far_right vs :
  vs ≠ [] →
  (∀ v, v ∈ vs → (1e9 < v.1)%Q ∧ (-1e9 <= v.2 <= 1e9)%Q) →
  ∃ l r t b w hh, bbox_of vs l r t b ∧ bboxFromShape (VShape vs) = Some (w, hh) ∧
                  w == r - 1e9 ∧ (r - l < w)%Q ∧ hh == b - t.
Proof.
  intros Hne Hin. destruct vs as [|v0 vs0] eqn:Evs; [done|]. rewrite <- Evs in *.
  assert (Hv0 : v0 ∈ vs) by (subst; left).
  assert (Emin : run_minX vs = 1e9).
  { destruct (lo_fold fst vs 1e9) as (_ & _ & [E | (v & Hv & E)]); [done|].
    destruct (lo_fold fst vs 1e9) as (Hle & _).
    destruct (Hin v Hv) as [Hgt _]. simpl in *. unfold run_minX in *. rewrite E in Hle. sentinel_lra. }
  destruct (lo_fold fst vs v0.1) as (_ & L1 & HL).
  destruct (hi_fold_sentinel fst vs (-1e9)) as [R1 (vr & Hvr & Er)];
    [done|intros v Hv; destruct (Hin v Hv) as [? _]; simpl; sentinel_lra|].
  destruct (lo_fold_sentinel snd vs 1e9) as [T1 (vt & Hvt & Et)];
    [done|intros v Hv; by destruct (Hin v Hv) as [_ [? ?]]|].
  destruct (hi_fold_sentinel snd vs (-1e9)) as [B1 (vb & Hvb & Eb)];
    [done|intros v Hv; by destruct (Hin v Hv) as [_ [? ?]]|].
  set (l := fold_left (λ m v, lo m v.1) vs v0.1) in *.
  assert (Hl : ∃ v, v ∈ vs ∧ v.1 == l).
  { destruct HL as [E | (v & Hv & E)]; [exists v0|exists v]; rewrite E; split; try done; reflexivity. }
  destruct Hl as (vl & Hvl & El).
  exists l, (run_maxX vs), (run_minY vs), (run_maxY vs).
  eexists _, _. split_and!; [|by apply bboxFromShape_run|..].
  - split_and!; [|by exists vl|by exists vr|by exists vt|by exists vb].
    intros v Hv. split; split; auto.
  - rewrite Emin. apply Qmax_0_nonneg. pose proof (R1 v0 Hv0). destruct (Hin v0 Hv0).
    unfold run_maxX in *. sentinel_lra.
  - rewrite Emin. pose proof (R1 v0 Hv0). destruct (Hin v0 Hv0). destruct (Hin vl Hvl).
    rewrite Qmax_0_nonneg; unfold run_maxX in *; sentinel_lra.
  - apply Qmax_0_nonneg. pose proof (T1 vt Hvt). pose proof (B1 vt Hvt).
    unfold run_minY, run_maxY. lra.
Qed.

Lemma bboxFromShape_far_right_witness :
  let vs := [(2e9, 0); (3e9, 10)] in
  bboxFromShape (VShape vs) = Some (2e9, 10) ∧
  ∃ l r t b w hh, bbox_of vs l r t b ∧ bboxFromShape (VShape vs) = Some (w, hh) ∧
                  w == r - 1e9 ∧ (r - l < w)%Q ∧ hh == b - t.
Proof.
  intros vs. split; [vm_compute; reflexivity|]. apply bboxFromShape_far_right; [done|].
  intros v Hv. repeat (apply elem_of_cons in Hv as [->|Hv];
    [split; [|split]; first [reflexivity | apply Qle_bool_iff; reflexivity]|]).
  by apply not_elem_of_nil in Hv.
Defined.

(** ** The walk reads the whole tree *)

Lemma walk_None fuel h st : walk fuel h None st = st.
Proof. by destruct fuel. Qed.

Lemma walk_absent fuel h g st : props h !! g = None → walk fuel h (Some g) st = st.
Proof. intros E. destruct fuel; simpl; [done|]. by rewrite E. Qed.

(** Any two fuels at least [next_id - g] give the same walk from [g]. *)
Lemma walk_fuel_stable h f1 f2 g st :
  wf h →
  (N.to_nat (next_id h) - N.to_nat g ≤ f1)%nat → (N.to_nat (next_id h) - N.to_nat g ≤ f2)%nat →
  walk f1 h (Some g) st = walk f2 h (Some g) st.
Proof.
  intros Hw. revert f2 g st. induction f1 as [|f1 IH]; intros f2 g st H1 H2.
  - rewrite (walk_absent f2) by (apply wf_absent; [done|lia]). done.
  - destruct f2 as [|f2]; [rewrite (walk_absent (S f1)) by (apply wf_absent; [done|lia]); done|].
    simpl. destruct (props h !! g) as [q|] eqn:Hg; [|done].
    apply fold_left_ext_in. intros acc k Hk.
    destruct (Hw g q Hg) as [_ Hks]. destruct (proj1 (Forall_forall _ _) Hks k Hk) as [Hgk _].
    destruct (props h !! k) as [p|]; [|done].
    case_bool_decide; [|done].
    destruct (property h k "ADBE Vectors Group") as [v|] eqn:Hv; [|by rewrite !walk_None].
    pose proof (property_gt h k _ v Hw Hv). apply IH; lia.
Qed.



(** ** The stroke width is the largest one: the reference *)

(** The absolute stroke widths the walk meets, in its order: sub-groups
    are entered, stroke nodes give their width, everything else gives
    nothing.  A reference for the accumulator [strokeW], which the walk
    updates interleaved with the size accumulators. *)
Fixpoint strokes (fuel : nat) (h : host) (group : option N) : list jsnum :=
  match fuel with
  | O => []
  | S fuel' =>
      match group with
      | None => []
      | Some g =>
          flat_map (λ k,
            match props h !! k with
            | None => []
            | Some p =>
                if bool_decide (matchName p = "ADBE Vector Group") then
                  strokes fuel' h (property h k "ADBE Vectors Group")
                else if bool_decide (matchName p = "ADBE Vector Graphic - Stroke") then
                  match property h k "ADBE Vector Stroke Width" with
                  | Some sw => [js_abs (value_of h sw ≫= num_value)]
                  | None => []
                  end
                else []
            end)
            (match props h !! g with Some q => kids q | None => [] end)
      end
  end.

(** [if (strokeW === null || v > strokeW) strokeW = v;] on the variable. *)
Definition track (o : option jsnum) (v : jsnum) : option jsnum :=
  match o with
  | None => Some v
  | Some s => if js_gt v s then Some v else o
  end.

(** The largest of a list of widths, [0] for none. *)
Definition max_width (qs : list Q) : Q :=
  match qs with [] => 0 | q :: qs => fold_left hi qs q end.

Lemma strokeW_track_stroke v st : strokeW (track_stroke v st) = track (strokeW st) v.
Proof. unfold track_stroke, track. destruct (strokeW st) as [s|] eqn:E; simpl; [by destruct (js_gt v s)|done]. Qed.

(** The walk's [strokeW] is the reference list folded by [track]: the
    size branches never touch it. *)
Lemma walk_strokeW fuel h g st :
  strokeW (walk fuel h g st) = fold_left track (strokes fuel h g) (strokeW st).
Proof.
  revert g st. induction fuel as [|fuel IH]; intros [g|] st; simpl; try done.
  generalize (match props h !! g with Some q => kids q | None => [] end) as ks.
  intros ks. revert st. induction ks as [|k ks IHks]; intros st; simpl; [done|].
  rewrite IHks, fold_left_app. f_equal.
  destruct (props h !! k) as [p|]; [|done].
  case_bool_decide; [apply IH|]. case_bool_decide.
  - destruct (property h k _); [apply strokeW_track_stroke|done].
  - destruct (size_missing st); rewrite ?andb_true_r, ?andb_false_r;
      repeat case_bool_decide; simpl; repeat case_match; done.
Qed.

Lemma fold_track_num qs m :
  fold_left track (map JNum qs) (Some (JNum m)) = Some (JNum (fold_left hi qs m)).
Proof.
  revert m. induction qs as [|q qs IH]; intros m; simpl; [done|].
  rewrite <- IH. unfold track, hi. simpl. by destruct (Qltb m q).
Qed.

(** C26. Max-wins stroke accumulation (spec 4.2): when every stroke
    width the walk meets is a number, the stroke width [measureShape]
    reports is the largest absolute stroke width of the content tree
    ([0] when there is none), whatever the size branches found and
    whether the size fallback to [sourceRectAtTime] is taken. *)
Theorem measureShape_strokeW `{Renderer} h layer qs :
  strokes (N.to_nat (next_id h)) h (property h layer "ADBE Root Vectors Group") = map JNum qs →
  m_strokeW (measureShape h layer) = max_width qs.
Proof.
  intros Hs. unfold measureShape. cbn zeta.
  match goal with |- m_strokeW (mkMeasurement _ _ (or_zero (strokeW ?st))) = _ =>
    assert (E : strokeW st = strokeW (walk (N.to_nat (next_id h)) h
                  (property h layer "ADBE Root Vectors Group") (mkAcc None None None)))
      by (by destruct (size_missing _)) end.
  cbn [m_strokeW]. rewrite E, walk_strokeW, Hs. cbn [strokeW].
  destruct qs as [|q qs]; [done|]. simpl. by rewrite fold_track_num.
Qed.

(** The stroked rectangle: one stroke of width 10. *)
Lemma measureShape_strokeW_witness :
  let R : Renderer := λ _ _, mkRect 0 0 0 0 in
  let h := mkHost (list_to_map sample_rect_stroke_props) 8%N None [] in
  strokes (N.to_nat (next_id h)) h (property h 0%N "ADBE Root Vectors Group") = map JNum [10] ∧
  m_strokeW (measureShape h 0%N) = max_width [10].
Proof.
  intros R h. assert (Hs : strokes (N.to_nat (next_id h)) h (property h 0%N "ADBE Root Vectors Group")
                           = map JNum [10]) by (vm_compute; reflexivity).
  split; [exact Hs|]. by apply measureShape_strokeW.
Defined.
