(* ===== verification/Repeater.v ===== *)
(** * The Generator Binder and the Preset Parameter Engine

    [addRepeater], [bindRepeater] and [applyRepeaterPreset] of
    [src/CenterAP_AddRepeater_v2.0.jsx].  [addRepeater] appends a Repeater
    to the layer's Contents; [bindRepeater] drives the Repeater's transform
    anchor by the expression [thisLayer.transform.anchorPoint] (or copies
    the layer's anchor point when the property takes no expression) and
    clears a stale expression of the Repeater position; the preset writes
    copies, position and rotation, each write on its own ([setNum] and
    [setVec] swallow a refused value), from the measurement of
    [measureShape]: [extra = strokeW + 20].  The preset name is the text of
    the panel's drop-down list.

    Theorems: the preset table (the values each preset writes, for every
    measurement), the independence of the three writes, and the binding
    established by [bindRepeater].  Lemmas for the composition in
    [Pipeline]: the three functions keep [Store.frame], and the preset
    completes on every well-formed store. *)

From S2P Require Import Prelude Host Store Finders Anchor Memory Measure.

Definition addRepeater (layer : N) : ST host N :=
  h ← get;
  match property h layer "ADBE Root Vectors Group" with
  | None => mthrow "Could not access layer Contents."
  | Some contents =>
      r ← addProperty contents "ADBE Vector Filter - Repeater";
      match r with
      | None => mthrow "Could not add Repeater."
      | Some repeater => mret repeater
      end
  end.

Definition exprAnchor : string := "thisLayer.transform.anchorPoint".

Definition bindRepeater (layer repeater : N) : ST host unit :=
  h ← get;
  match repeaterTransform h repeater with
  | None => mthrow "Could not access Repeater Transform group."
  | Some repXform =>
      match findRepeaterAnchor h repXform with
      | None => mthrow "Could not access Repeater Transform > Anchor."
      | Some repAnchor =>
          qa ← need repAnchor;
          (if canSetExpression qa then setExpression repAnchor exprAnchor
           else
             match transform_prop h layer "ADBE Anchor Point" with
             | Some ap => apq ← need ap; setValue repAnchor (pval apq)
             | None => mthrow "TypeError: layer.transform.anchorPoint is undefined"
             end);;
          h ← get;
          match findVectorPosition h repXform with
          | None => mret tt
          | Some repPos =>
              qp ← need repPos;
              (if canSetExpression qp && expressionEnabled qp
               then setExpression repPos "" else mret tt);;
              qp ← need repPos;
              match xy (pval qp) with
              | Some _ => mret tt
              | None => catch (setValue repPos (VArr [0; 0])) (λ _, setValue repPos (VArr [0; 0]))
              end
          end
      end
  end.

(** [clearExpr], [setNum] and [setVec] of [applyRepeaterPreset]. *)
Definition clearExpr (p : N) : ST host unit :=
  q ← need p;
  if canSetExpression q && expressionEnabled q then setExpression p "" else mret tt.

Definition setNum (p : option N) (val : Q) : ST host unit :=
  match p with
  | None => mret tt
  | Some p => clearExpr p;; catch (setValue p (VNum val)) (λ _, mret tt)
  end.

Definition setVec (p : option N) (arr : Q * Q) : ST host unit :=
  match p with
  | None => mret tt
  | Some p => clearExpr p;; catch (setValue p (VArr [arr.1; arr.2])) (λ _, mret tt)
  end.

(** The debug alert of [applyRepeaterPreset]. *)
Definition debug_message (s : measurement) : string :=
  "Measured (excluding stroke):" +:+ nl +:+
  "w = " +:+ toFixed 2 (m_w s) +:+ ", h = " +:+ toFixed 2 (m_h s) +:+ nl +:+
  "max strokeW = " +:+ toFixed 2 (m_strokeW s).

(** The padding between copies: [(s.strokeW || 0) + 20]. *)
Definition extra_of (s : measurement) : Q := m_strokeW s + 20.

Section preset.
Context `{R : Renderer}.

Definition applyRepeaterPreset (gDebug : bool) (layer repeater : N) (presetName : string)
    : ST host unit :=
  h ← get;
  match repeaterTransform h repeater with
  | None => mret tt
  | Some repXform =>
      let pCopies := findCopies h repeater in
      let pPos := findVectorPosition h repXform in
      let pRot := findRotation h repXform in
      let s := measureShape h layer in
      (if gDebug then modify (add_alert (debug_message s)) else mret tt);;
      let w := m_w s in
      let hh := m_h s in
      let extra := extra_of s in
      if bool_decide (presetName = "Vertical Repeater") then
        setNum pCopies 10;; setVec pPos (0, hh + extra);; setNum pRot 0
      else if bool_decide (presetName = "Horizontal Repeater") then
        setNum pCopies 10;; setVec pPos (w + extra, 0);; setNum pRot 0
      else if bool_decide (presetName = "Spiral Repeater") then
        setNum pCopies 10;; setVec pPos (0, 0);; setNum pRot 10
      else mret tt
  end.
End preset.

(** ** The preset table of the specification (section 4.5) *)

(** The spec's preset table (section 4.5) given the position the
    vertical and the horizontal preset write: copies, position and
    rotation; [None]: the preset leaves the Repeater as the host created
    it. *)
Definition table_gen (presetName : string) (vert horiz : Q * Q) : option (Q * (Q * Q) * Q) :=
  if bool_decide (presetName = "Vertical Repeater") then Some (10, vert, 0)
  else if bool_decide (presetName = "Horizontal Repeater") then Some (10, horiz, 0)
  else if bool_decide (presetName = "Spiral Repeater") then Some (10, (0, 0), 10)
  else None.

(** The table with [pad = strokeW + 20]. *)
Definition preset_table (presetName : string) (s : measurement) : option (Q * (Q * Q) * Q) :=
  table_gen presetName (0, m_h s + (m_strokeW s + 20)) (m_w s + (m_strokeW s + 20), 0).

(** ** The best-effort writes *)

(** The store after [clearExpr p] on the property [q] at [p]. *)
Definition cleared (p : N) (q : prop) (h : host) : host :=
  if canSetExpression q && expressionEnabled q then upd_prop p (with_expression "" false) h else h.

Lemma clearExpr_spec p q h :
  props h !! p = Some q → clearExpr p h = Ok tt (cleared p q h).
Proof.
  intros Hq. unfold clearExpr, cleared, need. st_simpl. rewrite Hq.
  destruct (canSetExpression q && expressionEnabled q) eqn:E; [|done].
  apply andb_true_iff in E as [E _]. unfold setExpression, need. st_simpl.
  rewrite Hq, E. done.
Qed.

Lemma cleared_lookup p q h :
  props h !! p = Some q →
  props (cleared p q h) !! p =
    Some (if canSetExpression q && expressionEnabled q then with_expression "" false q else q).
Proof.
  intros Hq. unfold cleared. destruct (_ && _); [|done].
  by rewrite props_upd_prop, lookup_alter_eq, Hq.
Qed.

Lemma cleared_other p q h k : k ≠ p → props (cleared p q h) !! k = props h !! k.
Proof. intros Hk. unfold cleared. destruct (_ && _); [|done]. by rewrite props_upd_prop, lookup_alter_ne. Qed.

(** A write of [v] at [p] that never throws: the value is written when the
    property accepts it, and nothing but [p] changes either way. *)
Lemma best_effort_write p v q h :
  props h !! p = Some q →
  ∃ h', (clearExpr p;; catch (setValue p v) (λ _, mret tt)) h = Ok tt h' ∧
        (∀ k, k ≠ p → props h' !! k = props h !! k) ∧
        (settable q v = true →
           value_of h' p = Some v ∧
           ∃ q', props h' !! p = Some q' ∧ expressionEnabled q' = negb (canSetExpression q) && expressionEnabled q).
Proof.
  intros Hq. rewrite (bind_ok _ _ _ tt (cleared p q h)) by (by apply clearExpr_spec).
  set (q0 := if canSetExpression q && expressionEnabled q then with_expression "" false q else q).
  assert (Hq0 : props (cleared p q h) !! p = Some q0) by (by apply cleared_lookup).
  assert (Hs : settable q0 v = settable q v).
  { unfold q0. by destruct (_ && _). }
  destruct (settable q v) eqn:Hset.
  - eexists. rewrite (catch_ok _ _ _ tt (upd_prop p (with_value v) (cleared p q h))) by (apply (setValue_ok _ _ _ q0); congruence).
    split_and!; [done| |].
    + intros k Hk. rewrite props_upd_prop, lookup_alter_ne by done. by apply cleared_other.
    + intros _. unfold value_of. rewrite props_upd_prop, lookup_alter_eq, Hq0. split; [done|].
      eexists. split; [done|]. unfold q0. simpl.
      destruct (canSetExpression q), (expressionEnabled q) eqn:Ee; simpl; rewrite ?Ee; reflexivity.
  - eexists. rewrite (catch_exn _ _ _ "setValue: the property cannot take this value" (cleared p q h))
      by (apply (setValue_refused _ _ _ q0); congruence).
    split_and!; [done| |done]. intros k Hk. by apply cleared_other.
Qed.

(** A found property that accepts any number, any 2D point. *)
Definition accepts_num (h : host) (p : option N) : Prop :=
  ∀ k, p = Some k → ∃ q, props h !! k = Some q ∧ numKeys q = 0%nat ∧ pvtype q = OneD.
Definition accepts_point (h : host) (p : option N) : Prop :=
  ∀ k, p = Some k → ∃ q, props h !! k = Some q ∧ numKeys q = 0%nat ∧ is_point_type (pvtype q) = true.
(** The found property (if any) holds [v]. *)
Definition holds (h : host) (p : option N) (v : value) : Prop :=
  ∀ k, p = Some k → value_of h k = Some v.
Definition exists_opt (h : host) (p : option N) : Prop :=
  ∀ k, p = Some k → is_Some (props h !! k).

Lemma write_opt (o : option N) v (acc : prop → Prop) h :
  exists_opt h o → (∀ q, acc q → settable q v = true) →
  ∃ h', (match o with
         | None => mret tt
         | Some p => clearExpr p;; catch (setValue p v) (λ _, mret tt)
         end) h = Ok tt h' ∧
        (∀ k, o ≠ Some k → props h' !! k = props h !! k) ∧
        ((∀ k, o = Some k → ∃ q, props h !! k = Some q ∧ acc q) → holds h' o v).
Proof.
  intros Hex Hacc. destruct o as [p|]; [|eexists; split_and!; [done|done|by intros ? ?]].
  destruct (Hex p eq_refl) as [q Hq].
  destruct (best_effort_write p v q h Hq) as (h' & Hrun & Hfr & Hval).
  exists h'. split_and!; [done| |].
  - intros k Hk. apply Hfr. congruence.
  - intros Ha k [= <-]. destruct (Ha p eq_refl) as (q' & Hq' & Hq'a).
    rewrite Hq in Hq'. injection Hq' as <-. by apply Hval, Hacc.
Qed.

Lemma holds_frame h h' o v :
  holds h o v → (∀ k, o = Some k → props h' !! k = props h !! k) → holds h' o v.
Proof. intros Hh Hf k Hk. unfold value_of. rewrite Hf by done. by apply Hh. Qed.

Lemma exists_frame h h' o :
  exists_opt h o → (∀ k, o = Some k → props h' !! k = props h !! k) → exists_opt h' o.
Proof. intros Hh Hf k Hk. rewrite Hf by done. by apply Hh. Qed.

Lemma on_frame (P : prop → Prop) h h' o :
  (∀ k, o = Some k → ∃ q, props h !! k = Some q ∧ P q) →
  (∀ k, o = Some k → props h' !! k = props h !! k) →
  (∀ k, o = Some k → ∃ q, props h' !! k = Some q ∧ P q).
Proof. intros Hh Hf k Hk. rewrite Hf by done. by apply Hh. Qed.

Definition distinct_opt (a b : option N) : Prop := ∀ k, a = Some k → b ≠ Some k.

(** The three writes of a preset, in the order of the source. *)
Lemma preset_writes c pos r n p rot h :
  exists_opt h c → exists_opt h pos → exists_opt h r →
  distinct_opt c pos → distinct_opt c r → distinct_opt pos r →
  ∃ h', (setNum c n;; setVec pos p;; setNum r rot) h = Ok tt h' ∧
        (accepts_num h c → holds h' c (VNum n)) ∧
        (accepts_point h pos → holds h' pos (VArr [p.1; p.2])) ∧
        (accepts_num h r → holds h' r (VNum rot)).
Proof.
  intros Ec Ep Er Dcp Dcr Dpr.
  assert (Hn : ∀ x q, (numKeys q = 0%nat ∧ pvtype q = OneD) → settable q (VNum x) = true).
  { intros x q [Hk Ht]. unfold settable. by rewrite Hk, Ht. }
  assert (Hp : ∀ q, (numKeys q = 0%nat ∧ is_point_type (pvtype q) = true) →
                    settable q (VArr [p.1; p.2]) = true).
  { intros q [Hk Ht]. by apply point_settable. }
  destruct (write_opt c (VNum n) _ h Ec (Hn n)) as (h1 & R1 & F1 & V1).
  assert (F1p : ∀ k, pos = Some k → props h1 !! k = props h !! k).
  { intros k Hk. apply F1. intros Hc. by apply (Dcp k). }
  assert (F1r : ∀ k, r = Some k → props h1 !! k = props h !! k).
  { intros k Hk. apply F1. intros Hc. by apply (Dcr k). }
  destruct (write_opt pos (VArr [p.1; p.2]) _ h1 (exists_frame _ _ _ Ep F1p) Hp)
    as (h2 & R2 & F2 & V2).
  assert (F2r : ∀ k, r = Some k → props h2 !! k = props h1 !! k).
  { intros k Hk. apply F2. intros Hc. by apply (Dpr k). }
  assert (F2c : ∀ k, c = Some k → props h2 !! k = props h1 !! k).
  { intros k Hk. apply F2. intros Hc. by apply (Dcp k). }
  destruct (write_opt r (VNum rot) _ h2
              (exists_frame _ _ _ (exists_frame _ _ _ Er F1r) F2r) (Hn rot))
    as (h3 & R3 & F3 & V3).
  assert (F3c : ∀ k, c = Some k → props h3 !! k = props h2 !! k).
  { intros k Hk. apply F3. intros Hc. by apply (Dcr k). }
  assert (F3p : ∀ k, pos = Some k → props h3 !! k = props h2 !! k).
  { intros k Hk. apply F3. intros Hc. by apply (Dpr k). }
  exists h3. split_and!.
  - unfold setNum at 1, setVec. rewrite (bind_ok _ _ _ tt h1) by done.
    rewrite (bind_ok _ _ _ tt h2) by done. done.
  - intros Ha. eapply holds_frame; [eapply holds_frame; [by apply V1|done]|done].
  - intros Ha. eapply holds_frame; [apply V2|done]. by eapply on_frame.
  - intros Ha. apply V3. eapply on_frame; [eapply on_frame|]; [exact Ha|done|done].
Qed.

(** The [switch (presetName)] of [applyRepeaterPreset] against the table. *)
Lemma preset_switch_spec presetName c pos r vert horiz h :
  exists_opt h c → exists_opt h pos → exists_opt h r →
  distinct_opt c pos → distinct_opt c r → distinct_opt pos r →
  ∃ h', (if bool_decide (presetName = "Vertical Repeater") then
           setNum c 10;; setVec pos vert;; setNum r 0
         else if bool_decide (presetName = "Horizontal Repeater") then
           setNum c 10;; setVec pos horiz;; setNum r 0
         else if bool_decide (presetName = "Spiral Repeater") then
           setNum c 10;; setVec pos (0, 0);; setNum r 10
         else mret tt) h = Ok tt h' ∧
    match table_gen presetName vert horiz with
    | Some (n, p, rot) =>
        (accepts_num h c → holds h' c (VNum n)) ∧
        (accepts_point h pos → holds h' pos (VArr [p.1; p.2])) ∧
        (accepts_num h r → holds h' r (VNum rot))
    | None => props h' = props h
    end.
Proof.
  intros. unfold table_gen.
  repeat case_bool_decide; [apply preset_writes; done..|by eexists].
Qed.

Section preset_theorems.
Context `{R : Renderer}.

Lemma debug_alert_props (gDebug : bool) s h :
  ∃ h', (if gDebug then modify (add_alert (debug_message s)) else (mret tt : ST host unit)) h = Ok tt h' ∧
        props h' = props h.
Proof. destruct gDebug; eexists; split; reflexivity. Qed.

(** C10. The preset table: for every preset name and every measurement,
    [applyRepeaterPreset] returns normally; when the name is one of the
    three presets, each of the copies, position and rotation properties
    that is found and accepts a value of its type holds the value the
    specification's table gives for the measured size and stroke
    ([Vertical]: 10, (0, h + strokeW + 20), 0; [Horizontal]: 10,
    (w + strokeW + 20, 0), 0; [Spiral]: 10, (0, 0), 10), whether or not
    the other two writes succeed; any other name leaves every property
    unchanged. *)
Theorem applyRepeaterPreset_table gDebug h layer repeater presetName xf :
  repeaterTransform h repeater = Some xf →
  distinct_opt (findCopies h repeater) (findVectorPosition h xf) →
  distinct_opt (findCopies h repeater) (findRotation h xf) →
  distinct_opt (findVectorPosition h xf) (findRotation h xf) →
  ∃ h', applyRepeaterPreset gDebug layer repeater presetName h = Ok tt h' ∧
    match preset_table presetName (measureShape h layer) with
    | Some (n, p, rot) =>
        (accepts_num h (findCopies h repeater) → holds h' (findCopies h repeater) (VNum n)) ∧
        (accepts_point h (findVectorPosition h xf) →
           holds h' (findVectorPosition h xf) (VArr [p.1; p.2])) ∧
        (accepts_num h (findRotation h xf) → holds h' (findRotation h xf) (VNum rot))
    | None => props h' = props h
    end.
Proof.
  intros Hxf Dcp Dcr Dpr.
  destruct (debug_alert_props gDebug (measureShape h layer) h) as (ha & Ha & Hpa).
  assert (Ex : ∀ o, (∀ k, o = Some k → is_Some (props h !! k)) → exists_opt ha o).
  { intros o Ho k Hk. rewrite Hpa. by apply Ho. }
  unfold applyRepeaterPreset. rewrite bind_get, Hxf. cbv zeta.
  rewrite (bind_ok _ _ _ _ _ Ha). unfold preset_table, extra_of.
  destruct (preset_switch_spec presetName (findCopies h repeater) (findVectorPosition h xf)
              (findRotation h xf) (0, m_h (measureShape h layer) + (m_strokeW (measureShape h layer) + 20))
              (m_w (measureShape h layer) + (m_strokeW (measureShape h layer) + 20), 0) ha)
    as (h' & E & T); [apply Ex; eauto with ae..|done|done|done|].
  exists h'. split; [exact E|].
  destruct (table_gen _ _ _) as [[[n p] rot]|]; [|by rewrite T].
  destruct T as (T1 & T2 & T3). split_and!; intros Hacc;
    [apply T1|apply T2|apply T3]; intros k Hk; rewrite Hpa; by apply Hacc.
Qed.
End preset_theorems.

(** The shape layer of [Measure] after [addRepeater]: the Repeater is 8,
    its transform group 12. *)
Definition sample_with_repeater : host :=
  res_state (addRepeater 0%N (mkHost (list_to_map sample_rect_stroke_props) 8%N None [])).

Lemma applyRepeaterPreset_table_witness :
  let R : Renderer := λ _ _, mkRect 0 0 0 0 in
  let h := sample_with_repeater in
  ∃ h', applyRepeaterPreset false 0%N 8%N "Vertical Repeater" h = Ok tt h' ∧
    match preset_table "Vertical Repeater" (measureShape h 0%N) with
    | Some (n, p, rot) =>
        (accepts_num h (findCopies h 8%N) → holds h' (findCopies h 8%N) (VNum n)) ∧
        (accepts_point h (findVectorPosition h 12%N) →
           holds h' (findVectorPosition h 12%N) (VArr [p.1; p.2])) ∧
        (accepts_num h (findRotation h 12%N) → holds h' (findRotation h 12%N) (VNum rot))
    | None => props h' = props h
    end.
Proof.
  intros R h. apply (applyRepeaterPreset_table false h 0%N 8%N "Vertical Repeater" 12%N).
  - vm_compute. reflexivity.
  - intros k Hk. vm_compute in Hk |- *. injection Hk as <-. congruence.
  - intros k Hk. vm_compute in Hk |- *. injection Hk as <-. congruence.
  - intros k Hk. vm_compute in Hk |- *. injection Hk as <-. congruence.
Defined.

(** ** The store invariant *)

Lemma addRepeater_preserves `{HostInv P} layer : preserves P (addRepeater layer).
Proof. unfold addRepeater. preserve. Qed.
Lemma bindRepeater_preserves `{HostInv P} layer repeater : preserves P (bindRepeater layer repeater).
Proof. unfold bindRepeater. preserve. Qed.
Lemma clearExpr_preserves `{HostInv P} p : preserves P (clearExpr p).
Proof. unfold clearExpr. preserve. Qed.

#[export] Hint Resolve addRepeater_preserves bindRepeater_preserves clearExpr_preserves : wf.

Lemma setNum_preserves `{HostInv P} p v : preserves P (setNum p v).
Proof. unfold setNum. preserve. Qed.
Lemma setVec_preserves `{HostInv P} p v : preserves P (setVec p v).
Proof. unfold setVec. preserve. Qed.

#[export] Hint Resolve setNum_preserves setVec_preserves : wf.

Lemma applyRepeaterPreset_preserves `{HostInv P} `{!AlertInv P} `{Renderer} gDebug layer repeater presetName :
  preserves P (applyRepeaterPreset gDebug layer repeater presetName).
Proof. unfold applyRepeaterPreset. preserve. Qed.

#[export] Hint Resolve applyRepeaterPreset_preserves : wf.

(** Without the debug alert, the preset keeps every invariant of the
    host calls, the quiet alert log included. *)
Lemma applyRepeaterPreset_nodebug_preserves `{HostInv P} `{Renderer} layer repeater presetName :
  preserves P (applyRepeaterPreset false layer repeater presetName).
Proof. unfold applyRepeaterPreset. preserve. Qed.

(** With the debug flag, the preset appends exactly the debug alert of
    the measurement; without it, none. *)
Lemma applyRepeaterPreset_alerts `{Renderer} gDebug layer repeater presetName h xf :
  wf h → repeaterTransform h repeater = Some xf →
  alerts (res_state (applyRepeaterPreset gDebug layer repeater presetName h)) =
  alerts h ++ (if gDebug then [debug_message (measureShape h layer)] else []).
Proof.
  intros Hw Hxf. unfold applyRepeaterPreset. rewrite bind_get, Hxf. cbv zeta.
  destruct gDebug; [rewrite (bind_ok _ _ _ tt (add_alert (debug_message (measureShape h layer)) h)) by done
                   |rewrite (bind_ok _ _ _ tt h) by done]; cbv beta;
    match goal with |- alerts (res_state (?b ?h1)) = _ =>
      assert (Pb : preserves (quiet h1) b) by (pose proof (quiet_host_inv h1); preserve);
      assert (Q1 : quiet h1 h1) by (split; [eauto with wf|done]);
      destruct (Pb h1 Q1) as [_ ->] end;
    [done|by rewrite app_nil_r].
Qed.

(** ** The preset keeps every property's identity and never throws *)

Lemma clearExpr_frame p : steps frame (clearExpr p).
Proof. unfold clearExpr. frame_steps. Qed.

#[export] Hint Resolve clearExpr_frame : frame.

Lemma setNum_frame p v : steps frame (setNum p v).
Proof. unfold setNum. frame_steps. Qed.
Lemma setVec_frame p v : steps frame (setVec p v).
Proof. unfold setVec. frame_steps. Qed.

#[export] Hint Resolve setNum_frame setVec_frame : frame.

Lemma bindRepeater_frame layer repeater : steps frame (bindRepeater layer repeater).
Proof. unfold bindRepeater. frame_steps. Qed.

Lemma applyRepeaterPreset_frame `{Renderer} gDebug layer repeater presetName :
  steps frame (applyRepeaterPreset gDebug layer repeater presetName).
Proof. unfold applyRepeaterPreset. frame_steps. Qed.

Lemma exists_opt_frame h h' o : frame h h' → exists_opt h o → exists_opt h' o.
Proof. intros Hf Ho k Hk. destruct (Ho k Hk) as [q Hq]. destruct (Hf k q Hq) as (q' & ? & _). by exists q'. Qed.

Lemma setNum_ok o v h : exists_opt h o → ∃ h', setNum o v h = Ok tt h'.
Proof.
  intros Ho. destruct (write_opt o (VNum v) (λ _, False) h Ho) as (h' & E & _); [done|].
  exists h'. unfold setNum. by destruct o.
Qed.

Lemma setVec_ok o a h : exists_opt h o → ∃ h', setVec o a h = Ok tt h'.
Proof.
  intros Ho. destruct (write_opt o (VArr [a.1; a.2]) (λ _, False) h Ho) as (h' & E & _); [done|].
  exists h'. unfold setVec. by destruct o.
Qed.

(** Three best-effort writes on found properties return normally. *)
Lemma preset_seq_ok c pos r n p rot h :
  wf h → exists_opt h c → exists_opt h pos → exists_opt h r →
  ∃ h', (setNum c n;; setVec pos p;; setNum r rot) h = Ok tt h'.
Proof.
  intros Hw Hc Hp Hr. destruct (setNum_ok c n h Hc) as (h1 & E1).
  pose proof (setNum_frame c n h Hw) as F1. pose proof (setNum_preserves c n h Hw) as W1.
  rewrite E1 in F1, W1. destruct (setVec_ok pos p h1 (exists_opt_frame _ _ _ F1 Hp)) as (h2 & E2).
  pose proof (setVec_frame pos p h1 W1) as F2. rewrite E2 in F2.
  destruct (setNum_ok r rot h2 (exists_opt_frame _ _ _ F2 (exists_opt_frame _ _ _ F1 Hr))) as (h3 & E3).
  exists h3. by rewrite (bind_ok _ _ _ _ _ E1), (bind_ok _ _ _ _ _ E2).
Qed.

(** [applyRepeaterPreset] never throws on a well-formed store: every
    write is on a property its lookups found, and each one is wrapped in
    [try]. *)
Lemma applyRepeaterPreset_ok `{Renderer} gDebug layer repeater presetName h :
  wf h → ∃ h', applyRepeaterPreset gDebug layer repeater presetName h = Ok tt h'.
Proof.
  intros Hw. unfold applyRepeaterPreset. rewrite bind_get.
  destruct (repeaterTransform h repeater) as [xf|]; [|by eexists]. cbv zeta.
  set (h1 := if gDebug then add_alert (debug_message (measureShape h layer)) h else h).
  assert (E : (if gDebug then modify (add_alert (debug_message (measureShape h layer))) else mret tt) h
              = Ok tt h1) by (unfold h1; by destruct gDebug).
  rewrite (bind_ok _ _ _ _ _ E).
  assert (Hex : ∀ o, (∀ k, o = Some k → is_Some (props h !! k)) → exists_opt h1 o).
  { intros o Ho. unfold h1. by destruct gDebug. }
  assert (Hw1 : wf h1) by (unfold h1; by destruct gDebug).
  repeat case_bool_decide; [apply preset_seq_ok; [done|apply Hex; intros k Hk; eauto with ae..]..|by eexists].
Qed.

(** ** The binding of the Repeater *)

(** The specification of [bindRepeater], shared by the binding theorem
    and the "Do It" pipeline. *)
Lemma bindRepeater_spec h layer repeater xf an ps qa qp v :
  repeaterTransform h repeater = Some xf →
  findRepeaterAnchor h xf = Some an → props h !! an = Some qa → canSetExpression qa = true →
  findVectorPosition h xf = Some ps → props h !! ps = Some qp → xy (pval qp) = Some v →
  an ≠ ps →
  ∃ h', bindRepeater layer repeater h = Ok tt h' ∧
    expr_at h' an exprAnchor ∧ value_of h' ps = Some (pval qp) ∧
    (canSetExpression qp && expressionEnabled qp = true →
       ∃ q', props h' !! ps = Some q' ∧ expression q' = "" ∧ expressionEnabled q' = false) ∧
    (∀ k, k ≠ an → k ≠ ps → props h' !! k = props h !! k).
Proof.
  intros Hxf Han Hqa Hca Hps Hqp Hv Hne.
  set (h1 := upd_prop an (with_expression exprAnchor true) h).
  assert (S1 : same_skel h1 h) by apply same_skel_upd, with_expression_skel.
  assert (E1 : props h1 !! ps = Some qp) by (unfold h1; simpl; by rewrite lookup_alter_ne).
  assert (A1 : props h1 !! an = Some (with_expression exprAnchor true qa)).
  { unfold h1. simpl. by rewrite lookup_alter_eq, Hqa. }
  unfold bindRepeater. rewrite bind_get, Hxf, Han.
  rewrite (bind_ok _ _ _ _ _ (need_ok _ _ _ Hqa)). cbv beta. rewrite Hca.
  rewrite (bind_ok _ _ _ _ _ (setExpression_set an exprAnchor h qa Hqa Hca ltac:(unfold exprAnchor; discriminate))). fold h1.
  rewrite bind_get, (findVectorPosition_proper _ _ _ S1), Hps.
  rewrite (bind_ok _ _ _ _ _ (need_ok _ _ _ E1)). cbv beta.
  destruct (canSetExpression qp && expressionEnabled qp) eqn:Ecl.
  - apply andb_true_iff in Ecl as [Ec _].
    set (h2 := upd_prop ps (with_expression "" false) h1).
    assert (E2 : props h2 !! ps = Some (with_expression "" false qp))
      by (unfold h2; by rewrite props_upd_prop, lookup_alter_eq, E1).
    rewrite (bind_ok _ _ _ _ _ (setExpression_clear _ _ _ E1 Ec)). fold h2.
    rewrite (bind_ok _ _ _ _ _ (need_ok _ _ _ E2)). simpl. rewrite Hv.
    exists h2. split_and!; [done| | |by exists (with_expression "" false qp)|].
    + exists (with_expression exprAnchor true qa). unfold h2.
      by rewrite props_upd_prop, lookup_alter_ne, A1.
    + unfold value_of. by rewrite E2.
    + intros k Hk1 Hk2. unfold h2, h1. by rewrite !props_upd_prop, !lookup_alter_ne.
  - rewrite (bind_ok (mret tt) _ h1 tt h1) by done.
    rewrite (bind_ok _ _ _ _ _ (need_ok _ _ _ E1)). simpl. rewrite Hv.
    exists h1. split_and!; [done| | |done|].
    + exists (with_expression exprAnchor true qa). done.
    + unfold value_of. by rewrite E1.
    + intros k Hk1 Hk2. unfold h1. by rewrite props_upd_prop, lookup_alter_ne.
Qed.

(** C17. [bindRepeater] on a Repeater whose transform anchor can take an
    expression and whose position holds a 2D value: it returns normally,
    the anchor is driven by [thisLayer.transform.anchorPoint], a stale
    enabled position expression is removed, the position keeps the value
    it had (it is set to [[0, 0]] only when it is not a 2D array, while
    the spec says the value is initialized to (0, 0)), and no other
    property changes. *)
Theorem bindRepeater_binds h layer repeater xf an ps qa qp v :
  repeaterTransform h repeater = Some xf →
  findRepeaterAnchor h xf = Some an → props h !! an = Some qa → canSetExpression qa = true →
  findVectorPosition h xf = Some ps → props h !! ps = Some qp → xy (pval qp) = Some v →
  an ≠ ps →
  ∃ h', bindRepeater layer repeater h = Ok tt h' ∧
    expr_at h' an exprAnchor ∧ value_of h' ps = Some (pval qp) ∧
    (canSetExpression qp && expressionEnabled qp = true →
       ∃ q', props h' !! ps = Some q' ∧ expression q' = "" ∧ expressionEnabled q' = false) ∧
    (∀ k, k ≠ an → k ≠ ps → props h' !! k = props h !! k).
Proof. apply bindRepeater_spec. Qed.

Lemma bindRepeater_binds_witness :
  let h := sample_with_repeater in
  ∃ h', bindRepeater 0%N 8%N h = Ok tt h' ∧
    expr_at h' 13%N exprAnchor ∧ value_of h' 14%N = Some (VArr [100; 0]) ∧
    (canSetExpression (mkProp "ADBE Vector Repeater Position" "Position" TwoD_SPATIAL
        (VArr [100; 0]) "" false true 0 "" []) &&
     expressionEnabled (mkProp "ADBE Vector Repeater Position" "Position" TwoD_SPATIAL
        (VArr [100; 0]) "" false true 0 "" []) = true →
       ∃ q', props h' !! 14%N = Some q' ∧ expression q' = "" ∧ expressionEnabled q' = false) ∧
    (∀ k, k ≠ 13%N → k ≠ 14%N → props h' !! k = props h !! k).
Proof.
  intros h.
  apply (bindRepeater_binds h 0%N 8%N 12%N 13%N 14%N
           (mkProp "ADBE Vector Repeater Anchor" "Anchor Point" TwoD_SPATIAL (VArr [0; 0]) "" false true 0 "" [])
           (mkProp "ADBE Vector Repeater Position" "Position" TwoD_SPATIAL (VArr [100; 0]) "" false true 0 "" [])
           (100, 0));
    [vm_compute; reflexivity..|done].
Defined.
