(* ===== verification/Controls.v ===== *)
(** * The Control Exposer

    [ensureSlider], [ensurePoint] and [linkRepeaterToLayerControls] of
    [src/CenterAP_AddRepeater_v2.0.jsx].  Seven effect controls are found
    by name on the layer's Effect Parade or created (and renamed), seeded
    with the Repeater's current values (after the preset), and each
    Repeater property that was found gets the expression
    [effect('<control>')('Slider')] or [effect('<control>')('Point')],
    enabled.  The seeding write is best effort ([try { ... } catch (_) {}]);
    a missing effect parade or a refused [addProperty] throws.

    Theorems: the shape of the binding graph after the link (every found
    Repeater property carries the expression of the last [setExpr] naming
    it, the seven controls exist, and what was found before is still
    found); the consequence of the opacity aliasing of [Finders] on a
    Spanish host; and idempotence: a second link on a layer that already
    has the seven controls creates nothing and leaves every expression
    as the first left it.  The relation [frame] of [Store] carries the
    lookups through the seventeen steps, and through the whole link, which
    [Pipeline] uses after the preset. *)

From S2P Require Import Prelude Host Store Finders Anchor Memory.

(** [fx.property(name)], else a new effect of type [mn] renamed [name]. *)
Definition ensureEffect (layer : N) (nm mn : string) : ST host N :=
  h ← get;
  match effectsParade h layer with
  | None => mthrow "Could not access Effects on this layer."
  | Some fx =>
      match property h fx nm with
      | Some eff => mret eff
      | None =>
          e ← addProperty fx mn;
          match e with
          | None => mthrow ("Could not add '" +:+ nm +:+ "' effect.")
          | Some eff => setName eff nm;; mret eff
          end
      end
  end.

(** [try { prop.setValue(v); } catch (_) {}]: a [null] [prop] throws a
    TypeError inside the [try]. *)
Definition trySet (prop : option N) (v : value) : ST host unit :=
  catch (match prop with
         | Some p => setValue p v
         | None => mthrow "TypeError: prop is null"
         end) (λ _, mret tt).

Definition ensureSlider (layer : N) (nm : string) (initialValue : value) : ST host (option N) :=
  eff ← ensureEffect layer nm "ADBE Slider Control";
  h ← get;
  let prop := property h eff "ADBE Slider Control-0001" ||| property_at h eff 1 in
  (match initialValue with
   | VNum v => trySet prop (VNum v)
   | _ => mret tt
   end);;
  mret prop.

Definition ensurePoint (layer : N) (nm : string) (initialXY : value) : ST host (option N) :=
  eff ← ensureEffect layer nm "ADBE Point Control";
  h ← get;
  let prop := property h eff "ADBE Point Control-0001" ||| property_at h eff 1 in
  (match xy initialXY with
   | Some a => trySet prop (VArr [a.1; a.2])
   | None => mret tt
   end);;
  mret prop.

(** [if (prop.canSetExpression) { prop.expression = expr; prop.expressionEnabled = true; }] *)
Definition setExpr (prop : option N) (expr : string) : ST host unit :=
  match prop with
  | None => mret tt
  | Some p =>
      q ← need p;
      if canSetExpression q then setExpression p expr;; setExpressionEnabled p true
      else mret tt
  end.

(** [pX ? pX.value : default] *)
Definition current_value (h : host) (p : option N) (default : value) : value :=
  match p with
  | Some p => from_option id VNone (value_of h p)
  | None => default
  end.

(** The seven controls: name, kind, and expression. *)
Definition control_expr (nm kind : string) : string :=
  "effect('" +:+ nm +:+ "')('" +:+ kind +:+ "')".

Definition linkRepeaterToLayerControls (layer repeater : N) : ST host unit :=
  h ← get;
  match repeaterTransform h repeater with
  | None => mthrow "Could not access Repeater Transform group."
  | Some repXform =>
      let pCopies := findCopies h repeater in
      let pOffset := findOffset h repeater in
      let pPos := findVectorPosition h repXform in
      let pScale := findScale h repXform in
      let pRot := findRotation h repXform in
      let pStartO := findStartOpacity h repXform in
      let pEndO := findEndOpacity h repXform in
      let vCopies := current_value h pCopies (VNum 3) in
      let vOffset := current_value h pOffset (VNum 0) in
      let vPos := current_value h pPos (VArr [0; 0]) in
      let vScale := current_value h pScale (VArr [100; 100]) in
      let vRot := current_value h pRot (VNum 0) in
      let vStartO := current_value h pStartO (VNum 100) in
      let vEndO := current_value h pEndO (VNum 100) in
      ensureSlider layer "Number of Copies" vCopies;;
      ensureSlider layer "Rotation" vRot;;
      ensureSlider layer "Offset Amount" vOffset;;
      ensurePoint layer "Position (x,y)" vPos;;
      ensurePoint layer "Scale" vScale;;
      ensureSlider layer "Start Opacity" vStartO;;
      ensureSlider layer "End Opacity" vEndO;;
      setExpr pCopies (control_expr "Number of Copies" "Slider");;
      setExpr pOffset (control_expr "Offset Amount" "Slider");;
      setExpr pPos (control_expr "Position (x,y)" "Point");;
      setExpr pScale (control_expr "Scale" "Point");;
      setExpr pRot (control_expr "Rotation" "Slider");;
      setExpr pStartO (control_expr "Start Opacity" "Slider");;
      setExpr pEndO (control_expr "End Opacity" "Slider")
  end.

(** ** The store invariant *)

Lemma ensureEffect_preserves `{HostInv P} layer nm mn : preserves P (ensureEffect layer nm mn).
Proof. unfold ensureEffect. preserve. Qed.
Lemma trySet_preserves `{HostInv P} p v : preserves P (trySet p v).
Proof. unfold trySet. preserve. Qed.
Lemma setExpr_preserves `{HostInv P} p e : preserves P (setExpr p e).
Proof. unfold setExpr. preserve. Qed.

#[export] Hint Resolve ensureEffect_preserves trySet_preserves setExpr_preserves : wf.

Lemma ensureSlider_preserves `{HostInv P} layer nm v : preserves P (ensureSlider layer nm v).
Proof. unfold ensureSlider. preserve. Qed.
Lemma ensurePoint_preserves `{HostInv P} layer nm v : preserves P (ensurePoint layer nm v).
Proof. unfold ensurePoint. preserve. Qed.

#[export] Hint Resolve ensureSlider_preserves ensurePoint_preserves : wf.

Lemma linkRepeaterToLayerControls_preserves `{HostInv P} layer repeater :
  preserves P (linkRepeaterToLayerControls layer repeater).
Proof. unfold linkRepeaterToLayerControls. preserve. Qed.

#[export] Hint Resolve linkRepeaterToLayerControls_preserves : wf.

(** ** The expression writes *)

Lemma setExpr_set h p q e :
  props h !! p = Some q → canSetExpression q = true → e ≠ "" →
  setExpr (Some p) e h = Ok tt (upd_prop p (with_expression e true) h).
Proof.
  intros Hq Hc He. unfold setExpr, setExpression, setExpressionEnabled, need. st_simpl.
  rewrite Hq, Hc. simpl. rewrite Hq, Hc. simpl. rewrite bool_decide_false by done. simpl.
  rewrite lookup_alter_eq, Hq. simpl. rewrite Hc, bool_decide_false by done. simpl.
  unfold upd_prop. simpl. rewrite alter_alter_eq. done.
Qed.

Lemma setExpr_skip h p q e :
  props h !! p = Some q → canSetExpression q = false → setExpr (Some p) e h = Ok tt h.
Proof. intros Hq Hc. unfold setExpr, need. st_simpl. by rewrite Hq, Hc. Qed.

(** The seven [setExpr] calls that end [linkRepeaterToLayerControls], as
    a list of targets and expressions. *)
Fixpoint run_setExprs (l : list (option N * string)) : ST host unit :=
  match l with
  | [] => mret tt
  | [(p, e)] => setExpr p e
  | (p, e) :: l' => setExpr p e;; run_setExprs l'
  end.

Lemma run_setExprs_cons p e l h :
  run_setExprs ((p, e) :: l) h = (setExpr p e;; run_setExprs l) h.
Proof.
  destruct l as [|x l]; [|done]. simpl. st_simpl.
  by destruct (setExpr p e h) as [[] s|].
Qed.

(** One [setExpr] on an existing property: its expression state changes,
    nothing else does. *)
Lemma setExpr_existing h p e :
  is_Some (props h !! p) → e ≠ "" →
  ∃ h', setExpr (Some p) e h = Ok tt h' ∧ same_skel h' h ∧ next_id h' = next_id h ∧
        (∀ k, k ≠ p → props h' !! k = props h !! k) ∧
        (∀ q, props h !! p = Some q → canSetExpression q = true → expr_at h' p e) ∧
        (∀ q, props h !! p = Some q → ∃ q', props h' !! p = Some q' ∧
                canSetExpression q' = canSetExpression q).
Proof.
  intros [q Hq] He. destruct (canSetExpression q) eqn:Hc.
  - rewrite (setExpr_set h p q e Hq Hc He). eexists. split_and!; [done| |done|..].
    + apply same_skel_upd, with_expression_skel.
    + intros k Hk. simpl. by rewrite lookup_alter_ne.
    + intros q' Hq'. rewrite Hq in Hq'. injection Hq' as <-. intros _.
      eexists. simpl. rewrite lookup_alter_eq, Hq. done.
    + intros q' Hq'. rewrite Hq in Hq'. injection Hq' as <-.
      eexists. simpl. rewrite lookup_alter_eq, Hq. done.
  - rewrite (setExpr_skip h p q e Hq Hc). eexists. split_and!; [done|done|done|done|..].
    + intros q' Hq'. rewrite Hq in Hq'. congruence.
    + intros q' Hq'. by exists q'.
Qed.

(** The expression of the last row of [l] that targets [p]. *)
Fixpoint last_expr (l : list (option N * string)) (p : N) : option string :=
  match l with
  | [] => None
  | (t, e) :: l' =>
      match last_expr l' p with
      | Some e' => Some e'
      | None => if bool_decide (t = Some p) then Some e else None
      end
  end.

(** With targets that exist, every target that can take an expression
    ends with the expression of the last row naming it, and nothing but
    the expression state of the targets changes. *)
Lemma run_setExprs_spec l h :
  (∀ p e, (Some p, e) ∈ l → is_Some (props h !! p) ∧ e ≠ "") →
  ∃ h', run_setExprs l h = Ok tt h' ∧ same_skel h' h ∧ next_id h' = next_id h ∧
    (∀ k, last_expr l k = None → props h' !! k = props h !! k) ∧
    (∀ p e q, last_expr l p = Some e → props h !! p = Some q → canSetExpression q = true →
              expr_at h' p e).
Proof.
  revert h. induction l as [|[[p0|] e0] l IH]; intros h Hl.
  - exists h. split_and!; done.
  - rewrite run_setExprs_cons.
    destruct (Hl p0 e0 ltac:(left)) as [Hex0 He0].
    destruct (setExpr_existing h p0 e0 Hex0 He0) as (h1 & E1 & S1 & N1 & O1 & X1 & C1).
    rewrite (bind_ok _ _ _ _ _ E1).
    assert (K1 : ∀ p q, props h !! p = Some q →
                   ∃ q1, props h1 !! p = Some q1 ∧ canSetExpression q1 = canSetExpression q).
    { intros p q Hq. destruct (decide (p = p0)) as [->|Hne]; [by apply C1|].
      exists q. by rewrite O1. }
    destruct (IH h1) as (h2 & E2 & S2 & N2 & O2 & X2).
    { intros p e Hin. destruct (Hl p e ltac:(by right)) as [[q Hq] He].
      destruct (K1 p q Hq) as (q1 & Hq1 & _). split; [by exists q1|done]. }
    exists h2. split_and!; [done|by etrans|congruence|..].
    + intros k Hk. simpl in Hk. destruct (last_expr l k) eqn:El; [done|].
      case_bool_decide as Hk0; [done|]. rewrite O2, O1; [done|congruence|done].
    + intros p e q Hlast Hq Hc. simpl in Hlast.
      destruct (last_expr l p) as [e'|] eqn:El.
      * injection Hlast as <-. destruct (K1 p q Hq) as (q1 & Hq1 & Hc1).
        apply (X2 p e' q1); [done|done|congruence].
      * case_bool_decide as Hp0; [|done]. injection Hp0 as <-. injection Hlast as <-.
        destruct (X1 q Hq Hc) as (q' & Hq' & ? & ?). exists q'. rewrite O2 by done. by split_and!.
  - rewrite run_setExprs_cons. unfold setExpr at 1. rewrite (bind_ok _ _ h tt h) by done.
    destruct (IH h) as (h2 & E2 & S2 & N2 & O2 & X2); [intros; apply Hl; by right|].
    exists h2. split_and!; [done|done|done|..].
    + intros k Hk. simpl in Hk. destruct (last_expr l k) eqn:El; [done|]. auto.
    + intros p e q Hlast. simpl in Hlast. destruct (last_expr l p) eqn:El.
      * injection Hlast as <-. eauto.
      * done.
Qed.

(** ** Finding or creating the controls *)

Lemma ensureEffect_spec h layer nm mn t fx :
  wf h → effectsParade h layer = Some fx → template mn = Some t →
  ∃ eff h', ensureEffect layer nm mn h = Ok eff h' ∧ frame h h' ∧ wf h' ∧
            property h' fx nm = Some eff.
Proof.
  intros Hw Hfx Ht. unfold ensureEffect. rewrite bind_get, Hfx.
  destruct (property h fx nm) as [eff|] eqn:Hp; [exists eff, h; split_and!; done|].
  destruct (property_exists h layer _ fx Hfx) as [qf Hqf].
  destruct (addProperty_spec h fx qf mn t Hw Hqf Ht)
    as (h1 & E1 & F1 & W1 & Hfresh & [c1 Hc1] & (qf' & Hqf' & Hk) & _).
  rewrite (bind_ok _ _ _ _ _ E1). simpl.
  assert (Hne : fx ≠ next_id h) by (intros ->; congruence).
  exists (next_id h), (upd_prop (next_id h) (with_name nm) h1). split_and!.
  - unfold setName, need. st_simpl. by rewrite Hc1.
  - by apply frame_upd_fresh.
  - by apply wf_upd.
  - apply (property_append h _ fx qf qf' nm (next_id h) (with_name nm c1)); try done.
    + apply frame_upd_fresh; done.
    + simpl. by rewrite lookup_alter_ne.
    + simpl. by rewrite lookup_alter_eq, Hc1.
    + unfold key_matches. simpl. apply orb_true_iff. right. by apply bool_decide_eq_true.
Qed.

Lemma trySet_ok p v h : ∃ h', trySet p v h = Ok tt h'.
Proof.
  unfold trySet, catch.
  match goal with |- context [match ?m with Ok _ _ => _ | Exn _ _ => _ end] =>
    destruct m as [[] s|e s] end; eexists; reflexivity.
Qed.

Lemma trySet_frame p v : steps frame (trySet p v).
Proof. unfold trySet. frame_steps. Qed.

#[export] Hint Resolve trySet_frame : frame.

(** [ensureSlider] and [ensurePoint]: find or create the effect, then a
    step that never throws and keeps the frame. *)
Lemma ensure_then_spec h layer nm mn t fx (k : N → ST host (option N)) :
  wf h → effectsParade h layer = Some fx → template mn = Some t →
  (∀ eff, steps frame (k eff)) → (∀ eff, preserves wf (k eff)) →
  (∀ eff h, ∃ r h', k eff h = Ok r h') →
  ∃ r h', (ensureEffect layer nm mn ≫= k) h = Ok r h' ∧ frame h h' ∧ wf h' ∧
          is_Some (property h' fx nm).
Proof.
  intros Hw Hfx Ht Fk Pk Ok.
  destruct (ensureEffect_spec h layer nm mn t fx Hw Hfx Ht) as (eff & h1 & E1 & F1 & W1 & P1).
  rewrite (bind_ok _ _ _ _ _ E1). destruct (Ok eff h1) as (r & h2 & E2).
  pose proof (Fk eff h1 W1) as F2. pose proof (Pk eff h1 W1) as W2. rewrite E2 in F2, W2.
  exists r, h2. split_and!; [done|by etrans|done|]. exists eff. by apply (property_frame h1 h2).
Qed.

Lemma ensureSlider_spec h layer nm v fx :
  wf h → effectsParade h layer = Some fx →
  ∃ r h', ensureSlider layer nm v h = Ok r h' ∧ frame h h' ∧ wf h' ∧
          is_Some (property h' fx nm).
Proof.
  intros Hw Hfx. apply (ensure_then_spec h layer nm _ slider_tmpl fx); [done|done|done|..].
  - intros eff. frame_steps.
  - intros eff. preserve.
  - intros eff h0. rewrite bind_get. destruct v; simpl;
      try (destruct (trySet_ok (property h0 eff "ADBE Slider Control-0001" ||| property_at h0 eff 1)
                       (VNum q) h0) as (h1 & E1); rewrite (bind_ok _ _ _ _ _ E1));
      eexists _, _; reflexivity.
Qed.

Lemma ensurePoint_spec h layer nm v fx :
  wf h → effectsParade h layer = Some fx →
  ∃ r h', ensurePoint layer nm v h = Ok r h' ∧ frame h h' ∧ wf h' ∧
          is_Some (property h' fx nm).
Proof.
  intros Hw Hfx. apply (ensure_then_spec h layer nm _ point_tmpl fx); [done|done|done|..].
  - intros eff. frame_steps.
  - intros eff. preserve.
  - intros eff h0. rewrite bind_get. destruct (xy v) as [a|]; simpl;
      [destruct (trySet_ok (property h0 eff "ADBE Point Control-0001" ||| property_at h0 eff 1)
                   (VArr [a.1; a.2]) h0) as (h1 & E1); rewrite (bind_ok _ _ _ _ _ E1)|];
      eexists _, _; reflexivity.
Qed.

(** ** The control phase keeps every property's identity

    [ensureEffect] renames only the effect it has just created, a fresh
    property, so it is a [frame] step like the value and expression
    writes. *)

Lemma ensureEffect_frame layer nm mn : steps frame (ensureEffect layer nm mn).
Proof.
  intros h Hw. destruct (effectsParade h layer) as [fx|] eqn:Hfx;
    [|unfold ensureEffect; rewrite bind_get, Hfx; reflexivity].
  destruct (template mn) as [t|] eqn:Ht.
  - destruct (ensureEffect_spec h layer nm mn t fx Hw Hfx Ht) as (eff & h' & -> & F & _). exact F.
  - unfold ensureEffect. rewrite bind_get, Hfx. destruct (property h fx nm); [reflexivity|].
    unfold addProperty, need. st_simpl. destruct (props h !! fx); simpl; [rewrite Ht|]; reflexivity.
Qed.

#[export] Hint Resolve ensureEffect_frame : frame.

Lemma setExpr_frame p e : steps frame (setExpr p e).
Proof. unfold setExpr. frame_steps. Qed.
Lemma ensureSlider_frame layer nm v : steps frame (ensureSlider layer nm v).
Proof. unfold ensureSlider. frame_steps. Qed.
Lemma ensurePoint_frame layer nm v : steps frame (ensurePoint layer nm v).
Proof. unfold ensurePoint. frame_steps. Qed.

#[export] Hint Resolve setExpr_frame ensureSlider_frame ensurePoint_frame : frame.

Lemma linkRepeaterToLayerControls_frame layer repeater :
  steps frame (linkRepeaterToLayerControls layer repeater).
Proof. unfold linkRepeaterToLayerControls. frame_steps. Qed.

(** ** The binding graph *)

(** The names of the seven controls, in the order they are ensured. *)
Definition control_names : list string :=
  ["Number of Copies"; "Rotation"; "Offset Amount"; "Position (x,y)"; "Scale";
   "Start Opacity"; "End Opacity"].

(** The Repeater properties [linkRepeaterToLayerControls] binds and the
    expression each one receives. *)
Definition link_table (h : host) (repeater xf : N) : list (option N * string) :=
  [(findCopies h repeater, control_expr "Number of Copies" "Slider");
   (findOffset h repeater, control_expr "Offset Amount" "Slider");
   (findVectorPosition h xf, control_expr "Position (x,y)" "Point");
   (findScale h xf, control_expr "Scale" "Point");
   (findRotation h xf, control_expr "Rotation" "Slider");
   (findStartOpacity h xf, control_expr "Start Opacity" "Slider");
   (findEndOpacity h xf, control_expr "End Opacity" "Slider")].

(** One [ensureSlider] or [ensurePoint] of the control phase: run it,
    carry the effect parade, the frame from the start [h0] and the
    controls found so far to the new store. *)
Ltac ensure_step h0 :=
  match goal with
  | Hw : wf ?h, Hfx : effectsParade ?h ?l = Some ?fx, Fc : frame h0 ?h
    |- context [((?m ≫= _) ?h)] =>
      let r := fresh "r" in let h1 := fresh "h" in let E := fresh "E" in
      let F := fresh "F" in let W := fresh "W" in let P := fresh "P" in
      first [ match m with ensureSlider _ ?nm ?v =>
                destruct (ensureSlider_spec h l nm v fx Hw Hfx) as (r & h1 & E & F & W & P) end
            | match m with ensurePoint _ ?nm ?v =>
                destruct (ensurePoint_spec h l nm v fx Hw Hfx) as (r & h1 & E & F & W & P) end ];
      rewrite (bind_ok _ _ _ _ _ E);
      repeat match goal with
             | Pold : is_Some (property h fx _) |- _ =>
                 apply (property_frame_is_Some h h1) in Pold; [|exact Hw|exact F]
             end;
      let Hfx1 := fresh "Hfx" in
      assert (Hfx1 : effectsParade h1 l = Some fx) by (apply (property_frame h h1); done);
      let Fc1 := fresh "Fc" in
      assert (Fc1 : frame h0 h1) by (etrans; [exact Fc|exact F]);
      clear Hfx Fc E
  end.

(** Every row of the table names an existing property and a non-empty
    expression. *)
Lemma link_table_targets h repeater xf p e :
  (Some p, e) ∈ link_table h repeater xf → is_Some (props h !! p) ∧ e ≠ "".
Proof.
  unfold link_table. intros Hin.
  repeat (apply elem_of_cons in Hin as [Hin|Hin];
    [injection Hin as Hp ->; symmetry in Hp; split; [by eauto with ae|discriminate]|]).
  by apply not_elem_of_nil in Hin.
Qed.

(** The specification of [linkRepeaterToLayerControls], shared by the
    binding theorems below. *)
Lemma linkRepeaterToLayerControls_spec h layer repeater xf fx :
  wf h → repeaterTransform h repeater = Some xf → effectsParade h layer = Some fx →
  ∃ h', linkRepeaterToLayerControls layer repeater h = Ok tt h' ∧
    (∀ p e q, last_expr (link_table h repeater xf) p = Some e → props h !! p = Some q →
              canSetExpression q = true → expr_at h' p e) ∧
    (∀ nm, nm ∈ control_names → is_Some (property h' fx nm)) ∧
    (∀ p key k, property h p key = Some k → property h' p key = Some k).
Proof.
  intros Hw Hxf Hfx. unfold linkRepeaterToLayerControls. rewrite bind_get, Hxf.
  assert (Fc : frame h h) by reflexivity. pose proof Hw as Hw0.
  do 7 ensure_step h.
  match goal with
  | |- context [(setExpr _ _ ≫= _) ?hA] =>
      assert (FA : frame h hA) by assumption;
      change (∃ h', run_setExprs (link_table h repeater xf) hA = Ok tt h' ∧
        (∀ p e q, last_expr (link_table h repeater xf) p = Some e → props h !! p = Some q →
                  canSetExpression q = true → expr_at h' p e) ∧
        (∀ nm, nm ∈ control_names → is_Some (property h' fx nm)) ∧
        (∀ p key k, property h p key = Some k → property h' p key = Some k));
      destruct (run_setExprs_spec (link_table h repeater xf) hA) as (h' & E & S & _ & _ & X)
  end.
  - intros p e Hin. destruct (link_table_targets h repeater xf p e Hin) as [[q Hq] He].
    destruct (FA p q Hq) as (q' & Hq' & _). split; [by exists q'|done].
  - exists h'. split_and!.
    + exact E.
    + intros p e q Hlast Hq Hc. destruct (FA p q Hq) as (q' & Hq' & (_ & _ & _ & Hc' & _)).
      apply (X p e q'); [done|done|congruence].
    + intros nm Hnm. rewrite (property_proper _ _ S fx fx eq_refl nm nm eq_refl).
      repeat (apply elem_of_cons in Hnm as [->|Hnm]; [done|]). by apply not_elem_of_nil in Hnm.
    + intros p key k Hk. rewrite (property_proper _ _ S p p eq_refl key key eq_refl).
      by apply (property_frame h).
Qed.

(** C15. The binding graph of "Do It": on a well-formed store where the
    layer has an Effect Parade and the Repeater a transform group,
    [linkRepeaterToLayerControls] returns normally; every looked-up
    Repeater property that can take an expression ends driven by the
    enabled expression of the last [setExpr] that names it (for pairwise
    distinct lookups, the expression naming its own control,
    [effect('Number of Copies')('Slider')] and so on), and the seven
    controls exist on the layer's Effect Parade under their names. *)
Theorem linkRepeaterToLayerControls_binds h layer repeater xf fx :
  wf h → repeaterTransform h repeater = Some xf → effectsParade h layer = Some fx →
  ∃ h', linkRepeaterToLayerControls layer repeater h = Ok tt h' ∧
    (∀ p e q, last_expr (link_table h repeater xf) p = Some e → props h !! p = Some q →
              canSetExpression q = true → expr_at h' p e) ∧
    (∀ nm, nm ∈ control_names → is_Some (property h' fx nm)).
Proof.
  intros Hw Hxf Hfx.
  destruct (linkRepeaterToLayerControls_spec h layer repeater xf fx Hw Hxf Hfx)
    as (h' & E & X & C & _).
  by exists h'.
Qed.

(** A shape layer (0) with empty Contents (1) and an empty Effect Parade
    (2), after a Repeater is added to the Contents: the Repeater is 3, its
    transform group 7. *)
Definition sample_link_host : host :=
  res_state (addProperty 1%N "ADBE Vector Filter - Repeater" (mkHost (list_to_map [
    (0%N, mkProp "ADBE Vector Layer" "Shape Layer 1" NO_VALUE VNone "" false false 0 "" [1%N; 2%N]);
    (1%N, mkProp "ADBE Root Vectors Group" "Contents" NO_VALUE VNone "" false false 0 "" []);
    (2%N, mkProp "ADBE Effect Parade" "Effects" NO_VALUE VNone "" false false 0 "" [])])
    3%N None [])).

Lemma linkRepeaterToLayerControls_binds_witness :
  let h := sample_link_host in
  ∃ h', linkRepeaterToLayerControls 0%N 3%N h = Ok tt h' ∧
    (∀ p e q, last_expr (link_table h 3%N 7%N) p = Some e → props h !! p = Some q →
              canSetExpression q = true → expr_at h' p e) ∧
    (∀ nm, nm ∈ control_names → is_Some (property h' 2%N nm)).
Proof.
  intros h. apply (linkRepeaterToLayerControls_binds h 0%N 3%N 7%N 2%N).
  - wf_by_computation.
  - vm_compute. reflexivity.
  - vm_compute. reflexivity.
Defined.

(** C16. The opacity aliasing reaches the expressions: when the start-
    and end-opacity lookups return the same property (as on a Spanish
    host, see [Finders.opacity_finders_coincide]), that property ends
    driven by the "End Opacity" control and not by the "Start Opacity"
    one, which is left driving nothing. *)
Theorem linkRepeaterToLayerControls_opacity_alias h layer repeater xf fx p q :
  wf h → repeaterTransform h repeater = Some xf → effectsParade h layer = Some fx →
  findStartOpacity h xf = Some p → findEndOpacity h xf = Some p →
  props h !! p = Some q → canSetExpression q = true →
  ∃ h', linkRepeaterToLayerControls layer repeater h = Ok tt h' ∧
        expr_at h' p (control_expr "End Opacity" "Slider") ∧
        ¬ expr_at h' p (control_expr "Start Opacity" "Slider").
Proof.
  intros Hw Hxf Hfx Hs He Hq Hc.
  destruct (linkRepeaterToLayerControls_spec h layer repeater xf fx Hw Hxf Hfx)
    as (h' & E & X & _ & _).
  assert (Hlast : last_expr (link_table h repeater xf) p =
                  Some (control_expr "End Opacity" "Slider")).
  { unfold link_table. rewrite He. simpl. rewrite bool_decide_true by done.
    by repeat case_match. }
  destruct (X p _ q Hlast Hq Hc) as (q' & Hq' & Ee & En).
  exists h'. split_and!; [done|by exists q'|].
  intros (q'' & Hq'' & Es & _). rewrite Hq' in Hq''. injection Hq'' as <-.
  rewrite Ee in Es. discriminate Es.
Qed.

(** [sample_link_host] as a Spanish host names the Repeater transform's
    properties. *)
Definition sample_link_host_es : host :=
  fold_left (λ h kn, upd_prop kn.1 (with_name kn.2) h)
    [(8%N, "Punto de anclaje"); (9%N, "Posición"); (10%N, "Escala"); (11%N, "Rotación");
     (12%N, "Opacidad inicial"); (13%N, "Opacidad final")] sample_link_host.

Lemma linkRepeaterToLayerControls_opacity_alias_witness :
  let h := sample_link_host_es in
  findStartOpacity h 7%N = Some 12%N ∧
  ∃ h', linkRepeaterToLayerControls 0%N 3%N h = Ok tt h' ∧
        expr_at h' 12%N (control_expr "End Opacity" "Slider") ∧
        ¬ expr_at h' 12%N (control_expr "Start Opacity" "Slider").
Proof.
  intros h. split; [vm_compute; reflexivity|].
  apply (linkRepeaterToLayerControls_opacity_alias h 0%N 3%N 7%N 2%N 12%N
           (mkProp "ADBE Vector Repeater Opacity 1" "Opacidad inicial" OneD (VNum 100) "" false true 0 "" []));
    [wf_by_computation|vm_compute; reflexivity..].
Defined.

(** ** Running the control phase again *)

Lemma ensureEffect_found h layer nm mn fx eff :
  effectsParade h layer = Some fx → property h fx nm = Some eff →
  ensureEffect layer nm mn h = Ok eff h.
Proof. intros Hfx He. unfold ensureEffect. by rewrite bind_get, Hfx, He. Qed.

Lemma trySet_skel p v h : ∃ h', trySet p v h = Ok tt h' ∧ same_skel h' h ∧ next_id h' = next_id h.
Proof.
  destruct p as [p|]; [|by exists h]. destruct (props h !! p) as [q|] eqn:Hq; [|exists h; unfold trySet, setValue, need; st_simpl; by rewrite Hq].
  destruct (settable q v) eqn:Hs.
  - exists (upd_prop p (with_value v) h). unfold trySet.
    rewrite (catch_ok _ _ _ tt (upd_prop p (with_value v) h)) by (by apply (setValue_ok _ _ _ q)).
    split_and!; [done| |done]. apply same_skel_upd, with_value_skel.
  - exists h. unfold trySet.
    rewrite (catch_exn _ _ _ "setValue: the property cannot take this value" h)
      by (by apply (setValue_refused _ _ _ q)). done.
Qed.

(** When the control already exists, [ensureSlider] and [ensurePoint]
    only write its value. *)
Lemma ensure_found_then h layer nm mn fx (k : N → ST host (option N)) :
  effectsParade h layer = Some fx → is_Some (property h fx nm) →
  (∀ eff h, ∃ r h', k eff h = Ok r h' ∧ same_skel h' h ∧ next_id h' = next_id h) →
  ∃ r h', (ensureEffect layer nm mn ≫= k) h = Ok r h' ∧ same_skel h' h ∧ next_id h' = next_id h.
Proof.
  intros Hfx [eff He] Hk. rewrite (bind_ok _ _ _ _ _ (ensureEffect_found h layer nm mn fx eff Hfx He)).
  apply Hk.
Qed.

Lemma seed_skel (m : ST host unit) (r : option N) h :
  (∀ h, ∃ h', m h = Ok tt h' ∧ same_skel h' h ∧ next_id h' = next_id h) →
  ∃ r' h', (m;; mret r) h = Ok r' h' ∧ same_skel h' h ∧ next_id h' = next_id h.
Proof.
  intros Hm. destruct (Hm h) as (h' & E & S & N). rewrite (bind_ok _ _ _ _ _ E). by exists r, h'.
Qed.

Lemma ensureSlider_found h layer nm v fx :
  effectsParade h layer = Some fx → is_Some (property h fx nm) →
  ∃ r h', ensureSlider layer nm v h = Ok r h' ∧ same_skel h' h ∧ next_id h' = next_id h.
Proof.
  intros Hfx He. apply (ensure_found_then _ _ _ _ fx); [done|done|]. intros eff h0.
  rewrite bind_get. apply seed_skel. intros h1. destruct v; [by exists h1|apply trySet_skel|by exists h1..].
Qed.

Lemma ensurePoint_found h layer nm v fx :
  effectsParade h layer = Some fx → is_Some (property h fx nm) →
  ∃ r h', ensurePoint layer nm v h = Ok r h' ∧ same_skel h' h ∧ next_id h' = next_id h.
Proof.
  intros Hfx He. apply (ensure_found_then _ _ _ _ fx); [done|done|]. intros eff h0.
  rewrite bind_get. apply seed_skel. intros h1. destruct (xy v); [apply trySet_skel|by exists h1].
Qed.

(** One [ensureSlider] or [ensurePoint] of the control phase when every
    control already exists: the skeleton and [next_id] do not change. *)
Ltac found_step h0 :=
  match goal with
  | Hfx : effectsParade ?h ?l = Some ?fx,
    Hall : ∀ nm, nm ∈ control_names → is_Some (property ?h ?fx nm),
    Sc : same_skel ?h h0, Nc : next_id ?h = next_id h0
    |- context [((?m ≫= _) ?h)] =>
      let r := fresh "r" in let h1 := fresh "h" in let E := fresh "E" in
      let S := fresh "S" in let N := fresh "N" in
      first [ match m with ensureSlider _ ?nm ?v =>
                destruct (ensureSlider_found h l nm v fx Hfx
                            (Hall nm ltac:(unfold control_names; set_solver)))
                  as (r & h1 & E & S & N) end
            | match m with ensurePoint _ ?nm ?v =>
                destruct (ensurePoint_found h l nm v fx Hfx
                            (Hall nm ltac:(unfold control_names; set_solver)))
                  as (r & h1 & E & S & N) end ];
      rewrite (bind_ok _ _ _ _ _ E);
      let Hfx1 := fresh "Hfx" in
      assert (Hfx1 : effectsParade h1 l = Some fx)
        by (unfold effectsParade in *; by rewrite (property_proper _ _ S l l eq_refl _ _ eq_refl));
      let Hall1 := fresh "Hall" in
      assert (Hall1 : ∀ nm, nm ∈ control_names → is_Some (property h1 fx nm))
        by (intros ? ?; rewrite (property_proper _ _ S fx fx eq_refl _ _ eq_refl); auto);
      let Sc1 := fresh "Sc" in assert (Sc1 : same_skel h1 h0) by (etrans; [exact S|exact Sc]);
      let Nc1 := fresh "Nc" in assert (Nc1 : next_id h1 = next_id h0) by congruence;
      clear Hfx Hall Sc Nc E
  end.

(** The control phase on a layer that already has the seven controls adds
    no property: the skeleton (names, types, children) and [next_id] stay
    as they were. *)
Lemma linkRepeaterToLayerControls_reuse h layer repeater xf fx :
  repeaterTransform h repeater = Some xf → effectsParade h layer = Some fx →
  (∀ nm, nm ∈ control_names → is_Some (property h fx nm)) →
  ∃ h', linkRepeaterToLayerControls layer repeater h = Ok tt h' ∧
        same_skel h' h ∧ next_id h' = next_id h.
Proof.
  intros Hxf Hfx Hall. unfold linkRepeaterToLayerControls. rewrite bind_get, Hxf.
  assert (Sc : same_skel h h) by reflexivity. assert (Nc : next_id h = next_id h) by done.
  do 7 found_step h.
  match goal with
  | |- context [(setExpr _ _ ≫= _) ?hA] =>
      change (∃ h', run_setExprs (link_table h repeater xf) hA = Ok tt h' ∧
                    same_skel h' h ∧ next_id h' = next_id h);
      destruct (run_setExprs_spec (link_table h repeater xf) hA) as (h' & EB & SB & NB & _)
  end.
  - intros p e Hin. destruct (link_table_targets h repeater xf p e Hin) as [Hp He].
    split; [|done]. apply (same_skel_is_Some h); [|done]. by symmetry.
  - exists h'. split_and!; [exact EB|by etrans|congruence].
Qed.

(** C19. Find-or-create is idempotent: running the control phase a second
    time on the same layer and Repeater (as "Do It" does when run again)
    reuses the seven controls it created the first time; the second run
    adds no property, renames nothing and leaves the number of effects on
    the layer unchanged. *)
Theorem linkRepeaterToLayerControls_idempotent h layer repeater xf fx :
  wf h → property h repeater "ADBE Vector Repeater Transform" = Some xf →
  effectsParade h layer = Some fx →
  ∃ h1 h2, linkRepeaterToLayerControls layer repeater h = Ok tt h1 ∧
           linkRepeaterToLayerControls layer repeater h1 = Ok tt h2 ∧
           same_skel h2 h1 ∧ next_id h2 = next_id h1 ∧
           numProperties h2 fx = numProperties h1 fx.
Proof.
  intros Hw Hx Hfx.
  assert (Hxf : repeaterTransform h repeater = Some xf) by (unfold repeaterTransform; by rewrite Hx).
  destruct (linkRepeaterToLayerControls_spec h layer repeater xf fx Hw Hxf Hfx)
    as (h1 & E1 & _ & C1 & L1).
  assert (Hxf1 : repeaterTransform h1 repeater = Some xf)
    by (unfold repeaterTransform; by rewrite (L1 _ _ _ Hx)).
  assert (Hfx1 : effectsParade h1 layer = Some fx) by (unfold effectsParade in *; by apply L1).
  destruct (linkRepeaterToLayerControls_reuse h1 layer repeater xf fx Hxf1 Hfx1 C1)
    as (h2 & E2 & S2 & N2).
  exists h1, h2. split_and!; [done|done|done|done|].
  by apply numProperties_proper.
Qed.

Lemma linkRepeaterToLayerControls_idempotent_witness :
  let h := sample_link_host in
  ∃ h1 h2, linkRepeaterToLayerControls 0%N 3%N h = Ok tt h1 ∧
           linkRepeaterToLayerControls 0%N 3%N h1 = Ok tt h2 ∧
           same_skel h2 h1 ∧ next_id h2 = next_id h1 ∧
           numProperties h2 2%N = numProperties h1 2%N.
Proof.
  intros h. apply (linkRepeaterToLayerControls_idempotent h 0%N 3%N 7%N 2%N).
  - wf_by_computation.
  - vm_compute. reflexivity.
  - vm_compute. reflexivity.
Defined.
