(* ===== verification/Main.v ===== *)
(** * The entry points

    [getCompOrThrow], [getSingleShapeLayerOrThrow], [main] ("Do It"),
    [onUpdateAnchor] ("Update Anchor"), [onResetAnchor] ("Reset
    Anchor") and [onAbout] of [src/CenterAP_AddRepeater_v2.0.jsx].  Each handler runs its
    steps in order and turns an exception into an alert, which the model
    appends to [alerts]; the undo group around it is the host's business
    and leaves the store as the handler left it.  [main] composes the
    components in the order of the source: centre, add, bind, preset,
    controls, snapshot.

    Theorems: the selection guards, in each of the three cases they
    refuse (no composition, not exactly one selected layer, not a shape
    layer), alert their message and change nothing; "Reset Anchor" without a
    snapshot alerts and leaves every property unchanged; and the round
    trip "Update Anchor", any re-anchoring, "Reset Anchor" puts the anchor
    point back where it was saved and the position back where it was (up
    to [Qeq]), with no alert.  An evaluated example runs the whole "Do It"
    pipeline on a sample layer. *)

From S2P Require Import Prelude Host Store Finders Anchor Memory Measure Repeater Controls.

Definition getCompOrThrow : ST host (list N) :=
  h ← get;
  match activeItem h with
  | Some (CompItem sel) => mret sel
  | _ => mthrow "Open a comp and select exactly one shape layer."
  end.

Definition getSingleShapeLayerOrThrow (sel : list N) : ST host N :=
  match sel with
  | [layer] =>
      q ← need layer;
      if bool_decide (matchName q = "ADBE Vector Layer") then mret layer
      else mthrow "Selected layer is not a Shape Layer."
  | _ => mthrow "Select exactly ONE shape layer."
  end.

(** [alert(title + "\n" + err)] in the [catch] of a handler. *)
Definition alert_on_error (title : string) (m : ST host unit) : ST host unit :=
  catch m (λ err, modify (add_alert (title +:+ nl +:+ err))).

Section handlers.
Context `{R : Renderer}.

Definition main (gDebug : bool) (presetName : string) : ST host unit :=
  alert_on_error "Center AP + Repeater" (
    comp ← getCompOrThrow;
    layer ← getSingleShapeLayerOrThrow comp;
    centerLayerAnchorToContents layer;;
    repeater ← addRepeater layer;
    bindRepeater layer repeater;;
    applyRepeaterPreset gDebug layer repeater presetName;;
    linkRepeaterToLayerControls layer repeater;;
    saveAnchorToMemory memName_v20 layer).
End handlers.

(** [btnDoIt.onClick]: the debug flag from the check box, the preset from
    the drop-down list ("Default" when nothing is selected). *)
Definition btnDoIt_onClick `{Renderer} (chkDebug : bool) (selection : option string) : ST host unit :=
  main (negb (negb chkDebug)) (from_option id "Default" selection).

Definition onUpdateAnchor : ST host unit :=
  alert_on_error "Update Anchor" (
    comp ← getCompOrThrow;
    layer ← getSingleShapeLayerOrThrow comp;
    saveAnchorToMemory memName_v20 layer).

Definition no_saved_anchor_msg : string :=
  "No saved anchor found." +:+ nl +:+ "Click " +:+ dq +:+ "Update Anchor" +:+ dq +:+
  " (or run " +:+ dq +:+ "Do It" +:+ dq +:+ ") first.".

Definition onResetAnchor : ST host unit :=
  alert_on_error "Reset Anchor" (
    comp ← getCompOrThrow;
    layer ← getSingleShapeLayerOrThrow comp;
    h ← get;
    match getSavedAnchor memName_v20 h layer with
    | None => mthrow no_saved_anchor_msg
    | Some saved => setAnchorAndCompensate layer saved
    end).

(** [onAbout]: one alert with the About text.  The alert log records the
    message; the dialog's title ["About: Center AP + Repeater"] is window
    chrome. *)
Definition about_msg : string :=
  "Center Anchor Point + Add Repeater is a script by Stephen @ Drywater Dev Co.  " +:+
  "It takes the pain out of repeaters on shape layers being jacked up.  " +:+
  "Simply create a shape layer anywhere, then run the script.  " +:+
  "It will center the repeater anchor point to allow for the repeater to centered.  " +:+
  "You can still move the center of the repeater by moving the anchor point of the shape layer.  " +:+
  "If you manually move the anchor point, you can reset it via the " +:+ dq +:+ "Reset Anchor" +:+ dq +:+
  " button, which will re-center the anchor point.".

Definition onAbout : ST host unit := modify (add_alert about_msg).

(** ** The selection guards *)

(** [getCompOrThrow] then [getSingleShapeLayerOrThrow], as every handler
    starts. *)
Definition selected_layer : ST host N := getCompOrThrow ≫= getSingleShapeLayerOrThrow.

Lemma selected_layer_state h :
  (∃ layer, selected_layer h = Ok layer h) ∨ (∃ msg, selected_layer h = Exn msg h).
Proof.
  unfold selected_layer, getCompOrThrow, getSingleShapeLayerOrThrow, need. st_simpl.
  repeat case_match; simplify_eq; eauto.
Qed.

Lemma selected_layer_bind {B} (k : N → ST host B) h :
  (comp ← getCompOrThrow; layer ← getSingleShapeLayerOrThrow comp; k layer) h =
  match selected_layer h with Ok layer h' => k layer h' | Exn e h' => Exn e h' end.
Proof.
  unfold selected_layer, getCompOrThrow, getSingleShapeLayerOrThrow, need. st_simpl.
  repeat case_match; simplify_eq; done.
Qed.

Lemma alert_on_error_exn title m h e h' :
  m h = Exn e h' → alert_on_error title m h = Ok tt (add_alert (title +:+ nl +:+ e) h').
Proof. intros E. unfold alert_on_error. st_simpl. by rewrite E. Qed.

(** ** The store invariant *)

Lemma getCompOrThrow_preserves `{HostInv P} : preserves P getCompOrThrow.
Proof. unfold getCompOrThrow. preserve. Qed.
Lemma getSingleShapeLayerOrThrow_preserves `{HostInv P} sel : preserves P (getSingleShapeLayerOrThrow sel).
Proof. unfold getSingleShapeLayerOrThrow. preserve. Qed.
Lemma alert_on_error_preserves `{HostInv P} `{!AlertInv P} title m : preserves P m → preserves P (alert_on_error title m).
Proof. intros Hm. unfold alert_on_error. preserve. Qed.

#[export] Hint Resolve getCompOrThrow_preserves getSingleShapeLayerOrThrow_preserves
  alert_on_error_preserves : wf.




(** The three ways the selection guard of [getCompOrThrow] and
    [getSingleShapeLayerOrThrow] refuses a selection: the active item is
    not a composition; the composition's selection is not exactly one
    layer; the one selected layer is not a shape layer. *)
Lemma selected_layer_rejects h msg :
  ((∀ sel, activeItem h ≠ Some (CompItem sel)) ∧ msg = "Open a comp and select exactly one shape layer.") ∨
  ((∃ sel, activeItem h = Some (CompItem sel) ∧ length sel ≠ 1%nat) ∧ msg = "Select exactly ONE shape layer.") ∨
  ((∃ layer q, activeItem h = Some (CompItem [layer]) ∧ props h !! layer = Some q ∧
               matchName q ≠ "ADBE Vector Layer") ∧ msg = "Selected layer is not a Shape Layer.") →
  selected_layer h = Exn msg h.
Proof.
  unfold selected_layer, getCompOrThrow, getSingleShapeLayerOrThrow, need. st_simpl.
  intros [[Ha ->]|[[(sel & Ha & Hl) ->]|[(layer & q & Ha & Hq & Hm) ->]]].
  - destruct (activeItem h) as [[sel|]|]; [by destruct (Ha sel)|done..].
  - rewrite Ha. destruct sel as [|x [|y sel]]; [done|by simpl in Hl|done].
  - rewrite Ha, Hq. simpl. by rewrite bool_decide_false.
Qed.

(** C11. The selection guard of the three handlers: when the active item
    is not a composition, or the composition's selection is not exactly
    one layer, or that layer is not a shape layer, "Do It", "Update
    Anchor" and "Reset Anchor" each alert their title and the guard's
    message for that case, and change nothing else. *)
Theorem handlers_reject_selection `{Renderer} gDebug presetName h msg :
  ((∀ sel, activeItem h ≠ Some (CompItem sel)) ∧ msg = "Open a comp and select exactly one shape layer.") ∨
  ((∃ sel, activeItem h = Some (CompItem sel) ∧ length sel ≠ 1%nat) ∧ msg = "Select exactly ONE shape layer.") ∨
  ((∃ layer q, activeItem h = Some (CompItem [layer]) ∧ props h !! layer = Some q ∧
               matchName q ≠ "ADBE Vector Layer") ∧ msg = "Selected layer is not a Shape Layer.") →
  main gDebug presetName h = Ok tt (add_alert ("Center AP + Repeater" +:+ nl +:+ msg) h) ∧
  onUpdateAnchor h = Ok tt (add_alert ("Update Anchor" +:+ nl +:+ msg) h) ∧
  onResetAnchor h = Ok tt (add_alert ("Reset Anchor" +:+ nl +:+ msg) h).
Proof.
  intros Hc. pose proof (selected_layer_rejects h msg Hc) as E.
  split_and!; apply alert_on_error_exn; by rewrite selected_layer_bind, E.
Qed.

(** Two layers selected in the active composition. *)
Lemma handlers_reject_selection_witness :
  let R : Renderer := λ _ _, mkRect 0 0 0 0 in
  let h := mkHost ∅ 0%N (Some (CompItem [0%N; 1%N])) [] in
  main false "Default" h =
    Ok tt (add_alert ("Center AP + Repeater" +:+ nl +:+ "Select exactly ONE shape layer.") h) ∧
  onUpdateAnchor h = Ok tt (add_alert ("Update Anchor" +:+ nl +:+ "Select exactly ONE shape layer.") h) ∧
  onResetAnchor h = Ok tt (add_alert ("Reset Anchor" +:+ nl +:+ "Select exactly ONE shape layer.") h).
Proof.
  intros R h. apply handlers_reject_selection. right; left. split; [|reflexivity].
  exists [0%N; 1%N]. split; [reflexivity|simpl; lia].
Defined.

(** C12. "Reset Anchor" on a shape layer without a snapshot (no effect
    named ["Anchor Point Restore (don't change)"], or one whose point is
    not a 2D array) alerts "No saved anchor found." with the hint to click
    "Update Anchor" first, and leaves every property as it was. *)
Theorem onResetAnchor_no_snapshot h layer q :
  activeItem h = Some (CompItem [layer]) → props h !! layer = Some q →
  matchName q = "ADBE Vector Layer" → getSavedAnchor memName_v20 h layer = None →
  onResetAnchor h = Ok tt (add_alert ("Reset Anchor" +:+ nl +:+ no_saved_anchor_msg) h).
Proof.
  intros Ha Hq Hm Hs. apply alert_on_error_exn. rewrite selected_layer_bind.
  unfold selected_layer, getCompOrThrow, getSingleShapeLayerOrThrow, need. st_simpl.
  rewrite Ha, Hq. simpl. rewrite bool_decide_true by done. simpl. by rewrite Hs.
Qed.

Lemma onResetAnchor_no_snapshot_witness :
  let h := mkHost (list_to_map sample_layer_props) 8%N (Some (CompItem [0%N])) [] in
  onResetAnchor h = Ok tt (add_alert ("Reset Anchor" +:+ nl +:+ no_saved_anchor_msg) h).
Proof.
  intros h. apply (onResetAnchor_no_snapshot h 0%N
    (mkProp "ADBE Vector Layer" "Shape Layer 1" NO_VALUE VNone "" false false 0 "" [1%N; 5%N]));
    reflexivity.
Defined.

(** ** The snapshot across the handlers *)

Lemma selected_layer_ok h layer q :
  activeItem h = Some (CompItem [layer]) → props h !! layer = Some q →
  matchName q = "ADBE Vector Layer" → selected_layer h = Ok layer h.
Proof.
  intros Ha Hq Hm. unfold selected_layer, getCompOrThrow, getSingleShapeLayerOrThrow, need.
  st_simpl. rewrite Ha, Hq. simpl. by rewrite bool_decide_true.
Qed.

Lemma alert_on_error_ok title m h h' :
  m h = Ok tt h' → alert_on_error title m h = Ok tt h'.
Proof. intros E. unfold alert_on_error. by apply catch_ok. Qed.

Lemma onResetAnchor_saved h layer q s :
  activeItem h = Some (CompItem [layer]) → props h !! layer = Some q →
  matchName q = "ADBE Vector Layer" → getSavedAnchor memName_v20 h layer = Some s →
  onResetAnchor h = alert_on_error "Reset Anchor" (setAnchorAndCompensate layer s) h.
Proof.
  intros Ha Hq Hm Hs. unfold onResetAnchor, alert_on_error, catch.
  rewrite selected_layer_bind, (selected_layer_ok h layer q) by done.
  by rewrite bind_get, Hs.
Qed.

Lemma point_at_comment h k c p a : point_at h p a → point_at (upd_prop k (with_comment c) h) p a.
Proof.
  intros (q & Hq & ?). unfold point_at. rewrite props_upd_prop. destruct (decide (k = p)) as [->|Hne].
  - rewrite lookup_alter_eq, Hq. by eexists.
  - rewrite lookup_alter_ne by done. by exists q.
Qed.

Lemma value_of_upd_ne h k p f : k ≠ p → value_of (upd_prop k f h) p = value_of h p.
Proof. intros Hne. unfold value_of. by rewrite props_upd_prop, lookup_alter_ne. Qed.

Lemma onUpdateAnchor_saves h layer ql ap a fx mem pp qpp :
  activeItem h = Some (CompItem [layer]) → props h !! layer = Some ql →
  matchName ql = "ADBE Vector Layer" →
  transform_prop h layer "ADBE Anchor Point" = Some ap → point_at h ap a →
  effectsParade h layer = Some fx → property h fx memName_v20 = Some mem →
  getAPMemoryPointProp h mem = Some pp → props h !! pp = Some qpp →
  settable qpp (VArr [a.1; a.2]) = true →
  onUpdateAnchor h =
    Ok tt (upd_prop layer (with_comment ("[AP saved] " +:+ toFixed 1 a.1 +:+ ", " +:+ toFixed 1 a.2))
             (upd_prop pp (with_value (VArr [a.1; a.2])) h)).
Proof.
  intros Ha Hl Hm Hap (qa & Hqa & Hxy & _) Hfx Hmem Hpp Hqpp Hset.
  unfold onUpdateAnchor. apply alert_on_error_ok.
  rewrite selected_layer_bind, (selected_layer_ok h layer ql) by done.
  eapply saveAnchorToMemory_existing; try done. by rewrite Hqa.
Qed.

(** C20. Update, move, Reset: on a selected shape layer whose anchor point
    [ap] and position [pos] hold 2D points [a] and [p] and accept new ones,
    and whose snapshot effect's point [pp] (another property) accepts a 2D
    point, "Update Anchor" succeeds; after any later re-anchoring
    [setAnchorAndCompensate] to a point [n], "Reset Anchor" succeeds and
    puts the anchor point back at [a] and the position back at [p] (up to
    [Qeq]), with no alert raised on the way. *)
Theorem update_move_reset h layer ql ap pos a p fx mem pp qpp n :
  activeItem h = Some (CompItem [layer]) → props h !! layer = Some ql →
  matchName ql = "ADBE Vector Layer" →
  transform_prop h layer "ADBE Anchor Point" = Some ap →
  transform_prop h layer "ADBE Position" = Some pos →
  ap ≠ pos → point_at h ap a → point_at h pos p →
  effectsParade h layer = Some fx → property h fx memName_v20 = Some mem →
  getAPMemoryPointProp h mem = Some pp → props h !! pp = Some qpp →
  settable qpp (VArr [a.1; a.2]) = true → pp ≠ ap → pp ≠ pos →
  ∃ h1 h2 h3,
    onUpdateAnchor h = Ok tt h1 ∧ setAnchorAndCompensate layer n h1 = Ok tt h2 ∧
    onResetAnchor h2 = Ok tt h3 ∧
    point_at h3 ap a ∧ (∃ p3, point_at h3 pos p3 ∧ p3.1 == p.1 ∧ p3.2 == p.2) ∧
    alerts h3 = alerts h.
Proof.
  intros Ha Hl Hm Hap Hpos Hne Pa Pp Hfx Hmem Hpp Hqpp Hset Hpa Hpo.
  pose proof (onUpdateAnchor_saves h layer ql ap a fx mem pp qpp) as E1.
  set (h1 := upd_prop layer _ _) in E1.
  assert (S1 : same_skel h1 h) by (etrans; apply same_skel_upd; auto with ae).
  assert (Pa1 : point_at h1 ap a) by (apply point_at_comment, point_at_upd_other; done).
  assert (Pp1 : point_at h1 pos p) by (apply point_at_comment, point_at_upd_other; done).
  pose proof (setAnchorAndCompensate_spec h1 layer ap pos a p n) as E2.
  rewrite !(transform_prop_proper h1 h) in E2 by done.
  set (h2 := upd_prop pos _ _) in E2.
  assert (S2 : same_skel h2 h) by (etrans; [etrans; apply same_skel_upd; auto with ae|done]).
  destruct (same_skel_matchName h h2 layer ql) as (ql2 & Hl2 & Hm2); [done..|].
  rewrite Hm in Hm2.
  assert (Hs2 : getSavedAnchor memName_v20 h2 layer = Some a).
  { rewrite (getSavedAnchor_path memName_v20 h h2 layer fx mem pp) by done.
    unfold h2, h1. rewrite !value_of_upd_ne by done.
    rewrite value_of_upd_keeps, (value_of_upd_value _ _ _ qpp) by done. simpl. by destruct a. }
  pose proof (onResetAnchor_saved h2 layer ql2 a) as E3.
  pose proof (setAnchorAndCompensate_spec h2 layer ap pos n (p.1 + (n.1 - a.1), p.2 + (n.2 - a.2)) a)
    as E4.
  rewrite !(transform_prop_proper h2 h) in E4 by done.
  assert (Ha2 : activeItem h2 = Some (CompItem [layer])) by exact Ha.
  assert (Pa2 : point_at h2 ap n).
  { apply point_at_upd_other; [congruence|exact (point_at_set _ ap a n Pa1)]. }
  assert (Pp2 : point_at h2 pos (p.1 + (n.1 - a.1), p.2 + (n.2 - a.2))).
  { exact (point_at_set _ pos p (p.1 + (n.1 - a.1), p.2 + (n.2 - a.2))
             (point_at_upd_other h1 pos ap (with_value (VArr [n.1; n.2])) p Hne Pp1)). }
  do 3 eexists. split_and!; [by apply E1|by apply E2|
    rewrite E3 by done; by apply alert_on_error_ok, E4|..].
  - apply point_at_upd_other; [congruence|exact (point_at_set _ ap n a Pa2)].
  - eexists. split.
    + exact (point_at_set _ pos _ (p.1 + (n.1 - a.1) + (a.1 - n.1), p.2 + (n.2 - a.2) + (a.2 - n.2))
               (point_at_upd_other h2 pos ap (with_value (VArr [a.1; a.2])) _ Hne Pp2)).
    +
    simpl. split; lra.
  - done.
Qed.

Lemma update_move_reset_witness :
  let h := mkHost (list_to_map sample_memory_props) 11%N (Some (CompItem [0%N])) [] in
  ∃ h1 h2 h3,
    onUpdateAnchor h = Ok tt h1 ∧ setAnchorAndCompensate 0%N (0, 0) h1 = Ok tt h2 ∧
    onResetAnchor h2 = Ok tt h3 ∧
    point_at h3 6%N (25, 50) ∧
    (∃ p3, point_at h3 7%N p3 ∧ p3.1 == (960, 540).1 ∧ p3.2 == (960, 540).2) ∧
    alerts h3 = alerts h.
Proof.
  intros h.
  apply (update_move_reset h 0%N
    (mkProp "ADBE Vector Layer" "Shape Layer 1" NO_VALUE VNone "" false false 0 "" [5%N; 8%N])
    6%N 7%N (25, 50) (960, 540) 8%N 9%N 10%N
    (mkProp "ADBE Point Control-0001" "Point" TwoD_SPATIAL (VArr [0; 0]) "" false true 0 "" []) (0, 0));
    try reflexivity; try discriminate; vm_compute; eexists; split_and!; reflexivity.
Defined.

(** ** "Do It" on a sample layer *)

(** The stroked rectangle of [Measure] on a layer with a Transform (anchor
    9 at (0, 0), position 10 at (960, 540)) and an empty Effect Parade
    (11), the only layer selected. *)
Definition sample_main_host : host :=
  mkHost (<[0%N := mkProp "ADBE Vector Layer" "Shape Layer 1" NO_VALUE VNone "" false false 0 ""
                     [1%N; 8%N; 11%N]]>
          (list_to_map (sample_rect_stroke_props ++ [
            (8%N, mkProp "ADBE Transform Group" "Transform" NO_VALUE VNone "" false false 0 "" [9%N; 10%N]);
            (9%N, mkProp "ADBE Anchor Point" "Anchor Point" TwoD_SPATIAL (VArr [0; 0]) "" false true 0 "" []);
            (10%N, mkProp "ADBE Position" "Position" TwoD_SPATIAL (VArr [960; 540]) "" false true 0 "" []);
            (11%N, mkProp "ADBE Effect Parade" "Effects" NO_VALUE VNone "" false false 0 "" [])])))
    12%N (Some (CompItem [0%N])) [].

(** The whole "Do It" pipeline, evaluated, with a renderer whose source
    rectangle without extents is (10, 20, 100, 50): no alert; the anchor
    point moves to the centre (70, 35) and the position by the same
    (70, 35); the Repeater (12) is added, its anchor (17) bound to the
    layer's anchor point, its position (18) set to the vertical preset
    (0, 50 + 10 + 20) and driven by the new Point Control (29) seeded with
    that value; the snapshot (37) holds the new anchor point. *)
Example main_sample_run :
  let R : Renderer := λ _ b, if b then mkRect 5 15 110 60 else mkRect 10 20 100 50 in
  let r := main false "Vertical Repeater" sample_main_host in
  let h' := res_state r in
  is_ok r = true ∧ alerts h' = [] ∧
  value_of h' 9%N = Some (VArr [140 # 2; 70 # 2]) ∧ value_of h' 10%N = Some (VArr [2060 # 2; 1150 # 2]) ∧
  expr_at h' 17%N exprAnchor ∧
  value_of h' 18%N = Some (VArr [0; 80]) ∧ expr_at h' 18%N (control_expr "Position (x,y)" "Point") ∧
  value_of h' 30%N = Some (VArr [0; 80]) ∧
  getSavedAnchor memName_v20 h' 0%N = Some (140 # 2, 70 # 2).
Proof. vm_compute. split_and!; first [reflexivity | eexists; split_and!; reflexivity]. Qed.
