(* ===== verification/Pipeline.v ===== *)
(** * "Do It" from end to end

    [main] of [src/CenterAP_AddRepeater_v2.0.jsx] runs six stages on the
    selected layer: centre the anchor point, add a Repeater, bind it,
    apply the preset, link the seven controls, save the snapshot.  Each
    component file proves what its stage does; this file composes them:
    on a well-formed, typed store with a selected shape layer that has
    contents, a settable anchor point and position, an Effect Parade and
    the snapshot effect ([main_completes]), "Do It" runs every stage to its
    end, the debug alert of the preset being the only alert it raises.

    What one stage needs from the earlier ones is carried by [frame]
    (names, types, expression capability and key counts kept, children
    only appended), by [wf], by the typing invariant [typed] of [Typing]
    and by the quiet alert log [quiet].  The Repeater the host creates is
    computed symbolically: [alloc_repeater] gives its eleven properties at
    the ids [next_id + 0] to [next_id + 10], and [rep_eval] runs the
    lookups of [bindRepeater] on them. *)

From S2P Require Import Prelude Host Store Typing Finders Anchor Memory Measure Repeater Controls Main.

(** ** The Repeater the host creates *)

(** The properties of [Host.repeater_tmpl] as [alloc] numbers them from
    [n], parent first. *)
Definition rep_nodes (n : N) : list prop := [
  mkProp "ADBE Vector Filter - Repeater" "Repeater 1" NO_VALUE VNone "" false false 0 ""
    [n + 1; n + 2; n + 3; n + 4]%N;
  mkProp "ADBE Vector Repeater Copies" "Copies" OneD (VNum 3) "" false true 0 "" [];
  mkProp "ADBE Vector Repeater Offset" "Offset" OneD (VNum 0) "" false true 0 "" [];
  mkProp "ADBE Vector Repeater Order" "Composite" OneD (VNum 1) "" false true 0 "" [];
  mkProp "ADBE Vector Repeater Transform" "Transform" NO_VALUE VNone "" false false 0 ""
    [n + 5; n + 6; n + 7; n + 8; n + 9; n + 10]%N;
  mkProp "ADBE Vector Repeater Anchor" "Anchor Point" TwoD_SPATIAL (VArr [0; 0]) "" false true 0 "" [];
  mkProp "ADBE Vector Repeater Position" "Position" TwoD_SPATIAL (VArr [100; 0]) "" false true 0 "" [];
  mkProp "ADBE Vector Repeater Scale" "Scale" TwoD (VArr [100; 100]) "" false true 0 "" [];
  mkProp "ADBE Vector Repeater Rotation" "Rotation" OneD (VNum 0) "" false true 0 "" [];
  mkProp "ADBE Vector Repeater Opacity 1" "Start Opacity" OneD (VNum 100) "" false true 0 "" [];
  mkProp "ADBE Vector Repeater Opacity 2" "End Opacity" OneD (VNum 100) "" false true 0 "" []].

Lemma succ_base n : N.succ n = (n + 1)%N.
Proof. lia. Qed.
Lemma succ_add n a : N.succ (n + a) = (n + N.succ a)%N.
Proof. lia. Qed.

Lemma lookup_insert_add {A} (m : gmap N A) n a b x :
  <[(n + a)%N := x]> m !! (n + b)%N = if N.eqb a b then Some x else m !! (n + b)%N.
Proof.
  destruct (N.eqb_spec a b); [subst; by rewrite lookup_insert_eq|].
  rewrite lookup_insert_ne; [done|lia].
Qed.

Lemma lookup_insert_base {A} (m : gmap N A) n b x :
  <[n := x]> m !! (n + b)%N = if N.eqb 0 b then Some x else m !! (n + b)%N.
Proof. rewrite <- (lookup_insert_add m n 0). by rewrite N.add_0_r. Qed.

Lemma lookup_alter_below {A} (f : A → A) (m : gmap N A) c n b :
  (c < n)%N → alter f c m !! (n + b)%N = m !! (n + b)%N.
Proof. intros Hc. rewrite lookup_alter_ne; [done|lia]. Qed.

Lemma lookup_alter_root {A} (f : A → A) (m : gmap N A) c n :
  (c < n)%N → alter f c m !! n = m !! (n + 0)%N.
Proof. intros Hc. rewrite N.add_0_r, lookup_alter_ne; [done|lia]. Qed.

(** [alloc repeater_tmpl h] puts [rep_nodes (next_id h)] at
    [next_id h + i]. *)
Lemma alloc_repeater h i q :
  rep_nodes (next_id h) !! N.to_nat i = Some q →
  props (alloc repeater_tmpl h).2 !! (next_id h + i)%N = Some q.
Proof.
  intros Hi. assert (Hlt : (i < 11)%N) by (apply lookup_lt_Some in Hi; simpl in Hi; lia).
  cbn [alloc repeater_tmpl leaf bump ins_prop props next_id fst snd].
  rewrite (succ_base (next_id h)). repeat rewrite succ_add. cbv [N.succ Pos.succ].
  assert (i = 0 ∨ i = 1 ∨ i = 2 ∨ i = 3 ∨ i = 4 ∨ i = 5 ∨ i = 6 ∨ i = 7 ∨ i = 8 ∨ i = 9 ∨ i = 10)%N
    as Hc by lia.
  destruct_or! Hc; subst i; injection Hi as <-;
    repeat first [rewrite lookup_insert_base | rewrite lookup_insert_add];
    cbv [N.eqb Pos.eqb]; cbv iota; reflexivity.
Qed.

(** Run a lookup on the store [addProperty] leaves after allocating the
    Repeater below the group [c]: rewrite each read of a fresh id by
    [alloc_repeater], decide each test on the (closed) property read. *)
Ltac rep_eval Hc :=
  rewrite ?props_upd_prop;
  repeat (cbn [mbind option_bind find kids];
          first [
            match goal with
            | |- context [alter ?f ?c (props (alloc repeater_tmpl ?h).2) !! (next_id ?h + ?i)%N] =>
                rewrite (lookup_alter_below f _ c (next_id h) i Hc), (alloc_repeater h i _ eq_refl)
            end
          | match goal with
            | |- context [alter ?f ?c (props (alloc repeater_tmpl ?h).2) !! next_id ?h] =>
                rewrite (lookup_alter_root f _ c (next_id h) Hc), (alloc_repeater h 0 _ eq_refl)
            end]);
  repeat match goal with
  | |- context [if ?b then _ else _] =>
      lazymatch b with
      | true => fail
      | false => fail
      | _ => let b' := eval vm_compute in b in
             lazymatch b' with true => change b with true | false => change b with false end
      end
  end;
  cbv iota; cbn [or_else]; reflexivity.

(** [addRepeater] on a well-formed store: the new Repeater is [next_id h],
    and the lookups of [bindRepeater] find its transform group, its anchor
    and its position. *)
Lemma addRepeater_fresh h layer c :
  wf h → property h layer "ADBE Root Vectors Group" = Some c →
  ∃ h', addRepeater layer h = Ok (next_id h) h' ∧ frame h h' ∧ wf h' ∧ alerts h' = alerts h ∧
    property h' (next_id h) "ADBE Vector Repeater Transform" = Some (next_id h + 4)%N ∧
    findRepeaterAnchor h' (next_id h + 4) = Some (next_id h + 5)%N ∧
    findVectorPosition h' (next_id h + 4) = Some (next_id h + 6)%N ∧
    props h' !! (next_id h + 5)%N = rep_nodes (next_id h) !! 5%nat ∧
    props h' !! (next_id h + 6)%N = rep_nodes (next_id h) !! 6%nat.
Proof.
  intros Hw Hc. destruct (property_exists h layer _ c Hc) as [qc Hqc].
  assert (Hlt : (c < next_id h)%N) by by destruct (Hw c qc Hqc).
  destruct (alloc_grows repeater_tmpl h Hw) as (Hi & _).
  set (h' := upd_prop c (with_kids (kids qc ++ [next_id h])) (alloc repeater_tmpl h).2).
  assert (E : addProperty c "ADBE Vector Filter - Repeater" h = Ok (Some (next_id h)) h').
  { unfold addProperty. rewrite (bind_ok _ _ _ _ _ (need_ok c h qc Hqc)). cbv beta.
    change (template "ADBE Vector Filter - Repeater") with (Some repeater_tmpl). cbv iota beta.
    rewrite bind_get, (surjective_pairing (alloc repeater_tmpl h)), Hi. reflexivity. }
  pose proof (addProperty_frame c "ADBE Vector Filter - Repeater" h Hw) as F.
  pose proof (addProperty_preserves c "ADBE Vector Filter - Repeater" h Hw) as W.
  pose proof (addProperty_alerts c "ADBE Vector Filter - Repeater" h Hw) as A.
  rewrite E in F, W, A. exists h'. split_and!; try done.
  - unfold addRepeater. rewrite bind_get, Hc, (bind_ok _ _ _ _ _ E). done.
  - unfold property, h'. rep_eval Hlt.
  - unfold findRepeaterAnchor, property, find_kid, h'. rep_eval Hlt.
  - unfold findVectorPosition, property, find_kid, h'. rep_eval Hlt.
  - unfold h'. by rewrite props_upd_prop, (lookup_alter_below _ _ _ _ _ Hlt), (alloc_repeater h 5 _ eq_refl).
  - unfold h'. by rewrite props_upd_prop, (lookup_alter_below _ _ _ _ _ Hlt), (alloc_repeater h 6 _ eq_refl).
Qed.

(** ** The stages *)

(** A framed step keeps the lookups of the layer's groups. *)
Lemma effectsParade_frame h h' layer fx :
  wf h → frame h h' → effectsParade h layer = Some fx → effectsParade h' layer = Some fx.
Proof. unfold effectsParade. apply property_frame. Qed.

Lemma transform_prop_frame h h' layer mn k :
  wf h → frame h h' → transform_prop h layer mn = Some k → transform_prop h' layer mn = Some k.
Proof.
  intros Hw Hf. unfold transform_prop.
  destruct (property h layer _) as [t|] eqn:Ht; simpl; [|done].
  rewrite (property_frame h h' layer _ t Hw Hf Ht). simpl. by apply property_frame.
Qed.

(** Add, bind, preset, link: the Repeater stages of "Do It" on a layer
    with contents and an Effect Parade return normally, keep the frame
    and the invariants, and raise no alert. *)
Lemma repeater_stages `{Renderer} h layer c fx gDebug presetName (k : ST host unit) :
  wf h → typed h → property h layer "ADBE Root Vectors Group" = Some c →
  effectsParade h layer = Some fx →
  ∃ h4 msg, (repeater ← addRepeater layer; bindRepeater layer repeater;;
             applyRepeaterPreset gDebug layer repeater presetName;;
             linkRepeaterToLayerControls layer repeater;; k) h = k h4 ∧
        frame h h4 ∧ wf h4 ∧ typed h4 ∧ alerts h4 = alerts h ++ (if gDebug then [msg] else []).
Proof.
  intros Hw Ht Hc Hfx. pose proof (addRepeater_preserves (P := typed) layer h Ht) as T1.
  destruct (addRepeater_fresh h layer c Hw Hc) as (h1 & E1 & F1 & W1 & A1 & Hx & Ha & Hp & Qa & Qp).
  rewrite E1 in T1. rewrite (bind_ok _ _ _ _ _ E1). set (n := next_id h) in *.
  destruct (bindRepeater_spec h1 layer n (n + 4) (n + 5) (n + 6) _ _ (100, 0)
              ltac:(unfold repeaterTransform; by rewrite Hx) Ha Qa eq_refl Hp Qp eq_refl ltac:(lia))
    as (h2 & E2 & _).
  pose proof (bindRepeater_frame layer n h1 W1) as F2.
  pose proof (bindRepeater_preserves (P := quiet h1) layer n h1 (conj W1 eq_refl)) as [W2 A2].
  pose proof (bindRepeater_preserves (P := typed) layer n h1 T1) as T2.
  rewrite E2 in F2, W2, A2, T2. rewrite (bind_ok _ _ _ _ _ E2).
  destruct (applyRepeaterPreset_ok gDebug layer n presetName h2 W2) as (h3 & E3).
  pose proof (applyRepeaterPreset_frame gDebug layer n presetName h2 W2) as F3.
  pose proof (applyRepeaterPreset_preserves (P := wf) gDebug layer n presetName h2 W2) as W3.
  assert (Hx2 : repeaterTransform h2 n = Some (n + 4)%N).
  { unfold repeaterTransform. by rewrite (property_frame h1 h2 _ _ _ W1 F2 Hx). }
  pose proof (applyRepeaterPreset_alerts gDebug layer n presetName h2 _ W2 Hx2) as A3.
  pose proof (applyRepeaterPreset_preserves (P := typed) gDebug layer n presetName h2 T2) as T3.
  rewrite E3 in F3, W3, A3, T3. rewrite (bind_ok _ _ _ _ _ E3).
  assert (F13 : frame h1 h3) by (etrans; eassumption).
  destruct (linkRepeaterToLayerControls_spec h3 layer n (n + 4) fx W3) as (h4 & E4 & _);
    [unfold repeaterTransform; by rewrite (property_frame h1 h3 _ _ _ W1 F13 Hx)
    |apply (effectsParade_frame h h3); [done|etrans; [exact F1|exact F13]|done]|].
  pose proof (linkRepeaterToLayerControls_frame layer n h3 W3) as F4.
  pose proof (linkRepeaterToLayerControls_preserves (P := quiet h3) layer n h3 (conj W3 eq_refl)) as [W4 A4].
  pose proof (linkRepeaterToLayerControls_preserves (P := typed) layer n h3 T3) as T4.
  rewrite E4 in F4, W4, A4, T4. rewrite (bind_ok _ _ _ _ _ E4).
  cbn [res_state] in *. exists h4, (debug_message (measureShape h2 layer)).
  split_and!; [done|by do 3 (etrans; [eassumption|])|done|done|congruence].
Qed.

(** A typed point property yields its two coordinates. *)
Lemma typed_point h k q :
  typed h → props h !! k = Some q → is_point_type (pvtype q) = true → ∃ a, xy (pval q) = Some a.
Proof.
  intros Ht Hq Hp. pose proof (Ht k q Hq) as Hv. cbv beta in Hv.
  destruct (pvtype q), (pval q) as [|?|xs|?]; try discriminate;
    (destruct xs as [|x [|y rest]]; [vm_compute in Hv; discriminate Hv..|by eexists]).
Qed.

(** The point of the snapshot effect, when it is 2D, is its first 2D
    child. *)
Lemma getAPMemoryPointProp_2d h mem pp qpp :
  getAPMemoryPointProp h mem = Some pp → props h !! pp = Some qpp → is_2d (pvtype qpp) = true →
  find_kid h mem (λ q, is_2d (pvtype q)) = Some pp.
Proof.
  unfold getAPMemoryPointProp. destruct (find_kid h mem _) eqn:E; simpl; [done|].
  intros Hat Hq H2. unfold property_at in Hat.
  destruct (props h !! mem) as [qm|] eqn:Hm; simpl in Hat; [|done].
  pose proof (find_kid_None h mem _ E qm pp qpp Hm (list_elem_of_lookup_2 _ _ _ Hat) Hq). congruence.
Qed.

Lemma property_parent h p key k : property h p key = Some k → is_Some (props h !! p).
Proof. unfold property. destruct (props h !! p); [by eexists|done]. Qed.

Lemma is_2d_point t : is_2d t = true → is_point_type t = true.
Proof. by destruct t. Qed.

(** The last stage: on a typed store framed from [h0], where the layer's
    anchor point is a point property and the snapshot effect's point a 2D
    property without keyframes, [saveAnchorToMemory] returns normally and
    saves the anchor point as it stands. *)
Lemma snapshot_stage h0 h layer ap qa fx mem pp qpp :
  wf h0 → frame h0 h → typed h →
  transform_prop h0 layer "ADBE Anchor Point" = Some ap → props h0 !! ap = Some qa →
  is_point_type (pvtype qa) = true →
  effectsParade h0 layer = Some fx → property h0 fx memName_v20 = Some mem →
  getAPMemoryPointProp h0 mem = Some pp → props h0 !! pp = Some qpp → numKeys qpp = 0%nat →
  is_2d (pvtype qpp) = true →
  ∃ h', saveAnchorToMemory memName_v20 layer h = Ok tt h' ∧ alerts h' = alerts h ∧
        ∃ a, value_of h' ap ≫= xy = Some a ∧ getSavedAnchor memName_v20 h' layer = Some a.
Proof.
  intros Hw F Ht Hap Hqa Hpt Hfx Hmem Hpp Hqpp Hk H2.
  destruct (F ap qa Hqa) as (qa' & Hqa' & _ & _ & Ety & _).
  destruct (typed_point h ap qa' Ht Hqa' ltac:(by rewrite Ety)) as [a Ha].
  destruct (F pp qpp Hqpp) as (qpp' & Hqpp' & _ & _ & Ety' & _ & Ek & _).
  assert (Hpp' : getAPMemoryPointProp h mem = Some pp).
  { unfold getAPMemoryPointProp. erewrite (find_kid_frame h0 h mem); [done|done|done| |].
    - by intros q q' (_ & _ & -> & _).
    - by eapply getAPMemoryPointProp_2d. }
  assert (Hfx' := effectsParade_frame h0 h layer fx Hw F Hfx).
  assert (Hmem' := property_frame h0 h fx _ mem Hw F Hmem).
  assert (Hl : is_Some (props h !! layer)).
  { unfold transform_prop in Hap. destruct (property h0 layer _) as [t|] eqn:Ht0; [|done].
    destruct (property_parent _ _ _ _ Ht0) as [ql Hql]. destruct (F layer ql Hql) as (ql' & ? & _).
    by exists ql'. }
  pose proof (saveAnchorToMemory_existing memName_v20 h layer ap a fx mem pp qpp'
    (transform_prop_frame h0 h layer _ ap Hw F Hap) ltac:(by rewrite Hqa') Hfx' Hmem' Hpp' Hqpp'
    (point_settable qpp' a.1 a.2 ltac:(congruence) ltac:(rewrite Ety'; by apply is_2d_point)) Hl) as E.
  eexists. split; [exact E|]. split; [done|]. exists a. split.
  - rewrite value_of_upd_keeps by done. destruct (decide (pp = ap)) as [<-|Hne].
    + rewrite (value_of_upd_value _ _ _ qpp') by done. simpl. by destruct a.
    + rewrite value_of_upd_ne by done. unfold value_of. by rewrite Hqa'.
  - rewrite (getSavedAnchor_path memName_v20 h _ layer fx mem pp);
      [|etrans; apply same_skel_upd; auto with ae|done..].
    rewrite value_of_upd_keeps, (value_of_upd_value _ _ _ qpp') by done. simpl. by destruct a.
Qed.

(** ** "Do It" *)

(** The snapshot of the layer's Anchor Memory holds the current value of
    its anchor point [ap]. *)
Definition snapshot_current (h : host) (layer ap : N) : Prop :=
  ∃ a', value_of h ap ≫= xy = Some a' ∧ getSavedAnchor memName_v20 h layer = Some a'.

(** C22. "Do It" completes: on a well-formed, typed store whose only
    selected layer is a shape layer with non-empty contents, a settable 2D
    anchor point and position, an Effect Parade and the snapshot effect
    (whose point is a 2D property without keyframes), "Do It" runs all
    six stages without an exception, so the only alert it raises is the
    debug alert of the preset, exactly when the debug flag is set, and it
    leaves the snapshot equal to the layer's anchor point: "Reset Anchor"
    right after it has nothing to undo. *)
Theorem main_completes `{Renderer} h layer ql c ap pos a p fx mem pp qpp gDebug presetName :
  activeItem h = Some (CompItem [layer]) → props h !! layer = Some ql →
  matchName ql = "ADBE Vector Layer" → wf h → typed h →
  property h layer "ADBE Root Vectors Group" = Some c → numProperties h c ≠ 0%nat →
  transform_prop h layer "ADBE Anchor Point" = Some ap →
  transform_prop h layer "ADBE Position" = Some pos → ap ≠ pos →
  point_at h ap a → point_at h pos p →
  effectsParade h layer = Some fx → property h fx memName_v20 = Some mem →
  getAPMemoryPointProp h mem = Some pp → props h !! pp = Some qpp → numKeys qpp = 0%nat →
  is_2d (pvtype qpp) = true →
  ∃ h', main gDebug presetName h = Ok tt h' ∧
        (∃ msg, alerts h' = alerts h ++ (if gDebug then [msg] else [])) ∧ snapshot_current h' layer ap.
Proof.
  intros Ha Hl Hm Hw Ht Hc Hn Hap Hpos Hne Pa Pp Hfx Hmem Hpp Hqpp Hk H2.
  assert (E1 : centerLayerAnchorToContents layer h =
               setAnchorAndCompensate layer (rect_center (sourceRectAtTime h layer false)) h)
    by (rewrite centerLayerAnchorToContents_unfold, Hc, bool_decide_false; done).
  rewrite (setAnchorAndCompensate_spec h layer ap pos a p _ Hap Hpos Hne Pa Pp) in E1.
  set (h1 := upd_prop pos _ _) in E1.
  assert (F1 : frame h h1) by (etrans; apply frame_upd; intros; apply frame_with_value).
  pose proof (centerLayerAnchorToContents_preserves (P := wf) layer h Hw) as W1.
  pose proof (centerLayerAnchorToContents_preserves (P := typed) layer h Ht) as T1.
  rewrite E1 in W1, T1. simpl in W1, T1.
  destruct (repeater_stages h1 layer c fx gDebug presetName (saveAnchorToMemory memName_v20 layer) W1 T1)
    as (h4 & msg & E4 & F4 & W4 & T4 & A4);
    [by apply (property_frame h)|by apply (effectsParade_frame h)|].
  destruct Pa as (qa & Hqa & _ & _ & Hpt).
  destruct (snapshot_stage h h4 layer ap qa fx mem pp qpp Hw ltac:(by etrans) T4 Hap Hqa Hpt Hfx Hmem
              Hpp Hqpp Hk H2) as (h5 & E5 & A5 & Hsnap).
  exists h5. split_and!; [|exists msg; by rewrite A5, A4|done].
  unfold main. apply alert_on_error_ok. rewrite selected_layer_bind, (selected_layer_ok h layer ql) by done.
  by rewrite (bind_ok _ _ _ _ _ E1), E4.
Qed.



(** The layer of [Main.sample_main_host] after a first "Update Anchor":
    its Effect Parade (11) holds the snapshot effect (12) whose point is
    13. *)
Definition sample_doit_host : host :=
  mkHost (<[11%N := mkProp "ADBE Effect Parade" "Effects" NO_VALUE VNone "" false false 0 "" [12%N]]>
          (<[12%N := mkProp "ADBE Point Control" memName_v20 NO_VALUE VNone "" false false 0 "" [13%N]]>
           (<[13%N := mkProp "ADBE Point Control-0001" "Point" TwoD_SPATIAL (VArr [0; 0]) "" false true 0 "" []]>
            (props sample_main_host))))
    14%N (Some (CompItem [0%N])) [].

Lemma main_completes_witness :
  let R : Renderer := λ _ b, if b then mkRect 5 15 110 60 else mkRect 10 20 100 50 in
  let h := sample_doit_host in
  ∃ h', main false "Vertical Repeater" h = Ok tt h' ∧
        (∃ msg, alerts h' = alerts h ++ (if false then [msg] else [])) ∧ snapshot_current h' 0%N 9%N.
Proof.
  intros R h.
  apply (main_completes h 0%N
    (mkProp "ADBE Vector Layer" "Shape Layer 1" NO_VALUE VNone "" false false 0 "" [1%N; 8%N; 11%N])
    1%N 9%N 10%N (0, 0) (960, 540) 11%N 12%N 13%N
    (mkProp "ADBE Point Control-0001" "Point" TwoD_SPATIAL (VArr [0; 0]) "" false true 0 "" []));
    try reflexivity; try discriminate;
    first [wf_by_computation | apply (bool_decide_unpack _); vm_compute; exact I
          | vm_compute; eexists; split_and!; reflexivity | vm_compute; lia].
Defined.
