(* ===== verification/Seeding.v ===== *)
(** * Seeding the controls

    [linkRepeaterToLayerControls] reads the Repeater's current values
    (after the preset) before it creates anything, seeds each new control
    with the value of the Repeater property it will drive, and only then
    installs the expressions [effect('<control>')('Slider')] and
    [effect('<control>')('Point')].  This file proves that the order
    works: on a layer without the seven controls, every Repeater property
    that was found keeps its value, and the expression installed on it
    reads exactly that value from its control (the first two coordinates
    for a point), so binding the Repeater to the controls changes nothing
    on screen.

    [kept h h'] says that every property of [h] holds in [h'] the value it
    held in [h]; with [Store.frame] it is carried through the steps that
    write names, expressions and children only.  The effects the host
    creates are computed from their templates ([alloc_control]). *)

From S2P Require Import Prelude Host Store Finders Anchor Memory Controls.

(** What the expression [effect(nm)(kind)] reads on a layer whose Effect
    Parade is [fx]: the property [kind] of the effect [nm]. *)
Definition effect_value (h : host) (fx : N) (nm kind : string) : option value :=
  eff ← property h fx nm; c ← property h eff kind; value_of h c.

(** The seven [ensureSlider]/[ensurePoint] calls: the property whose value
    seeds the control, the control's name, and the control's kind. *)
Definition seed_table (h : host) (repeater xf : N) : list (option N * string * string) :=
  [(findCopies h repeater, "Number of Copies", "Slider");
   (findRotation h xf, "Rotation", "Slider");
   (findOffset h repeater, "Offset Amount", "Slider");
   (findVectorPosition h xf, "Position (x,y)", "Point");
   (findScale h xf, "Scale", "Point");
   (findStartOpacity h xf, "Start Opacity", "Slider");
   (findEndOpacity h xf, "End Opacity", "Slider")].

(** The control [nm] of kind [kind] reads the seed [v]: a Slider Control
    the number [v], a Point Control the first two coordinates of [v]. *)
Definition ctl_ok (h : host) (fx : N) (nm kind : string) (v : value) : Prop :=
  if bool_decide (kind = "Point")
  then ∀ a, xy v = Some a → effect_value h fx nm kind = Some (VArr [a.1; a.2])
  else ∀ x, v = VNum x → effect_value h fx nm kind = Some (VNum x).

(** A row of the table after the link: the Repeater property kept its
    value [v], and its control reads [v]. *)
Definition seeded (h h' : host) (fx : N) (row : option N * string * string) : Prop :=
  let '(pX, nm, kind) := row in
  ∀ p v, pX = Some p → value_of h p = Some v → value_of h' p = Some v ∧ ctl_ok h' fx nm kind v.

Definition kept (h h' : host) : Prop :=
  ∀ p q, props h !! p = Some q → value_of h' p = Some (pval q).

(** ** Steps that keep every value *)

#[export] Instance kept_preorder : PreOrder kept.
Proof.
  split.
  - intros h p q Hq. unfold value_of. by rewrite Hq.
  - intros h1 h2 h3 K12 K23 p q Hq. specialize (K12 p q Hq). unfold value_of in K12.
    destruct (props h2 !! p) as [q2|] eqn:Hq2; [|done]. injection K12 as <-. by apply K23.
Qed.

Lemma kept_upd p f h : (∀ q, pval (f q) = pval q) → kept h (upd_prop p f h).
Proof.
  intros Hf k q Hq. unfold value_of. rewrite props_upd_prop.
  destruct (decide (k = p)) as [->|Hne]; [rewrite lookup_alter_eq, Hq; simpl; by rewrite Hf|].
  by rewrite lookup_alter_ne, Hq.
Qed.

Lemma need_kept p : steps kept (need p).
Proof. intros h _. unfold need. destruct (props h !! p); simpl; reflexivity. Qed.

Lemma modify_kept p f : (∀ q, pval (f q) = pval q) → steps kept (modify (upd_prop p f)).
Proof. intros Hf h _. by apply kept_upd. Qed.

Lemma add_alert_kept s : steps kept (modify (add_alert s)).
Proof. intros h _ p q Hq. unfold value_of. simpl. by rewrite Hq. Qed.

Lemma addProperty_kept p mn : steps kept (addProperty p mn).
Proof.
  intros h Hw. unfold addProperty, need. st_simpl.
  destruct (props h !! p) as [qp|] eqn:Hp; simpl; [|reflexivity].
  destruct (template mn) as [t|]; simpl; [|reflexivity].
  destruct (alloc_grows t h Hw) as (_ & _ & (_ & Eold & _) & _).
  destruct (alloc t h) as [i h1]; simpl in *.
  etrans; [|apply kept_upd; done]. intros k q Hq. unfold value_of.
  rewrite Eold, Hq; [done|]. by destruct (Hw k q Hq).
Qed.

#[export] Hint Resolve need_kept add_alert_kept addProperty_kept : frame.
#[export] Hint Extern 1 (steps kept (modify (upd_prop _ _))) =>
  apply modify_kept; intros ?; reflexivity : frame.

Lemma setName_kept p s : steps kept (setName p s).
Proof. unfold setName. frame_steps. Qed.
Lemma setExpression_kept p e : steps kept (setExpression p e).
Proof. unfold setExpression. frame_steps. Qed.
Lemma setExpressionEnabled_kept p b : steps kept (setExpressionEnabled p b).
Proof. unfold setExpressionEnabled. frame_steps. Qed.

#[export] Hint Resolve setName_kept setExpression_kept setExpressionEnabled_kept : frame.

Lemma ensureEffect_kept layer nm mn : steps kept (ensureEffect layer nm mn).
Proof. unfold ensureEffect. frame_steps. Qed.
Lemma setExpr_kept p e : steps kept (setExpr p e).
Proof. unfold setExpr. frame_steps. Qed.

Lemma run_setExprs_steps (R : host → host → Prop) `{!PreOrder R} l :
  (∀ p e, steps R (setExpr p e)) → steps R (run_setExprs l).
Proof.
  intros Hs. induction l as [|[p e] l IH]; [apply steps_ret; apply _|].
  intros h Hw. rewrite run_setExprs_cons.
  revert h Hw. apply steps_bind; [apply _|apply Hs|apply setExpr_preserves|intros []; exact IH].
Qed.

(** A [setValue] on a property that [h] does not have keeps [h]'s values. *)
Lemma setValue_kept_fresh h h1 p v :
  kept h h1 → props h !! p = None → kept h (res_state (setValue p v h1)).
Proof.
  intros K Hp. unfold setValue, need. st_simpl. destruct (props h1 !! p); simpl; [|done].
  case_match; simpl; [|done]. intros k q Hq. pose proof (K k q Hq) as Hk. unfold value_of in *.
  rewrite props_upd_prop, lookup_alter_ne; [done|]. intros ->. congruence.
Qed.

(** ** The effects the host creates *)

(** A child appended to [p] that does not match [key] leaves
    [p.property(key)] as it was. *)
Lemma property_append_other h h' p q q' key i c :
  wf h → frame h h' → props h !! p = Some q → props h' !! p = Some q' →
  kids q' = kids q ++ [i] → props h' !! i = Some c → key_matches key c = false →
  property h' p key = property h p key.
Proof.
  intros Hw Hf Hq Hq' Hk Hi Hc. unfold property. rewrite Hq, Hq'. simpl. rewrite Hk, find_app.
  rewrite (find_ext_in _ (λ k, match props h !! k with Some c => key_matches key c | None => false end)).
  - simpl. rewrite Hi, Hc. by destruct (find _ (kids q)).
  - intros k Hin. cbv beta. apply key_matches_frame; [done|].
    destruct (Hw p q Hq) as [_ Hks]. by destruct (proj1 (Forall_forall _ _) Hks k Hin).
Qed.

(** An effect template: a group with one leaf, as the Slider and Point
    Controls are. *)
Definition control_tmpl (emn enm cmn cnm : string) (ty : pvt) (v : value) : tmpl :=
  Tmpl emn enm NO_VALUE VNone false [leaf cmn cnm ty v].

Lemma alloc_control emn enm cmn cnm ty v h :
  alloc (control_tmpl emn enm cmn cnm ty v) h =
  (next_id h,
   mkHost (<[next_id h := mkProp emn enm NO_VALUE VNone "" false false 0 "" [N.succ (next_id h)]]>
             (<[N.succ (next_id h) := mkProp cmn cnm ty v "" false true 0 "" []]> (props h)))
          (N.succ (N.succ (next_id h))) (activeItem h) (alerts h)).
Proof. reflexivity. Qed.

Lemma slider_control : slider_tmpl =
  control_tmpl "ADBE Slider Control" "Slider Control" "ADBE Slider Control-0001" "Slider" OneD (VNum 0).
Proof. reflexivity. Qed.

Lemma point_control : point_tmpl =
  control_tmpl "ADBE Point Control" "Point Control" "ADBE Point Control-0001" "Point" TwoD_SPATIAL (VArr [0; 0]).
Proof. reflexivity. Qed.

(** [ensureEffect] for a name the Effect Parade does not have: the new
    effect is [next_id h], renamed, with its leaf at [N.succ (next_id h)];
    the lookups of other names on the Effect Parade are unchanged. *)
Lemma ensureEffect_fresh h layer fx qf nm mn emn enm cmn cnm ty v :
  wf h → effectsParade h layer = Some fx → props h !! fx = Some qf → property h fx nm = None →
  template mn = Some (control_tmpl emn enm cmn cnm ty v) →
  let n := next_id h in
  ∃ h', ensureEffect layer nm mn h = Ok n h' ∧ frame h h' ∧ kept h h' ∧ wf h' ∧
    activeItem h' = activeItem h ∧ props h !! N.succ n = None ∧
    props h' !! n = Some (mkProp emn nm NO_VALUE VNone "" false false 0 "" [N.succ n]) ∧
    props h' !! N.succ n = Some (mkProp cmn cnm ty v "" false true 0 "" []) ∧
    (∀ key, key_matches key (mkProp cmn cnm ty v "" false true 0 "" []) = true →
            property h' n key = Some (N.succ n)) ∧
    property h' fx nm = Some n ∧
    (∀ key, key ≠ nm → key ≠ emn → property h' fx key = property h fx key).
Proof.
  intros Hw Hfx Hqf Hnone Ht n.
  assert (Hlt : (fx < n)%N) by by destruct (Hw fx qf Hqf).
  assert (Hn : props h !! n = None) by (apply wf_absent; [done|lia]).
  assert (Hsn : props h !! N.succ n = None) by (apply wf_absent; [done|lia]).
  set (E := mkProp emn enm NO_VALUE VNone "" false false 0 "" [N.succ n]).
  set (C := mkProp cmn cnm ty v "" false true 0 "" []).
  set (h1 := upd_prop fx (with_kids (kids qf ++ [n])) (alloc (control_tmpl emn enm cmn cnm ty v) h).2).
  assert (Ea : addProperty fx mn h = Ok (Some n) h1).
  { unfold addProperty. rewrite (bind_ok _ _ _ _ _ (need_ok fx h qf Hqf)). cbv beta.
    rewrite Ht. cbv iota beta. rewrite bind_get, alloc_control. reflexivity. }
  assert (H1n : props h1 !! n = Some E).
  { unfold h1. rewrite props_upd_prop, lookup_alter_ne, alloc_control by lia. simpl.
    by rewrite lookup_insert_eq. }
  set (h2 := upd_prop n (with_name nm) h1).
  assert (Ee : ensureEffect layer nm mn h = Ok n h2).
  { unfold ensureEffect. rewrite bind_get, Hfx, Hnone, (bind_ok _ _ _ _ _ Ea). cbv iota beta.
    unfold setName, need. st_simpl. rewrite H1n. reflexivity. }
  pose proof (ensureEffect_frame layer nm mn h Hw) as F. pose proof (ensureEffect_kept layer nm mn h Hw) as K.
  pose proof (ensureEffect_preserves (P := wf) layer nm mn h Hw) as W. rewrite Ee in F, K, W.
  assert (H2c : props h2 !! N.succ n = Some C).
  { unfold h2, h1. rewrite !props_upd_prop, !lookup_alter_ne, alloc_control by lia. simpl.
    rewrite lookup_insert_ne, lookup_insert_eq by lia. done. }
  assert (H2n : props h2 !! n = Some (with_name nm E)).
  { unfold h2. rewrite props_upd_prop, lookup_alter_eq, H1n. done. }
  assert (H2fx : props h2 !! fx = Some (with_kids (kids qf ++ [n]) qf)).
  { unfold h2, h1. rewrite !props_upd_prop, lookup_alter_ne, lookup_alter_eq, alloc_control by lia.
    simpl. rewrite !lookup_insert_ne, Hqf by lia. done. }
  exists h2. split_and!; try done.
  - intros key Hk. unfold property. rewrite H2n. cbn [mbind option_bind with_name kids].
    unfold E. cbn [kids find]. by rewrite H2c, Hk.
  - apply (property_append h h2 fx qf (with_kids (kids qf ++ [n]) qf) nm n (with_name nm E)); try done.
    unfold key_matches. simpl. rewrite (bool_decide_eq_true_2 (nm = nm)) by done. apply orb_true_r.
  - intros key Hk1 Hk2. apply (property_append_other h h2 fx qf (with_kids (kids qf ++ [n]) qf) key n (with_name nm E)); try done.
    unfold key_matches. simpl. rewrite !bool_decide_eq_false_2 by congruence. done.
Qed.

(** The seeding write on the leaf of a new control: the value goes in,
    and the control's expression reads it. *)
Lemma seed_leaf h h2 fx nm kind c q w :
  frame h h2 → kept h h2 → wf h2 → props h !! c = None → props h2 !! c = Some q →
  settable q w = true → (∃ eff, property h2 fx nm = Some eff ∧ property h2 eff kind = Some c) →
  ∃ h3, trySet (Some c) w h2 = Ok tt h3 ∧ frame h h3 ∧ kept h h3 ∧ wf h3 ∧ same_skel h3 h2 ∧
        effect_value h3 fx nm kind = Some w.
Proof.
  intros F K W Hc Hq Hs (eff & He & Hk).
  pose proof (setValue_ok c w h2 q Hq Hs) as E.
  exists (upd_prop c (with_value w) h2). unfold trySet.
  assert (S : same_skel (upd_prop c (with_value w) h2) h2) by apply same_skel_upd, with_value_skel.
  split_and!.
  - by apply catch_ok.
  - etrans; [exact F|]. apply frame_upd. intros ? _. apply frame_with_value.
  - pose proof (setValue_kept_fresh h h2 c w K Hc) as K'. by rewrite E in K'.
  - by apply wf_upd.
  - exact S.
  - unfold effect_value. rewrite (property_proper _ _ S fx fx eq_refl nm nm eq_refl), He. simpl.
    rewrite (property_proper _ _ S eff eff eq_refl kind kind eq_refl), Hk. simpl.
    unfold value_of. rewrite props_upd_prop, lookup_alter_eq, Hq. done.
Qed.

(** [ensureSlider] for a name the Effect Parade does not have: a new
    Slider Control named [nm], seeded with [v] when [v] is a number. *)
Lemma ensureSlider_fresh h layer fx qf nm v :
  wf h → effectsParade h layer = Some fx → props h !! fx = Some qf → property h fx nm = None →
  ∃ r h', ensureSlider layer nm v h = Ok r h' ∧ frame h h' ∧ kept h h' ∧ wf h' ∧
    ctl_ok h' fx nm "Slider" v ∧
    (∀ key, key ≠ nm → key ≠ "ADBE Slider Control" → property h' fx key = property h fx key).
Proof.
  intros Hw Hfx Hqf Hnone.
  destruct (ensureEffect_fresh h layer fx qf nm "ADBE Slider Control" "ADBE Slider Control"
              "Slider Control" "ADBE Slider Control-0001" "Slider" OneD (VNum 0) Hw Hfx Hqf Hnone eq_refl)
    as (h2 & Ee & F & K & W & _ & Hsn & _ & Hc & Hk & Hnm & Hother).
  unfold ensureSlider. rewrite (bind_ok _ _ _ _ _ Ee), bind_get.
  rewrite (Hk "ADBE Slider Control-0001" eq_refl). cbn [or_else].
  destruct v as [|x| |]; try (eexists _, h2; split_and!; [reflexivity|done..|(unfold ctl_ok; rewrite bool_decide_eq_false_2 by discriminate; by intros ? [=])|done]).
  destruct (seed_leaf h h2 fx nm "Slider" _ _ (VNum x) F K W Hsn Hc eq_refl
              (ex_intro _ _ (conj Hnm (Hk "Slider" eq_refl)))) as (h3 & E3 & F3 & K3 & W3 & S3 & V3).
  rewrite (bind_ok _ _ _ _ _ E3). eexists _, h3. split_and!; [reflexivity|done..|(unfold ctl_ok; rewrite bool_decide_eq_false_2 by discriminate; by intros ? [= <-])|].
  intros key ? ?. rewrite (property_proper _ _ S3 fx fx eq_refl key key eq_refl). by apply Hother.
Qed.

(** [ensurePoint] likewise: a new Point Control named [nm], seeded with
    the first two coordinates of [v]. *)
Lemma ensurePoint_fresh h layer fx qf nm v :
  wf h → effectsParade h layer = Some fx → props h !! fx = Some qf → property h fx nm = None →
  ∃ r h', ensurePoint layer nm v h = Ok r h' ∧ frame h h' ∧ kept h h' ∧ wf h' ∧
    ctl_ok h' fx nm "Point" v ∧
    (∀ key, key ≠ nm → key ≠ "ADBE Point Control" → property h' fx key = property h fx key).
Proof.
  intros Hw Hfx Hqf Hnone.
  destruct (ensureEffect_fresh h layer fx qf nm "ADBE Point Control" "ADBE Point Control"
              "Point Control" "ADBE Point Control-0001" "Point" TwoD_SPATIAL (VArr [0; 0]) Hw Hfx Hqf Hnone eq_refl)
    as (h2 & Ee & F & K & W & _ & Hsn & _ & Hc & Hk & Hnm & Hother).
  unfold ensurePoint. rewrite (bind_ok _ _ _ _ _ Ee), bind_get.
  rewrite (Hk "ADBE Point Control-0001" eq_refl). cbn [or_else].
  destruct (xy v) as [a|] eqn:Hxy; [|eexists _, h2; split_and!; [reflexivity|done..|(unfold ctl_ok; rewrite bool_decide_eq_true_2 by done; intros ? ?; congruence)|done]].
  destruct (seed_leaf h h2 fx nm "Point" _ _ (VArr [a.1; a.2]) F K W Hsn Hc eq_refl
              (ex_intro _ _ (conj Hnm (Hk "Point" eq_refl)))) as (h3 & E3 & F3 & K3 & W3 & S3 & V3).
  rewrite (bind_ok _ _ _ _ _ E3). eexists _, h3. split_and!; [reflexivity|done..|(unfold ctl_ok; rewrite bool_decide_eq_true_2 by done; intros ? Ha; rewrite Hxy in Ha; by injection Ha as <-)|].
  intros key ? ?. rewrite (property_proper _ _ S3 fx fx eq_refl key key eq_refl). by apply Hother.
Qed.

(** ** What a later step leaves of a control's reading *)

Lemma effect_value_keep h h' fx nm kind w :
  wf h → frame h h' → kept h h' → effect_value h fx nm kind = Some w → effect_value h' fx nm kind = Some w.
Proof.
  intros Hw F K. unfold effect_value.
  destruct (property h fx nm) as [eff|] eqn:He; simpl; [|done].
  rewrite (property_frame h h' _ _ _ Hw F He). simpl.
  destruct (property h eff kind) as [c|] eqn:Hc; simpl; [|done].
  rewrite (property_frame h h' _ _ _ Hw F Hc). simpl.
  unfold value_of. destruct (props h !! c) as [q|] eqn:Hq; simpl; [|done].
  intros [= <-]. exact (K c q Hq).
Qed.

Lemma ctl_ok_keep h h' fx nm kind v :
  wf h → frame h h' → kept h h' → ctl_ok h fx nm kind v → ctl_ok h' fx nm kind v.
Proof.
  intros Hw F K. unfold ctl_ok. case_bool_decide; intros Hv y Hy; eapply effect_value_keep; eauto.
Qed.

(** One [ensureSlider]/[ensurePoint] of the link on a fresh name: run it,
    carry the readings of the controls made so far, the Effect Parade and
    [kept] from the start [h0] to the new store. *)
Ltac seed_step h0 Hinit :=
  match goal with
  | Hw : wf ?h, Hfx : effectsParade ?h ?l = Some ?fx, Kc : kept h0 ?h
    |- context [((?m ≫= _) ?h)] =>
      let qf := fresh "qf" in let Hqf := fresh "Hqf" in
      destruct (property_exists h l _ fx Hfx) as [qf Hqf];
      let Hn := fresh "Hn" in
      let nm := match m with ensureSlider _ ?nm _ => nm | ensurePoint _ ?nm _ => nm end in
      assert (Hn : property h fx nm = None) by
        (repeat match goal with
                | Ho : ∀ key, _ → _ → property ?a fx key = property ?b fx key |- property ?a fx ?k = None =>
                    rewrite (Ho k) by discriminate
                end; apply Hinit; unfold control_names; set_solver);
      let r := fresh "r" in let h1 := fresh "h" in let E := fresh "E" in
      let F := fresh "F" in let K := fresh "K" in let W := fresh "W" in
      let V := fresh "V" in let Ho := fresh "Ho" in
      first [ match m with ensureSlider _ ?nm ?v =>
                destruct (ensureSlider_fresh h l fx qf nm v Hw Hfx Hqf Hn) as (r & h1 & E & F & K & W & V & Ho) end
            | match m with ensurePoint _ ?nm ?v =>
                destruct (ensurePoint_fresh h l fx qf nm v Hw Hfx Hqf Hn) as (r & h1 & E & F & K & W & V & Ho) end ];
      rewrite (bind_ok _ _ _ _ _ E);
      repeat match goal with
             | Vold : ctl_ok h fx _ _ _ |- _ => apply (ctl_ok_keep h h1) in Vold; [|exact Hw|exact F|exact K]
             end;
      let Hfx1 := fresh "Hfx" in
      assert (Hfx1 : effectsParade h1 l = Some fx) by (apply (property_frame h h1); done);
      let Kc1 := fresh "Kc" in
      assert (Kc1 : kept h0 h1) by (etrans; [exact Kc|exact K]);
      clear Hfx Kc E Hn Hqf
  end.

(** C24. Seeding makes the binding invisible: on a well-formed store
    where the layer has an Effect Parade without any of the seven
    controls and the Repeater a transform group,
    [linkRepeaterToLayerControls] returns normally, and for each of the
    seven rows whose Repeater property was found with value [v], that
    property still holds [v] and the control its new expression reads
    holds [v] too (a Slider Control the number, a Point Control the first
    two coordinates): every driven property reads from its control the
    value it had. *)
Theorem linkRepeaterToLayerControls_seeds h layer repeater xf fx :
  wf h → repeaterTransform h repeater = Some xf → effectsParade h layer = Some fx →
  (∀ nm, nm ∈ control_names → property h fx nm = None) →
  ∃ h', linkRepeaterToLayerControls layer repeater h = Ok tt h' ∧
    Forall (seeded h h' fx) (seed_table h repeater xf).
Proof.
  intros Hw Hxf Hfx Hinit. unfold linkRepeaterToLayerControls. rewrite bind_get, Hxf. cbv zeta.
  assert (Kc : kept h h) by reflexivity. pose proof Hw as Hw0.
  do 7 seed_step h Hinit.
  match goal with
  | |- ∃ h', (setExpr _ _ ≫= _) ?hA = _ ∧ _ =>
      change (∃ h', run_setExprs (link_table h repeater xf) hA = Ok tt h' ∧
                    Forall (seeded h h' fx) (seed_table h repeater xf));
      let WA := fresh "WA" in assert (WA : wf hA) by assumption;
      pose proof (run_setExprs_steps frame (link_table h repeater xf) setExpr_frame hA WA) as FA;
      pose proof (run_setExprs_steps kept (link_table h repeater xf) setExpr_kept hA WA) as KA;
      destruct (run_setExprs_spec (link_table h repeater xf) hA) as (h' & E & _)
  end.
  { intros p e Hin. destruct (link_table_targets h repeater xf p e Hin) as [[q Hq] He].
    split; [|done].
    match goal with Kc : kept h ?a |- is_Some (props ?a !! p) => pose proof (Kc p q Hq) as Hv end.
    unfold value_of in Hv. apply (fmap_is_Some pval). rewrite Hv. by eexists. }
  rewrite E in FA, KA. cbn [res_state] in FA, KA.
  repeat match goal with
         | V : ctl_ok ?a fx _ _ _ |- _ => lazymatch a with h' => fail | _ => apply (ctl_ok_keep a h') in V; [|assumption|exact FA|exact KA] end
         end.
  assert (Kf : kept h h') by (match goal with Kc : kept h ?a, KA : kept ?a h' |- _ => etrans; [exact Kc|exact KA] end).
  exists h'. split; [exact E|].
  apply Forall_forall. intros row Hrow. unfold seed_table in Hrow.
  repeat (apply elem_of_cons in Hrow as [->|Hrow];
    [intros p v Hp Hv; split;
     [ unfold value_of in Hv |- *; destruct (props h !! p) as [q|] eqn:Hq; [|done];
       injection Hv as <-; exact (Kf p q Hq)
     | match goal with
       | V : ctl_ok h' fx ?nm ?kind (current_value h _ _) |- ctl_ok h' fx ?nm ?kind v =>
           rewrite Hp in V; unfold current_value in V; rewrite Hv in V; exact V
       end ]|]).
  by apply not_elem_of_nil in Hrow.
Qed.

(** On the sample layer of [Controls] (a fresh Repeater 3, transform group
    7, an empty Effect Parade 2), every control reads the Repeater's
    value. *)
Lemma linkRepeaterToLayerControls_seeds_witness :
  let h := sample_link_host in
  ∃ h', linkRepeaterToLayerControls 0%N 3%N h = Ok tt h' ∧
    Forall (seeded h h' 2%N) (seed_table h 3%N 7%N).
Proof.
  intros h. apply (linkRepeaterToLayerControls_seeds h 0%N 3%N 7%N 2%N).
  - wf_by_computation.
  - vm_compute. reflexivity.
  - vm_compute. reflexivity.
  - intros nm Hnm. unfold control_names in Hnm.
    repeat (apply elem_of_cons in Hnm as [->|Hnm]; [vm_compute; reflexivity|]).
    by apply not_elem_of_nil in Hnm.
Defined.
