(* ===== verification/Legacy.v ===== *)
(** * The v1.9 script

    [src/CenterAP_AddRepeater_v1.9.jsx], where it differs from v2.0: the
    size measurement [measureShapeSize] (first rectangle or ellipse size,
    depth first, else the source rectangle WITH stroke extents; no stroke
    tracking, no freeform paths), the rotation lookup (pattern
    [/rotation/i] only), [applyRepeaterPreset] without stroke padding or
    debug alert, and the handlers: [main] without the control phase, and
    the snapshot effect named ["AP Memory"].  Everything else
    ([setAnchorAndCompensate], [centerLayerAnchorToContents],
    [addRepeater], [bindRepeater], [findCopies], [findVectorPosition], the
    memory functions up to the effect name) is the same code, and the
    definitions of the other files are reused under [_v19] names, which
    the v1.9 handlers call as the v1.9 text calls its own copies; the
    memory functions take the v1.9 effect name.  [btnDoIt_onClick_v19] is the Do
    It button of v1.9's panel, which has no debug check box.

    Theorems: the v1.9 preset table (positions [(0, h)] and [(w, 0)]); the
    equivalence of v1.9's [measureShapeSize] with v2.0's [measureShape]
    on layers without freeform paths (the fuel [next_id] of [scanGroup]
    being enough on a well-formed store, [scanGroup_fuel_stable]); and,
    as an evaluated example, the v1.9 and v2.0 vertical presets on a
    stroked rectangle ((0, 50) against (0, 80)). *)

From S2P Require Import Prelude Host Store Typing Finders Anchor Memory Measure Repeater Main.

(** ** The code v1.9 shares with v2.0

    These functions of v1.9 are v2.0's up to layout: v2.0 joins some
    statements on one line and writes [findCopies] as [a || b ||
    findOneD(...)] where v1.9 returns [p] when it is set, which is the
    same.  Each is therefore v2.0's definition, under the v1.9 name the
    v1.9 handlers call. *)
Definition getCompOrThrow_v19 : ST host (list N) := getCompOrThrow.
Definition getSingleShapeLayerOrThrow_v19 : list N → ST host N := getSingleShapeLayerOrThrow.
Definition setAnchorAndCompensate_v19 : N → Q * Q → ST host unit := setAnchorAndCompensate.
Definition addRepeater_v19 : N → ST host N := addRepeater.
Definition bindRepeater_v19 : N → N → ST host unit := bindRepeater.
Definition findOneD_v19 : host → N → list string → option regex → option N := findOneD.
Definition findVectorPosition_v19 : host → N → option N := findVectorPosition.
Definition findCopies_v19 : host → N → option N := findCopies.

(** ** Lookups *)

Definition re_rotation_v19 : regex := RLit "rotation".

Definition findRotation_v19 (h : host) (xform : N) : option N :=
  property h xform "ADBE Vector Rotation" ||| property h xform "ADBE Vector Repeater Rotation"
  ||| findOneD_v19 h xform [] (Some re_rotation_v19).

(** ** [measureShapeSize] *)

(** The first child of a list that yields a result: the [for] loops that
    [return] from inside. *)
Fixpoint first_some {A B} (f : A → option B) (l : list A) : option B :=
  match l with [] => None | x :: l' => f x ||| first_some f l' end.

(** [var sv = size.value; return [Math.abs(sv[0]), Math.abs(sv[1])];] *)
Definition size_pair (h : host) (s : N) : jsnum * jsnum :=
  let v := value_of h s in (js_abs (v ≫= λ v, arr_at v 0), js_abs (v ≫= λ v, arr_at v 1)).

Fixpoint scanGroup (fuel : nat) (h : host) (group : option N) : option (jsnum * jsnum) :=
  match fuel with
  | O => None
  | S fuel' =>
      match group with
      | None => None
      | Some g =>
          first_some (λ k,
            match props h !! k with
            | None => None
            | Some p =>
                (if bool_decide (matchName p = "ADBE Vector Group")
                 then scanGroup fuel' h (property h k "ADBE Vectors Group") else None)
                ||| (if bool_decide (matchName p = "ADBE Vector Shape - Rect")
                     then size_pair h <$> property h k "ADBE Vector Rect Size" else None)
                ||| (if bool_decide (matchName p = "ADBE Vector Shape - Ellipse")
                     then size_pair h <$> property h k "ADBE Vector Ellipse Size" else None)
            end)
            (match props h !! g with Some q => kids q | None => [] end)
      end
  end.

(** [size[0] || 0] *)
Definition js_or0 (x : jsnum) : Q := match x with JNum q => q | JNaN => 0 end.

Section v19.
Context `{R : Renderer}.

Definition centerLayerAnchorToContents_v19 : N → ST host unit := centerLayerAnchorToContents.

Definition measureShapeSize (h : host) (layer : N) : jsnum * jsnum :=
  let contents := property h layer "ADBE Root Vectors Group" in
  match scanGroup (N.to_nat (next_id h)) h contents with
  | Some byParam => byParam
  | None =>
      let r := sourceRectAtTime h layer true in
      (JNum (Qabs (rect_width r)), JNum (Qabs (rect_height r)))
  end.

Definition applyRepeaterPreset_v19 (layer repeater : N) (presetName : string) : ST host unit :=
  h ← get;
  match repeaterTransform h repeater with
  | None => mret tt
  | Some repXform =>
      let pCopies := findCopies_v19 h repeater in
      let pPos := findVectorPosition_v19 h repXform in
      let pRot := findRotation_v19 h repXform in
      let size := measureShapeSize h layer in
      let w := js_or0 size.1 in
      let hh := js_or0 size.2 in
      if bool_decide (presetName = "Vertical Repeater") then
        setNum pCopies 10;; setVec pPos (0, hh);; setNum pRot 0
      else if bool_decide (presetName = "Horizontal Repeater") then
        setNum pCopies 10;; setVec pPos (w, 0);; setNum pRot 0
      else if bool_decide (presetName = "Spiral Repeater") then
        setNum pCopies 10;; setVec pPos (0, 0);; setNum pRot 10
      else mret tt
  end.

(** The memory functions of v1.9 are those of [Memory] with the effect
    named ["AP Memory"]. *)
Definition ensureAPMemoryEffect_v19 : N → ST host N := ensureAPMemoryEffect memName_v19.
Definition saveAnchorToMemory_v19 : N → ST host unit := saveAnchorToMemory memName_v19.
Definition getSavedAnchor_v19 : host → N → option (Q * Q) := getSavedAnchor memName_v19.

Definition main_v19 (presetName : string) : ST host unit :=
  alert_on_error "Center AP + Repeater" (
    comp ← getCompOrThrow_v19;
    layer ← getSingleShapeLayerOrThrow_v19 comp;
    centerLayerAnchorToContents_v19 layer;;
    repeater ← addRepeater_v19 layer;
    bindRepeater_v19 layer repeater;;
    applyRepeaterPreset_v19 layer repeater presetName;;
    saveAnchorToMemory_v19 layer).
(** [btnDoIt.onClick] of v1.9: the preset from the drop-down list
    ("Default" when nothing is selected); v1.9 has no debug check box. *)
Definition btnDoIt_onClick_v19 (selection : option string) : ST host unit :=
  main_v19 (from_option id "Default" selection).
End v19.

Definition onUpdateAnchor_v19 : ST host unit :=
  alert_on_error "Update Anchor" (
    comp ← getCompOrThrow_v19;
    layer ← getSingleShapeLayerOrThrow_v19 comp;
    saveAnchorToMemory_v19 layer).

Definition onResetAnchor_v19 : ST host unit :=
  alert_on_error "Reset Anchor" (
    comp ← getCompOrThrow_v19;
    layer ← getSingleShapeLayerOrThrow_v19 comp;
    h ← get;
    match getSavedAnchor_v19 h layer with
    | None => mthrow no_saved_anchor_msg
    | Some saved => setAnchorAndCompensate_v19 layer saved
    end).

(** [onAbout] of v1.9: the same text as v2.0's, under another dialog
    title (window chrome, not part of the log). *)
Definition onAbout_v19 : ST host unit := modify (add_alert about_msg).

(** ** Comparing the two measurements *)

(** A store without freeform paths: every shape is a parametric
    rectangle or ellipse, the case v1.9's [measureShapeSize] handles. *)
Definition path_free (h : host) : Prop :=
  map_Forall (λ _ q, matchName q ≠ "ADBE Vector Shape - Group") (props h).

(** The size accumulators of v2.0's [walk]. *)
Definition sizes (st : acc) : option jsnum * option jsnum := (sizeW st, sizeH st).

(** ** The v1.9 preset table *)

Lemma findRotation_v19_exists h x k : findRotation_v19 h x = Some k → is_Some (props h !! k).
Proof. unfold findRotation_v19. found_exists. Qed.

#[export] Hint Resolve findRotation_v19_exists : ae.

(** C18. The v1.9 preset table: [applyRepeaterPreset] of v1.9 returns
    normally for every preset name; the three presets write 10 copies and
    the positions [(0, h)] (Vertical) and [(w, 0)] (Horizontal) from
    [measureShapeSize], with no stroke padding, and [(0, 0)] with rotation
    10 (Spiral), each found property that accepts the value holding it;
    any other name changes nothing. *)
Theorem applyRepeaterPreset_v19_table `{Renderer} h layer repeater presetName xf :
  repeaterTransform h repeater = Some xf →
  distinct_opt (findCopies h repeater) (findVectorPosition h xf) →
  distinct_opt (findCopies h repeater) (findRotation_v19 h xf) →
  distinct_opt (findVectorPosition h xf) (findRotation_v19 h xf) →
  ∃ h', applyRepeaterPreset_v19 layer repeater presetName h = Ok tt h' ∧
    match table_gen presetName (0, js_or0 (measureShapeSize h layer).2)
                               (js_or0 (measureShapeSize h layer).1, 0) with
    | Some (n, p, rot) =>
        (accepts_num h (findCopies h repeater) → holds h' (findCopies h repeater) (VNum n)) ∧
        (accepts_point h (findVectorPosition h xf) →
           holds h' (findVectorPosition h xf) (VArr [p.1; p.2])) ∧
        (accepts_num h (findRotation_v19 h xf) → holds h' (findRotation_v19 h xf) (VNum rot))
    | None => props h' = props h
    end.
Proof.
  intros Hxf Dcp Dcr Dpr. unfold applyRepeaterPreset_v19. rewrite bind_get, Hxf. cbv zeta.
  apply preset_switch_spec; [intros k Hk; eauto with ae..|done|done|done].
Qed.

Lemma applyRepeaterPreset_v19_table_witness :
  let R : Renderer := λ _ _, mkRect 0 0 0 0 in
  let h := sample_with_repeater in
  ∃ h', applyRepeaterPreset_v19 0%N 8%N "Vertical Repeater" h = Ok tt h' ∧
    match table_gen "Vertical Repeater" (0, js_or0 (measureShapeSize h 0%N).2)
                                        (js_or0 (measureShapeSize h 0%N).1, 0) with
    | Some (n, p, rot) =>
        (accepts_num h (findCopies h 8%N) → holds h' (findCopies h 8%N) (VNum n)) ∧
        (accepts_point h (findVectorPosition h 12%N) →
           holds h' (findVectorPosition h 12%N) (VArr [p.1; p.2])) ∧
        (accepts_num h (findRotation_v19 h 12%N) → holds h' (findRotation_v19 h 12%N) (VNum rot))
    | None => props h' = props h
    end.
Proof.
  intros R h. apply (applyRepeaterPreset_v19_table h 0%N 8%N "Vertical Repeater" 12%N).
  - vm_compute. reflexivity.
  - intros k Hk. vm_compute in Hk |- *. injection Hk as <-. congruence.
  - intros k Hk. vm_compute in Hk |- *. injection Hk as <-. congruence.
  - intros k Hk. vm_compute in Hk |- *. injection Hk as <-. congruence.
Defined.

(** On the stroked rectangle of [Measure], v1.9 measures the same size as
    v2.0, (100, 50), but its vertical preset spaces the copies by the
    height alone: (0, 50) against v2.0's (0, 80) = (0, 50 + 10 + 20). *)
Example presets_v19_v20_sample :
  let R : Renderer := λ _ _, mkRect 0 0 0 0 in
  let h := sample_with_repeater in
  table_gen "Vertical Repeater" (0, js_or0 (measureShapeSize h 0%N).2)
                                (js_or0 (measureShapeSize h 0%N).1, 0) = Some (10, (0, 50), 0) ∧
  preset_table "Vertical Repeater" (measureShape h 0%N) = Some (10, (0, 80), 0).
Proof. vm_compute. split; reflexivity. Qed.

(** ** The store invariant *)

Lemma applyRepeaterPreset_v19_preserves `{HostInv P} `{Renderer} layer repeater presetName :
  preserves P (applyRepeaterPreset_v19 layer repeater presetName).
Proof. unfold applyRepeaterPreset_v19. preserve. Qed.

#[export] Hint Resolve applyRepeaterPreset_v19_preserves : wf.



(** ** The bounded scan reads the whole tree *)

Lemma first_some_ext_in {A B} (f g : A → option B) l :
  (∀ x, x ∈ l → f x = g x) → first_some f l = first_some g l.
Proof.
  induction l as [|x l IH]; intros H; simpl; [done|].
  rewrite H by left. f_equal. apply IH. intros y Hy. apply H. by right.
Qed.

Lemma scanGroup_None fuel h : scanGroup fuel h None = None.
Proof. by destruct fuel. Qed.

Lemma scanGroup_absent fuel h g : props h !! g = None → scanGroup fuel h (Some g) = None.
Proof. intros E. destruct fuel; simpl; [done|]. by rewrite E. Qed.

(** Any two fuels at least [next_id - g] give the same scan from [g]. *)
Lemma scanGroup_fuel_stable h f1 f2 g :
  wf h →
  (N.to_nat (next_id h) - N.to_nat g ≤ f1)%nat → (N.to_nat (next_id h) - N.to_nat g ≤ f2)%nat →
  scanGroup f1 h (Some g) = scanGroup f2 h (Some g).
Proof.
  intros Hw. revert f2 g. induction f1 as [|f1 IH]; intros f2 g H1 H2.
  - rewrite (scanGroup_absent f2) by (apply wf_absent; [done|lia]). done.
  - destruct f2 as [|f2]; [rewrite (scanGroup_absent (S f1)) by (apply wf_absent; [done|lia]); done|].
    simpl. destruct (props h !! g) as [q|] eqn:Hg; [|done].
    apply first_some_ext_in. intros k Hk.
    destruct (Hw g q Hg) as [_ Hks]. destruct (proj1 (Forall_forall _ _) Hks k Hk) as [Hgk _].
    destruct (props h !! k) as [p|]; [|done].
    case_bool_decide; [|done].
    destruct (property h k "ADBE Vectors Group") as [v|] eqn:Hv; [|by rewrite !scanGroup_None].
    pose proof (property_gt h k _ v Hw Hv). rewrite (IH f2 v) by lia. done.
Qed.



(** ** v1.9 and v2.0 measure the same size *)

Lemma size_missing_sizes st st' : sizes st' = sizes st → size_missing st' = size_missing st.
Proof. unfold sizes, size_missing. by intros [= -> ->]. Qed.

Lemma track_stroke_sizes v st : sizes (track_stroke v st) = sizes st.
Proof. unfold track_stroke. destruct (strokeW st); [destruct (js_gt v j)|]; done. Qed.

Lemma sizes_set st a b : sizes st = (Some a, Some b) → size_missing st = false.
Proof. unfold sizes, size_missing. by intros [= -> ->]. Qed.

(** A loop whose body keeps the sizes once they are set keeps them. *)
Lemma fold_sized {B} (F : acc → B → acc) l st :
  (∀ st x, size_missing st = false → sizes (F st x) = sizes st) →
  size_missing st = false → sizes (fold_left F l st) = sizes st.
Proof.
  intros HF. revert st. induction l as [|x l IH]; intros st Hst; simpl; [done|].
  rewrite IH; [by apply HF|]. by rewrite (size_missing_sizes _ _ (HF st x Hst)).
Qed.

(** The v2.0 loop against the v1.9 loop: when every body step sets the
    sizes exactly when the v1.9 body returns, the loops agree. *)
Lemma fold_first {B} (F : acc → B → acc) (G : B → option (jsnum * jsnum)) l st :
  (∀ st x, sizes st = (None, None) → x ∈ l →
     sizes (F st x) = match G x with Some sz => (Some sz.1, Some sz.2) | None => (None, None) end) →
  (∀ st x, size_missing st = false → sizes (F st x) = sizes st) →
  sizes st = (None, None) →
  sizes (fold_left F l st) =
    match first_some G l with Some sz => (Some sz.1, Some sz.2) | None => (None, None) end.
Proof.
  intros HG HF. revert st. induction l as [|x l IH]; intros st Hst; simpl; [done|].
  pose proof (HG st x Hst ltac:(by left)) as Hx.
  destruct (G x) as [sz|]; simpl.
  - rewrite fold_sized; [done|done|]. by apply sizes_set in Hx.
  - apply IH; [|done]. intros st' y Hst' Hy. apply HG; [done|by right].
Qed.

(** One step of the walk keeps sizes already set, given that the
    recursive walk does ([IH]). *)
Ltac body_sized IH :=
  let st := fresh "st" in let x := fresh "x" in let Hs := fresh "Hs" in let p := fresh "p" in
  intros st x Hs; destruct (props _ !! x) as [p|]; [|done];
  repeat case_bool_decide; rewrite ?Hs, ?andb_false_r; simpl; try done;
  [by apply IH|destruct (property _ x _); [apply track_stroke_sizes|done]].

Lemma walk_sized fuel h g st : size_missing st = false → sizes (walk fuel h g st) = sizes st.
Proof.
  revert g st. induction fuel as [|fuel IH]; intros [g|] st Hst; simpl; try done.
  apply fold_sized; [body_sized IH|done].
Qed.

Lemma sizes_none_missing st : sizes st = (None, None) → size_missing st = true.
Proof. unfold sizes, size_missing. destruct (sizeW st), (sizeH st); congruence. Qed.

(** On a store without freeform paths, the sizes the v2.0 walk sets are
    the size the v1.9 scan returns, and neither finds one when the other
    does not. *)
Lemma walk_scan fuel h g st :
  path_free h → sizes st = (None, None) →
  sizes (walk fuel h g st) =
    match scanGroup fuel h g with Some sz => (Some sz.1, Some sz.2) | None => (None, None) end.
Proof.
  intros Hp. revert g st. induction fuel as [|fuel IH]; intros [g|] st Hst; simpl; try done.
  apply fold_first; [|body_sized walk_sized|done].
  intros st' x Hst' _. destruct (props h !! x) as [p|] eqn:Hx; [|done].
  pose proof (Hp x p Hx) as Hpath. simpl in Hpath.
  rewrite (sizes_none_missing st' Hst').
  repeat case_bool_decide; simpl; try congruence.
  - rewrite IH by done. by destruct (scanGroup fuel h _).
  - destruct (property h x _); [by rewrite track_stroke_sizes|done].
  - by destruct (property h x _).
  - by destruct (property h x _).
Qed.

(** C21. On a layer without freeform paths, v2.0's [measureShape] and
    v1.9's [measureShapeSize] agree on the size whenever v1.9's scan
    finds a rectangle or ellipse: the width and height v2.0 reports are
    v1.9's after [|| 0].  When no parametric shape has a size, both fall
    back to the layer's source rectangle, v1.9 with the stroke extents
    and v2.0 without. *)
Theorem measureShape_measureShapeSize `{Renderer} h layer :
  path_free h →
  match scanGroup (N.to_nat (next_id h)) h (property h layer "ADBE Root Vectors Group") with
  | Some _ =>
      (m_w (measureShape h layer), m_h (measureShape h layer)) =
      (js_or0 (measureShapeSize h layer).1, js_or0 (measureShapeSize h layer).2)
  | None =>
      measureShapeSize h layer = (JNum (Qabs (rect_width (sourceRectAtTime h layer true))),
                                  JNum (Qabs (rect_height (sourceRectAtTime h layer true)))) ∧
      (m_w (measureShape h layer), m_h (measureShape h layer)) =
      (Qabs (rect_width (sourceRectAtTime h layer false)), Qabs (rect_height (sourceRectAtTime h layer false)))
  end.
Proof.
  intros Hp. unfold measureShape, measureShapeSize.
  pose proof (walk_scan (N.to_nat (next_id h)) h (property h layer "ADBE Root Vectors Group")
                (mkAcc None None None) Hp eq_refl) as E.
  destruct (walk _ _ _ _) as [sw sW sH]. unfold sizes in E. simpl in E.
  destruct (scanGroup _ _ _) as [[w hh]|]; injection E as -> ->; simpl; [|split]; try done.
Qed.

Lemma measureShape_measureShapeSize_witness :
  let R : Renderer := λ _ b, if b then mkRect (-10) (-10) 120 70 else mkRect 0 0 100 50 in
  let h := mkHost (list_to_map sample_rect_stroke_props) 8%N None [] in
  path_free h ∧
  match scanGroup (N.to_nat (next_id h)) h (property h 0%N "ADBE Root Vectors Group") with
  | Some _ =>
      (m_w (measureShape h 0%N), m_h (measureShape h 0%N)) =
      (js_or0 (measureShapeSize h 0%N).1, js_or0 (measureShapeSize h 0%N).2)
  | None =>
      measureShapeSize h 0%N = (JNum (Qabs (rect_width (sourceRectAtTime h 0%N true))),
                                JNum (Qabs (rect_height (sourceRectAtTime h 0%N true)))) ∧
      (m_w (measureShape h 0%N), m_h (measureShape h 0%N)) =
      (Qabs (rect_width (sourceRectAtTime h 0%N false)), Qabs (rect_height (sourceRectAtTime h 0%N false)))
  end.
Proof.
  intros R h. assert (Hp : path_free h) by (apply (bool_decide_unpack _); vm_compute; exact I).
  split; [done|]. by apply measureShape_measureShapeSize.
Defined.

