(* ===== verification/Snapshot.v ===== *)
(** * The snapshot buttons refine the Anchor Memory of the spec

    The spec (section 4.5) describes the Anchor Memory as a small machine:
    a pivot and an optional saved snapshot; [save] copies the pivot into
    the snapshot, [restore] sets the pivot to the snapshot (and does
    nothing, with a "no snapshot" message, when there is none), and the
    pivot can be moved, always without visual displacement.  [abs_exec]
    is that machine, one action ([mem_act]) at a time.

    The concrete side is a session on one selected shape layer of the
    buttons "Update Anchor" and "Reset Anchor" of one version, interleaved
    with re-anchorings by [Anchor.setAnchorAndCompensate] to given points
    (what "Do It" does first, and what the Pan Behind tool does by hand):
    [mem_exec] runs one action, [mem_run] a sequence.  [refines d h s]
    relates a store to an abstract state: the layer is usable
    ([layer_ok]), its anchor point is the abstract pivot, its position
    minus its anchor point is the constant [d], and [getSavedAnchor] is
    the abstract snapshot.  Each concrete action is matched by the
    abstract action of the same name ([mem_exec_simulation], a lock-step
    simulation diagram), hence every session by the abstract run of the
    same actions.  The first "Update Anchor" on a layer without the
    snapshot effect creates it ([Seeding.ensureEffect_fresh]).

    The section [refinement] takes the snapshot effect's name and the two
    buttons, given by the body both versions share; its lemmas
    ([rst_saved], [rst_absent], [upd_saves] for the buttons, then the
    diagram) are proved once.  [memory_session_refines] instantiates it
    with v2.0's [Main.onUpdateAnchor] and [Main.onResetAnchor] (effect
    "Anchor Point Restore (don't change)"), [memory_session_refines_v19]
    with v1.9's [Legacy.onUpdateAnchor_v19] and [Legacy.onResetAnchor_v19]
    (effect "AP Memory"); each instance checks the body by conversion. *)

From S2P Require Import Prelude Host Store Finders Anchor Memory Controls Main Pipeline Seeding Legacy.

(** ** The abstract Anchor Memory *)

Record mem_abs := mkAbs { abs_pivot : Q * Q; abs_saved : option (Q * Q) }.

(** What the user does on the layer: the two buttons, or a re-anchoring
    to a given point. *)
Inductive mem_act : Type :=
| MUpdate
| MReset
| MMove (n : Q * Q).

(** The spec's machine: [save] copies the pivot into the snapshot,
    [restore] sets the pivot to the snapshot (and does nothing when there
    is none), a move sets the pivot to the given point. *)
Definition abs_exec (a : mem_act) (s : mem_abs) : mem_abs :=
  match a with
  | MUpdate => mkAbs (abs_pivot s) (Some (abs_pivot s))
  | MReset => match abs_saved s with Some p => mkAbs p (abs_saved s) | None => s end
  | MMove n => mkAbs n (abs_saved s)
  end.

(** ** The concrete session on one layer *)

(** [upd] and [rst] are the two buttons of one version. *)
Definition mem_exec (upd rst : ST host unit) (layer : N) (a : mem_act) (h : host) : host :=
  match a with
  | MUpdate => res_state (upd h)
  | MReset => res_state (rst h)
  | MMove n => res_state (setAnchorAndCompensate layer n h)
  end.

Definition mem_run (upd rst : ST host unit) (layer : N) (acts : list mem_act) (h : host) : host :=
  fold_left (λ h a, mem_exec upd rst layer a h) acts h.

Definition abs_run (acts : list mem_act) (s : mem_abs) : mem_abs :=
  fold_left (λ s a, abs_exec a s) acts s.

Section refinement.
(** The snapshot effect's name [memName] is the version's; the buttons
    [upd] and [rst] are given by their bodies, which both versions share
    up to that name. *)
Variables (memName : string) (layer ap pos fx : N) (upd rst : ST host unit).
Hypothesis Hupd : upd = alert_on_error "Update Anchor" (
  comp ← getCompOrThrow; l ← getSingleShapeLayerOrThrow comp; saveAnchorToMemory memName l).
Hypothesis Hrst : rst = alert_on_error "Reset Anchor" (
  comp ← getCompOrThrow; l ← getSingleShapeLayerOrThrow comp; h ← get;
  match getSavedAnchor memName h l with
  | None => mthrow no_saved_anchor_msg
  | Some saved => setAnchorAndCompensate l saved
  end).

(** The snapshot effect is absent, or present with a point property
    (other than the anchor point and the position) that accepts a 2D
    point. *)
Definition snap_ok (h : host) : Prop :=
  property h fx memName = None ∨
  ∃ mem pp qpp, property h fx memName = Some mem ∧ getAPMemoryPointProp h mem = Some pp ∧
    props h !! pp = Some qpp ∧ numKeys qpp = 0%nat ∧ is_2d (pvtype qpp) = true ∧ pp ≠ ap ∧ pp ≠ pos.

(** The layer is the only selected layer, a shape layer with its anchor
    point [ap], position [pos] and Effect Parade [fx]. *)
Definition layer_ok (h : host) : Prop :=
  wf h ∧ activeItem h = Some (CompItem [layer]) ∧
  (∃ ql, props h !! layer = Some ql ∧ matchName ql = "ADBE Vector Layer") ∧
  transform_prop h layer "ADBE Anchor Point" = Some ap ∧
  transform_prop h layer "ADBE Position" = Some pos ∧ ap ≠ pos ∧
  effectsParade h layer = Some fx ∧ snap_ok h.

Definition refines (d : Q * Q) (h : host) (s : mem_abs) : Prop :=
  layer_ok h ∧ point_at h ap (abs_pivot s) ∧
  (∃ p, point_at h pos p ∧ p.1 - (abs_pivot s).1 == d.1 ∧ p.2 - (abs_pivot s).2 == d.2) ∧
  getSavedAnchor memName h layer = abs_saved s.

(** ** Lemmas *)

Lemma point_at_frame_kept h h' p a :
  frame h h' → kept h h' → point_at h p a → point_at h' p a.
Proof.
  intros F K (q & Hq & Hxy & Hk & Ht). destruct (F p q Hq) as (q' & Hq' & (_ & _ & Ht' & _ & Hk' & _)).
  pose proof (K p q Hq) as Hv. unfold value_of in Hv. rewrite Hq' in Hv. injection Hv as Hv.
  exists q'. rewrite Hv, Ht', Hk'. done.
Qed.

Lemma layer_ok_frame h h' :
  layer_ok h → frame h h' → wf h' → activeItem h' = activeItem h → snap_ok h' → layer_ok h'.
Proof.
  intros (Hw & Ha & (ql & Hl & Hm) & Hap & Hpos & Hne & Hfx & _) F W' A' S'.
  destruct (F layer ql Hl) as (ql' & Hl' & (Hm' & _)).
  split_and!; try done; [congruence|by exists ql'; rewrite Hm'|..];
    eauto using transform_prop_frame, effectsParade_frame.
Qed.

(** A write that keeps the skeleton and the key counts keeps the snapshot
    effect's shape. *)
Lemma snap_ok_skel h h' :
  snap_ok h → same_skel h' h → (∀ k q, props h !! k = Some q → ∃ q', props h' !! k = Some q' ∧ numKeys q' = numKeys q) →
  snap_ok h'.
Proof.
  intros [Hn|(mem & pp & qpp & Hmem & Hpp & Hq & Hk & H2 & ? & ?)] S N; [left|right].
  - by rewrite (property_proper _ _ S fx fx eq_refl _ _ eq_refl).
  - destruct (N pp qpp Hq) as (qpp' & Hq' & Hk').
    pose proof (S pp) as Sp. rewrite Hq, Hq' in Sp. simpl in Sp. injection Sp as _ _ Ht _.
    exists mem, pp, qpp'. rewrite (property_proper _ _ S fx fx eq_refl _ _ eq_refl),
      (getAPMemoryPointProp_proper _ _ _ S). split_and!; try done; [congruence|].
    by rewrite Ht.
Qed.

Lemma upd_numKeys h k f :
  (∀ q, numKeys (f q) = numKeys q) →
  ∀ p q, props h !! p = Some q → ∃ q', props (upd_prop k f h) !! p = Some q' ∧ numKeys q' = numKeys q.
Proof.
  intros Hf p q Hq. rewrite props_upd_prop. destruct (decide (k = p)) as [->|Hne].
  - rewrite lookup_alter_eq, Hq. eexists. split; [done|apply Hf].
  - rewrite lookup_alter_ne, Hq by done. by eexists.
Qed.

(** [layer_ok] survives a value or comment write anywhere. *)
Lemma layer_ok_upd h k f :
  keeps_skel f → (∀ q, numKeys (f q) = numKeys q) → (∀ q, frame_prop q (f q)) →
  layer_ok h → layer_ok (upd_prop k f h).
Proof.
  intros Hs Hn Hfp Hl. pose proof Hl as (Hw & _ & _ & _ & _ & _ & _ & Sn).
  apply (layer_ok_frame h); [done|by apply frame_upd|..|done|].
  - apply wf_upd; [|done]. intros q. specialize (Hs q). unfold skel in Hs. congruence.
  - apply (snap_ok_skel h); [done|by apply same_skel_upd|by apply upd_numKeys].
Qed.

(** A write on the anchor point or the position leaves the snapshot. *)
Lemma saved_upd_other h k f :
  effectsParade h layer = Some fx → snap_ok h → k = ap ∨ k = pos → keeps_skel f →
  getSavedAnchor memName (upd_prop k f h) layer = getSavedAnchor memName h layer.
Proof.
  intros Hfx Sn Hk Hf. assert (S : same_skel (upd_prop k f h) h) by by apply same_skel_upd.
  destruct Sn as [Hn|(mem & pp & qpp & Hmem & Hpp & _ & _ & _ & ? & ?)].
  - unfold getSavedAnchor. rewrite (effectsParade_proper _ _ _ S), Hfx. simpl.
    by rewrite (property_proper _ _ S fx fx eq_refl _ _ eq_refl), Hn.
  - rewrite !(getSavedAnchor_path memName h _ layer fx mem pp) by done.
    rewrite value_of_upd_ne; [done|]. intros ->. destruct Hk; congruence.
Qed.

(** Re-anchoring to [n]: the pivot becomes [n], the position follows, the
    snapshot stays. *)
Lemma move_refines d h s n :
  refines d h s → ∃ h', setAnchorAndCompensate layer n h = Ok tt h' ∧ refines d h' (mkAbs n (abs_saved s)).
Proof.
  intros (Hl & Pa & (p & Pp & D1 & D2) & Hs).
  pose proof Hl as (Hw & _ & _ & Hap & Hpos & Hne & Hfx & Sn).
  rewrite (setAnchorAndCompensate_spec h layer ap pos (abs_pivot s) p n Hap Hpos Hne Pa Pp).
  eexists. split; [reflexivity|]. simpl. split_and!.
  - apply layer_ok_upd; [apply with_value_skel|done|intros; apply frame_with_value|].
    apply layer_ok_upd; [apply with_value_skel|done|intros; apply frame_with_value|done].
  - apply point_at_upd_other; [congruence|exact (point_at_set _ ap _ n Pa)].
  - exists (p.1 + (n.1 - (abs_pivot s).1), p.2 + (n.2 - (abs_pivot s).2)). split.
    + exact (point_at_set _ pos p (p.1 + (n.1 - (abs_pivot s).1), p.2 + (n.2 - (abs_pivot s).2))
               (point_at_upd_other h pos ap (with_value (VArr [n.1; n.2])) p Hne Pp)).
    + simpl. split; lra.
  - rewrite saved_upd_other; [|rewrite (effectsParade_proper _ h); [done|apply same_skel_upd, with_value_skel]
      |apply (snap_ok_skel h); [done|apply same_skel_upd, with_value_skel|apply upd_numKeys; done]
      |by right|apply with_value_skel].
    rewrite saved_upd_other; [done|done|done|by left|apply with_value_skel].
Qed.

Lemma refines_add_alert d h s m : refines d h s → refines d (add_alert m h) s.
Proof.
  intros (Hl & Pa & Pp & Hs). pose proof Hl as (Hw & Hrest).
  split_and!; [split; [by apply wf_add_alert|exact Hrest]|exact Pa|exact Pp|exact Hs].
Qed.

Lemma layer_selected h :
  layer_ok h → ∃ ql, activeItem h = Some (CompItem [layer]) ∧ props h !! layer = Some ql ∧
                    matchName ql = "ADBE Vector Layer".
Proof. intros (_ & Ha & (ql & Hl & Hm) & _). by exists ql. Qed.

(** The buttons on a selected shape layer. *)
Lemma rst_saved h q a :
  activeItem h = Some (CompItem [layer]) → props h !! layer = Some q →
  matchName q = "ADBE Vector Layer" → getSavedAnchor memName h layer = Some a →
  rst h = alert_on_error "Reset Anchor" (setAnchorAndCompensate layer a) h.
Proof.
  intros Ha Hq Hm Hs. rewrite Hrst. unfold alert_on_error, catch.
  rewrite selected_layer_bind, (selected_layer_ok h layer q) by done. by rewrite bind_get, Hs.
Qed.

Lemma rst_absent h q :
  activeItem h = Some (CompItem [layer]) → props h !! layer = Some q →
  matchName q = "ADBE Vector Layer" → getSavedAnchor memName h layer = None →
  rst h = Ok tt (add_alert ("Reset Anchor" +:+ nl +:+ no_saved_anchor_msg) h).
Proof.
  intros Ha Hq Hm Hs. rewrite Hrst. apply alert_on_error_exn.
  rewrite selected_layer_bind, (selected_layer_ok h layer q) by done. by rewrite bind_get, Hs.
Qed.

Lemma upd_saves h ql a mem pp qpp :
  activeItem h = Some (CompItem [layer]) → props h !! layer = Some ql →
  matchName ql = "ADBE Vector Layer" →
  transform_prop h layer "ADBE Anchor Point" = Some ap → point_at h ap a →
  effectsParade h layer = Some fx → property h fx memName = Some mem →
  getAPMemoryPointProp h mem = Some pp → props h !! pp = Some qpp →
  settable qpp (VArr [a.1; a.2]) = true →
  upd h =
    Ok tt (upd_prop layer (with_comment ("[AP saved] " +:+ toFixed 1 a.1 +:+ ", " +:+ toFixed 1 a.2))
             (upd_prop pp (with_value (VArr [a.1; a.2])) h)).
Proof.
  intros Ha Hl Hm Hap (qa & Hqa & Hxy & _) Hfx Hmem Hpp Hqpp Hset.
  rewrite Hupd. apply alert_on_error_ok.
  rewrite selected_layer_bind, (selected_layer_ok h layer ql) by done.
  eapply saveAnchorToMemory_existing; try done. by rewrite Hqa.
Qed.

(** "Reset Anchor": with a snapshot, re-anchoring to it; without, one
    alert and nothing else. *)
Lemma reset_refines d h s :
  refines d h s → refines d (res_state (rst h)) (abs_exec MReset s).
Proof.
  intros R. pose proof R as (Hl & _ & _ & Hs). destruct (layer_selected h Hl) as (ql & Ha & Hq & Hm).
  cbn [abs_exec]. destruct (abs_saved s) as [a|] eqn:E.
  - destruct (move_refines d h s a R) as (h' & E' & R').
    rewrite (rst_saved h ql a), (alert_on_error_ok _ _ _ h') by (done || congruence).
    rewrite <- E. exact R'.
  - rewrite (rst_absent h ql) by (done || congruence). by apply refines_add_alert.
Qed.

Lemma settable_2d q a : numKeys q = 0%nat → is_2d (pvtype q) = true → settable q (VArr [a.1; a.2]) = true.
Proof.
  intros Hk H2. unfold settable. rewrite Hk. destruct (pvtype q); done.
Qed.

Lemma getAPMemoryPointProp_gt h mem pp : wf h → getAPMemoryPointProp h mem = Some pp → (mem < pp)%N.
Proof.
  intros Hw. unfold getAPMemoryPointProp, property_at.
  destruct (find_kid h mem _) as [k|] eqn:Hk; simpl; [intros [= <-]|intros Hk'].
  - destruct (find_kid_Some h mem _ k Hk) as (qm & q & Hqm & Hin & _).
    destruct (Hw mem qm Hqm) as [_ Hks]. by destruct (proj1 (Forall_forall _ _) Hks k Hin).
  - destruct (props h !! mem) as [qm|] eqn:Hqm; simpl in Hk'; [|done].
    destruct (Hw mem qm Hqm) as [_ Hks]. apply list_elem_of_lookup_2 in Hk'.
    by destruct (proj1 (Forall_forall _ _) Hks pp Hk').
Qed.

Lemma transform_prop_gt h l mn k : wf h → transform_prop h l mn = Some k → (l < k)%N.
Proof.
  intros Hw. unfold transform_prop. destruct (property h l _) as [t|] eqn:Ht; simpl; [|done].
  intros Hk. pose proof (property_gt h l _ t Hw Ht). pose proof (property_gt h t _ k Hw Hk). lia.
Qed.

(** The nodes of the layer's tree that the handlers write are pairwise
    distinct: the layer lies above its transform properties and above the
    snapshot's point. *)
Lemma layer_below h mem pp :
  layer_ok h → property h fx memName = Some mem → getAPMemoryPointProp h mem = Some pp →
  layer ≠ ap ∧ layer ≠ pos ∧ layer ≠ pp.
Proof.
  intros (Hw & _ & _ & Hap & Hpos & _ & Hfx & _) Hmem Hpp.
  pose proof (transform_prop_gt h _ _ _ Hw Hap). pose proof (transform_prop_gt h _ _ _ Hw Hpos).
  pose proof (property_gt h _ _ _ Hw Hfx). pose proof (property_gt h _ _ _ Hw Hmem).
  pose proof (getAPMemoryPointProp_gt h _ _ Hw Hpp). split_and!; intros ->; lia.
Qed.

(** "Update Anchor" with the snapshot effect present: the snapshot
    becomes the pivot. *)
Lemma update_existing_refines d h s mem pp qpp :
  refines d h s → property h fx memName = Some mem → getAPMemoryPointProp h mem = Some pp →
  props h !! pp = Some qpp → numKeys qpp = 0%nat → is_2d (pvtype qpp) = true → pp ≠ ap → pp ≠ pos →
  refines d (res_state (upd h)) (mkAbs (abs_pivot s) (Some (abs_pivot s))).
Proof.
  intros R Hmem Hpp Hq Hk H2 Hpa Hpo. pose proof R as (Hl & Pa & (p & Pp & D) & Hs).
  pose proof Hl as (Hw & Ha & (ql & Hql & Hm) & Hap & Hpos & Hne & Hfx & Sn).
  destruct (layer_below h mem pp Hl Hmem Hpp) as (Hla & Hlp & Hlq).
  pose proof Pa as (qa & Hqa & Hxy & _).
  rewrite (upd_saves h ql (abs_pivot s) mem pp qpp) by (done || by apply settable_2d).
  cbn [res_state abs_pivot abs_saved]. split_and!.
  - apply layer_ok_upd; [apply with_comment_skel|done|intros; apply frame_with_comment|].
    apply layer_ok_upd; [apply with_value_skel|done|intros; apply frame_with_value|done].
  - apply point_at_comment, point_at_upd_other; [congruence|done].
  - exists p. split; [apply point_at_comment, point_at_upd_other; [congruence|done]|done].
  - rewrite (getSavedAnchor_path memName h _ layer fx mem pp); [|by etrans; apply same_skel_upd; auto with ae|done..].
    rewrite value_of_upd_keeps, (value_of_upd_value _ _ _ qpp) by done. simpl. by destruct (abs_pivot s).
Qed.

Lemma kept_upd_fresh h h1 k f : kept h h1 → props h !! k = None → kept h (upd_prop k f h1).
Proof.
  intros K Hk p q Hq. pose proof (K p q Hq) as Hp. unfold value_of in *.
  rewrite props_upd_prop, lookup_alter_ne; [done|]. intros ->. congruence.
Qed.

Lemma ensureAPMemoryEffect_ensureEffect l :
  ensureAPMemoryEffect memName l = ensureEffect l memName "ADBE Point Control".
Proof. reflexivity. Qed.

(** "Update Anchor" without the snapshot effect: it is created, and its
    point holds the pivot. *)
Lemma update_fresh_refines d h s :
  refines d h s → property h fx memName = None →
  refines d (res_state (upd h)) (mkAbs (abs_pivot s) (Some (abs_pivot s))).
Proof.
  intros R Hnone. pose proof R as (Hl & Pa & (p & Pp & D) & Hs).
  pose proof Hl as (Hw & Ha & (ql & Hql & Hm) & Hap & Hpos & Hne & Hfx & Sn).
  pose proof Pa as (qa & Hqa & Hxy & _). pose proof Pp as (qp & Hqp & _).
  destruct (property_exists h layer _ fx Hfx) as [qf Hqf].
  destruct (ensureEffect_fresh h layer fx qf memName "ADBE Point Control" "ADBE Point Control"
              "Point Control" "ADBE Point Control-0001" "Point" TwoD_SPATIAL (VArr [0; 0])
              Hw Hfx Hqf Hnone eq_refl)
    as (h2 & Ee & F & K & W & A & Hsn & Hn2 & Hc & _ & Hnm & _).
  set (n := next_id h) in *.
  assert (Egap : getAPMemoryPointProp h2 n = Some (N.succ n)).
  { unfold getAPMemoryPointProp, find_kid. rewrite Hn2. cbn [mbind option_bind kids find].
    by rewrite Hc. }
  pose proof (K ap qa Hqa) as Ka. unfold value_of in Ka.
  destruct (props h2 !! ap) as [qa2|] eqn:Hqa2; [|done]. injection Ka as Ka.
  set (v := VArr [(abs_pivot s).1; (abs_pivot s).2]).
  set (c := "[AP saved] " +:+ toFixed 1 (abs_pivot s).1 +:+ ", " +:+ toFixed 1 (abs_pivot s).2).
  set (h3 := upd_prop (N.succ n) (with_value v) h2).
  set (h4 := upd_prop layer (with_comment c) h3).
  assert (Hln : layer ≠ N.succ n) by (intros ->; congruence).
  assert (E : upd h = Ok tt h4).
  { rewrite Hupd. apply alert_on_error_ok.
    rewrite selected_layer_bind, (selected_layer_ok h layer ql) by done.
    unfold saveAnchorToMemory. rewrite bind_get, Hap, ensureAPMemoryEffect_ensureEffect, (bind_ok _ _ _ _ _ Ee).
    rewrite bind_get, Egap, (bind_ok _ _ _ _ _ (need_ok ap h2 qa2 Hqa2)), Ka, Hxy.
    rewrite (bind_ok _ _ _ _ _ (setValue_ok (N.succ n) v h2 _ Hc eq_refl)).
    apply catch_ok, setComment_ok. unfold h3. rewrite props_upd_prop, lookup_alter_is_Some.
    destruct (F layer ql Hql) as (ql2 & -> & _). by eexists. }
  rewrite E. cbn [res_state abs_pivot abs_saved].
  assert (S4 : same_skel h4 h2) by (etrans; apply same_skel_upd; auto with ae).
  assert (F4 : frame h h4).
  { etrans; [exact F|]. etrans; apply frame_upd; intros; [apply frame_with_value|apply frame_with_comment]. }
  assert (K4 : kept h h4) by (etrans; [by apply (kept_upd_fresh h h2)|by apply kept_upd]).
  assert (Hap4 : N.succ n ≠ ap) by (intros Heq; rewrite <- Heq in Hqa; congruence).
  assert (Hpos4 : N.succ n ≠ pos) by (intros Heq; rewrite <- Heq in Hqp; congruence).
  assert (Hpp4 : props h4 !! N.succ n = Some (with_value v (mkProp "ADBE Point Control-0001" "Point"
                   TwoD_SPATIAL (VArr [0; 0]) "" false true 0 "" []))).
  { unfold h4, h3. rewrite !props_upd_prop, lookup_alter_ne, lookup_alter_eq, Hc by done. done. }
  assert (Hnm4 : property h4 fx memName = Some n)
    by by rewrite (property_proper _ _ S4 fx fx eq_refl _ _ eq_refl).
  assert (Egap4 : getAPMemoryPointProp h4 n = Some (N.succ n)) by by rewrite (getAPMemoryPointProp_proper _ _ _ S4).
  split_and!.
  - apply (layer_ok_frame h); [done|done| |done|].
    + unfold h4, h3. apply wf_upd; [done|]. by apply wf_upd.
    + right. eexists n, (N.succ n), _. split_and!; [done|done|exact Hpp4|done..].
  - by apply (point_at_frame_kept h).
  - exists p. split; [by apply (point_at_frame_kept h)|done].
  - unfold getSavedAnchor. rewrite (effectsParade_frame h h4 layer fx Hw F4 Hfx). simpl.
    rewrite Hnm4. simpl. rewrite Egap4. simpl. unfold value_of. rewrite Hpp4. simpl.
    by destruct (abs_pivot s).
Qed.

(** The simulation diagram: every action of the session is matched by
    the abstract action of the same name. *)
Lemma mem_exec_simulation d h s a :
  refines d h s → refines d (mem_exec upd rst layer a h) (abs_exec a s).
Proof.
  intros R. destruct a as [| |n]; cbn [mem_exec abs_exec].
  - pose proof R as ((_ & _ & _ & _ & _ & _ & _ & [Hn|(mem & pp & qpp & Hmem & Hpp & Hq & Hk & H2 & ? & ?)]) & _).
    + by apply update_fresh_refines.
    + by eapply update_existing_refines.
  - by apply reset_refines.
  - destruct (move_refines d h s n R) as (h' & E & R'). by rewrite E.
Qed.

(** The diagram lifted to sessions, by induction on the actions. *)
Lemma session_refines d h s acts :
  refines d h s → refines d (mem_run upd rst layer acts h) (abs_run acts s).
Proof.
  revert h s. induction acts as [|a acts IH]; intros h s R; [done|].
  apply IH. by apply mem_exec_simulation.
Qed.
End refinement.

(** ** The two versions *)

(** C25. The snapshot buttons of v2.0 implement the spec's Anchor
    Memory: from a store where the layer is the only selected shape layer,
    with its anchor point, position and Effect Parade, and whose state is
    related to an abstract state [s] (anchor point = pivot, position -
    anchor point = [d], [getSavedAnchor] of the effect "Anchor Point
    Restore (don't change)" = snapshot), any sequence of "Update Anchor",
    "Reset Anchor" and re-anchorings to given points ends in a store
    related to the state the abstract machine reaches by the same
    actions: "Update Anchor" saves exactly the pivot, "Reset Anchor"
    restores exactly the last saved pivot or, with none, changes nothing,
    a move sets the pivot to the point given, and the layer never moves
    on screen. *)
Theorem memory_session_refines layer ap pos fx d h s acts :
  refines memName_v20 layer ap pos fx d h s →
  refines memName_v20 layer ap pos fx d (mem_run onUpdateAnchor onResetAnchor layer acts h) (abs_run acts s).
Proof. apply session_refines; reflexivity. Qed.

(** C27. The snapshot buttons of v1.9 implement the same Anchor Memory,
    with the snapshot kept in the effect "AP Memory": any sequence of
    v1.9's "Update Anchor", "Reset Anchor" and re-anchorings ends in a
    store related to the state the abstract machine reaches by the same
    actions. *)
Theorem memory_session_refines_v19 layer ap pos fx d h s acts :
  refines memName_v19 layer ap pos fx d h s →
  refines memName_v19 layer ap pos fx d (mem_run onUpdateAnchor_v19 onResetAnchor_v19 layer acts h) (abs_run acts s).
Proof. apply session_refines; reflexivity. Qed.

(** The layer of [Memory.sample_memory_props] before any snapshot: its
    Effect Parade (8) is empty. *)
Definition sample_snapshot_host : host :=
  mkHost (list_to_map (take 4 sample_memory_props ++
            [(8%N, mkProp "ADBE Effect Parade" "Effects" NO_VALUE VNone "" false false 0 "" [])]))
    9%N (Some (CompItem [0%N])) [].

Ltac sample_refines :=
  unfold refines, layer_ok, snap_ok; split_and!; [wf_by_computation|..];
    vm_compute; repeat first [reflexivity | discriminate | (left; reflexivity) | eexists | split].

(** A session on it: "Reset Anchor" with nothing saved, "Update Anchor"
    (which creates the snapshot effect), a re-anchoring to (0, 0), and
    "Reset Anchor" again: the anchor point is back at (25, 50). *)
Lemma memory_session_refines_witness :
  refines memName_v20 0%N 6%N 7%N 8%N (935, 490)
    (mem_run onUpdateAnchor onResetAnchor 0%N [MReset; MUpdate; MMove (0, 0); MReset] sample_snapshot_host)
    (abs_run [MReset; MUpdate; MMove (0, 0); MReset] (mkAbs (25, 50) None)).
Proof. apply memory_session_refines. sample_refines. Defined.

(** The same session with the v1.9 buttons. *)
Lemma memory_session_refines_v19_witness :
  refines memName_v19 0%N 6%N 7%N 8%N (935, 490)
    (mem_run onUpdateAnchor_v19 onResetAnchor_v19 0%N [MReset; MUpdate; MMove (0, 0); MReset] sample_snapshot_host)
    (abs_run [MReset; MUpdate; MMove (0, 0); MReset] (mkAbs (25, 50) None)).
Proof. apply memory_session_refines_v19. sample_refines. Defined.
