(* ===== verification/Panel.v ===== *)
(** * The panel: its controls, its buttons wired to the handlers, and its runs

    [buildUI] of either version builds a drop-down list of the four
    presets (selection 0), in v2.0 a debug check box (unticked) whose
    value the Do It button copies into the script's global [gDebug] before
    calling [main], and four buttons wired to the handlers ([btnDoIt],
    [btnUpdate], [btnReset], [btnAbout]).  The controls' state is the
    record [ui]; a [panel] is the wiring, [panel_v20] and [panel_v19] the
    two versions'.  Between two clicks the user picks a preset, ticks the
    check box (v2.0), or acts on After Effects: selects another composition
    or other layers, or edits a property by hand (moving the anchor point,
    as the About text invites).  A session is a sequence of [session_step]s
    on the pair of the panel's controls and the store; the invariant of
    the controls is proved by induction on the session.  [Layout] builds
    the widgets themselves and shows that their runs refine these
    sessions. *)

From S2P Require Import Prelude Host Store Typing Finders Anchor Memory Measure Repeater Main Legacy.

(** The items of [ddPreset], the same in both versions. *)
Definition preset_items : list string :=
  ["Default"; "Vertical Repeater"; "Horizontal Repeater"; "Spiral Repeater"].

(** The state of the panel's controls: the selected index of [ddPreset]
    ([null] is [None]), the value of [chkDebug], and the script's global
    [gDebug]. *)
Record ui := mkUI {
  ddPreset_selection : option nat;
  chkDebug_value : bool;
  gDebug : bool
}.

(** [var gDebug = false;] *)
Definition gDebug_init : bool := false.

(** [ddPreset.selection = 0; chkDebug.value = false;] *)
Definition buildUI_v20 : ui := mkUI (Some 0%nat) false gDebug_init.

(** v1.9 builds no check box and has no [gDebug]; its fields stay false. *)
Definition buildUI_v19 : ui := mkUI (Some 0%nat) false false.

(** [ddPreset.selection ? ddPreset.selection.text : ...]: the text of the
    selected item, if any. *)
Definition selection_text (u : ui) : option string :=
  ddPreset_selection u ≫= λ i, preset_items !! i.

(** [gDebug = !!chkDebug.value;] *)
Definition doIt_ui (u : ui) : ui :=
  mkUI (ddPreset_selection u) (chkDebug_value u) (negb (negb (chkDebug_value u))).

Record panel := mkPanel {
  init_ui : ui;
  has_debug : bool;
  on_doit_ui : ui → ui;
  on_doit : ui → ST host unit;
  on_update : ST host unit;
  on_reset : ST host unit;
  on_about : ST host unit
}.

Section Panel.
Context `{Renderer}.

(** [btnDoIt.onClick] ... [btnAbout.onClick] of v2.0: Do It sets
    [gDebug] from the check box and runs [main] with the selected preset;
    [btnDoIt_onClick] reads the same check box value. *)
Definition panel_v20 : panel :=
  mkPanel buildUI_v20 true doIt_ui (λ u, btnDoIt_onClick (chkDebug_value u) (selection_text u))
          onUpdateAnchor onResetAnchor onAbout.

(** The wiring of v1.9: no check box, Do It only reads the preset. *)
Definition panel_v19 : panel :=
  mkPanel buildUI_v19 false id (λ u, btnDoIt_onClick_v19 (selection_text u))
          onUpdateAnchor_v19 onResetAnchor_v19 onAbout_v19.

(** The user's selection in the host: the active item and its selected
    layers. *)
Definition set_active (it : option item) (h : host) : host :=
  mkHost (props h) (next_id h) it (alerts h).

(** One step of a session: a click on a button, a change of the panel's
    controls, or an action of the user in the host between two clicks.
    An edit by hand goes through the host's typed [setValue], as the
    property's own UI does; the user picks one of the list's items. *)
Inductive session_step (P : panel) : ui * host → ui * host → Prop :=
| step_doit u h : session_step P (u, h) (on_doit_ui P u, res_state (on_doit P u h))
| step_update u h : session_step P (u, h) (u, res_state (on_update P h))
| step_reset u h : session_step P (u, h) (u, res_state (on_reset P h))
| step_about u h : session_step P (u, h) (u, res_state (on_about P h))
| step_pick i u h : (i < length preset_items)%nat →
    session_step P (u, h) (mkUI (Some i) (chkDebug_value u) (gDebug u), h)
| step_tick u h : has_debug P = true →
    session_step P (u, h) (mkUI (ddPreset_selection u) (negb (chkDebug_value u)) (gDebug u), h)
| step_select it u h : session_step P (u, h) (u, set_active it h)
| step_edit p v u h : session_step P (u, h) (u, res_state (setValue p v h)).

(** The panel's controls as the user can leave them: an item of the list
    selected. *)
Definition ui_ok (u : ui) : Prop :=
  ∃ i, ddPreset_selection u = Some i ∧ (i < length preset_items)%nat.

(** ** Lemmas *)




(** An invariant of the controls that Do It and the user's changes keep
    holds in every state of the controls a session reaches. *)
Lemma session_ui_inv P (J : ui → Prop) :
  (∀ u, J u → J (on_doit_ui P u)) →
  (∀ i u, (i < length preset_items)%nat → J u → J (mkUI (Some i) (chkDebug_value u) (gDebug u))) →
  (∀ u, has_debug P = true → J u → J (mkUI (ddPreset_selection u) (negb (chkDebug_value u)) (gDebug u))) →
  ∀ s0 s, rtc (session_step P) s0 s → J s0.1 → J s.1.
Proof.
  intros Hd Hp Ht s0 s Hrun.
  induction Hrun as [|s1 s2 s3 Hst _ IH]; intros Hj; [done|].
  apply IH. destruct Hst; simpl in *; auto.
Qed.


Lemma ui_ok_text u : ui_ok u → ∃ name, selection_text u = Some name ∧ name ∈ preset_items.
Proof.
  intros (i & Hi & Hlt). destruct (lookup_lt_is_Some_2 preset_items i Hlt) as [name Hn].
  exists name. unfold selection_text. rewrite Hi. simpl. split; [done|].
  by eapply list_elem_of_lookup_2.
Qed.


(** C23. The preset of every Do It: in every state a session of either
    panel reaches from the controls [buildUI] creates, an item of the
    list is selected, so the preset Do It passes to [main] is the text of
    one of the four items (the ["Default"] fallback for a [null]
    selection is never taken). *)
Theorem session_preset_listed P h0 u h :
  P = panel_v20 ∨ P = panel_v19 → rtc (session_step P) (init_ui P, h0) (u, h) →
  ∃ name, selection_text u = Some name ∧ name ∈ preset_items.
Proof.
  intros HP Hrun. apply ui_ok_text.
  refine (session_ui_inv P ui_ok _ _ _ (init_ui P, h0) (u, h) Hrun _).
  - destruct HP as [->| ->]; intros u' Hu; exact Hu.
  - intros i u' Hi _. by exists i.
  - intros u' _ Hu. exact Hu.
  - destruct HP as [->| ->]; (exists 0%nat; split; [reflexivity|simpl; lia]).
Qed.


End Panel.


(** A v2.0 session: the user picks "Spiral Repeater", ticks Debug and
    clicks Do It; the preset is the third item. *)
Lemma session_preset_listed_witness :
  let R : Renderer := λ _ b, if b then mkRect 5 15 110 60 else mkRect 10 20 100 50 in
  let u1 := mkUI (Some 3%nat) false false in
  let u2 := mkUI (Some 3%nat) true false in
  let h3 := res_state (btnDoIt_onClick true (Some "Spiral Repeater") sample_main_host) in
  ∃ name, selection_text (doIt_ui u2) = Some name ∧ name ∈ preset_items.
Proof.
  intros R u1 u2 h3.
  apply (session_preset_listed panel_v20 sample_main_host (doIt_ui u2) h3).
  - by left.
  - eapply rtc_l; [apply (step_pick panel_v20 3%nat buildUI_v20); simpl; lia|].
    eapply rtc_l; [apply (step_tick panel_v20 u1); reflexivity|].
    eapply rtc_l; [apply (step_doit panel_v20 u2)|]. apply rtc_refl.
Defined.

