(* ===== verification/Layout.v ===== *)
(** * The ScriptUI panel: the widget tree of [buildUI], the bootstrap, and the
    host's events on it

    ScriptUI is After Effects' toolkit for script panels.  Its objects are
    modelled as a store of widgets ([script]): each widget has a type (the
    first argument of [container.add], or ["palette"] for
    [new Window("palette", ...)]), its children in creation order, and its
    properties as a JavaScript object, a finite map from property names to
    values ([jsval]).  A function assigned to [onClick] or [onResize] is a
    closure; [handler] names each closure of the two scripts, with the
    widgets it captures ([HDoIt ddPreset chkDebug] for v2.0's Do It).  The
    host's methods that act only on screen ([layout.layout],
    [layout.resize], [center], [show]) are recorded in order in [calls].

    [buildUI_tree_v20] and [buildUI_tree_v19] translate [buildUI] line by
    line; [bootstrap_v20] and [bootstrap_v19] translate the bootstrap:
    inside a docked panel ([thisObj instanceof Panel]) the panel is the
    container, otherwise a resizeable palette window is created, given a
    minimum size, centred and shown.  [script_v20] first runs
    [var gDebug = false].

    The host dispatches a click on a widget to its [onClick] ([click]) and
    a resize to its [onResize] ([resize]); the user picks an item of a
    drop-down list ([pick]) or clicks a check box ([toggle]); between two
    events the user may also act on After Effects ([set_active],
    [setValue]).  [ui_event] runs one such [event] on the pair of the
    widget store and the host store ([sys]), [run_events] a sequence.
    [run_v20] and [run_v19] run each version's closures: the Do It
    closures read the drop-down list's selection and, in v2.0, the check
    box.

    [abs_v20] and [abs_v19] map a state to [Panel]'s pair of its [ui]
    record and the host store, an abstraction function; [label_of] names
    the [Panel] action of an event, a click being a press of the button
    whose label is on the widget clicked; [panel_act] is that action on
    [Panel]'s state.  [panel_inv] states what makes the abstraction
    commute with the events: the list is the only list and holds the four
    presets, the check box (if any) is the only check box, every
    [onClick] is one of the version's four closures, on the button its
    label names, and every [onResize] the resize closure.  Each event
    keeps [panel_inv] and acts through the abstraction as the action of
    its label ([event_sim_v20], [event_sim_v19]); [run_events_sim] lifts
    this to runs, and [panel_run_session] shows every such action to be a
    [Panel.session_step] or nothing.  The docked panel the host passes is
    widget 0 of the widget store ([host_widgets]); ids are otherwise
    allocated in creation order, so the list is widget 4 and the check
    box widget 6 in both branches. *)

From S2P Require Import Prelude Host Store Main Legacy Panel.

(** ** Values, widgets and the widget store *)

(** The closures a script assigns to event properties. *)
Inductive handler : Type :=
| HDoIt (ddPreset chkDebug : N)
| HDoIt19 (ddPreset : N)
| HUpdate
| HReset
| HAbout
| HResize.

#[export] Instance handler_eq_dec : EqDecision handler.
Proof. solve_decision. Defined.

(** The JavaScript values the scripts store in widget properties. *)
Inductive jsval : Type :=
| JUndef
| JBool (b : bool)
| JNum (z : Z)
| JStr (s : string)
| JStrs (l : list string)
| JNums (l : list Z)
| JFun (f : handler).

#[export] Instance jsval_eq_dec : EqDecision jsval.
Proof. solve_decision. Defined.

Record widget := mkWidget {
  w_type : string;
  w_children : list N;
  w_attrs : gmap string jsval
}.

Record script := mkScript {
  widgets : gmap N widget;
  next_w : N;
  gDebug_g : bool;
  calls : list (N * string)
}.

(** [w.a]: an absent property reads [undefined]. *)
Definition attr (s : script) (k : N) (a : string) : jsval :=
  default JUndef (widgets s !! k ≫= λ w, w_attrs w !! a).

Definition type_of (s : script) (k : N) : option string := w_type <$> widgets s !! k.

Definition set_attr (k : N) (a : string) (v : jsval) (s : script) : script :=
  mkScript (alter (λ w, mkWidget (w_type w) (w_children w) (<[a := v]> (w_attrs w))) k (widgets s))
    (next_w s) (gDebug_g s) (calls s).

Definition set_gDebug (b : bool) (s : script) : script :=
  mkScript (widgets s) (next_w s) b (calls s).

Definition not_object_msg : string := "undefined is not an object".

(** [w.a = v]; on a widget that does not exist JavaScript throws. *)
Definition w_set (k : N) (a : string) (v : jsval) : ST script unit :=
  s ← get;
  match widgets s !! k with
  | None => mthrow not_object_msg
  | Some _ => put (set_attr k a v s)
  end.

(** The properties [container.add(type, bounds, arg)] gives the new
    widget: a drop-down list's third argument is its items, any other
    widget's its text. *)
Definition creation_attrs (ty : string) (arg : option jsval) : gmap string jsval :=
  match arg with
  | None => ∅
  | Some v => if bool_decide (ty = "dropdownlist") then {["items" := v]} else {["text" := v]}
  end.

(** [parent.add(ty, undefined, arg)]: a new widget, last child of
    [parent]. *)
Definition w_add (parent : N) (ty : string) (arg : option jsval) : ST script N :=
  s ← get;
  match widgets s !! parent with
  | None => mthrow not_object_msg
  | Some p =>
      let k := next_w s in
      put (mkScript (<[k := mkWidget ty [] (creation_attrs ty arg)]>
                       (<[parent := mkWidget (w_type p) (w_children p ++ [k]) (w_attrs p)]> (widgets s)))
             (N.succ k) (gDebug_g s) (calls s));;
      mret k
  end.

(** [new Window(ty, title, undefined, {resizeable:true})]. *)
Definition w_new_window (ty title : string) : ST script N :=
  s ← get;
  let k := next_w s in
  put (mkScript (<[k := mkWidget ty [] (<["resizeable" := JBool true]> {["text" := JStr title]})]> (widgets s))
         (N.succ k) (gDebug_g s) (calls s));;
  mret k.

(** A method acting on screen only, recorded in [calls]. *)
Definition w_call (k : N) (meth : string) : ST script unit :=
  s ← get;
  match widgets s !! k with
  | None => mthrow not_object_msg
  | Some _ => put (mkScript (widgets s) (next_w s) (gDebug_g s) (calls s ++ [(k, meth)]))
  end.

(** JavaScript's [!!v]. *)
Definition truthy (v : jsval) : bool :=
  match v with
  | JUndef => false
  | JBool b => b
  | JNum z => negb (Z.eqb z 0)
  | JStr s => negb (bool_decide (s = ""))
  | _ => true
  end.

(** ** [buildUI] *)

(** [buildUI(container)] of v2.0. *)
Definition buildUI_tree_v20 (container : N) : ST script unit :=
  w_set container "orientation" (JStr "column");;
  w_set container "alignChildren" (JStrs ["fill"; "top"]);;
  w_set container "margins" (JNum 10);;
  title ← w_add container "statictext" (Some (JStr "Center Anchor + Add Repeater"));
  w_set title "justify" (JStr "center");;
  rowPreset ← w_add container "group" None;
  w_set rowPreset "orientation" (JStr "row");;
  w_set rowPreset "alignChildren" (JStrs ["left"; "center"]);;
  _ ← w_add rowPreset "statictext" (Some (JStr "Preset:"));
  ddPreset ← w_add rowPreset "dropdownlist" (Some (JStrs preset_items));
  w_set ddPreset "selection" (JNum 0);;
  rowDbg ← w_add container "group" None;
  w_set rowDbg "orientation" (JStr "row");;
  w_set rowDbg "alignChildren" (JStrs ["left"; "center"]);;
  chkDebug ← w_add rowDbg "checkbox" (Some (JStr "Debug (show size/stroke)"));
  w_set chkDebug "value" (JBool false);;
  row1 ← w_add container "group" None;
  w_set row1 "orientation" (JStr "row");; w_set row1 "alignChildren" (JStrs ["fill"; "center"]);;
  btnDoIt ← w_add row1 "button" (Some (JStr "Do It"));
  w_set btnDoIt "alignment" (JStrs ["fill"; "fill"]);;
  row2 ← w_add container "group" None;
  w_set row2 "orientation" (JStr "row");; w_set row2 "alignChildren" (JStrs ["fill"; "center"]);;
  btnUpdate ← w_add row2 "button" (Some (JStr "Update Anchor"));
  btnReset ← w_add row2 "button" (Some (JStr "Reset Anchor"));
  w_set btnUpdate "alignment" (JStrs ["fill"; "fill"]);;
  w_set btnReset "alignment" (JStrs ["fill"; "fill"]);;
  row3 ← w_add container "group" None;
  w_set row3 "orientation" (JStr "row");; w_set row3 "alignChildren" (JStrs ["fill"; "center"]);;
  btnAbout ← w_add row3 "button" (Some (JStr "About"));
  w_set btnAbout "alignment" (JStrs ["fill"; "fill"]);;
  hint ← w_add container "statictext" (Some (JStr "Select one shape layer, pick a preset, then Do It."));
  w_set hint "characters" (JNum 56);;
  w_set btnDoIt "onClick" (JFun (HDoIt ddPreset chkDebug));;
  w_set btnUpdate "onClick" (JFun HUpdate);;
  w_set btnReset "onClick" (JFun HReset);;
  w_set btnAbout "onClick" (JFun HAbout);;
  w_call container "layout.layout";;
  w_set container "onResize" (JFun HResize);;
  w_set container "onResizing" (JFun HResize).

(** [buildUI(container)] of v1.9: no debug row, a narrower hint, and a Do
    It closure that reads the list only. *)
Definition buildUI_tree_v19 (container : N) : ST script unit :=
  w_set container "orientation" (JStr "column");;
  w_set container "alignChildren" (JStrs ["fill"; "top"]);;
  w_set container "margins" (JNum 10);;
  title ← w_add container "statictext" (Some (JStr "Center Anchor + Add Repeater"));
  w_set title "justify" (JStr "center");;
  rowPreset ← w_add container "group" None;
  w_set rowPreset "orientation" (JStr "row");;
  w_set rowPreset "alignChildren" (JStrs ["left"; "center"]);;
  _ ← w_add rowPreset "statictext" (Some (JStr "Preset:"));
  ddPreset ← w_add rowPreset "dropdownlist" (Some (JStrs preset_items));
  w_set ddPreset "selection" (JNum 0);;
  row1 ← w_add container "group" None;
  w_set row1 "orientation" (JStr "row");; w_set row1 "alignChildren" (JStrs ["fill"; "center"]);;
  btnDoIt ← w_add row1 "button" (Some (JStr "Do It"));
  w_set btnDoIt "alignment" (JStrs ["fill"; "fill"]);;
  row2 ← w_add container "group" None;
  w_set row2 "orientation" (JStr "row");; w_set row2 "alignChildren" (JStrs ["fill"; "center"]);;
  btnUpdate ← w_add row2 "button" (Some (JStr "Update Anchor"));
  btnReset ← w_add row2 "button" (Some (JStr "Reset Anchor"));
  w_set btnUpdate "alignment" (JStrs ["fill"; "fill"]);;
  w_set btnReset "alignment" (JStrs ["fill"; "fill"]);;
  row3 ← w_add container "group" None;
  w_set row3 "orientation" (JStr "row");; w_set row3 "alignChildren" (JStrs ["fill"; "center"]);;
  btnAbout ← w_add row3 "button" (Some (JStr "About"));
  w_set btnAbout "alignment" (JStrs ["fill"; "fill"]);;
  hint ← w_add container "statictext" (Some (JStr "Select one shape layer, pick a preset, then Do It."));
  w_set hint "characters" (JNum 52);;
  w_set btnDoIt "onClick" (JFun (HDoIt19 ddPreset));;
  w_set btnUpdate "onClick" (JFun HUpdate);;
  w_set btnReset "onClick" (JFun HReset);;
  w_set btnAbout "onClick" (JFun HAbout);;
  w_call container "layout.layout";;
  w_set container "onResize" (JFun HResize);;
  w_set container "onResizing" (JFun HResize).

(** ** The bootstrap *)

(** [thisObj]: the docked panel After Effects passes, or the global
    object when the script is run from the File menu. *)
Inductive this_obj : Type :=
| ThisPanel
| ThisGlobal.

(** The docked panel is the first widget of the store the host starts
    the script with. *)
Definition host_panel : N := 0.

Definition panel_title : string := "Center AP + Repeater".

(** The bootstrap of either version: [build] is its [buildUI], [minSize]
    the palette's [minimumSize]. *)
Definition bootstrap (build : N → ST script unit) (minSize : list Z) (t : this_obj) : ST script N :=
  match t with
  | ThisPanel =>
      w_set host_panel "text" (JStr panel_title);;
      build host_panel;;
      mret host_panel
  | ThisGlobal =>
      win ← w_new_window "palette" panel_title;
      build win;;
      w_set win "minimumSize" (JNums minSize);;
      w_set win "onResize" (JFun HResize);;
      w_set win "onResizing" (JFun HResize);;
      w_call win "center";;
      w_call win "show";;
      mret win
  end.

Definition bootstrap_v20 : this_obj → ST script N := bootstrap buildUI_tree_v20 [380; 190]%Z.
Definition bootstrap_v19 : this_obj → ST script N := bootstrap buildUI_tree_v19 [360; 170]%Z.

(** The whole v2.0 script: [var gDebug = false;], then the bootstrap. *)
Definition script_v20 (t : this_obj) : ST script N :=
  modify (set_gDebug gDebug_init);;
  bootstrap_v20 t.

(** The widget store After Effects starts the script with: the empty
    docked panel, or nothing. *)
Definition host_widgets (t : this_obj) : script :=
  match t with
  | ThisPanel => mkScript {[host_panel := mkWidget "panel" [] ∅]} (N.succ host_panel) false []
  | ThisGlobal => mkScript ∅ 0 false []
  end.

(** ** Events *)

Record sys := mkSys { scr : script; hst : host }.

(** [ddPreset.selection]: the selected item's index, or [null]. *)
Definition selected_index (s : script) (dd : N) : option nat :=
  match attr s dd "selection", attr s dd "items" with
  | JNum i, JStrs l => if (0 <=? i)%Z && (Z.to_nat i <? length l) then Some (Z.to_nat i) else None
  | _, _ => None
  end.

(** [ddPreset.selection ? ddPreset.selection.text : ...]. *)
Definition selected_text (s : script) (dd : N) : option string :=
  match attr s dd "items" with
  | JStrs l => selected_index s dd ≫= λ i, l !! i
  | _ => None
  end.

Section closures.
Context `{Renderer}.

(** The closures of v2.0, [this] being the widget the event is sent to.
    Do It: [gDebug = !!chkDebug.value; var preset = ...; main(preset);]. *)
Definition run_v20 (this : N) (f : handler) (d : sys) : sys :=
  match f with
  | HDoIt dd chk =>
      let g := truthy (attr (scr d) chk "value") in
      mkSys (set_gDebug g (scr d))
        (res_state (main g (from_option id "Default" (selected_text (scr d) dd)) (hst d)))
  | HUpdate => mkSys (scr d) (res_state (onUpdateAnchor (hst d)))
  | HReset => mkSys (scr d) (res_state (onResetAnchor (hst d)))
  | HAbout => mkSys (scr d) (res_state (onAbout (hst d)))
  | HResize => mkSys (res_state (w_call this "layout.resize" (scr d))) (hst d)
  | HDoIt19 _ => d
  end.

(** The closures of v1.9; Do It: [main(ddPreset.selection ? ... : "Default")]. *)
Definition run_v19 (this : N) (f : handler) (d : sys) : sys :=
  match f with
  | HDoIt19 dd =>
      mkSys (scr d) (res_state (main_v19 (from_option id "Default" (selected_text (scr d) dd)) (hst d)))
  | HUpdate => mkSys (scr d) (res_state (onUpdateAnchor_v19 (hst d)))
  | HReset => mkSys (scr d) (res_state (onResetAnchor_v19 (hst d)))
  | HAbout => mkSys (scr d) (res_state (onAbout_v19 (hst d)))
  | HResize => mkSys (res_state (w_call this "layout.resize" (scr d))) (hst d)
  | HDoIt _ _ => d
  end.
End closures.

(** The host sends a click to [b]: its [onClick] runs if it is a
    function. *)
Definition click (run : N → handler → sys → sys) (b : N) (d : sys) : sys :=
  match attr (scr d) b "onClick" with JFun f => run b f d | _ => d end.

(** The host resizes [w]: its [onResize] runs if it is a function. *)
Definition resize (run : N → handler → sys → sys) (w : N) (d : sys) : sys :=
  match attr (scr d) w "onResize" with JFun f => run w f d | _ => d end.

(** The user picks item [i] of a list: ScriptUI sets its [selection]. *)
Definition pick (w : N) (i : nat) (s : script) : script := set_attr w "selection" (JNum (Z.of_nat i)) s.

(** The user clicks a check box: its [value] flips. *)
Definition toggle (w : N) (s : script) : script :=
  set_attr w "value" (JBool (negb (truthy (attr s w "value")))) s.

(** The events of a run: the host dispatches a click or a resize; the
    user picks an item of a list, clicks a check box, or acts on After
    Effects.  ScriptUI offers only the items a list has and only a check
    box to tick; any other pick or tick does nothing. *)
Inductive event : Type :=
| EClick (b : N)
| EResize (w : N)
| EPick (w : N) (i : nat)
| ETick (w : N)
| ESelect (it : option item)
| EEdit (p : N) (v : value).

Definition pick_ok (s : script) (w : N) (i : nat) : bool :=
  bool_decide (type_of s w = Some "dropdownlist") &&
  match attr s w "items" with JStrs l => (i <? length l)%nat | _ => false end.

Definition ui_event (run : N → handler → sys → sys) (e : event) (d : sys) : sys :=
  match e with
  | EClick b => click run b d
  | EResize w => resize run w d
  | EPick w i => if pick_ok (scr d) w i then mkSys (pick w i (scr d)) (hst d) else d
  | ETick w => if bool_decide (type_of (scr d) w = Some "checkbox") then mkSys (toggle w (scr d)) (hst d) else d
  | ESelect it => mkSys (scr d) (set_active it (hst d))
  | EEdit p v => mkSys (scr d) (res_state (setValue p v (hst d)))
  end.

Fixpoint run_events (run : N → handler → sys → sys) (es : list event) (d : sys) : sys :=
  match es with
  | [] => d
  | e :: es' => run_events run es' (ui_event run e d)
  end.

(** ** What the user did, in [Panel]'s terms *)

Inductive button : Type := BDoIt | BUpdate | BReset | BAbout | BNone.

#[export] Instance button_eq_dec : EqDecision button.
Proof. solve_decision. Defined.

(** The button a label names. *)
Definition button_of_text (t : jsval) : button :=
  if bool_decide (t = JStr "Do It") then BDoIt
  else if bool_decide (t = JStr "Update Anchor") then BUpdate
  else if bool_decide (t = JStr "Reset Anchor") then BReset
  else if bool_decide (t = JStr "About") then BAbout
  else BNone.

(** The button a closure belongs to. *)
Definition button_of_handler (f : handler) : button :=
  match f with
  | HDoIt _ _ | HDoIt19 _ => BDoIt
  | HUpdate => BUpdate
  | HReset => BReset
  | HAbout => BAbout
  | HResize => BNone
  end.

Inductive act : Type :=
| APress (b : button)
| APick (i : nat)
| ATick
| ASelect (it : option item)
| AEdit (p : N) (v : value)
| ANone.

(** An action on [Panel]'s state, as [Panel.session_step] takes it. *)
Definition panel_act (P : panel) (a : act) (x : ui * host) : ui * host :=
  match a with
  | APress BDoIt => (on_doit_ui P x.1, res_state (on_doit P x.1 x.2))
  | APress BUpdate => (x.1, res_state (on_update P x.2))
  | APress BReset => (x.1, res_state (on_reset P x.2))
  | APress BAbout => (x.1, res_state (on_about P x.2))
  | APress BNone | ANone => x
  | APick i => (mkUI (Some i) (chkDebug_value x.1) (gDebug x.1), x.2)
  | ATick => (mkUI (ddPreset_selection x.1) (negb (chkDebug_value x.1)) (gDebug x.1), x.2)
  | ASelect it => (x.1, set_active it x.2)
  | AEdit p v => (x.1, res_state (setValue p v x.2))
  end.

Definition panel_run (P : panel) (acts : list act) (x : ui * host) : ui * host :=
  fold_left (λ x a, panel_act P a x) acts x.

(** The actions [Panel.session_step] allows. *)
Definition act_valid (P : panel) (a : act) : Prop :=
  match a with
  | APick i => (i < length preset_items)%nat
  | ATick => has_debug P = true
  | _ => True
  end.

(** The action of an event: for a click, the button named by the label
    of the widget clicked. *)
Definition label_of (s : script) (e : event) : act :=
  match e with
  | EClick b => match attr s b "onClick" with JFun _ => APress (button_of_text (attr s b "text")) | _ => ANone end
  | EResize _ => ANone
  | EPick w i => if pick_ok s w i then APick i else ANone
  | ETick w => if bool_decide (type_of s w = Some "checkbox") then ATick else ANone
  | ESelect it => ASelect it
  | EEdit p v => AEdit p v
  end.

Fixpoint labels (run : N → handler → sys → sys) (es : list event) (d : sys) : list act :=
  match es with
  | [] => []
  | e :: es' => label_of (scr d) e :: labels run es' (ui_event run e d)
  end.

(** ** Reading the tree *)

(** The widgets under [k], [k] first, depth first in creation order. *)
Fixpoint descendants (fuel : nat) (s : script) (k : N) : list N :=
  match fuel with
  | O => []
  | S f => k :: from_option (λ w, mjoin (map (descendants f s) (w_children w))) [] (widgets s !! k)
  end.

(** The widgets of type [ty] under [root], in the order they appear. *)
Definition of_type (s : script) (root : N) (ty : string) : list N :=
  filter (λ k, type_of s k = Some ty) (descendants (N.to_nat (next_w s)) s root).

(** The buttons under [root]: their labels and what a click runs. *)
Definition wiring (s : script) (root : N) : list (jsval * jsval) :=
  map (λ k, (attr s k "text", attr s k "onClick")) (of_type s root "button").

(** ** The panel's invariant and its abstraction *)

(** An event property holds one of [fs], or no function. *)
Definition handler_in (fs : list handler) (v : option jsval) : bool :=
  match v with Some (JFun f) => bool_decide (f ∈ fs) | _ => true end.

(** A click runs one of the version's four closures, on the button its
    label names. *)
Definition click_ok (doit : handler) (x : widget) : bool :=
  match w_attrs x !! "onClick" with
  | Some (JFun f) =>
      bool_decide (f ∈ [doit; HUpdate; HReset; HAbout]) &&
      bool_decide (button_of_text (default JUndef (w_attrs x !! "text")) = button_of_handler f)
  | _ => true
  end.

(** A widget of a panel whose list is [dd], whose check box, if any, is
    [chk], and whose Do It closure is [doit]. *)
Definition widget_ok (dd : N) (chk : option N) (doit : handler) (w : N) (x : widget) : bool :=
  implb (bool_decide (w_type x = "dropdownlist")) (bool_decide (w = dd)) &&
  implb (bool_decide (w_type x = "checkbox")) (bool_decide (Some w = chk)) &&
  click_ok doit x && handler_in [HResize] (w_attrs x !! "onResize").

Definition panel_inv (dd : N) (chk : option N) (doit : handler) (s : script) : Prop :=
  map_Forall (λ w x, widget_ok dd chk doit w x = true) (widgets s) ∧
  type_of s dd = Some "dropdownlist" ∧ attr s dd "items" = JStrs preset_items ∧
  from_option (λ c, type_of s c = Some "checkbox") True chk.

Definition inv_v20 (dd chk : N) : script → Prop := panel_inv dd (Some chk) (HDoIt dd chk).
Definition inv_v19 (dd : N) : script → Prop := panel_inv dd None (HDoIt19 dd).

(** The panel's state as [Panel] sees it: the list's selection, the
    check box's value and the global [gDebug], and the host store. *)
Definition abs_v20 (dd chk : N) (d : sys) : ui * host :=
  (mkUI (selected_index (scr d) dd) (truthy (attr (scr d) chk "value")) (gDebug_g (scr d)), hst d).

Definition abs_v19 (dd : N) (d : sys) : ui * host :=
  (mkUI (selected_index (scr d) dd) false false, hst d).

(** ** Lemmas on the widget store *)

Lemma attr_set_attr_ne k a v s w b : k ≠ w ∨ a ≠ b → attr (set_attr k a v s) w b = attr s w b.
Proof.
  intros Hne. unfold attr, set_attr. simpl. destruct (decide (k = w)) as [->|Hk].
  - rewrite lookup_alter_eq. destruct (widgets s !! w); simpl; [|done].
    destruct Hne as [|Hab]; [done|]. by rewrite lookup_insert_ne.
  - by rewrite lookup_alter_ne.
Qed.

Lemma attr_set_attr_eq k a v s : is_Some (widgets s !! k) → attr (set_attr k a v s) k a = v.
Proof.
  intros [x Hx]. unfold attr, set_attr. simpl. rewrite lookup_alter_eq, Hx. simpl.
  by rewrite lookup_insert_eq.
Qed.

Lemma type_of_set_attr k a v s w : type_of (set_attr k a v s) w = type_of s w.
Proof.
  unfold type_of, set_attr. simpl. destruct (decide (k = w)) as [->|Hk].
  - rewrite lookup_alter_eq. by destruct (widgets s !! w).
  - by rewrite lookup_alter_ne.
Qed.

Lemma attr_JFun s w a f :
  attr s w a = JFun f → ∃ x, widgets s !! w = Some x ∧ w_attrs x !! a = Some (JFun f).
Proof.
  unfold attr. destruct (widgets s !! w) as [x|]; simpl; [|done].
  destruct (w_attrs x !! a) as [v|] eqn:E; simpl; [intros ->; by exists x|done].
Qed.

Lemma type_of_Some s w ty : type_of s w = Some ty → ∃ x, widgets s !! w = Some x ∧ w_type x = ty.
Proof. unfold type_of. destruct (widgets s !! w) as [x|]; simpl; [intros [= <-]; by exists x|done]. Qed.


Lemma w_call_same k m s :
  widgets (res_state (w_call k m s)) = widgets s ∧ gDebug_g (res_state (w_call k m s)) = gDebug_g s.
Proof. unfold w_call. st_simpl. by destruct (widgets s !! k). Qed.

Lemma selected_index_set_attr k a v s dd :
  k ≠ dd → selected_index (set_attr k a v s) dd = selected_index s dd.
Proof. intros Hk. unfold selected_index. by rewrite !attr_set_attr_ne by (left; done). Qed.

Lemma pick_selected w i l s :
  is_Some (widgets s !! w) → attr s w "items" = JStrs l → (i < length l)%nat →
  selected_index (pick w i s) w = Some i.
Proof.
  intros Hw Hl Hi. unfold selected_index, pick.
  rewrite attr_set_attr_eq, attr_set_attr_ne, Hl by (done || by right).
  rewrite Nat2Z.id. replace (0 <=? Z.of_nat i)%Z with true by lia.
  by rewrite (proj2 (Nat.ltb_lt _ _) Hi).
Qed.

Lemma pick_ok_true s w i :
  pick_ok s w i = true → ∃ l, type_of s w = Some "dropdownlist" ∧ attr s w "items" = JStrs l ∧ (i < length l)%nat.
Proof.
  unfold pick_ok. intros [Ht Hl]%andb_true_iff. apply bool_decide_eq_true_1 in Ht.
  destruct (attr s w "items") as [| | | |l| |]; try done. apply Nat.ltb_lt in Hl. by exists l.
Qed.

(** The Do It closures read the list's text as [Panel.selection_text]
    does. *)
Lemma selected_text_ui s dd c g :
  attr s dd "items" = JStrs preset_items → selected_text s dd = selection_text (mkUI (selected_index s dd) c g).
Proof. intros Hi. unfold selected_text. by rewrite Hi. Qed.

Lemma type_of_is_Some s w ty : type_of s w = Some ty → is_Some (widgets s !! w).
Proof. intros Ht. destruct (type_of_Some s w ty Ht) as (x & Hx & _). by exists x. Qed.

(** Every allowed action is a step of [Panel]'s sessions, or none. *)
Lemma panel_act_session P a x : act_valid P a → panel_act P a x = x ∨ session_step P x (panel_act P a x).
Proof.
  destruct x as [u h]. intros Hv.
  destruct a as [[]| | | | |]; cbn [panel_act fst snd]; try (by left); right; by constructor.
Qed.

Lemma panel_run_session P acts x : Forall (act_valid P) acts → rtc (session_step P) x (panel_run P acts x).
Proof.
  revert x. induction acts as [|a acts IH]; intros x Hv; [apply rtc_refl|].
  apply Forall_cons in Hv as [Ha Hv]. unfold panel_run. cbn [fold_left]. fold (panel_run P acts (panel_act P a x)).
  destruct (panel_act_session P a x Ha) as [->|Hs]; [by apply IH|]. eapply rtc_l; [exact Hs|by apply IH].
Qed.

Section panel_inv.
Context (dd : N) (chk : option N) (doit : handler).

Lemma widget_ok_spec w x :
  widget_ok dd chk doit w x = true ↔
  (w_type x = "dropdownlist" → w = dd) ∧ (w_type x = "checkbox" → Some w = chk) ∧
  click_ok doit x = true ∧ handler_in [HResize] (w_attrs x !! "onResize") = true.
Proof. unfold widget_ok. rewrite !andb_true_iff, !implb_true_iff, !bool_decide_eq_true. tauto. Qed.

Lemma panel_inv_widgets s s' : widgets s' = widgets s → panel_inv dd chk doit s → panel_inv dd chk doit s'.
Proof.
  intros E (Hf & Ht & Hi & Hc). unfold panel_inv, type_of, attr in *. rewrite E.
  split_and!; try done; destruct chk; simpl in *; by rewrite ?E.
Qed.

(** Writing a property other than the items, the label and the event
    properties keeps the invariant. *)
Lemma panel_inv_set_attr k a v s :
  a ≠ "onClick" → a ≠ "onResize" → a ≠ "items" → a ≠ "text" → panel_inv dd chk doit s →
  panel_inv dd chk doit (set_attr k a v s).
Proof.
  intros Ho Hr Hit Htx (Hf & Ht & Hi & Hc). split_and!.
  - intros w x. unfold set_attr. simpl. destruct (decide (k = w)) as [->|Hk].
    + rewrite lookup_alter_eq. destruct (widgets s !! w) as [y|] eqn:Hy; simpl; [|done].
      intros [= <-]. pose proof (Hf w y Hy) as Hw. unfold widget_ok, click_ok in *. simpl.
      by rewrite !lookup_insert_ne by done.
    + rewrite lookup_alter_ne by done. apply Hf.
  - by rewrite type_of_set_attr.
  - by rewrite attr_set_attr_ne by (right; done).
  - destruct chk; simpl in *; [by rewrite type_of_set_attr|done].
Qed.

Lemma panel_inv_onClick s w f :
  panel_inv dd chk doit s → attr s w "onClick" = JFun f →
  f ∈ [doit; HUpdate; HReset; HAbout] ∧ button_of_text (attr s w "text") = button_of_handler f.
Proof.
  intros (Hf & _) Ha. destruct (attr_JFun s w _ f Ha) as (x & Hx & Hv).
  destruct (proj1 (widget_ok_spec w x) (Hf w x Hx)) as (_ & _ & Hc & _).
  unfold click_ok in Hc. rewrite Hv in Hc. apply andb_true_iff in Hc as [H1 H2].
  unfold attr. rewrite Hx. simpl. split; [exact (bool_decide_eq_true_1 _ H1)|exact (bool_decide_eq_true_1 _ H2)].
Qed.

Lemma panel_inv_onResize s w f :
  panel_inv dd chk doit s → attr s w "onResize" = JFun f → f = HResize.
Proof.
  intros (Hf & _) Ha. destruct (attr_JFun s w _ f Ha) as (x & Hx & Hv).
  destruct (proj1 (widget_ok_spec w x) (Hf w x Hx)) as (_ & _ & _ & Hr).
  rewrite Hv in Hr. apply bool_decide_eq_true_1 in Hr. by apply list_elem_of_singleton.
Qed.

Lemma panel_inv_type s w ty :
  panel_inv dd chk doit s → type_of s w = Some ty →
  (ty = "dropdownlist" → w = dd) ∧ (ty = "checkbox" → Some w = chk).
Proof.
  intros (Hf & _) Ht. destruct (type_of_Some s w ty Ht) as (x & Hx & <-).
  destruct (proj1 (widget_ok_spec w x) (Hf w x Hx)) as (? & ? & _). done.
Qed.

(** A resize only records [layout.resize]: the widgets and [gDebug] stay. *)
Lemma resize_same run s w d :
  panel_inv dd chk doit (scr d) →
  (∀ d', run w HResize d' = mkSys (res_state (w_call w "layout.resize" (scr d'))) (hst d')) →
  s = scr (resize run w d) →
  widgets s = widgets (scr d) ∧ gDebug_g s = gDebug_g (scr d) ∧ hst (resize run w d) = hst d.
Proof.
  intros Hi Hrun ->. unfold resize. destruct (attr (scr d) w "onResize") as [| | | | | |f] eqn:E; try done.
  rewrite (panel_inv_onResize _ w f Hi E), Hrun. simpl. by destruct (w_call_same w "layout.resize" (scr d)) as [-> ->].
Qed.
End panel_inv.

Ltac handler_cases Hf :=
  repeat (apply elem_of_cons in Hf as [->|Hf]); [..|by apply not_elem_of_nil in Hf].

(** A run of events: the invariant holds all along, the state is the
    abstract run of the events' actions, and each of them is allowed. *)
Section runs.
Variables (run : N → handler → sys → sys) (P : panel) (I : script → Prop) (abs : sys → ui * host).
Hypothesis Hev : ∀ e d, I (scr d) →
  I (scr (ui_event run e d)) ∧ abs (ui_event run e d) = panel_act P (label_of (scr d) e) (abs d) ∧
  act_valid P (label_of (scr d) e).

Lemma run_events_sim es d :
  I (scr d) →
  I (scr (run_events run es d)) ∧ abs (run_events run es d) = panel_run P (labels run es d) (abs d) ∧
  Forall (act_valid P) (labels run es d).
Proof.
  revert d. induction es as [|e es IH]; intros d Hi; [done|].
  destruct (Hev e d Hi) as (Hi' & Ea & Hv). destruct (IH _ Hi') as (? & Er & Hvs).
  split_and!; [done| |by constructor]. cbn [run_events labels]. by rewrite Er, Ea.
Qed.
End runs.

Section sim_v20.
Context `{Renderer} (dd chk : N).

Lemma click_sim_v20 b d :
  inv_v20 dd chk (scr d) →
  inv_v20 dd chk (scr (click run_v20 b d)) ∧
  abs_v20 dd chk (click run_v20 b d) = panel_act panel_v20 (label_of (scr d) (EClick b)) (abs_v20 dd chk d).
Proof.
  intros Hi. unfold click, label_of. destruct (attr (scr d) b "onClick") as [| | | | | |f] eqn:E; try done.
  destruct (panel_inv_onClick _ _ _ _ b f Hi E) as [Hf ->]. pose proof Hi as (_ & _ & Hit & _).
  handler_cases Hf; cbn [run_v20 button_of_handler];
    (split; [apply (panel_inv_widgets _ _ _ (scr d)); done|]); try done.
  unfold abs_v20, panel_act. cbn. unfold doIt_ui, btnDoIt_onClick. cbn.
  by rewrite negb_involutive, (selected_text_ui _ _ (truthy (attr (scr d) chk "value")) (gDebug_g (scr d)) Hit).
Qed.

Lemma event_sim_v20 e d :
  inv_v20 dd chk (scr d) →
  inv_v20 dd chk (scr (ui_event run_v20 e d)) ∧
  abs_v20 dd chk (ui_event run_v20 e d) = panel_act panel_v20 (label_of (scr d) e) (abs_v20 dd chk d) ∧
  act_valid panel_v20 (label_of (scr d) e).
Proof.
  intros Hi. pose proof Hi as (_ & Hdd & Hit & Hchk). simpl in Hchk.
  assert (Hne : chk ≠ dd) by (intros ->; congruence).
  destruct e as [b|w|w i|w|it|p v]; cbn [ui_event].
  - destruct (click_sim_v20 b d Hi) as [? ?]. split_and!; try done.
    unfold label_of. by destruct (attr (scr d) b "onClick").
  - destruct (resize_same _ _ _ run_v20 _ w d Hi (λ _, eq_refl) eq_refl) as (Ew & Eg & Eh).
    split_and!; [by apply (panel_inv_widgets _ _ _ (scr d))| |done].
    unfold abs_v20, selected_index, attr. cbn [label_of panel_act]. by rewrite Ew, Eg, Eh.
  - cbn [label_of]. destruct (pick_ok (scr d) w i) eqn:Ep; [|done].
    destruct (pick_ok_true _ _ _ Ep) as (l & Ht & Hl & Hlt).
    destruct (panel_inv_type _ _ _ _ w _ Hi Ht) as [Hw _]. specialize (Hw eq_refl). subst w.
    rewrite Hit in Hl. injection Hl as <-.
    split_and!; [by apply panel_inv_set_attr| |done].
    unfold abs_v20. cbn [scr hst panel_act fst snd].
    rewrite (pick_selected dd i preset_items) by (eauto using type_of_is_Some).
    unfold pick. by rewrite attr_set_attr_ne by (left; done).
  - cbn [label_of]. case_bool_decide as Ht; [|done].
    destruct (panel_inv_type _ _ _ _ w _ Hi Ht) as [_ Hw]. specialize (Hw eq_refl). injection Hw as ->.
    split_and!; [by apply panel_inv_set_attr| |done].
    unfold abs_v20. cbn [scr hst panel_act fst snd]. unfold toggle.
    by rewrite selected_index_set_attr, attr_set_attr_eq by (eauto using type_of_is_Some).
  - done.
  - done.
Qed.
End sim_v20.

Section sim_v19.
Context `{Renderer} (dd : N).

Lemma click_sim_v19 b d :
  inv_v19 dd (scr d) →
  inv_v19 dd (scr (click run_v19 b d)) ∧
  abs_v19 dd (click run_v19 b d) = panel_act panel_v19 (label_of (scr d) (EClick b)) (abs_v19 dd d).
Proof.
  intros Hi. unfold click, label_of. destruct (attr (scr d) b "onClick") as [| | | | | |f] eqn:E; try done.
  destruct (panel_inv_onClick _ _ _ _ b f Hi E) as [Hf ->]. pose proof Hi as (_ & _ & Hit & _).
  handler_cases Hf; cbn [run_v19 button_of_handler]; (split; [done|]); try done.
  unfold abs_v19, panel_act. cbn. unfold btnDoIt_onClick_v19. by rewrite (selected_text_ui _ _ false false Hit).
Qed.

Lemma event_sim_v19 e d :
  inv_v19 dd (scr d) →
  inv_v19 dd (scr (ui_event run_v19 e d)) ∧
  abs_v19 dd (ui_event run_v19 e d) = panel_act panel_v19 (label_of (scr d) e) (abs_v19 dd d) ∧
  act_valid panel_v19 (label_of (scr d) e).
Proof.
  intros Hi. pose proof Hi as (_ & Hdd & Hit & _).
  destruct e as [b|w|w i|w|it|p v]; cbn [ui_event].
  - destruct (click_sim_v19 b d Hi) as [? ?]. split_and!; try done.
    unfold label_of. by destruct (attr (scr d) b "onClick").
  - destruct (resize_same _ _ _ run_v19 _ w d Hi (λ _, eq_refl) eq_refl) as (Ew & _ & Eh).
    split_and!; [by apply (panel_inv_widgets _ _ _ (scr d))| |done].
    unfold abs_v19, selected_index, attr. cbn [label_of panel_act]. by rewrite Ew, Eh.
  - cbn [label_of]. destruct (pick_ok (scr d) w i) eqn:Ep; [|done].
    destruct (pick_ok_true _ _ _ Ep) as (l & Ht & Hl & Hlt).
    destruct (panel_inv_type _ _ _ _ w _ Hi Ht) as [Hw _]. specialize (Hw eq_refl). subst w.
    rewrite Hit in Hl. injection Hl as <-.
    split_and!; [by apply panel_inv_set_attr| |done].
    unfold abs_v19. cbn [scr hst panel_act fst snd].
    by rewrite (pick_selected dd i preset_items) by (eauto using type_of_is_Some).
  - cbn [label_of]. case_bool_decide as Ht; [|done].
    by destruct (panel_inv_type _ _ _ _ w _ Hi Ht) as [_ Hw]; specialize (Hw eq_refl).
  - done.
  - done.
Qed.
End sim_v19.

(** ** The panel the scripts build *)

(** Both branches of the bootstrap number the widgets from 0 in the order
    of creation: the list is widget 4, v2.0's check box widget 6. *)
Lemma script_v20_inv t : inv_v20 4 6 (res_state (script_v20 t (host_widgets t))).
Proof.
  destruct t; (split_and!; [apply (bool_decide_unpack _); vm_compute; exact I|vm_compute; reflexivity..]).
Qed.

Lemma script_v20_abs t h0 : abs_v20 4 6 (mkSys (res_state (script_v20 t (host_widgets t))) h0) = (buildUI_v20, h0).
Proof. destruct t; vm_compute; reflexivity. Qed.

Lemma bootstrap_v19_inv t : inv_v19 4 (res_state (bootstrap_v19 t (host_widgets t))).
Proof.
  destruct t; (split_and!; [apply (bool_decide_unpack _); vm_compute; exact I|vm_compute; reflexivity..]).
Qed.

Lemma bootstrap_v19_abs t h0 : abs_v19 4 (mkSys (res_state (bootstrap_v19 t (host_widgets t))) h0) = (buildUI_v19, h0).
Proof. destruct t; vm_compute; reflexivity. Qed.



(** C28. The v2.0 panel refines [Panel]'s model of it, button by button:
    for any renderer, either branch of the bootstrap, any host store and
    any sequence of host events on the widgets the script builds (clicks
    and resizes on any widget, picks in a list, check box clicks,
    selections and hand edits in After Effects), the state the events
    leave, read through the abstraction (the list's selection, the check
    box's value, [gDebug], the host store), is the state [Panel]'s
    actions reach from [buildUI_v20] when each click is taken as a press
    of the button its label names: "Do It" runs the Do It of [panel_v20],
    and so on.  Every one of those actions is a step of
    [Panel.session_step], so the run is a session of [panel_v20]. *)
Theorem script_v20_refines_panel :
  ∃ dd chk, ∀ (R : Renderer) t h0 es,
    let d0 := mkSys (res_state (script_v20 t (host_widgets t))) h0 in
    abs_v20 dd chk (run_events run_v20 es d0) = panel_run panel_v20 (labels run_v20 es d0) (buildUI_v20, h0) ∧
    rtc (session_step panel_v20) (buildUI_v20, h0) (abs_v20 dd chk (run_events run_v20 es d0)).
Proof.
  exists 4%N, 6%N. intros R t h0 es d0.
  destruct (run_events_sim run_v20 panel_v20 (inv_v20 4 6) (abs_v20 4 6) (event_sim_v20 4 6) es d0
              (script_v20_inv t)) as (_ & E & Hv).
  unfold d0 in E |- *. rewrite (script_v20_abs t h0) in E. rewrite E. split; [done|by apply panel_run_session].
Qed.

(** C29. The same for v1.9: the events on the widgets the v1.9 script
    builds leave the state [panel_v19]'s actions reach from
    [buildUI_v19], each click taken as a press of the button its label
    names (the panel has no check box, so no tick ever happens), and the
    run is a session of [panel_v19]. *)
Theorem script_v19_refines_panel :
  ∃ dd, ∀ (R : Renderer) t h0 es,
    let d0 := mkSys (res_state (bootstrap_v19 t (host_widgets t))) h0 in
    abs_v19 dd (run_events run_v19 es d0) = panel_run panel_v19 (labels run_v19 es d0) (buildUI_v19, h0) ∧
    rtc (session_step panel_v19) (buildUI_v19, h0) (abs_v19 dd (run_events run_v19 es d0)).
Proof.
  exists 4%N. intros R t h0 es d0.
  destruct (run_events_sim run_v19 panel_v19 (inv_v19 4) (abs_v19 4) (event_sim_v19 4) es d0
              (bootstrap_v19_inv t)) as (_ & E & Hv).
  unfold d0 in E |- *. rewrite (bootstrap_v19_abs t h0) in E. rewrite E. split; [done|by apply panel_run_session].
Qed.
